(* ===== verification/_CoqProject ===== *)
-Q . S2P
Prelude.v
Crates.v
Reference.v
Derive.v
Enums.v
Transport.v
ControlModels.v
ControlPayload.v
SetEid.v
GetEid.v
AllocateEids.v
GetRoutingTable.v
Errors.v
Smbus.v
Tests.v
Network.v
SimpleNetwork.v
SimpleNetworkTasks.v
VirtualNetwork.v
Channels.v
ReceivePath.v
SimpleNode.v
VirtualNode.v
BusOwner.v
Discovery.v
Offers.v
Interop.v
EventLoop.v
ExampleNetwork.v
BusOwnerSystem.v
NodeLink.v
NodeProgress.v
SystemRefinement.v
SystemSafety.v
SystemSequential.v
SystemLiveness.v
Link.v
SystemRuns.v
NodeRuns.v
