(* ===== verification/Prelude.v ===== *)
(** * mctp-emu: an MCTP endpoint emulator, modelled and verified

    mctp-emu emulates endpoints that speak MCTP, the management component
    transport protocol, over an SMBus that is itself emulated over UDP.  This
    library models its protocol code, its networks and its bus owner, and
    proves what makes them correct.

    ** The parts of the program

    - [mctp-base-lib] holds the messages: the four-byte transport header, the
      three-byte control header, the bodies of the control commands, and the
      control payload that puts a message under a transport header.
    - [mctp-emu-derive] holds the procedural macros that give every message
      its conversions from and to bytes.
    - [src/phys] is the SMBus binding: it frames a packet and hands it to a
      UDP socket, and a task passes the datagrams it receives to the network.
    - [src/network] holds two networks over bindings.  A client binds a socket
      and awaits [sendto]; the simple network registers a flow for the request,
      and its callback handler completes the flow a received packet answers.
    - [examples/basic_bus_owner_loop.rs] is a bus owner of three tasks: one
      passes datagrams on, an event loop answers requests and completes the
      oneshots of the requests it sent, and a loop discovers endpoints and
      gives them EIDs.  They share the endpoint context, a bounded channel of
      commands, and a oneshot per request.
    - [examples/example_simple_network.rs] sends one request over the simple
      network.

    ** The files

    - [Prelude]: byte strings, outcomes (a value, an [Err] or a panic), slices,
      arithmetic at a width, what every run of a step relation meets
      ([eventually]), hints and tactics.
    - [Crates]: what the code uses of the crates it is built from, as classes of
      operations with their laws: bit fields (c2rust_bitfields), enums from
      numbers (num_enum), bincode and the SMBus error code.  [Reference] gives
      each a concrete instance that obeys the laws; witnesses run on it.
    - [Derive] (mctp-emu-derive/src/lib.rs, base/errors.rs): each macro as a
      definition generic in the type.  [Serde] is the interface a message type
      offers to the macros, [SerdeLaws] what it promises; every message proves
      its instance, and the theorems on the macros are proved against it.
    - [Enums] (control/enums.rs), [Transport] (base/models.rs),
      [ControlModels] (control/models.rs), [ControlPayload] (control.rs),
      [SetEid], [GetEid], [AllocateEids], [GetRoutingTable] (the files of
      control/ of those names): a Module per type, a definition per method.
      [ControlMessage] is the interface between message types and payloads.
    - [Errors] (lib.rs and the error.rs files): the error enums.
    - [Smbus] (src/phys): the header, the binding and the poll loop.  The trait
      [NetworkBinding] is a class; the networks are written against it.
    - [Network] (network/types.rs, endpoint/types.rs): addresses, clients,
      routes, flow tags, and the search for the flow a packet answers.
    - [SimpleNetwork] and [VirtualNetwork] (network/*.rs): the operations of the
      networks.  [SimpleNetworkTasks] runs those of the simple network
      interleaved, as a step relation; the virtual network's is in its file.
    - [ReceivePath] (phys/smbus_netdev.rs, the handlers of network/*.rs): the
      poll tasks, the bounded channel they fill and the callback handler that
      empties it, for any network that is a [Node]; [SimpleNode] and
      [VirtualNode] make the networks nodes.
    - [NodeLink] puts a node of the simple network and an endpoint that runs the
      event loop at the two ends of the wire, and [NodeProgress] follows a call
      there in every order of the tasks; [NodeRuns] has concrete runs.
    - [BusOwner], [Discovery], [EventLoop] (examples/basic_bus_owner_loop.rs):
      the endpoint context with its request handler, the discovery loop, and
      the handling of commands, each on its own.  [Offers] is a logic of the
      EIDs a program offers, [Interop] the discovery loop against endpoints.
    - [Channels] is the interface of tokio's bounded channel, with its laws and
      a list that obeys them; the receive paths use it, and [BusOwnerSystem] puts
      the three tasks of [main] together over it, as a step relation.
      [SystemRefinement] finds a run of the discovery loop alone behind each of its
      runs; [SystemSequential] relates it to a sequential bus owner; [SystemSafety],
      [SystemLiveness] and [Link], which puts an endpoint at the other end of the
      wire, have its theorems, and [SystemRuns] concrete runs.
    - [ExampleNetwork]: the trait [MctpNetwork] as a class with laws, the two
      networks as its instances, and the example program as its client.
    - [Tests]: the repository's unit tests, run on the models.

    ** How state and effects are modelled

    A method takes the state and returns it with its result.  A Rust integer is
    a [Z]; [arith] checks or wraps an operation at its width, by the build's
    overflow checks, which are an argument.  Atomics wrap around.  Async
    functions are cut where they wait: [sendto] of the simple network is
    [sendto_begin], [sendto_transmit] and [sendto_finish], and the [step]
    relation of [SimpleNetworkTasks] runs any number of calls against socket
    calls, added bindings, dropped futures and received packets.  The guard of a
    lock is state where it lives across an await: [holder] is the call of
    [sendto] that has the lock of the binding, from its transmission to its end.
    A oneshot is an identifier, and sending on it fails once the receiving future
    is gone.  Bindings are shared by handle and live in a store.
    [add_physical_binding] of the virtual network is three steps.  A receive path
    takes a step for a datagram received, for a [send] and for a turn of the
    handler, and any step of its network in between; the histories it keeps serve
    the statements, and no step reads them.  The discovery loop is a program of
    a resumption monad ([Discovery.Bus.prog]), which stops at every access to the shared context
    and every await.  [Bus.run] runs it alone: an environment, indexed by the
    number of stops, answers the awaits and may change the context before each.
    [BusOwnerSystem.step] runs it as a task: a step is one stop of the discovery
    loop, one command of the event loop, or one datagram received; a datagram
    sent is the end of the event loop's step, and nothing reads it back.  A task
    that panics does not stop the others, as in tokio.  A mutex poisons when a
    task panics under it.  Results of sockets are arguments.

    ** What is proved

    - Messages: round trips of any message through a packet, re-encoding of
      parsed packets, the wire bytes of each response with the accessors that
      read them back, the header of a response, and the status of a response.
    - Handler: [handle_request] refines a specification on bytes,
      [HandlerSpec.handle]: every reply, error and panic and the context after
      it, on every input; when it panics; what it can change.
    - Discovery: with overflow checks no EID is offered twice, in any run
      against any environment, by a logic of offers ([Offers.offers]); a round
      against an endpoint that runs [handle_request] completes; round after round
      the EIDs go up by one, modulo 256, to a panic at 255 with overflow checks and
      to EIDs that repeat without; a pool of one EID is never allocated.
    - Bus owner: with overflow checks, every interleaving of its tasks refines a
      sequential program without channel and oneshots ([Sequential]), which takes
      the datagrams received in their order: the same datagrams on the wire, the
      same context, the same result, and the tasks come to a stop only where it
      waits.  No EID is offered twice on the wire, by a simulation that collects
      what the loop met into an environment of [Bus.run].  At most one
      oneshot is outstanding; what ends the event loop; the form of every
      datagram; the tasks come to rest between inputs; a burst of 33 short
      datagrams deadlocks them in every run; and next to an endpoint that runs the
      event loop every interleaving completes the discovery and goes on, turn after
      turn.
    - Event loop: every oneshot is pending or completed once; a request between
      two loops comes back as its reply; two idle loops answer each other for
      ever; the bounds of the frame's byte count.
    - Simple network: an invariant by induction on reachability, and from it:
      a running [sendto] has its flow registered or its response waiting, not
      both; a result answers its request; the handler dies only after a sender
      did; a packet completes the first flow it answers; how a failed
      transmission kills the handler and every later call; and that one
      unanswered call blocks all others, by the lock of the binding.
    - Receive path: datagrams arrive at the handler in order, each once but for the
      empty ones, and all of them when the tasks come to rest; every result of [sendto] is one
      datagram of the wire, no two the same; a dead handler hangs the call that
      waits; the virtual network's handler never dies.
    - Simple network and endpoint: every order of the tasks' steps leads a call
      of [sendto] that is left alone to its return with what [handle_request]
      answers; its request is sent twice and answered twice, and the second
      reply can complete the next call.
    - Virtual network: ids of concurrent additions are distinct; an addition that
      nothing interrupts is found at its id exactly when no other is between its
      allocation and its push; which ids
      [get_binding] accepts; the routing table, which nothing fills.
    - SMBus: the frame, twice, and its reception; the poll loop.
    - The example on any network that keeps the class's laws, and its exchange
      with an endpoint on the simple network; the unit tests.

    ** Bounds and fuel

    [find_flow] is given one unit of fuel more than there are flows;
    [flow_index_list_find] shows that it then ends with the index sought.
    [turns] runs a given number of turns of a loop that has no exit but an
    error; its theorems hold for every number, and the task of [BusOwnerSystem]
    starts a turn whenever one is done, without a bound.  [volley] counts the
    packets exchanged, and its theorem holds for every count.  That the tasks
    come to rest, those of the bus owner and those of a receive path, is
    well-foundedness of their steps; [eventually] is inductive, and
    [eventually_measure] gives it from a measure that every step lowers.  The
    channels hold 32 messages, as in the code.  Everything else is structural.

    ** What is not modelled

    Printing, tracing and the hex dump; the type aliases of base/libc.rs;
    [mctp_tx_thread], which nothing calls; the channel of a [Client], in which
    nothing is put; a failure to print, which panics; [example_virtual_network.rs]
    and the tests of control.rs, which do not compile. *)
From stdpp Require Export base tactics option list numbers strings pretty gmap.
From Stdlib Require Export ZArith Lia.

Declare Scope mctp_scope.
Delimit Scope mctp_scope with mctp.
#[global] Open Scope Z_scope.

(** ** Machine integers and byte strings *)

(** A byte string ([Bytes], [BytesMut], [Vec<u8>], [&[u8]]). *)
Abbreviation bytes := (list Z).

(** [u_ n] is the range of an n-bit unsigned integer. *)
Definition uint (w : Z) (x : Z) : Prop := 0 <= x < 2 ^ w.
Abbreviation u8 := (uint 8).
Abbreviation u32 := (uint 32).
Abbreviation u64 := (uint 64).
Abbreviation is_bytes := (Forall (uint 8)).

(** [x as u8] *)
Definition as_u8 (x : Z) : Z := x mod 256.

(** [i32] addition of the atomics, which wrap around. *)
Definition wrap_i32 (x : Z) : Z := (x + 2 ^ 31) mod 2 ^ 32 - 2 ^ 31.

(** [bool.into()] at type [u8]. *)
Definition bool_to_u8 (b : bool) : Z := if b then 1 else 0.

(** [usize::to_string] *)
Definition usize_to_string (n : nat) : string := pretty (N.of_nat n).

(** ** Outcomes

    A Rust call returns a value, returns an [Err], or panics.  The type of the
    error is a parameter, so that a call that cannot return [Err] is written
    polymorphic in it. *)
Inductive panic :=
  | PanicUnwrap         (** [unwrap] of an [Err] or a [None] *)
  | PanicOverflow       (** arithmetic overflow with overflow checks on *)
  | PanicSlice          (** a range out of bounds *)
  | PanicTodo           (** [todo!()] *)
  | PanicPoisoned.      (** [lock().unwrap()] of a poisoned mutex *)

Inductive outcome (E A : Type) :=
  | Ok (a : A)
  | Err (e : E)
  | Panic (p : panic).
Arguments Ok {E A} a.
Arguments Err {E A} e.
Arguments Panic {E A} p.

#[global] Instance panic_eq_dec : EqDecision panic.
Proof. solve_decision. Defined.
#[global] Instance outcome_eq_dec `{EqDecision E, EqDecision A} : EqDecision (outcome E A).
Proof. solve_decision. Defined.

#[global] Instance outcome_ret {E} : MRet (outcome E) := fun A x => Ok x.
#[global] Instance outcome_bind {E} : MBind (outcome E) := fun A B f m =>
  match m with
  | Ok x => f x
  | Err e => Err e
  | Panic p => Panic p
  end.
#[global] Instance outcome_fmap {E} : FMap (outcome E) := fun A B f m =>
  match m with
  | Ok x => Ok (f x)
  | Err e => Err e
  | Panic p => Panic p
  end.

(** [Result::map_err] (and the conversion the [?] operator applies). *)
Definition map_err {E F A} (f : E -> F) (m : outcome E A) : outcome F A :=
  match m with
  | Ok x => Ok x
  | Err e => Err (f e)
  | Panic p => Panic p
  end.

(** [Result::unwrap] *)
Definition unwrap {E F A} (m : outcome E A) : outcome F A :=
  match m with
  | Ok x => Ok x
  | Err _ => Panic PanicUnwrap
  | Panic p => Panic p
  end.

(** The [Result] an [Option] is turned into by [ok_or]. *)
Definition ok_or {E A} (e : E) (o : option A) : outcome E A :=
  match o with
  | Some x => Ok x
  | None => Err e
  end.

Lemma bind_Ok {E A B} (f : A -> outcome E B) (m : outcome E A) y :
  m ≫= f = Ok y <-> exists x, m = Ok x /\ f x = Ok y.
Proof. destruct m; simpl; split; intros H; destruct_and?; try done; eauto.
  all: destruct H as (? & ? & ?); simplify_eq; done. Qed.

Lemma map_err_Ok {E F A} (f : E -> F) (m : outcome E A) y :
  map_err f m = Ok y <-> m = Ok y.
Proof. destruct m; simpl; split; congruence. Qed.

(** ** Slices *)

(** [bytes.slice(a..b)]: panics unless [a <= b <= len]. *)
Definition slice {E} (bs : bytes) (a b : nat) : outcome E bytes :=
  if decide (a ≤ b ≤ length bs)%nat then Ok (take (b - a) (drop a bs))
  else Panic PanicSlice.

(** [bytes.slice(a..)] *)
Definition slice_from {E} (bs : bytes) (a : nat) : outcome E bytes :=
  slice bs a (length bs).

Lemma slice_Ok {E} (bs : bytes) a b :
  (a ≤ b ≤ length bs)%nat -> slice (E:=E) bs a b = Ok (take (b - a) (drop a bs)).
Proof. intros H. unfold slice. by rewrite decide_True. Qed.

Lemma slice_from_Ok {E} (bs : bytes) a :
  (a ≤ length bs)%nat -> slice_from (E:=E) bs a = Ok (drop a bs).
Proof.
  intros H. unfold slice_from. rewrite slice_Ok by lia.
  by rewrite take_ge by (rewrite length_drop; lia).
Qed.

(** ** Overflow-checked arithmetic

    [checks] is the build's [overflow-checks] setting: the dev profile panics,
    the release profile wraps around. *)
Definition arith {E} (checks : bool) (w : Z) (x : Z) : outcome E Z :=
  if decide (0 <= x < 2 ^ w) then Ok x
  else if checks then Panic PanicOverflow
  else Ok (x mod 2 ^ w).

Lemma arith_Ok {E} checks w x : uint w x -> arith (E:=E) checks w x = Ok x.
Proof. intros H. unfold arith. by rewrite decide_True. Qed.

(** Signed 32-bit arithmetic. *)
Definition arith_i32 {E} (checks : bool) (x : Z) : outcome E Z :=
  if decide (- 2 ^ 31 <= x < 2 ^ 31) then Ok x
  else if checks then Panic PanicOverflow
  else Ok (wrap_i32 x).

(** ** Sums over lists *)
Lemma sum_list_with_insert {A} (f : A -> nat) l i x y :
  l !! i = Some x -> (sum_list_with f (<[i := y]> l) + f x = sum_list_with f l + f y)%nat.
Proof.
  intros Hi. rewrite insert_take_drop by (by eapply lookup_lt_Some).
  rewrite <- (take_drop_middle l i x Hi) at 3. rewrite !sum_list_with_app. simpl. lia.
Qed.

(** ** Runs that cannot be avoided *)
Section eventually.
Context {A : Type} (R : relation A).

(** Every run from [x] meets [P], and none stops before it does. *)
Inductive eventually (P : A -> Prop) (x : A) : Prop :=
  | eventually_now : P x -> eventually P x
  | eventually_next : (exists y, R x y) -> (forall y, R x y -> eventually P y) -> eventually P x.

(** A step that is the only one. *)
Definition only_step (x y : A) : Prop := R x y /\ forall z, R x z -> z = y.

Lemma only_steps x y : rtc only_step x y -> rtc R x y.
Proof. apply rtc_subrel. by intros ? ? [? _]. Qed.

Lemma only_steps_eventually P x y : rtc only_step x y -> P y -> eventually P x.
Proof.
  induction 1 as [|x y z [Hstep Honly] _ IH]; intros HP; [by constructor|].
  apply eventually_next; [by exists y|]. intros w ->%Honly. auto.
Qed.

Lemma eventually_bind P Q x :
  eventually P x -> (forall y, P y -> eventually Q y) -> eventually Q x.
Proof. intros He HPQ. induction He as [x Hx|x Hex _ IH]; [auto|by apply eventually_next]. Qed.

Lemma eventually_exists P x : eventually P x -> exists y, rtc R x y /\ P y.
Proof.
  induction 1 as [x Hx|x [y Hxy] _ IH]; [by exists x|].
  destruct (IH y Hxy) as (z & Hyz & Hz). exists z. split; [by eapply rtc_l|done].
Qed.

(** Progress of an invariant towards [P], by a measure. *)
Lemma eventually_measure (I : nat -> A -> Prop) P n x :
  (forall n x, I n x -> P x \/
     ((exists y, R x y) /\ forall y, R x y -> exists m, (m < n)%nat /\ I m y)) ->
  I n x -> eventually P x.
Proof.
  intros Hstep. revert x. induction n as [n IH] using lt_wf_ind. intros x Hx.
  destruct (Hstep n x Hx) as [HP|[Hex Hall]]; [by apply eventually_now|].
  apply eventually_next; [done|]. intros y Hy. destruct (Hall y Hy) as (m & Hm & HI). by apply (IH m).
Qed.

End eventually.

(** ** Hints and tactics *)
Create HintDb mctp.

Lemma uint_intro w x : 0 <= x < 2 ^ w -> uint w x.
Proof. done. Qed.

Lemma as_u8_range x : u8 (as_u8 x).
Proof. apply (Z.mod_pos_bound x 256). lia. Qed.
Lemma as_u8_small x : u8 x -> as_u8 x = x.
Proof. unfold as_u8, uint. intros. apply Z.mod_small. lia. Qed.
Lemma bool_to_u8_range b : u8 (bool_to_u8 b).
Proof. destruct b; unfold uint; simpl; lia. Qed.
Lemma is_bytes_nil : is_bytes [].
Proof. constructor. Qed.
Lemma is_bytes_cons x bs : u8 x -> is_bytes bs -> is_bytes (x :: bs).
Proof. by constructor. Qed.
Lemma is_bytes_app bs cs : is_bytes bs -> is_bytes cs -> is_bytes (bs ++ cs).
Proof. intros. by apply Forall_app. Qed.
Lemma is_bytes_take n bs : is_bytes bs -> is_bytes (take n bs).
Proof. apply Forall_take. Qed.
Lemma is_bytes_drop n bs : is_bytes bs -> is_bytes (drop n bs).
Proof. apply Forall_drop. Qed.

#[export] Hint Resolve as_u8_range bool_to_u8_range is_bytes_nil is_bytes_cons
  is_bytes_app is_bytes_take is_bytes_drop : mctp.
#[export] Hint Extern 1 (uint _ _) => (unfold uint; lia) : mctp.

(** Solve a numeric range goal on literals. *)
Ltac solve_range := repeat (apply is_bytes_cons || apply is_bytes_nil); unfold uint; lia.

(** A byte string, byte by byte. *)
Ltac solve_bytes :=
  repeat (apply is_bytes_cons; [first [assumption | unfold uint in *; lia]|]);
  first [apply is_bytes_nil | assumption].

(** Evaluate the closed powers of two of the goal. *)
Ltac compute_pow2 :=
  repeat match goal with |- context [2 ^ ?n] =>
    let v := eval vm_compute in (2 ^ n) in progress change (2 ^ n) with v end.

(** Equality of two lists of numbers, element by element. *)
Ltac list_lia :=
  repeat match goal with
  | |- Ok _ = Ok _ => apply (f_equal Ok)
  | |- _ :: _ = _ :: _ => apply (f_equal2 cons); [lia|]
  | |- [] = [] => reflexivity
  end.

(** Decompose a successful chain of binds. *)
Ltac inv_ok :=
  repeat match goal with
  | H : mbind _ _ = Ok _ |- _ => apply bind_Ok in H as (? & ? & ?)
  | H : map_err _ _ = Ok _ |- _ => apply map_err_Ok in H
  | H : Ok _ = Ok _ |- _ => simplify_eq H; clear H; intros
  | H : Err _ = Ok _ |- _ => discriminate H
  | H : Panic _ = Ok _ |- _ => discriminate H
  end; simplify_eq.
