(* ===== verification/Crates.v ===== *)
(** * Interfaces of the third-party crates

    The program calls code that is not part of the repository: the derive
    macros of [c2rust-bitfields] and [num_enum], the [bincode] serializer and
    the [smbus-pec] checksum.  Each is a class of operations the model's
    definitions take as an argument, and a class of laws: the documented
    behaviour the theorems rely on.  [Reference.v] has one concrete instance
    of each, on which the witnesses compute. *)
From S2P Require Import Prelude.

(** ** c2rust-bitfields

    [#[bitfield(name, ty, bits = "lo..=hi")]] generates a getter and a setter
    on a field of type [[u8; N]].  Bit [i] of the array is bit [i mod 8] of
    byte [i / 8]. *)
Class Bitfields := {
  get_field : bytes -> Z * Z -> Z;
  set_field : bytes -> Z * Z -> Z -> bytes;
}.

Definition bit (bs : bytes) (i : Z) : bool :=
  Z.testbit (nth (Z.to_nat (i / 8)) bs 0) (i mod 8).

(** A [[u8; n]] *)
Definition array_valid (n : nat) (bs : bytes) : Prop := length bs = n /\ is_bytes bs.

(** A range of at most eight bits inside the array. *)
Definition in_field (n : nat) (r : Z * Z) : Prop :=
  0 <= r.1 <= r.2 /\ r.2 < 8 * Z.of_nat n /\ r.2 - r.1 < 8.

Definition in_range (r : Z * Z) (i : Z) : bool := (r.1 <=? i) && (i <=? r.2).

Lemma array_valid_one bs : array_valid 1 bs -> exists b, bs = [b] /\ u8 b.
Proof.
  intros [Hl Hb]. destruct bs as [|b [|]]; simplify_eq/=. inversion Hb. eauto.
Qed.

Lemma array_valid_two bs : array_valid 2 bs -> exists b c, bs = [b; c] /\ u8 b /\ u8 c.
Proof.
  intros [Hl Hb]. destruct bs as [|b [|c [|]]]; simplify_eq/=.
  inversion Hb as [|? ? ? Hb']. inversion Hb'. eauto 6.
Qed.

Class BitfieldsLaws `{Bitfields} : Prop := {
  get_field_bit bs r i :
    is_bytes bs -> in_field (length bs) r -> 0 <= i ->
    Z.testbit (get_field bs r) i = (i <=? r.2 - r.1) && bit bs (r.1 + i);
  set_field_length bs r v :
    in_field (length bs) r -> length (set_field bs r v) = length bs;
  set_field_bytes bs r v :
    is_bytes bs -> in_field (length bs) r -> u8 v -> is_bytes (set_field bs r v);
  set_field_bit bs r v i :
    is_bytes bs -> in_field (length bs) r -> u8 v ->
    0 <= i < 8 * Z.of_nat (length bs) ->
    bit (set_field bs r v) i =
      if in_range r i then Z.testbit v (i - r.1) else bit bs i;
}.

(** ** num_enum

    [#[derive(FromPrimitive)]] on a [#[repr(u8)]] enum with a [#[default]]
    variant: the variant with that discriminant, and the default variant for
    every other number. *)
Class NumEnum := {
  from_primitive : forall {T : Set}, (T -> Z) -> list T -> T -> Z -> T;
}.

Class NumEnumLaws `{NumEnum} : Prop := {
  from_primitive_known {T : Set} (disc : T -> Z) (all : list T) dflt v :
    Inj (=) (=) disc -> v ∈ all -> from_primitive disc all dflt (disc v) = v;
  from_primitive_unknown {T : Set} (disc : T -> Z) (all : list T) dflt n :
    (forall v, v ∈ all -> disc v <> n) -> from_primitive disc all dflt n = dflt;
}.

(** ** bincode

    What serde's derived [Serialize] and [Deserialize] hand to the format: a
    tree in serde's data model (only the shapes the program's types have). *)
#[warnings="-register-all"]
Inductive ser_value :=
  | SU8 (n : Z)
  | STuple (vs : list ser_value)
  | SStruct (vs : list ser_value).

#[warnings="-register-all"]
Inductive ser_type :=
  | TU8
  | TTuple (n : nat) (t : ser_type)
  | TStruct (ts : list ser_type).

(** The value trees of a type. *)
Fixpoint has_type (t : ser_type) (v : ser_value) {struct t} : Prop :=
  match t, v with
  | TU8, SU8 n => u8 n
  | TTuple n t, STuple vs => length vs = n /\ Forall (has_type t) vs
  | TStruct ts, SStruct vs =>
      (fix go ts vs := match ts, vs with
       | [], [] => True
       | t :: ts, v :: vs => has_type t v /\ go ts vs
       | _, _ => False
       end) ts vs
  | _, _ => False
  end.

Class Bincode := {
  bincode_serialize : ser_value -> option bytes;
  bincode_deserialize : ser_type -> bytes -> option ser_value;
}.

(** [bincode::serialize]/[deserialize] with the default options: a [u8] is one
    byte, a tuple (a fixed-size array) and a struct are the concatenation of
    their elements, with no length prefix; decoding reads a value back and
    ignores the bytes that follow it. *)
Class BincodeLaws `{Bincode} : Prop := {
  bincode_u8 n : u8 n -> bincode_serialize (SU8 n) = Some [n];
  bincode_tuple vs bss :
    mapM bincode_serialize vs = Some bss ->
    bincode_serialize (STuple vs) = Some (concat bss);
  bincode_struct vs bss :
    mapM bincode_serialize vs = Some bss ->
    bincode_serialize (SStruct vs) = Some (concat bss);
  bincode_decode t v bs rest :
    has_type t v -> bincode_serialize v = Some bs ->
    bincode_deserialize t (bs ++ rest) = Some v;
}.

(** ** smbus-pec

    [pec] returns the packet error code of a buffer, a [u8]. *)
Class SmbusPec := { pec : bytes -> Z }.
Class SmbusPecLaws `{SmbusPec} : Prop := { pec_u8 bs : u8 (pec bs) }.

(** ** All of them together *)
Class Crates := {
  crates_bitfields :: Bitfields;
  crates_num_enum :: NumEnum;
  crates_bincode :: Bincode;
  crates_pec :: SmbusPec;
}.

Class CratesLaws `{Crates} : Prop := {
  laws_bitfields :: BitfieldsLaws;
  laws_num_enum :: NumEnumLaws;
  laws_bincode :: BincodeLaws;
  laws_pec :: SmbusPecLaws;
}.

(** ** Consequences of the bitfield laws *)
Lemma testbit_above w x i : uint w x -> 0 <= w <= i -> Z.testbit x i = false.
Proof.
  intros Hx Hi. unfold uint in Hx. destruct (decide (x = 0)) as [->|].
  { apply Z.testbit_0_l. }
  apply Z.bits_above_log2; [lia|].
  apply Z.log2_lt_pow2; [lia|].
  apply Z.lt_le_trans with (2 ^ w); [lia|]. apply Z.pow_le_mono_r; lia.
Qed.

Lemma uint_testbit w x :
  0 <= w -> (forall i, w <= i -> Z.testbit x i = false) -> 0 <= x -> uint w x.
Proof.
  intros Hw Hb Hx. split; [done|].
  replace x with (x mod 2 ^ w); [apply Z.mod_pos_bound; lia|].
  apply Z.bits_inj'. intros i Hi. destruct (decide (i < w)).
  - by rewrite Z.mod_pow2_bits_low.
  - rewrite Z.mod_pow2_bits_high by lia. symmetry. apply Hb. lia.
Qed.

Lemma testbit_nonneg x w :
  (forall i, w <= i -> Z.testbit x i = false) -> 0 <= x.
Proof.
  intros Hb. destruct (decide (0 <= x)); [done|].
  destruct (Z.bits_iff_neg_ex x) as [_ Hneg]. exfalso.
  destruct (Z.bits_iff_neg_ex x) as [Hex _].
  destruct Hex as [k Hk]; [lia|].
  specialize (Hk (Z.max (k + 1) w) ltac:(lia)). rewrite Hb in Hk; [done|lia].
Qed.

Section bitfields.
  Context `{BitfieldsLaws}.

Lemma get_field_above bs r i :
  is_bytes bs -> in_field (length bs) r -> r.2 - r.1 < i ->
  Z.testbit (get_field bs r) i = false.
Proof.
  intros Hbs Hr Hi. unfold in_field in Hr. rewrite get_field_bit by (done || lia).
  by rewrite (proj2 (Z.leb_gt _ _)) by lia.
Qed.

Lemma get_field_uint bs r :
  is_bytes bs -> in_field (length bs) r -> uint (r.2 - r.1 + 1) (get_field bs r).
Proof.
  intros Hbs Hr. pose proof Hr as Hr'. unfold in_field in Hr'.
  assert (forall i, r.2 - r.1 + 1 <= i -> Z.testbit (get_field bs r) i = false) as Hhi.
  { intros i Hi. apply get_field_above; [done|done|lia]. }
  apply uint_testbit; [lia|done|]. eauto using testbit_nonneg.
Qed.

Lemma get_field_u8 bs r :
  is_bytes bs -> in_field (length bs) r -> u8 (get_field bs r).
Proof.
  intros Hbs Hr. pose proof (get_field_uint bs r Hbs Hr) as [? Hlt].
  unfold in_field in Hr. split; [done|]. eapply Z.lt_le_trans; [done|].
  apply Z.pow_le_mono_r; lia.
Qed.

(** The setter keeps a byte array a byte array of its length. *)
Lemma set_field_valid n bs r v :
  array_valid n bs -> in_field n r -> u8 v -> array_valid n (set_field bs r v).
Proof.
  intros [<- Hbs] Hr Hv. split; [by apply set_field_length|by apply set_field_bytes].
Qed.

(** Reading a field back gives the written number, cut to the field's width. *)
Lemma get_set_same n bs r v :
  array_valid n bs -> in_field n r -> u8 v ->
  get_field (set_field bs r v) r = v mod 2 ^ (r.2 - r.1 + 1).
Proof.
  intros [<- Hbs] Hr Hv. pose proof Hr as Hr'. unfold in_field in Hr'.
  apply Z.bits_inj'. intros i Hi.
  rewrite get_field_bit by (rewrite ?set_field_length by done; auto using set_field_bytes).
  destruct (Z.leb_spec i (r.2 - r.1)); simpl.
  - rewrite set_field_bit by (done || lia).
    unfold in_range. rewrite !(proj2 (Z.leb_le _ _)) by lia. simpl.
    rewrite Z.mod_pow2_bits_low by lia. f_equal. lia.
  - by rewrite Z.mod_pow2_bits_high by lia.
Qed.

(** Writing a field leaves a disjoint one alone. *)
Lemma get_set_disjoint n bs r r' v :
  array_valid n bs -> in_field n r -> in_field n r' -> u8 v ->
  r.2 < r'.1 \/ r'.2 < r.1 ->
  get_field (set_field bs r v) r' = get_field bs r'.
Proof.
  intros [<- Hbs] Hr Hr' Hv Hd. pose proof Hr as Hr0. pose proof Hr' as Hr0'.
  unfold in_field in Hr0, Hr0'. apply Z.bits_inj'. intros i Hi.
  rewrite !get_field_bit by (rewrite ?set_field_length by done; auto using set_field_bytes).
  destruct (Z.leb_spec i (r'.2 - r'.1)); simpl; [|done].
  rewrite set_field_bit by (done || lia). unfold in_range.
  destruct (Z.leb_spec r.1 (r'.1 + i)), (Z.leb_spec (r'.1 + i) r.2); simpl; try done. lia.
Qed.

(** Inside one byte of the array the getter is a shift and a mask. *)
Lemma get_field_byte_at n bs k b lo hi :
  array_valid n bs -> bs !! k = Some b ->
  8 * Z.of_nat k <= lo <= hi -> hi < 8 * Z.of_nat k + 8 ->
  get_field bs (lo, hi) = (b / 2 ^ (lo - 8 * Z.of_nat k)) mod 2 ^ (hi - lo + 1).
Proof.
  intros [<- Hbs] Hk Hlo Hhi. apply lookup_lt_Some in Hk as Hlt.
  apply Z.bits_inj'. intros i Hi.
  rewrite get_field_bit by (done || (split_and!; simpl; lia)). simpl.
  rewrite <- Z.shiftr_div_pow2 by lia.
  destruct (Z.leb_spec i (hi - lo)); simpl.
  - rewrite Z.mod_pow2_bits_low, Z.shiftr_spec by lia. unfold bit.
    replace (lo + i) with (Z.of_nat k * 8 + (lo + i - 8 * Z.of_nat k)) by lia.
    rewrite Z.div_add_l by lia. rewrite (Z.add_comm (_ * 8)), Z.mod_add by lia.
    rewrite (Z.div_small (lo + i - _)), Z.add_0_r, Nat2Z.id by lia.
    rewrite Z.mod_small by lia. rewrite nth_lookup, Hk. simpl. f_equal. lia.
  - by rewrite Z.mod_pow2_bits_high by lia.
Qed.

(** A field of a zeroed array reads zero. *)
Lemma get_field_zero n bs r :
  bs = replicate n 0 -> in_field n r -> get_field bs r = 0.
Proof.
  intros -> Hr. apply Z.bits_inj'. intros i Hi.
  rewrite get_field_bit; [|apply Forall_replicate; solve_range|by rewrite length_replicate|done].
  rewrite Z.testbit_0_l. unfold bit. rewrite nth_lookup.
  destruct (replicate n 0 !! _) as [x|] eqn:Hx; simpl; [|by rewrite Z.testbit_0_l, andb_false_r].
  apply lookup_replicate in Hx as [-> _]. by rewrite Z.testbit_0_l, andb_false_r.
Qed.

(** Two byte arrays with the same bits are equal. *)
Lemma byte_inj b c : u8 b -> u8 c -> (forall i, 0 <= i < 8 -> Z.testbit b i = Z.testbit c i) -> b = c.
Proof.
  intros Hb Hc Heq. apply Z.bits_inj'. intros i Hi. destruct (decide (i < 8)); [auto with lia|].
  by rewrite !(testbit_above 8) by (done || lia).
Qed.

End bitfields.

(** A flag is not cut by a field. *)
Lemma bool_to_u8_mod b w : 1 <= w -> bool_to_u8 b mod 2 ^ w = bool_to_u8 b.
Proof.
  intros Hw. apply Z.mod_small. assert (2 ^ 1 <= 2 ^ w) by (apply Z.pow_le_mono_r; lia).
  destruct b; simpl; lia.
Qed.

(** Side conditions of the bit-field lemmas, on closed ranges. *)
Ltac solve_in_field := repeat split; vm_compute; congruence.
Ltac solve_disjoint := first [left; vm_compute; reflexivity | right; vm_compute; reflexivity].
Ltac solve_array :=
  repeat (apply set_field_valid; [|solve_in_field|]); solve [auto with mctp].
#[export] Hint Extern 2 (array_valid _ [_]) => (split; [reflexivity|auto with mctp]) : mctp.
#[export] Hint Extern 2 (array_valid _ [_; _]) => (split; [reflexivity|auto with mctp]) : mctp.

(** Evaluate getters over setters on an [n]-byte array. *)
Ltac get_set n :=
  repeat first
    [ rewrite (get_set_same n) by first [solve_in_field | solve_array]
    | rewrite (get_set_disjoint n) by first [solve_in_field | solve_disjoint | solve_array] ];
  try rewrite (get_field_zero n) by first [reflexivity | solve_in_field];
  rewrite ?bool_to_u8_mod by (vm_compute; congruence).

(** Evaluate the getters on an array of known bytes. *)
Ltac get_bytes n :=
  repeat first
    [ rewrite (get_field_byte_at n _ 0 _) by first [reflexivity | lia | solve_array]
    | rewrite (get_field_byte_at n _ 1 _) by first [reflexivity | lia | solve_array] ];
  compute_pow2.
