(* ===== verification/Reference.v ===== *)
(** * Reference instances of the crate interfaces

    One concrete function per crate operation, and the proof that it satisfies
    the laws of [Crates.v]: the laws are consistent, and the witnesses of the
    development compute on these instances.  Nothing here is a translation of
    the crates' code, and no definition of the model mentions it. *)
From S2P Require Import Prelude Crates.

Module Reference.

(** ** Bit fields *)
(** The number whose [n] low bits are [f 0], [f 1], ... *)
Fixpoint bits_value (n : nat) (f : Z -> bool) : Z :=
  match n with
  | O => 0
  | S n => 2 * bits_value n (fun i => f (i + 1)) + Z.b2z (f 0)
  end.

Lemma bits_value_testbit n f i :
  0 <= i -> Z.testbit (bits_value n f) i = (i <? Z.of_nat n) && f i.
Proof.
  revert f i. induction n as [|n IH]; intros f i Hi.
  { rewrite (proj2 (Z.ltb_ge _ _)) by lia. apply Z.testbit_0_l. }
  cbn [bits_value]. destruct (decide (i = 0)) as [->|Hne].
  - rewrite Z.testbit_0_r. by rewrite (proj2 (Z.ltb_lt _ _)) by lia.
  - replace i with (Z.succ (i - 1)) at 1 by lia.
    rewrite Z.testbit_succ_r, IH by lia.
    replace (i - 1 + 1) with i by lia. f_equal.
    destruct (Z.ltb_spec (i - 1) (Z.of_nat n)), (Z.ltb_spec i (Z.of_nat (S n))); lia.
Qed.

Lemma bits_value_range n f : uint (Z.of_nat n) (bits_value n f).
Proof.
  assert (forall i, Z.of_nat n <= i -> Z.testbit (bits_value n f) i = false) as Hb.
  { intros i Hi. rewrite bits_value_testbit by lia. by rewrite (proj2 (Z.ltb_ge _ _)) by lia. }
  apply uint_testbit; [lia|done|]. eauto using testbit_nonneg.
Qed.

Definition byte_of_bits (f : Z -> bool) : Z := bits_value 8 f.

Lemma byte_of_bits_u8 f : u8 (byte_of_bits f).
Proof. apply (bits_value_range 8). Qed.

Lemma byte_of_bits_testbit f i :
  0 <= i -> Z.testbit (byte_of_bits f) i = (i <? 8) && f i.
Proof. apply (bits_value_testbit 8). Qed.

Definition ref_get_field (bs : bytes) (r : Z * Z) : Z :=
  byte_of_bits (fun j => (j <=? r.2 - r.1) && bit bs (r.1 + j)).

Definition ref_set_field (bs : bytes) (r : Z * Z) (v : Z) : bytes :=
  imap (fun k b => byte_of_bits (fun j =>
    let i := 8 * Z.of_nat k + j in
    if in_range r i then Z.testbit v (i - r.1) else Z.testbit b j)) bs.

#[local] Instance ref_bitfields : Bitfields :=
  {| get_field := ref_get_field; set_field := ref_set_field |}.

Lemma ref_set_field_bit bs r v i :
  0 <= i < 8 * Z.of_nat (length bs) ->
  bit (ref_set_field bs r v) i =
    if in_range r i then Z.testbit v (i - r.1) else bit bs i.
Proof.
  intros Hi. unfold bit, ref_set_field.
  assert (Z.to_nat (i / 8) < length bs)%nat as Hlt.
  { apply Nat2Z.inj_lt. rewrite Z2Nat.id by (apply Z.div_pos; lia).
    apply Z.div_lt_upper_bound; lia. }
  destruct (lookup_lt_is_Some_2 bs _ Hlt) as [b Hb].
  rewrite !nth_lookup, list_lookup_imap, Hb. simpl.
  pose proof (Z.mod_pos_bound i 8 ltac:(lia)).
  rewrite byte_of_bits_testbit by lia.
  rewrite (proj2 (Z.ltb_lt _ _)) by lia. simpl.
  rewrite Z2Nat.id by (apply Z.div_pos; lia).
  replace (8 * (i / 8) + i mod 8) with i; [done|]. apply Z.div_mod. lia.
Qed.

Lemma ref_bitfields_laws : BitfieldsLaws.
Proof.
  split; simpl.
  - intros bs r i _ Hr Hi. unfold ref_get_field. rewrite byte_of_bits_testbit by done.
    unfold in_field in Hr.
    destruct (Z.ltb_spec i 8), (Z.leb_spec i (r.2 - r.1)); simpl; try done. lia.
  - intros bs r v _. apply length_imap.
  - intros bs r v _ _ _. apply Forall_lookup. intros k x.
    unfold ref_set_field. rewrite list_lookup_imap.
    destruct (bs !! k); simpl; intros; simplify_eq. apply byte_of_bits_u8.
  - intros bs r v i _ _ _ Hi. by apply ref_set_field_bit.
Qed.

(** ** Enums *)
Definition ref_from_primitive {T : Set} (disc : T -> Z) (all : list T) (dflt : T) (n : Z) : T :=
  default dflt (find (fun v => disc v =? n) all).

#[local] Instance ref_num_enum : NumEnum := {| from_primitive := @ref_from_primitive |}.

Lemma ref_num_enum_laws : NumEnumLaws.
Proof.
  split; simpl; intros T disc all dflt; unfold ref_from_primitive.
  - intros v Hinj Hv. destruct (find _ all) as [w|] eqn:Hf; simpl.
    + apply find_some in Hf as [_ Heq]. by apply Hinj, Z.eqb_eq.
    + apply (find_none _ _ Hf) in Hv as Hn || (apply list_elem_of_In in Hv;
        apply (find_none _ _ Hf) in Hv as Hn). by rewrite Z.eqb_refl in Hn.
  - intros n Hn. destruct (find _ all) as [w|] eqn:Hf; simpl; [|done].
    apply find_some in Hf as [Hin Heq]. apply list_elem_of_In in Hin.
    exfalso. by apply (Hn w Hin), Z.eqb_eq.
Qed.

(** ** bincode *)
Fixpoint ref_serialize (v : ser_value) : bytes :=
  match v with
  | SU8 n => [n]
  | STuple vs => concat (map ref_serialize vs)
  | SStruct vs => concat (map ref_serialize vs)
  end.

(** A parser returns the value and the bytes that follow it. *)
Definition parser (A : Type) := bytes -> option (A * bytes).

Fixpoint repeat_parser {A} (p : parser A) (n : nat) : parser (list A) := fun bs =>
  match n with
  | O => Some ([], bs)
  | S n => '(v, bs) ← p bs; '(vs, bs) ← repeat_parser p n bs; Some (v :: vs, bs)
  end.

Fixpoint ref_parse (t : ser_type) : parser ser_value := fun bs =>
  match t with
  | TU8 => match bs with n :: bs => Some (SU8 n, bs) | [] => None end
  | TTuple n t => '(vs, bs) ← repeat_parser (ref_parse t) n bs; Some (STuple vs, bs)
  | TStruct ts =>
      '(vs, bs) ← (fix go ts bs := match ts with
        | [] => Some ([], bs)
        | t :: ts => '(v, bs) ← ref_parse t bs; '(vs, bs) ← go ts bs; Some (v :: vs, bs)
        end) ts bs;
      Some (SStruct vs, bs)
  end.

#[local] Instance ref_bincode : Bincode :=
  {| bincode_serialize v := Some (ref_serialize v);
     bincode_deserialize t bs := fst <$> ref_parse t bs |}.

Lemma mapM_Some_total {A B} (f : A -> B) l k :
  mapM (fun x => Some (f x)) l = Some k <-> k = map f l.
Proof.
  rewrite mapM_Some. split.
  - induction 1 as [|x y l k Hxy _ ->]; simpl; congruence.
  - intros ->. induction l; constructor; done.
Qed.

Lemma repeat_parser_correct (p : parser ser_value) vs rest :
  Forall (fun v => forall rest, p (ref_serialize v ++ rest) = Some (v, rest)) vs ->
  repeat_parser p (length vs) (concat (map ref_serialize vs) ++ rest) = Some (vs, rest).
Proof.
  induction 1 as [|v vs Hv _ IH]; simpl; [done|].
  rewrite <- (assoc_L (++)), Hv. simpl. by rewrite IH.
Qed.

Fixpoint ref_parse_correct (t : ser_type) : forall v rest,
  has_type t v -> ref_parse t (ref_serialize v ++ rest) = Some (v, rest).
Proof.
  destruct t as [|n t|ts]; intros [m|vs|vs] rest Hv; simpl in *; try done.
  - destruct Hv as [<- Hvs]. rewrite repeat_parser_correct; [done|].
    eapply Forall_impl; [exact Hvs|]. intros v Hv rest'. by apply ref_parse_correct.
  - match goal with |- context [?go ts (concat (map ref_serialize vs) ++ rest)] =>
      enough (go ts (concat (map ref_serialize vs) ++ rest) = Some (vs, rest)) as -> by done
    end.
    revert vs Hv rest. induction ts as [|t ts IH]; intros [|v vs] Hv rest; try done.
    simpl. destruct Hv as [Hv Hvs]. rewrite <- (assoc_L (++)), ref_parse_correct by done.
    simpl. by rewrite (IH vs Hvs).
Qed.

Lemma ref_bincode_laws : BincodeLaws.
Proof.
  split; simpl.
  - done.
  - intros vs bss ->%mapM_Some_total. done.
  - intros vs bss ->%mapM_Some_total. done.
  - intros t v bs rest Hv [= <-]. by rewrite ref_parse_correct.
Qed.

(** ** smbus-pec: CRC-8 with polynomial x^8 + x^2 + x + 1 *)
Definition crc8_shift (c : Z) : Z :=
  if Z.testbit c 7 then Z.lxor (Z.land (Z.shiftl c 1) 255) 7 else Z.shiftl c 1.

Definition ref_pec (bs : bytes) : Z :=
  fold_left (fun crc b => as_u8 (Nat.iter 8 crc8_shift (Z.lxor crc b))) bs 0.

#[local] Instance ref_smbus_pec : SmbusPec := {| pec := ref_pec |}.

Lemma ref_smbus_pec_laws : SmbusPecLaws.
Proof.
  split. intros bs. simpl. unfold ref_pec.
  destruct bs as [|b bs] using rev_ind; [split; simpl; lia|].
  rewrite fold_left_app. simpl. apply as_u8_range.
Qed.

(** ** The instances the witnesses use *)
Definition crates : Crates :=
  {| crates_bitfields := ref_bitfields; crates_num_enum := ref_num_enum;
     crates_bincode := ref_bincode; crates_pec := ref_smbus_pec |}.

Lemma crates_laws : CratesLaws (H := crates).
Proof.
  split; [apply ref_bitfields_laws|apply ref_num_enum_laws|apply ref_bincode_laws
    |apply ref_smbus_pec_laws].
Qed.

End Reference.
