(* ===== verification/Derive.v ===== *)
(** * The derive macros of mctp-emu-derive, and the library's error type

    Models [mctp-emu-derive/src/lib.rs] and [mctp-base-lib/src/base/errors.rs].
    A procedural macro of the crate is modelled by the [impl] it quotes, as a
    definition generic in the type the macro is applied to.  The interface a
    type offers to the macros is the class [Serde] (the [Serialize] and
    [Deserialize] impls and [std::mem::size_of]); [SerdeLaws] is what every
    message type of the program proves about its instance, and the theorems
    about the macros are proved against it. *)
From S2P Require Import Prelude Crates Reference.

(** ** Errors *)

(** [std::io::Error], by its code. *)
Inductive io_error := IoError (code : Z).

(** [MctpBaseLibError], and the [anyhow::Error] it and its callers wrap:
    a message, a foreign error (of bincode, of the receiving or the sending end
    of a channel, of a socket), or an error under a [context]. *)
Inductive MctpBaseLibError :=
  | InvalidPayloadSize (expected found : string)
  | UnknownValue (value : string)
  | Other (err : AnyError)
with AnyError :=
  | AnyMsg (msg : string)
  | AnyBincode
  | AnyRecv
  | AnySend
  | AnyIo (err : io_error)
  | AnyBase (err : MctpBaseLibError)
  | AnyContext (ctx : string) (err : AnyError).

(** [.context(ctx)] on a [Result]. *)
Definition context {E A} (f : E -> AnyError) (ctx : string) (m : outcome E A)
  : outcome AnyError A := map_err (fun e => AnyContext ctx (f e)) m.

(** ** What serde derives for a type *)
Class Serde (T : Type) := {
  size_of : nat;                            (** [std::mem::size_of::<T>()] *)
  ser_type_of : ser_type;
  to_value : T -> ser_value;                (** [impl Serialize] *)
  of_value : ser_value -> option T;         (** [impl Deserialize] *)
}.
Arguments size_of T {_}.
Arguments ser_type_of T {_}.

(** The well-formed values: every [u8] field is in range and every byte array
    has its length. *)
Class Valid (T : Type) := valid : T -> Prop.

(** The size in bytes of the encoding of a type. *)
Fixpoint wire_size (t : ser_type) : nat :=
  match t with
  | TU8 => 1
  | TTuple n t => n * wire_size t
  | TStruct ts => sum_list_with wire_size ts
  end.

Class SerdeLaws (T : Type) `{Serde T, Valid T} : Prop := {
  size_of_wire : size_of T = wire_size (ser_type_of T);
  to_value_typed x : valid x -> has_type (ser_type_of T) (to_value x);
  of_value_total v : has_type (ser_type_of T) v -> exists x, of_value v = Some x /\ valid x;
  of_to_value x : valid x -> of_value (to_value x) = Some x;
}.

(** Field types: [u8] and [[u8; n]]. *)
#[export] Instance u8_serde : Serde Z := {
  size_of := 1;
  ser_type_of := TU8;
  to_value := SU8;
  of_value v := match v with SU8 n => Some n | _ => None end;
}.
#[export] Instance u8_valid : Valid Z := uint 8.

Definition array_type (n : nat) : ser_type := TTuple n TU8.
Definition array_to_value (bs : bytes) : ser_value := STuple (map SU8 bs).
Definition array_of_value (v : ser_value) : option bytes :=
  match v with
  | STuple vs => mapM (of_value (T:=Z)) vs
  | _ => None
  end.

(** ** Fieldless enums

    A [#[repr(u8)]] enum: its variants, their discriminants and the variant
    marked [#[default]]. *)
Class U8Enum (T : Set) := {
  variants : list T;
  discriminant : T -> Z;
  default_variant : T;
}.

Class U8EnumLaws (T : Set) `{U8Enum T} : Prop := {
  discriminant_inj :: Inj (=) (=) (discriminant (T:=T));
  variants_complete (v : T) : v ∈ variants;
  discriminant_u8 (v : T) : u8 (discriminant v);
}.

(** [T::from(u8)], derived by [FromPrimitive]. *)
Definition from_u8 `{NumEnum} {T : Set} `{U8Enum T} (n : Z) : T :=
  from_primitive discriminant variants default_variant n.

(** [#[derive(SerializeU8Enum)]]: [serializer.serialize_u8( *self as u8)]. *)
Definition serialize_u8_enum {T : Set} `{U8Enum T} (x : T) : ser_value :=
  SU8 (discriminant x).

(** [#[derive(DeserializeU8Enum)]]: [Ok(T::from(u8::deserialize(d)?))]. *)
Definition deserialize_u8_enum `{NumEnum} {T : Set} `{U8Enum T} (v : ser_value) : option T :=
  n ← of_value (T:=Z) v; Some (from_u8 n).

#[export] Instance u8_enum_serde `{NumEnum} {T : Set} `{U8Enum T} : Serde T := {
  size_of := 1;
  ser_type_of := TU8;
  to_value := serialize_u8_enum;
  of_value := deserialize_u8_enum;
}.

(** ** The quoted impls *)
Section derive.
  Context `{Crates} {T : Type} `{Serde T}.

(** [FromBinary]: [impl From<T> for Vec<u8>]. *)
Definition vec_from {E} (t : T) : outcome E bytes :=
  match bincode_serialize (to_value t) with
  | Some bs => Ok bs
  | None => Panic PanicUnwrap
  end.

(** [FromBinary]: [impl From<T> for bytes::Bytes]. *)
Definition bytes_from {E} (t : T) : outcome E bytes := vec_from t.

(** [bincode::deserialize] of a [T]: [None] is bincode's error. *)
Definition deserialize (bs : bytes) : option T :=
  v ← bincode_deserialize (ser_type_of T) bs; of_value v.

(** [FromBinary]: [impl TryFrom<bytes::Bytes>]. *)
Definition try_from_bytes (bs : bytes) : outcome MctpBaseLibError T :=
  let struct_size := size_of T in
  if decide (length bs < struct_size)%nat then
    Err (InvalidPayloadSize (usize_to_string struct_size) (usize_to_string (length bs)))
  else
    map_err Other
      (context id "Failed deserializing message" (ok_or AnyBincode (deserialize bs))).

(** [FromBinary]: [impl TryFrom<Vec<u8>>]. *)
Definition try_from_vec (vec : bytes) : outcome MctpBaseLibError T :=
  let struct_size := size_of T in
  if decide (length vec < struct_size)%nat then
    Err (InvalidPayloadSize (usize_to_string struct_size) (usize_to_string (length vec)))
  else
    map_err Other
      (context id "Failed deserializing message" (ok_or AnyBincode (deserialize vec))).

(** [FromControlPayload]: [impl From<T> for Vec<u8>]. *)
Definition control_vec_from {E} (t : T) : outcome E bytes :=
  unwrap (ok_or AnyBincode (bincode_serialize (to_value t))).

(** [FromControlPayload]: [impl From<T> for bytes::Bytes], which also prints
    the bytes. *)
Definition control_bytes_from {E} (t : T) : outcome E bytes :=
  ser ← unwrap (ok_or AnyBincode (bincode_serialize (to_value t)));
  Ok ser.

(** [FromControlPayload]: [impl TryFrom<bytes::Bytes>]. *)
Definition control_try_from_bytes (bs : bytes) : outcome MctpBaseLibError T :=
  let struct_size := size_of T in
  if decide (length bs < struct_size)%nat then
    Err (InvalidPayloadSize (usize_to_string struct_size) (usize_to_string (length bs)))
  else
    map_err Other
      (context id "Failed deserializing message" (ok_or AnyBincode (deserialize bs))).

(** The conversions are the same, whichever macro quotes them. *)
Lemma conversions_agree {E} (t : T) bs :
  control_vec_from (E:=E) t = vec_from t /\ control_bytes_from (E:=E) t = bytes_from t /\
  try_from_vec bs = try_from_bytes bs /\ control_try_from_bytes bs = try_from_bytes bs.
Proof.
  unfold control_vec_from, control_bytes_from, bytes_from, vec_from.
  by destruct (bincode_serialize (to_value t)).
Qed.

End derive.

(** ** Proofs *)
Section enum_laws.
  Context `{NumEnumLaws} {T : Set} `{U8EnumLaws T}.

Lemma from_u8_discriminant (v : T) : from_u8 (discriminant v) = v.
Proof. apply from_primitive_known; [apply _|apply variants_complete]. Qed.

Lemma from_u8_of (v : T) n : discriminant v = n -> from_u8 n = v.
Proof. intros <-. apply from_u8_discriminant. Qed.

Lemma from_u8_unknown n :
  (forall v : T, discriminant v <> n) -> from_u8 (T:=T) n = default_variant.
Proof. intros Hn. apply from_primitive_unknown. auto. Qed.

(** [T::from] on every number: the variant of that number, or the default
    variant when there is none. *)
Lemma from_u8_cases n :
  discriminant (from_u8 (T:=T) n) = n \/
  ((forall v : T, discriminant v <> n) /\ from_u8 (T:=T) n = default_variant).
Proof.
  destruct (decide (Exists (fun v : T => discriminant v = n) variants)) as [Hex|Hno].
  - left. apply Exists_exists in Hex as (v & _ & <-). by rewrite from_u8_discriminant.
  - right. assert (forall v : T, discriminant v <> n) as Hn.
    { intros v Hv. apply Hno, Exists_exists. eauto using variants_complete. }
    split; [done|]. by apply from_u8_unknown.
Qed.

End enum_laws.

#[export] Instance enum_valid {T : Set} `{U8Enum T} : Valid T := fun _ => True.

#[export] Instance u8_serde_laws : SerdeLaws Z.
Proof.
  split; [done|intros x Hx; exact Hx| |done].
  intros [n|vs|vs] Hv; simpl in Hv; [|contradiction|contradiction]. exists n; auto.
Qed.

#[export] Instance u8_enum_serde_laws `{NumEnumLaws} {T : Set} `{U8EnumLaws T} : SerdeLaws T.
Proof.
  split; simpl; try done.
  - intros x _. apply discriminant_u8.
  - intros [n|vs|vs] Hv; simpl in Hv; [|contradiction|contradiction].
    eexists. split; [reflexivity|exact I].
  - intros x _. unfold deserialize_u8_enum. simpl. by rewrite from_u8_discriminant.
Qed.

(** ** Arrays and structs *)
Lemma array_to_value_typed n bs :
  array_valid n bs -> has_type (array_type n) (array_to_value bs).
Proof.
  intros [Hl Hb]. simpl. rewrite length_map. split; [done|].
  by apply Forall_map.
Qed.

Lemma array_of_to_value bs : array_of_value (array_to_value bs) = Some bs.
Proof. simpl. induction bs as [|b bs IH]; simpl; [done|]. by rewrite IH. Qed.

Lemma array_of_value_total n v :
  has_type (array_type n) v ->
  exists bs, v = array_to_value bs /\ array_of_value v = Some bs /\ array_valid n bs.
Proof.
  destruct v as [|vs|]; simpl; try done. intros [<- Hvs].
  enough (exists bs, vs = map SU8 bs /\ is_bytes bs) as (bs & -> & Hbs).
  { exists bs. split_and!; [done|apply array_of_to_value|].
    split; [by rewrite length_map|done]. }
  induction Hvs as [|[n|vs'|vs'] vs Hv _ (bs & -> & Hbs)]; simpl in *; try done.
  - by exists [].
  - exists (n :: bs). auto with mctp.
Qed.

(** A struct's [SerdeLaws] from those of its fields: split the typing of the
    struct into its fields, and read each field. *)
Ltac destruct_typed :=
  repeat match goal with
  | H : _ /\ _ |- _ => destruct H
  | H : has_type (array_type _) ?v |- _ =>
      let E := fresh "E" in
      apply array_of_value_total in H as (? & -> & E & H); clear E
  | H : has_type (ser_type_of ?T) ?v |- _ =>
      apply of_value_total in H as (? & ? & ?)
  | H : has_type TU8 ?v |- _ => destruct v; simpl in H; try contradiction
  end.

(** The typing of a closed value tree over known bytes. *)
Ltac solve_typed := repeat first [assumption | exact I | reflexivity | constructor].

Ltac split_struct vs Hv :=
  repeat (destruct vs as [|? vs]; [solve [destruct Hv]|destruct Hv as [? Hv]]);
  destruct vs; [|solve [destruct Hv]]; clear Hv.

Tactic Notation "solve_serde" reference(inst) reference(vinst) :=
  split;
  [ reflexivity
  | intros x Hx; unfold valid at 1, vinst in Hx; destruct_and?; cbn [to_value ser_type_of inst];
    repeat first [exact I | split; [first [by apply array_to_value_typed | by apply to_value_typed]|]]
  | intros [|vs|vs] Hv; try contradiction;
    split_struct vs Hv; destruct_typed; cbn [of_value inst];
    repeat (rewrite array_of_to_value; cbn [mbind option_bind]);
    repeat match goal with H : of_value _ = Some _ |- _ => rewrite H; clear H; cbn [mbind option_bind] end;
    eexists; split; [reflexivity|]; repeat first [assumption | split]
  | intros x Hx; unfold valid at 1, vinst in Hx; destruct_and?; cbn [of_value to_value inst];
    repeat first [rewrite array_of_to_value | rewrite of_to_value by assumption];
    destruct x; reflexivity ].

(** ** The encoding of a typed value *)

(** The concatenated bytes of a value tree. *)
Fixpoint flatten (v : ser_value) : bytes :=
  match v with
  | SU8 n => [n]
  | STuple vs => concat (map flatten vs)
  | SStruct vs => concat (map flatten vs)
  end.

Section encoding.
  Context `{CratesLaws}.

Lemma mapM_serialize_flatten vs :
  Forall (fun v => bincode_serialize v = Some (flatten v)) vs ->
  mapM bincode_serialize vs = Some (map flatten vs).
Proof. induction 1 as [|v vs Hv _ IH]; simpl; [done|]. by rewrite Hv, IH. Qed.

Fixpoint serialize_flatten (t : ser_type) : forall v,
  has_type t v ->
  bincode_serialize v = Some (flatten v) /\ length (flatten v) = wire_size t /\ is_bytes (flatten v).
Proof.
  destruct t as [|n t|ts]; intros [m|vs|vs] Hv; simpl in *; try done.
  - split_and!; [by apply bincode_u8|done|auto with mctp].
  - destruct Hv as [<- Hvs].
    assert (Forall (fun v => bincode_serialize v = Some (flatten v) /\
      length (flatten v) = wire_size t /\ is_bytes (flatten v)) vs) as Hall
      by (eapply Forall_impl; eauto).
    clear Hvs. split_and!.
    + apply bincode_tuple, mapM_serialize_flatten. eapply Forall_impl; [done|]. by intros v (? & _ & _).
    + induction Hall as [|v vs (_ & Hl & _) _ IH]; simpl; [done|]. rewrite length_app. lia.
    + induction Hall as [|v vs (_ & _ & Hb) _ IH]; simpl; auto with mctp.
  - match type of Hv with ?go ts vs => assert (
      Forall (fun v => bincode_serialize v = Some (flatten v)) vs /\
      length (concat (map flatten vs)) = sum_list_with wire_size ts /\
      is_bytes (concat (map flatten vs))) as (Hs & Hl & Hb) end.
    { revert vs Hv. induction ts as [|t ts IH]; intros [|v vs] Hv; simpl; try done.
      destruct Hv as [Hv Hvs]. destruct (serialize_flatten t v Hv) as (Hs & Hl & Hb).
      destruct (IH vs Hvs) as (Hs' & Hl' & Hb').
      split_and!; [by constructor|rewrite length_app; lia|auto with mctp]. }
    split_and!; [by apply bincode_struct, mapM_serialize_flatten|done|done].
Qed.

(** Every byte string of the right length is the encoding of a typed value. *)
Fixpoint flatten_surj (t : ser_type) : forall bs,
  is_bytes bs -> length bs = wire_size t -> exists v, has_type t v /\ flatten v = bs.
Proof.
  destruct t as [|n t|ts]; intros bs Hbs Hl; simpl in *.
  - destruct bs as [|b [|]]; simplify_eq/=. inversion Hbs. by exists (SU8 b).
  - enough (exists vs, (length vs = n /\ Forall (has_type t) vs) /\ concat (map flatten vs) = bs)
      as (vs & ? & ?) by (by exists (STuple vs)).
    revert bs Hbs Hl. induction n as [|n IH]; intros bs Hbs Hl; simpl in *.
    { apply nil_length_inv in Hl as ->. by exists []. }
    destruct (flatten_surj t (take (wire_size t) bs)) as (v & Hv & Hf);
      [auto with mctp|rewrite length_take; lia|].
    destruct (IH (drop (wire_size t) bs)) as (vs & (<- & Hvs) & Hfs);
      [auto with mctp|rewrite length_drop; lia|].
    exists (v :: vs). simpl. rewrite Hf, Hfs, take_drop. auto.
  - match goal with |- exists v, @?P v /\ _ =>
      enough (exists vs, P (SStruct vs) /\ concat (map flatten vs) = bs)
        as (vs & ? & ?) by (by exists (SStruct vs)) end. simpl.
    revert bs Hbs Hl. induction ts as [|t ts IH]; intros bs Hbs Hl; simpl in *.
    { apply nil_length_inv in Hl as ->. by exists []. }
    destruct (flatten_surj t (take (wire_size t) bs)) as (v & Hv & Hf);
      [auto with mctp|rewrite length_take; lia|].
    destruct (IH (drop (wire_size t) bs)) as (vs & Hvs & Hfs);
      [auto with mctp|rewrite length_drop; lia|].
    exists (v :: vs). simpl. rewrite Hf, Hfs, take_drop. auto.
Qed.

Context {T : Type} `{SerdeLaws T}.

(** The bytes a valid value is converted into. *)
Lemma bytes_from_flatten {E} (x : T) :
  valid x -> bytes_from (E:=E) x = Ok (flatten (to_value x)).
Proof.
  intros Hx. unfold bytes_from, vec_from.
  by destruct (serialize_flatten _ _ (to_value_typed x Hx)) as (-> & _).
Qed.

Lemma flatten_length (x : T) : valid x -> length (flatten (to_value x)) = size_of T.
Proof.
  intros Hx. rewrite size_of_wire. by apply serialize_flatten, to_value_typed.
Qed.

Lemma flatten_bytes (x : T) : valid x -> is_bytes (flatten (to_value x)).
Proof. intros Hx. by eapply serialize_flatten, to_value_typed. Qed.

(** Parsing the encoding of a typed value tree, whatever follows it. *)
Lemma try_from_flatten v (x : T) rest :
  has_type (ser_type_of T) v -> of_value v = Some x ->
  try_from_bytes (flatten v ++ rest) = Ok x.
Proof.
  intros Hv Hx. destruct (serialize_flatten _ _ Hv) as (Hs & Hl & _).
  unfold try_from_bytes. rewrite decide_False.
  - unfold deserialize. rewrite (bincode_decode _ v _ rest) by done. simpl. by rewrite Hx.
  - rewrite length_app, size_of_wire. lia.
Qed.

Lemma try_from_short bs :
  (length bs < size_of T)%nat ->
  try_from_bytes (T:=T) bs =
    Err (InvalidPayloadSize (usize_to_string (size_of T)) (usize_to_string (length bs))).
Proof. intros Hl. unfold try_from_bytes. by rewrite decide_True. Qed.

(** A long enough input parses, into the value of its first bytes. *)
Lemma try_from_long bs :
  is_bytes bs -> (size_of T <= length bs)%nat ->
  exists v x, has_type (ser_type_of T) v /\ flatten v = take (size_of T) bs /\
    of_value v = Some x /\ valid x /\ try_from_bytes (T:=T) bs = Ok x.
Proof.
  intros Hbs Hl. rewrite size_of_wire in *.
  destruct (flatten_surj (ser_type_of T) (take (wire_size (ser_type_of T)) bs)) as (v & Hv & Hf);
    [auto with mctp|rewrite length_take; lia|].
  destruct (of_value_total v Hv) as (x & Hx & Hvx). exists v, x. split_and!; try done.
  rewrite <- (take_drop (wire_size (ser_type_of T)) bs), <- Hf. by apply try_from_flatten.
Qed.

(** C28: Parsing is typed: on any byte string a derived [try_from] is total, and
    either reports the two sizes, when the string is too short, or returns a
    value whose fields are in range; the bytes past the type's size never
    matter. *)
Theorem try_from_bytes_typed bs :
  is_bytes bs ->
  ((length bs < size_of T)%nat /\ try_from_bytes (T:=T) bs =
     Err (InvalidPayloadSize (usize_to_string (size_of T)) (usize_to_string (length bs)))) \/
  (exists x : T, try_from_bytes bs = Ok x /\ valid x /\
     forall rest, try_from_bytes (take (size_of T) bs ++ rest) = Ok x).
Proof.
  intros Hbs. destruct (decide (length bs < size_of T)%nat) as [Hs|Hl].
  - left. split; [done|by apply try_from_short].
  - right. destruct (try_from_long bs Hbs) as (v & x & Hv & Hf & Hx & Hvx & Hok); [lia|].
    exists x. split_and!; [done|done|]. intros rest. rewrite <- Hf. by apply try_from_flatten.
Qed.

End encoding.

(** ** Lossless types

    A type whose [Deserialize] forgets nothing: reading a value tree and
    writing it back gives the tree.  An enum is not one, because bytes that
    name no variant are all read as the default variant. *)
Class Lossless (T : Type) `{Serde T} : Prop :=
  to_of_value v (x : T) :
    has_type (ser_type_of T) v -> of_value v = Some x -> to_value x = v.

Lemma bytes_from_try_from `{CratesLaws} {T : Type} `{SerdeLaws T, !Lossless T} {E} bs (x : T) :
  is_bytes bs -> try_from_bytes bs = Ok x ->
  bytes_from (E:=E) x = Ok (take (size_of T) bs).
Proof.
  intros Hbs Hx. destruct (decide (length bs < size_of T)%nat) as [Hs|Hl].
  { rewrite try_from_short in Hx by done. done. }
  destruct (try_from_long (T:=T) bs) as (v & y & Hv & Hf & Hy & Hvy & Hok); [done|lia|].
  rewrite Hx in Hok. injection Hok as ->.
  rewrite bytes_from_flatten by done. by rewrite (to_of_value v y Hv Hy), Hf.
Qed.

#[export] Instance u8_lossless : Lossless Z.
Proof. intros [n|vs|vs] x Hv; simpl in *; try done. congruence. Qed.

Lemma lossless_value {T : Type} `{SerdeLaws T, !Lossless T} v :
  has_type (ser_type_of T) v -> exists x : T, v = to_value x /\ valid x.
Proof.
  intros Hv. destruct (of_value_total v Hv) as (x & Hx & Hvx).
  exists x. split; [|done]. symmetry. by apply to_of_value.
Qed.

Tactic Notation "solve_lossless" reference(inst) :=
  intros [|vs|vs] x Hv; try contradiction;
  split_struct vs Hv;
  repeat match goal with
  | H : has_type (array_type _) ?v |- _ =>
      let E := fresh "E" in
      apply array_of_value_total in H as (? & -> & E & H); clear E
  | H : has_type (ser_type_of ?T) ?v |- _ => apply lossless_value in H as (? & -> & ?)
  end;
  cbn [of_value inst];
  repeat (first [rewrite array_of_to_value | rewrite of_to_value by assumption];
    cbn [mbind option_bind]);
  intros [= <-]; reflexivity.
