(* ===== verification/Enums.v ===== *)
(** * The enumerations of the control protocol

    Models [mctp-base-lib/src/control/enums.rs]: each enum with its variants,
    its discriminants and its default variant, which is what [FromPrimitive]
    returns for every other byte. *)
From S2P Require Import Prelude Crates Derive.

(** Discriminants are distinct bytes and [all] lists every variant. *)
Ltac solve_u8_enum :=
  split;
  [ intros [] []; first [reflexivity | discriminate]
  | intros []; repeat (first [apply list_elem_of_here | apply list_elem_of_further])
  | intros []; split; vm_compute; congruence ].

(** command codes of the MCTP control protocol *)
Module CommandCode.

Inductive t : Set :=
  | Reserved | SetEndpointID | GetEndpointID | GetEndpointUUID | GetMCTPVersionSupport
  | GetMessageTypeSupport | GetVendorDefinedMessageSupport | ResolveEndpointID
  | AllocateEndpointIDs | RoutingInformationUpdate | GetRoutingTableEntries
  | PrepareForEndpointDiscovery | EndpointDiscovery | DiscoveryNotify | GetNetworkID
  | QueryHop | ResolveUUID | QueryRateLimit | RequestTXRateLimit | UpdateRateLimit
  | QuerySupportedInterfaces | Unknown.

Definition all : list t :=
  [Reserved; SetEndpointID; GetEndpointID; GetEndpointUUID; GetMCTPVersionSupport;
  GetMessageTypeSupport; GetVendorDefinedMessageSupport; ResolveEndpointID;
  AllocateEndpointIDs; RoutingInformationUpdate; GetRoutingTableEntries;
  PrepareForEndpointDiscovery; EndpointDiscovery; DiscoveryNotify; GetNetworkID;
  QueryHop; ResolveUUID; QueryRateLimit; RequestTXRateLimit; UpdateRateLimit;
  QuerySupportedInterfaces; Unknown].

Definition to_u8 (x : t) : Z :=
  match x with
  | Reserved => 0x00 | SetEndpointID => 0x01 | GetEndpointID => 0x02
  | GetEndpointUUID => 0x03 | GetMCTPVersionSupport => 0x04
  | GetMessageTypeSupport => 0x05 | GetVendorDefinedMessageSupport => 0x06
  | ResolveEndpointID => 0x07 | AllocateEndpointIDs => 0x08
  | RoutingInformationUpdate => 0x09 | GetRoutingTableEntries => 0x0a
  | PrepareForEndpointDiscovery => 0x0b | EndpointDiscovery => 0x0c
  | DiscoveryNotify => 0x0d | GetNetworkID => 0x0e | QueryHop => 0x0f
  | ResolveUUID => 0x10 | QueryRateLimit => 0x11 | RequestTXRateLimit => 0x12
  | UpdateRateLimit => 0x13 | QuerySupportedInterfaces => 0x14 | Unknown => 0xff
  end.

#[export] Instance u8_enum : U8Enum t :=
  { variants := all; discriminant := to_u8; default_variant := Unknown }.
#[export] Instance eq_dec : EqDecision t.
Proof. solve_decision. Defined.
#[export] Instance u8_enum_laws : U8EnumLaws t.
Proof. solve_u8_enum. Qed.

End CommandCode.
#[export] Existing Instance CommandCode.u8_enum.
#[export] Existing Instance CommandCode.eq_dec.
#[export] Existing Instance CommandCode.u8_enum_laws.

(** completion codes of a response *)
Module CompletionCode.

Inductive t : Set :=
  | Success | Error | ErrorInvalidData | ErrorInvalidLength | ErrorNotReady
  | ErrorUnsupportedCmd.

Definition all : list t :=
  [Success; Error; ErrorInvalidData; ErrorInvalidLength; ErrorNotReady;
  ErrorUnsupportedCmd].

Definition to_u8 (x : t) : Z :=
  match x with
  | Success => 0x00 | Error => 0x01 | ErrorInvalidData => 0x02
  | ErrorInvalidLength => 0x03 | ErrorNotReady => 0x04 | ErrorUnsupportedCmd => 0x05
  end.

#[export] Instance u8_enum : U8Enum t :=
  { variants := all; discriminant := to_u8; default_variant := ErrorUnsupportedCmd }.
#[export] Instance eq_dec : EqDecision t.
Proof. solve_decision. Defined.
#[export] Instance u8_enum_laws : U8EnumLaws t.
Proof. solve_u8_enum. Qed.

End CompletionCode.
#[export] Existing Instance CompletionCode.u8_enum.
#[export] Existing Instance CompletionCode.eq_dec.
#[export] Existing Instance CompletionCode.u8_enum_laws.

(** message types of an MCTP packet *)
Module MessageType.

Inductive t : Set :=
  | Control | Pldm | NCSIOverMCTP | EthernetOverMCTP | NvmExpressOverMCTP
  | SpdmOverMCTP | SecuredMessages | CxlFmApiOverMCTP | CxlCciOverMCTP
  | VendorDefinedPCI | VendorDefinedIANA | Invalid.

Definition all : list t :=
  [Control; Pldm; NCSIOverMCTP; EthernetOverMCTP; NvmExpressOverMCTP; SpdmOverMCTP;
  SecuredMessages; CxlFmApiOverMCTP; CxlCciOverMCTP; VendorDefinedPCI;
  VendorDefinedIANA; Invalid].

Definition to_u8 (x : t) : Z :=
  match x with
  | Control => 0x00 | Pldm => 0x01 | NCSIOverMCTP => 0x02 | EthernetOverMCTP => 0x03
  | NvmExpressOverMCTP => 0x04 | SpdmOverMCTP => 0x05 | SecuredMessages => 0x06
  | CxlFmApiOverMCTP => 0x07 | CxlCciOverMCTP => 0x08 | VendorDefinedPCI => 0x7e
  | VendorDefinedIANA => 0x7f | Invalid => 0xff
  end.

#[export] Instance u8_enum : U8Enum t :=
  { variants := all; discriminant := to_u8; default_variant := Invalid }.
#[export] Instance eq_dec : EqDecision t.
Proof. solve_decision. Defined.
#[export] Instance u8_enum_laws : U8EnumLaws t.
Proof. solve_u8_enum. Qed.

End MessageType.
#[export] Existing Instance MessageType.u8_enum.
#[export] Existing Instance MessageType.eq_dec.
#[export] Existing Instance MessageType.u8_enum_laws.

(** physical media *)
Module PhysicalMediumIdentifier.

Inductive t : Set :=
  | Unspecified | SMBUS_2_0_100khz | SMBUS_2_0_I2C_100khz | I2C_100khz
  | SMBUS_3_0_I2C_400khz | SMBUS_3_0_I2C_1mhz | I2C_3_4mhz | PCIeRev_1_1 | PCIeRev_2_0
  | PCIeRev_2_1 | PCIeRev_3 | PCIeRev_4 | PCIeRev_5 | PCICompatible | USB_1_1 | USB_2
  | USB_3 | NCSIOverRBT | KCSLegacy | KCSPCI | SerialHostLegacy | SerialHostPCI
  | AsyncSerial | I3CBasic.

Definition all : list t :=
  [Unspecified; SMBUS_2_0_100khz; SMBUS_2_0_I2C_100khz; I2C_100khz;
  SMBUS_3_0_I2C_400khz; SMBUS_3_0_I2C_1mhz; I2C_3_4mhz; PCIeRev_1_1; PCIeRev_2_0;
  PCIeRev_2_1; PCIeRev_3; PCIeRev_4; PCIeRev_5; PCICompatible; USB_1_1; USB_2; USB_3;
  NCSIOverRBT; KCSLegacy; KCSPCI; SerialHostLegacy; SerialHostPCI; AsyncSerial;
  I3CBasic].

Definition to_u8 (x : t) : Z :=
  match x with
  | Unspecified => 0x00 | SMBUS_2_0_100khz => 0x01 | SMBUS_2_0_I2C_100khz => 0x02
  | I2C_100khz => 0x03 | SMBUS_3_0_I2C_400khz => 0x04 | SMBUS_3_0_I2C_1mhz => 0x05
  | I2C_3_4mhz => 0x06 | PCIeRev_1_1 => 0x08 | PCIeRev_2_0 => 0x09
  | PCIeRev_2_1 => 0x0a | PCIeRev_3 => 0x0b | PCIeRev_4 => 0x0c | PCIeRev_5 => 0x0d
  | PCICompatible => 0x0f | USB_1_1 => 0x10 | USB_2 => 0x11 | USB_3 => 0x12
  | NCSIOverRBT => 0x18 | KCSLegacy => 0x20 | KCSPCI => 0x21 | SerialHostLegacy => 0x22
  | SerialHostPCI => 0x23 | AsyncSerial => 0x24 | I3CBasic => 0x30
  end.

#[export] Instance u8_enum : U8Enum t :=
  { variants := all; discriminant := to_u8; default_variant := Unspecified }.
#[export] Instance eq_dec : EqDecision t.
Proof. solve_decision. Defined.
#[export] Instance u8_enum_laws : U8EnumLaws t.
Proof. solve_u8_enum. Qed.

End PhysicalMediumIdentifier.
#[export] Existing Instance PhysicalMediumIdentifier.u8_enum.
#[export] Existing Instance PhysicalMediumIdentifier.eq_dec.
#[export] Existing Instance PhysicalMediumIdentifier.u8_enum_laws.

(** physical transport bindings *)
Module PhysicalTransportBinding.

Inductive t : Set :=
  | Reserved | MCTPoverSMBus | MCTPoverPcieVdm | MCTPoverKCS | MCTPoverSerial
  | MCTPoverI3C | VendorDefined.

Definition all : list t :=
  [Reserved; MCTPoverSMBus; MCTPoverPcieVdm; MCTPoverKCS; MCTPoverSerial; MCTPoverI3C;
  VendorDefined].

Definition to_u8 (x : t) : Z :=
  match x with
  | Reserved => 0x00 | MCTPoverSMBus => 0x01 | MCTPoverPcieVdm => 0x02
  | MCTPoverKCS => 0x04 | MCTPoverSerial => 0x05 | MCTPoverI3C => 0x06
  | VendorDefined => 0xff
  end.

#[export] Instance u8_enum : U8Enum t :=
  { variants := all; discriminant := to_u8; default_variant := VendorDefined }.
#[export] Instance eq_dec : EqDecision t.
Proof. solve_decision. Defined.
#[export] Instance u8_enum_laws : U8EnumLaws t.
Proof. solve_u8_enum. Qed.

End PhysicalTransportBinding.
#[export] Existing Instance PhysicalTransportBinding.u8_enum.
#[export] Existing Instance PhysicalTransportBinding.eq_dec.
#[export] Existing Instance PhysicalTransportBinding.u8_enum_laws.
