(* ===== verification/Transport.v ===== *)
(** * The MCTP transport header

    Models [mctp-base-lib/src/base/models.rs]: the packed four-byte header,
    its bit fields, its constructor and the header of a response. *)
From S2P Require Import Prelude Crates Reference Derive.

Definition MCTP_BASE_PROTOCOL_SUPPORTED_HDR_VERSION : Z := 0x1.
#[export] Hint Extern 1 (uint _ MCTP_BASE_PROTOCOL_SUPPORTED_HDR_VERSION) =>
  (unfold uint, MCTP_BASE_PROTOCOL_SUPPORTED_HDR_VERSION; lia) : mctp.

Module TransportHeader.

Record t := mk {
  header_version_rsvd : bytes;                         (** [[u8; 1]] *)
  destination_eid : Z;
  source_eid : Z;
  msg_tag_tag_owner_packet_seq_eom_som : bytes;        (** [[u8; 1]] *)
}.

#[export] Instance eq_dec : EqDecision t.
Proof. solve_decision. Defined.

(** [#[derive(Default)]] *)
Definition default_value : t := mk [0] 0 0 [0].

Section bitfields.
Context `{Bitfields}.

(** The ranges of the [#[bitfield]] attributes. *)
Definition header_version_bits : Z * Z := (0, 3).
Definition rsvd_bits : Z * Z := (4, 7).
Definition msg_tag_bits : Z * Z := (0, 2).
Definition tag_owner_bits : Z * Z := (3, 3).
Definition packet_seq_bits : Z * Z := (4, 5).
Definition eom_bits : Z * Z := (6, 6).
Definition som_bits : Z * Z := (7, 7).

Definition header_version (h : t) : Z := get_field (header_version_rsvd h) header_version_bits.
Definition rsvd (h : t) : Z := get_field (header_version_rsvd h) rsvd_bits.
Definition msg_tag (h : t) : Z :=
  get_field (msg_tag_tag_owner_packet_seq_eom_som h) msg_tag_bits.
Definition tag_owner (h : t) : Z :=
  get_field (msg_tag_tag_owner_packet_seq_eom_som h) tag_owner_bits.
Definition packet_seq (h : t) : Z :=
  get_field (msg_tag_tag_owner_packet_seq_eom_som h) packet_seq_bits.
Definition eom (h : t) : Z := get_field (msg_tag_tag_owner_packet_seq_eom_som h) eom_bits.
Definition som (h : t) : Z := get_field (msg_tag_tag_owner_packet_seq_eom_som h) som_bits.

Definition with_version_byte (f : bytes -> bytes) (h : t) : t :=
  mk (f (header_version_rsvd h)) (destination_eid h) (source_eid h)
    (msg_tag_tag_owner_packet_seq_eom_som h).
Definition with_tag_byte (f : bytes -> bytes) (h : t) : t :=
  mk (header_version_rsvd h) (destination_eid h) (source_eid h)
    (f (msg_tag_tag_owner_packet_seq_eom_som h)).

Definition set_header_version (v : Z) : t -> t :=
  with_version_byte (fun bs => set_field bs header_version_bits v).
Definition set_msg_tag (v : Z) : t -> t := with_tag_byte (fun bs => set_field bs msg_tag_bits v).
Definition set_tag_owner (v : Z) : t -> t :=
  with_tag_byte (fun bs => set_field bs tag_owner_bits v).
Definition set_eom (v : Z) : t -> t := with_tag_byte (fun bs => set_field bs eom_bits v).
Definition set_som (v : Z) : t -> t := with_tag_byte (fun bs => set_field bs som_bits v).

(** [TransportHeader::new]; a builder option that is not set is [None]. *)
Definition new (src_eid dst_eid msg_tag : Z) (tag_owner start_of_msg end_of_msg : option bool) : t :=
  let h := mk [0] dst_eid src_eid [0] in
  let h := set_header_version MCTP_BASE_PROTOCOL_SUPPORTED_HDR_VERSION h in
  let h := set_msg_tag msg_tag h in
  let h := set_tag_owner (bool_to_u8 (default false tag_owner)) h in
  let h := set_som (bool_to_u8 (default false start_of_msg)) h in
  set_eom (bool_to_u8 (default false end_of_msg)) h.

Definition create_response (self : t) : t :=
  new (destination_eid self) (source_eid self) (msg_tag self)
    (Some (tag_owner self =? 0)) (Some true) (Some true).

End bitfields.

#[export] Instance serde : Serde t := {
  size_of := 1 + size_of Z + size_of Z + 1;
  ser_type_of := TStruct [array_type 1; ser_type_of Z; ser_type_of Z; array_type 1];
  to_value h := SStruct [array_to_value (header_version_rsvd h); to_value (destination_eid h);
    to_value (source_eid h); array_to_value (msg_tag_tag_owner_packet_seq_eom_som h)];
  of_value v :=
    match v with
    | SStruct [a; b; c; d] =>
        a ← array_of_value a; b ← of_value b; c ← of_value c; d ← array_of_value d;
        Some (mk a b c d)
    | _ => None
    end;
}.

#[export] Instance valid_header : Valid t := fun h =>
  array_valid 1 (header_version_rsvd h) /\ valid (destination_eid h) /\
  valid (source_eid h) /\ array_valid 1 (msg_tag_tag_owner_packet_seq_eom_som h).

End TransportHeader.
#[export] Existing Instance TransportHeader.serde.
#[export] Existing Instance TransportHeader.valid_header.

(** ** Proofs *)
Module TransportHeaderFacts.
Import TransportHeader.

#[export] Instance header_serde_laws : SerdeLaws t.
Proof. solve_serde serde valid_header. Qed.

#[export] Instance header_lossless : Lossless t.
Proof. solve_lossless serde. Qed.

Section facts.
Context `{CratesLaws}.

Lemma header_new_valid src dst tag o s e :
  u8 src -> u8 dst -> u8 tag -> valid (new src dst tag o s e).
Proof.
  intros. unfold valid, valid_header. cbn.
  split_and!; [|done|done|]; solve_array.
Qed.

(** Every accessor of a new header: the version is 1, the EIDs are the
    arguments, the tag is cut to three bits, an unset flag is 0, and the
    reserved bits and the packet sequence number are 0. *)
Lemma header_new_accessors src dst tag o s e :
  u8 tag ->
  let h := new src dst tag o s e in
  header_version h = 1 /\ rsvd h = 0 /\ source_eid h = src /\ destination_eid h = dst /\
  msg_tag h = tag mod 8 /\ tag_owner h = bool_to_u8 (default false o) /\ packet_seq h = 0 /\
  som h = bool_to_u8 (default false s) /\ eom h = bool_to_u8 (default false e).
Proof.
  intros Htag h. subst h.
  unfold header_version, rsvd, msg_tag, tag_owner, packet_seq, som, eom. cbn.
  split_and!; try done; get_set 1%nat; try done.
Qed.

(** The ranges of the getters. *)
Lemma header_getters_range h :
  valid h ->
  u8 (msg_tag h) /\ (tag_owner h = 0 \/ tag_owner h = 1) /\ u8 (header_version h).
Proof.
  intros ([Hl1 Hb1] & _ & _ & [Hl2 Hb2]).
  assert (in_field (length (msg_tag_tag_owner_packet_seq_eom_som h)) tag_owner_bits) as Hi
    by (rewrite Hl2; solve_in_field).
  pose proof (get_field_uint _ _ Hb2 Hi) as Ho. split_and!.
  - apply get_field_u8; [done|]. rewrite Hl2. solve_in_field.
  - change (uint 1 (tag_owner h)) in Ho. unfold uint in Ho. lia.
  - apply get_field_u8; [done|]. rewrite Hl1. solve_in_field.
Qed.

(** The wire layout of a header, as its accessors see it. *)
Lemma header_layout h :
  valid h ->
  flatten (to_value h) =
    [header_version h + 16 * rsvd h; destination_eid h; source_eid h;
     msg_tag h + 8 * tag_owner h + 16 * packet_seq h + 64 * eom h + 128 * som h].
Proof.
  destruct h as [vb dst src tb]. intros (Hvb & _ & _ & Htb).
  apply array_valid_one in Hvb as (b & Hvb' & Hb), Htb as (c & Htb' & Hc).
  unfold header_version, rsvd, msg_tag, tag_owner, packet_seq, eom, som. simpl in *. subst.
  unfold header_version_bits, rsvd_bits, msg_tag_bits, tag_owner_bits, packet_seq_bits,
    eom_bits, som_bits.
  get_bytes 1%nat.
  cbn [map concat flatten app]. unfold uint in *.
  Z.to_euclidean_division_equations. list_lia.
Qed.

(** The four bytes [TransportHeader::new] puts on the wire. *)
Lemma header_new_wire {E} src dst tag o s e :
  u8 src -> u8 dst -> u8 tag ->
  bytes_from (E:=E) (new src dst tag o s e) =
    Ok [1; dst; src; tag mod 8 + 8 * bool_to_u8 (default false o)
      + 64 * bool_to_u8 (default false e) + 128 * bool_to_u8 (default false s)].
Proof.
  intros Hsrc Hdst Htag. pose proof (header_new_valid src dst tag o s e Hsrc Hdst Htag) as Hv.
  rewrite bytes_from_flatten, header_layout by done.
  destruct (header_new_accessors src dst tag o s e Htag) as (-> & -> & -> & -> & -> & -> & -> & -> & ->).
  list_lia.
Qed.

(** Two headers with the same accessors are the same header. *)
Lemma header_ext h k :
  valid h -> valid k -> flatten (to_value h) = flatten (to_value k) -> h = k.
Proof.
  intros Hh Hk Heq.
  pose proof (try_from_flatten (T:=t) _ h [] (to_value_typed h Hh) (of_to_value h Hh)) as H1.
  pose proof (try_from_flatten (T:=t) _ k [] (to_value_typed k Hk) (of_to_value k Hk)) as H2.
  rewrite Heq, H2 in H1. by injection H1 as ->.
Qed.

Lemma create_response_valid h : valid h -> valid (create_response h).
Proof.
  intros Hh. pose proof (header_getters_range h Hh) as (? & _).
  destruct Hh as (_ & ? & ? & _). by apply header_new_valid.
Qed.

(** Every accessor of the header of a response. *)
Lemma create_response_accessors h :
  valid h ->
  let r := create_response h in
  destination_eid r = source_eid h /\ source_eid r = destination_eid h /\
  msg_tag r = msg_tag h /\ tag_owner r = 1 - tag_owner h /\
  som r = 1 /\ eom r = 1 /\ packet_seq r = 0 /\ header_version r = 1 /\ rsvd r = 0.
Proof.
  intros Hh r. pose proof (header_getters_range h Hh) as (Ht & Ho & _).
  assert (uint 3 (msg_tag h)) as Ht3.
  { destruct Hh as (_ & _ & _ & Hl & Hb). apply (get_field_uint _ msg_tag_bits Hb).
    rewrite Hl. solve_in_field. }
  destruct (header_new_accessors (destination_eid h) (source_eid h) (msg_tag h)
    (Some (tag_owner h =? 0)) (Some true) (Some true) Ht)
    as (Hv & Hrs & Hs & Hd & Hm & Hto & Hp & Hso & Heo).
  subst r. unfold create_response. rewrite Hv, Hrs, Hs, Hd, Hm, Hto, Hp, Hso, Heo.
  rewrite Z.mod_small by done. split_and!; try done.
  by destruct Ho as [-> | ->].
Qed.

(** The header of a response goes back to the sender of the request under the
    request's tag, with the tag owner bit flipped, as a single packet. *)
Theorem create_response_fields h :
  valid h ->
  let r := create_response h in
  destination_eid r = source_eid h /\ source_eid r = destination_eid h /\
  msg_tag r = msg_tag h /\ tag_owner r = 1 - tag_owner h /\
  som r = 1 /\ eom r = 1 /\ packet_seq r = 0 /\
  header_version r = MCTP_BASE_PROTOCOL_SUPPORTED_HDR_VERSION.
Proof. intros Hh r. subst r. by destruct (create_response_accessors h Hh) as (?&?&?&?&?&?&?&?&_). Qed.

(** Answering an answer restores the addressing: the third header in a row is
    the first answer again. *)
Theorem create_response_involutive h :
  valid h -> create_response (create_response (create_response h)) = create_response h.
Proof.
  intros Hh. set (r := create_response h).
  assert (valid r) as Hr by by apply create_response_valid.
  destruct (create_response_accessors h Hh) as (Hd1 & Hs1 & Hm1 & Ho1 & _).
  fold r in Hd1, Hs1, Hm1, Ho1.
  destruct (create_response_accessors r Hr) as (Hd2 & Hs2 & Hm2 & Ho2 & _).
  unfold create_response at 1. rewrite Hd2, Hs2, Hm2, Ho2, Hs1, Hd1, Hm1, Ho1.
  unfold r, create_response. f_equal. f_equal.
  destruct (header_getters_range h Hh) as (_ & [-> | ->] & _); done.
Qed.

End facts.
End TransportHeaderFacts.
#[export] Existing Instance TransportHeaderFacts.header_serde_laws.
#[export] Existing Instance TransportHeaderFacts.header_lossless.

(** ** Witnesses *)
Section witness.
#[local] Existing Instance Reference.crates.
#[local] Existing Instance Reference.crates_laws.

Lemma create_response_fields_witness :
  let h := TransportHeader.mk [1] 9 8 [0xcb] in
  let r := TransportHeader.create_response h in
  valid h /\ TransportHeader.destination_eid r = 8 /\ TransportHeader.source_eid r = 9 /\
  TransportHeader.msg_tag r = 3 /\ TransportHeader.tag_owner r = 0.
Proof.
  intros h r. assert (valid h) as Hh by (repeat split; cbn; solve_bytes || lia).
  destruct (TransportHeaderFacts.create_response_fields h Hh) as (Hd & Hs & Hm & Ho & _).
  split; [exact Hh|]. split; [exact Hd|]. split; [exact Hs|].
  split; [exact (eq_trans Hm eq_refl)|exact (eq_trans Ho eq_refl)].
Defined.

Lemma create_response_involutive_witness :
  let h := TransportHeader.mk [1] 9 8 [0xcb] in
  TransportHeader.create_response (TransportHeader.create_response (TransportHeader.create_response h))
    = TransportHeader.create_response h.
Proof.
  intros h. apply TransportHeaderFacts.create_response_involutive.
  repeat split; cbn; solve_bytes || lia.
Defined.

End witness.
