(* ===== verification/ControlModels.v ===== *)
(** * The control message header and the empty messages

    Models [mctp-base-lib/src/control/models.rs] and the response status trait
    of [mctp-base-lib/src/control.rs]. *)
From S2P Require Import Prelude Crates Reference Derive Enums Transport.

Definition SIZEOF_CONTROL_HDR : Z := 3.

Module ControlMsgHeader.

Record t := mk {
  msg_type_integrity_check_instance_id_rsvd_d_bit_rq : bytes;    (** [[u8; 2]] *)
  command_code : CommandCode.t;
}.

#[export] Instance eq_dec : EqDecision t.
Proof. solve_decision. Defined.

(** [#[derive(Default)]] *)
Definition default_value : t := mk [0; 0] (default_variant (T:=CommandCode.t)).

Section bitfields.
Context `{Bitfields}.

Definition msg_type_bits : Z * Z := (0, 6).
Definition integrity_check_bits : Z * Z := (7, 7).
Definition instance_id_bits : Z * Z := (8, 12).
Definition rsvd_bits : Z * Z := (13, 13).
Definition d_bit_bits : Z * Z := (14, 14).
Definition rq_bits : Z * Z := (15, 15).

Definition getter (r : Z * Z) (h : t) : Z :=
  get_field (msg_type_integrity_check_instance_id_rsvd_d_bit_rq h) r.
Definition setter (r : Z * Z) (v : Z) (h : t) : t :=
  mk (set_field (msg_type_integrity_check_instance_id_rsvd_d_bit_rq h) r v) (command_code h).

Definition msg_type : t -> Z := getter msg_type_bits.
Definition integrity_check : t -> Z := getter integrity_check_bits.
Definition instance_id : t -> Z := getter instance_id_bits.
Definition rsvd : t -> Z := getter rsvd_bits.
Definition d_bit : t -> Z := getter d_bit_bits.
Definition rq : t -> Z := getter rq_bits.
Definition set_integrity_check : Z -> t -> t := setter integrity_check_bits.
Definition set_instance_id : Z -> t -> t := setter instance_id_bits.
Definition set_d_bit : Z -> t -> t := setter d_bit_bits.
Definition set_rq : Z -> t -> t := setter rq_bits.

(** [ControlMsgHeader::new] *)
Definition new (cmd_code : CommandCode.t) (instance_id : Z) (integ_check request datagram : bool) : t :=
  let h := default_value in
  let h := set_rq (bool_to_u8 request) h in
  let h := set_instance_id instance_id h in
  let h := set_integrity_check (bool_to_u8 integ_check) h in
  let h := set_d_bit (bool_to_u8 datagram) h in
  mk (msg_type_integrity_check_instance_id_rsvd_d_bit_rq h) cmd_code.

(** [impl From<TransportHeader> for ControlMsgHeader] *)
Definition from (transport_hdr : TransportHeader.t) : t :=
  let is_req := negb (TransportHeader.tag_owner transport_hdr =? 0) in
  let is_datagram := TransportHeader.destination_eid transport_hdr =? 0xff in
  new (default_variant (T:=CommandCode.t)) 0 true is_req is_datagram.

End bitfields.

#[export] Instance serde `{NumEnum} : Serde t := {
  size_of := 2 + size_of CommandCode.t;
  ser_type_of := TStruct [array_type 2; ser_type_of CommandCode.t];
  to_value h := SStruct [array_to_value (msg_type_integrity_check_instance_id_rsvd_d_bit_rq h);
    to_value (command_code h)];
  of_value v :=
    match v with
    | SStruct [a; b] => a ← array_of_value a; b ← of_value b; Some (mk a b)
    | _ => None
    end;
}.

#[export] Instance valid_header : Valid t := fun h =>
  array_valid 2 (msg_type_integrity_check_instance_id_rsvd_d_bit_rq h) /\ valid (command_code h).

#[export] Instance serde_laws `{NumEnumLaws} : SerdeLaws t.
Proof. solve_serde serde valid_header. Qed.

End ControlMsgHeader.
#[export] Existing Instance ControlMsgHeader.serde.
#[export] Existing Instance ControlMsgHeader.valid_header.
#[export] Existing Instance ControlMsgHeader.serde_laws.

(** [CompletionCode as uint8_t] *)
Definition completion_u8 (c : CompletionCode.t) : Z := discriminant c.

Module EmptyRequest.

Record t := mk { hdr : ControlMsgHeader.t }.

#[export] Instance serde `{NumEnum} : Serde t := {
  size_of := size_of ControlMsgHeader.t;
  ser_type_of := TStruct [ser_type_of ControlMsgHeader.t];
  to_value r := SStruct [to_value (hdr r)];
  of_value v := match v with SStruct [a] => a ← of_value a; Some (mk a) | _ => None end;
}.
#[export] Instance valid_request : Valid t := fun r => valid (hdr r).
#[export] Instance serde_laws `{NumEnumLaws} : SerdeLaws t.
Proof. solve_serde serde valid_request. Qed.

End EmptyRequest.
#[export] Existing Instance EmptyRequest.serde.
#[export] Existing Instance EmptyRequest.valid_request.
#[export] Existing Instance EmptyRequest.serde_laws.

Module EmptyResponse.

Record t := mk { hdr : ControlMsgHeader.t; completion_code : Z }.

Definition new (hdr : ControlMsgHeader.t) (completion_code : Z) : t := mk hdr completion_code.

Definition from `{Bitfields} (req : EmptyRequest.t) (completion_code : CompletionCode.t) : t :=
  let hdr := EmptyRequest.hdr req in
  let hdr := ControlMsgHeader.set_rq 0 hdr in
  new hdr (completion_u8 completion_code).

#[export] Instance serde `{NumEnum} : Serde t := {
  size_of := size_of ControlMsgHeader.t + size_of Z;
  ser_type_of := TStruct [ser_type_of ControlMsgHeader.t; ser_type_of Z];
  to_value r := SStruct [to_value (hdr r); to_value (completion_code r)];
  of_value v :=
    match v with
    | SStruct [a; b] => a ← of_value a; b ← of_value b; Some (mk a b)
    | _ => None
    end;
}.
#[export] Instance valid_response : Valid t := fun r =>
  valid (hdr r) /\ valid (completion_code r).
#[export] Instance serde_laws `{NumEnumLaws} : SerdeLaws t.
Proof. solve_serde serde valid_response. Qed.

End EmptyResponse.
#[export] Existing Instance EmptyResponse.serde.
#[export] Existing Instance EmptyResponse.valid_response.
#[export] Existing Instance EmptyResponse.serde_laws.

(** ** The status of a response

    [#[derive(AddControlMsgResponse)]] implements [ControlMsgReponseStatus] for
    a struct with a [completion_code] field. *)
Class ControlMsgReponseStatus (T : Type) := completion_code_field : T -> Z.

Definition completion_code `{NumEnum, ControlMsgReponseStatus T} (self : T) : CompletionCode.t :=
  from_u8 (completion_code_field self).

Definition is_success `{NumEnum, ControlMsgReponseStatus T} (self : T) : outcome AnyError unit :=
  if negb (bool_decide (from_u8 (completion_code_field self) = CompletionCode.Success)) then
    Err (AnyMsg ("Response returned an error code: " +:+ pretty (completion_code_field self)))
  else Ok tt.

(** ** Proofs *)
Module ControlMsgHeaderFacts.
Import ControlMsgHeader.
Section facts.
Context `{CratesLaws}.

Lemma control_header_new_valid cmd iid ic rq d :
  u8 iid -> valid (new cmd iid ic rq d).
Proof. intros. split; [|done]. cbn. solve_array. Qed.

Lemma set_rq_valid v h : u8 v -> valid h -> valid (set_rq v h).
Proof. intros Hv [Hh _]. split; [|done]. cbn. by apply set_field_valid; [|solve_in_field|]. Qed.

Lemma control_header_range h :
  valid h -> uint 7 (msg_type h) /\ uint 1 (integrity_check h) /\ uint 5 (instance_id h) /\
    uint 1 (rsvd h) /\ uint 1 (d_bit h) /\ uint 1 (rq h).
Proof.
  intros [[Hl Hb] _]. unfold getter.
  split_and!; [apply (get_field_uint _ msg_type_bits)|apply (get_field_uint _ integrity_check_bits)
    |apply (get_field_uint _ instance_id_bits)|apply (get_field_uint _ rsvd_bits)
    |apply (get_field_uint _ d_bit_bits)|apply (get_field_uint _ rq_bits)];
    rewrite ?Hl; first [done | solve_in_field].
Qed.

(** Every accessor of a new control header. *)
Lemma control_header_new_fields cmd iid ic rqb d :
  u8 iid ->
  let h := new cmd iid ic rqb d in
  command_code h = cmd /\ msg_type h = 0 /\ integrity_check h = bool_to_u8 ic /\
  instance_id h = iid mod 32 /\ rsvd h = 0 /\ d_bit h = bool_to_u8 d /\ rq h = bool_to_u8 rqb.
Proof.
  intros Hi h. subst h.
  unfold msg_type, integrity_check, instance_id, rsvd, d_bit, rq, getter. cbn.
  split_and!; try done; get_set 2%nat; done.
Qed.

(** Clearing the request bit of a response's header touches nothing else. *)
Lemma set_rq_fields v h :
  u8 v -> valid h ->
  let k := set_rq v h in
  command_code k = command_code h /\ msg_type k = msg_type h /\
  integrity_check k = integrity_check h /\ instance_id k = instance_id h /\
  rsvd k = rsvd h /\ d_bit k = d_bit h /\ rq k = v mod 2.
Proof.
  intros Hv [Hh _] k. subst k.
  unfold msg_type, integrity_check, instance_id, rsvd, d_bit, rq, getter. cbn.
  split_and!; try done;
    first [ rewrite (get_set_disjoint 2) by first [done | solve_in_field | solve_disjoint]; done
          | rewrite (get_set_same 2) by first [done | solve_in_field]; done ].
Qed.

(** The wire layout of a control header, as its accessors see it. *)
Lemma control_header_layout h :
  valid h ->
  flatten (to_value h) =
    [msg_type h + 128 * integrity_check h;
     instance_id h + 32 * rsvd h + 64 * d_bit h + 128 * rq h; discriminant (command_code h)].
Proof.
  destruct h as [bs cmd]. intros [Hbs _].
  apply array_valid_two in Hbs as (b & c & Hbc & Hb & Hc).
  unfold msg_type, integrity_check, instance_id, rsvd, d_bit, rq, getter. simpl in *. subst.
  unfold msg_type_bits, integrity_check_bits, instance_id_bits, rsvd_bits, d_bit_bits, rq_bits.
  get_bytes 2%nat. cbn [map concat flatten app]. unfold uint in *.
  Z.to_euclidean_division_equations. list_lia.
Qed.

(** The three bytes [ControlMsgHeader::new] puts on the wire. *)
Lemma control_header_new_wire {E} cmd iid ic rqb d :
  u8 iid ->
  bytes_from (E:=E) (new cmd iid ic rqb d) =
    Ok [128 * bool_to_u8 ic; iid mod 32 + 64 * bool_to_u8 d + 128 * bool_to_u8 rqb;
        discriminant cmd].
Proof.
  intros Hi. pose proof (control_header_new_valid cmd iid ic rqb d Hi) as Hv.
  rewrite bytes_from_flatten, control_header_layout by done.
  destruct (control_header_new_fields cmd iid ic rqb d Hi) as (-> & -> & -> & -> & -> & -> & ->).
  list_lia.
Qed.

(** What the control header inherits from the transport header. *)
Theorem control_header_from_transport th :
  valid th ->
  let h := from th in
  command_code h = CommandCode.Unknown /\ msg_type h = 0 /\ integrity_check h = 1 /\
  instance_id h = 0 /\ rq h = TransportHeader.tag_owner th /\
  (d_bit h = 1 <-> TransportHeader.destination_eid th = 0xff).
Proof.
  intros Hth h.
  destruct (control_header_new_fields CommandCode.Unknown 0 true
    (negb (TransportHeader.tag_owner th =? 0)) (TransportHeader.destination_eid th =? 0xff))
    as (Hc & Hm & Hi & Hn & _ & Hd & Hr); [solve_range|].
  subst h. change (from th) with (new CommandCode.Unknown 0 true
    (negb (TransportHeader.tag_owner th =? 0)) (TransportHeader.destination_eid th =? 0xff)).
  rewrite Hc, Hm, Hi, Hn, Hd, Hr. split_and!; try done.
  - destruct (TransportHeaderFacts.header_getters_range th Hth) as (_ & [-> | ->] & _); done.
  - destruct (Z.eqb_spec (TransportHeader.destination_eid th) 0xff); simpl; split; intros; lia.
Qed.

(** C36: Parsing a control header keeps every bit of the first two bytes; the
    command byte is kept only when it names a command. *)
Theorem control_header_reencode {E} bs h :
  is_bytes bs -> try_from_bytes bs = Ok h ->
  exists b0 b1 b2 rest, bs = b0 :: b1 :: b2 :: rest /\
    command_code h = from_u8 b2 /\
    bytes_from (E:=E) h = Ok [b0; b1; discriminant (from_u8 (T:=CommandCode.t) b2)].
Proof.
  intros Hbs Hh. destruct (decide (length bs < 3)%nat) as [Hs|Hl].
  { by rewrite try_from_short in Hh. }
  destruct bs as [|b0 [|b1 [|b2 rest]]]; simpl in Hl; try lia.
  exists b0, b1, b2, rest. split; [done|].
  inversion_clear Hbs as [|? ? H0' Hbs']. inversion_clear Hbs' as [|? ? H1' Hbs''].
  inversion_clear Hbs'' as [|? ? H2' _].
  assert (array_valid 2 [b0; b1]) as Ha by auto with mctp.
  pose proof (try_from_flatten (T:=t) (SStruct [STuple [SU8 b0; SU8 b1]; SU8 b2])
    (mk [b0; b1] (from_u8 b2)) rest) as Hp.
  cbn [flatten map concat app] in Hp. rewrite Hp in Hh; [|solve_typed|done].
  injection Hh as <-. split; [done|]. by rewrite bytes_from_flatten.
Qed.

End facts.
End ControlMsgHeaderFacts.

(** The header a response inherits from its request: the request bit is
    cleared and every other field is the request's. *)
Definition answers `{Bitfields} (rsp req : ControlMsgHeader.t) : Prop :=
  ControlMsgHeader.rq rsp = 0 /\
  ControlMsgHeader.command_code rsp = ControlMsgHeader.command_code req /\
  ControlMsgHeader.instance_id rsp = ControlMsgHeader.instance_id req /\
  ControlMsgHeader.msg_type rsp = ControlMsgHeader.msg_type req /\
  ControlMsgHeader.integrity_check rsp = ControlMsgHeader.integrity_check req /\
  ControlMsgHeader.d_bit rsp = ControlMsgHeader.d_bit req.

Lemma set_rq_0_answers `{CratesLaws} (h : ControlMsgHeader.t) :
  valid h -> valid (ControlMsgHeader.set_rq 0 h) /\ answers (ControlMsgHeader.set_rq 0 h) h.
Proof.
  intros Hh. assert (u8 0) as H0' by solve_range.
  split; [by apply ControlMsgHeaderFacts.set_rq_valid|].
  destruct (ControlMsgHeaderFacts.set_rq_fields 0 h H0' Hh) as (? & ? & ? & ? & ? & ? & ?).
  by split_and!.
Qed.

(** A response is a success exactly when its completion code byte is 0. *)
Theorem is_success_spec `{CratesLaws} `{ControlMsgReponseStatus T} (r : T) :
  (completion_code_field r = 0 /\ is_success r = Ok tt /\
   completion_code r = CompletionCode.Success) \/
  (completion_code_field r <> 0 /\ completion_code r <> CompletionCode.Success /\
   is_success r = Err (AnyMsg ("Response returned an error code: "
     +:+ pretty (completion_code_field r)))).
Proof.
  unfold is_success, completion_code. destruct (decide (completion_code_field r = 0)) as [->|Hne].
  - left. change 0 with (discriminant CompletionCode.Success). rewrite from_u8_discriminant.
    by rewrite bool_decide_true.
  - right. assert (from_u8 (completion_code_field r) <> CompletionCode.Success) as Hns.
    { intros Heq. destruct (from_u8_cases (T:=CompletionCode.t) (completion_code_field r))
        as [Hd|[_ Hd]]; rewrite Heq in Hd; done. }
    by rewrite bool_decide_false.
Qed.

(** ** Witnesses *)
Section witness.
#[local] Existing Instance Reference.crates.
#[local] Existing Instance Reference.crates_laws.

Lemma control_header_reencode_witness :
  exists h, try_from_bytes [0; 0x85; 0x20; 7] = Ok h /\
    exists b0 b1 b2 rest, [0; 0x85; 0x20; 7] = b0 :: b1 :: b2 :: rest /\
      ControlMsgHeader.command_code h = from_u8 b2 /\
      bytes_from (E:=AnyError) h =
        Ok [b0; b1; discriminant (from_u8 (T:=CommandCode.t) b2)].
Proof.
  eexists. split; [vm_compute; reflexivity|].
  apply (ControlMsgHeaderFacts.control_header_reencode (E:=AnyError) [0; 0x85; 0x20; 7]);
    [solve_bytes|vm_compute; reflexivity].
Defined.

Lemma is_success_spec_witness :
  let _ : ControlMsgReponseStatus Z := fun r => r in
  is_success (5 : Z) = Err (AnyMsg "Response returned an error code: 5").
Proof.
  intros status. destruct (is_success_spec (5 : Z)) as [[H0' _]|(_ & _ & He)];
    [discriminate H0'|exact He].
Defined.

End witness.
