(* ===== verification/ControlPayload.v ===== *)
(** * Control payloads

    Models [mctp-base-lib/src/control.rs]: a control message under its
    transport header, its conversions from and to bytes, and the conversion of
    a payload into a message that [#[derive(FromControlPayload)]] quotes
    ([mctp-emu-derive/src/lib.rs]).  What a message type promises to this file
    is the class [ControlMessage]: its encoding starts with the encoding of
    its control header. *)
From S2P Require Import Prelude Crates Reference Derive Enums Transport ControlModels.

Module ControlPayload.

Record t := mk {
  hdr : TransportHeader.t;
  control_hdr : ControlMsgHeader.t;
  payload : bytes;
}.

(** [ControlPayload::new]; the caller has converted [payload] with [into()]. *)
Definition new (hdr : TransportHeader.t) (control_hdr : ControlMsgHeader.t) (payload : bytes) : t :=
  mk hdr control_hdr payload.

(** [ControlPayload::command_code]; [{:?}] prints the variant's name. *)
Definition command_code (self : t) : outcome MctpBaseLibError CommandCode.t :=
  match ControlMsgHeader.command_code (control_hdr self) with
  | CommandCode.Unknown => Err (UnknownValue "Unknown")
  | code => Ok code
  end.

Section conversions.
Context `{Crates}.

(** [create_response_payload] *)
Definition create_response_payload (self : t) (control_hdr : ControlMsgHeader.t)
    (response_body : bytes) : t :=
  let rsp_hdr := TransportHeader.create_response (hdr self) in
  new rsp_hdr control_hdr response_body.

(** [impl From<ControlPayload> for Bytes] *)
Definition into_bytes {E} (p : t) : outcome E bytes :=
  h ← bytes_from (hdr p);
  Ok (h ++ payload p).

(** [impl From<ControlPayload> for Vec<u8>] *)
Definition into_vec {E} (p : t) : outcome E bytes := into_bytes p.

(** [impl TryFrom<Bytes> for ControlPayload] *)
Definition try_from (bs : bytes) : outcome MctpBaseLibError t :=
  let hdr_size := size_of TransportHeader.t in
  let control_hdr_size := size_of ControlMsgHeader.t in
  let total_hdr_size := (hdr_size + control_hdr_size)%nat in
  let msg_size := Z.of_nat (length bs) - Z.of_nat total_hdr_size in
  if msg_size <? 0 then
    Err (InvalidPayloadSize (usize_to_string total_hdr_size) (usize_to_string (length bs)))
  else
    payload ← slice_from bs hdr_size;
    hdr_bytes ← slice bs 0 hdr_size;
    hdr ← try_from_bytes hdr_bytes;
    control_bytes ← slice bs hdr_size total_hdr_size;
    control_hdr ← try_from_bytes control_bytes;
    Ok (new hdr control_hdr payload).

(** [ControlPayload::try_to_response]; [T_try_from] is [T]'s [TryFrom<Bytes>]. *)
Definition try_to_response {F T} (T_try_from : bytes -> outcome F T) (bs : bytes)
    : outcome AnyError (t * T) :=
  p ← context AnyBase "Failed parsing payload" (try_from bs);
  match T_try_from (payload p) with
  | Ok resp => Ok (p, resp)
  | Err _ => Err (AnyMsg "Failed parsing response")
  | Panic w => Panic w
  end.

(** [impl TryFrom<ControlPayload> for T] quoted by [FromControlPayload]. *)
Definition message_try_from {T : Type} `{Serde T} (msg : t) : outcome MctpBaseLibError T :=
  let struct_size := size_of T in
  if decide (length (payload msg) < struct_size)%nat then
    Err (InvalidPayloadSize (usize_to_string struct_size) (usize_to_string (length (payload msg))))
  else
    map_err Other
      (context id "Failed deserializing message" (ok_or AnyBincode (deserialize (payload msg)))).

End conversions.

(** ** The message interface *)

(** A message type: a struct that starts with [hdr: ControlMsgHeader]. *)
Class ControlMessage (T : Type) := message_hdr : T -> ControlMsgHeader.t.

Class ControlMessageLaws (T : Type) `{NumEnum, Serde T, Valid T, ControlMessage T} : Prop := {
  message_hdr_valid m : valid m -> valid (message_hdr m);
  message_hdr_prefix m :
    exists body, flatten (to_value m) = flatten (to_value (message_hdr m)) ++ body;
}.

End ControlPayload.

(** The message interface of a struct whose first field is its header. *)
Ltac solve_control_message :=
  split;
  [ intros m Hm; apply Hm || (destruct Hm; assumption)
  | intros m; eexists; reflexivity ].

#[export] Instance empty_request_message : ControlPayload.ControlMessage EmptyRequest.t :=
  EmptyRequest.hdr.
#[export] Instance empty_request_message_laws `{NumEnum} :
  ControlPayload.ControlMessageLaws EmptyRequest.t.
Proof. solve_control_message. Qed.
#[export] Instance empty_response_message : ControlPayload.ControlMessage EmptyResponse.t :=
  EmptyResponse.hdr.
#[export] Instance empty_response_message_laws `{NumEnum} :
  ControlPayload.ControlMessageLaws EmptyResponse.t.
Proof. solve_control_message. Qed.

Module ControlPayloadFacts.
Import ControlPayload.
Section facts.
Context `{CratesLaws}.

Lemma message_try_from_bytes {T : Type} `{Serde T} (p : t) :
  message_try_from (T:=T) p = try_from_bytes (payload p).
Proof. done. Qed.

Lemma into_bytes_flatten {E} (p : t) :
  valid (hdr p) -> into_bytes (E:=E) p = Ok (flatten (to_value (hdr p)) ++ payload p).
Proof. intros Hp. unfold into_bytes. by rewrite bytes_from_flatten. Qed.

(** The behaviour of [try_from] on every input: an error exactly when the two
    headers do not fit, and otherwise the parsed headers and the bytes after
    the transport header. *)
Lemma payload_try_from_cases bs :
  is_bytes bs ->
  ((length bs < 7)%nat /\
   try_from bs = Err (InvalidPayloadSize "7" (usize_to_string (length bs)))) \/
  ((7 <= length bs)%nat /\ exists p,
    try_from bs = Ok p /\ valid (hdr p) /\ valid (control_hdr p) /\ payload p = drop 4 bs /\
    try_from_bytes bs = Ok (hdr p) /\ try_from_bytes (drop 4 bs) = Ok (control_hdr p)).
Proof.
  intros Hbs. unfold try_from.
  change (size_of TransportHeader.t) with 4%nat. change (size_of ControlMsgHeader.t) with 3%nat.
  cbn zeta. destruct (Z.ltb_spec (Z.of_nat (length bs) - Z.of_nat (4 + 3)) 0) as [Hs|Hl].
  { left. split; [lia|done]. }
  right. split; [lia|].
  rewrite slice_from_Ok, !slice_Ok by lia. cbn [mbind outcome_bind].
  destruct (try_from_long (T:=TransportHeader.t) bs)
    as (v & h & Hv & Hf & Hh & Hvh & Hok); [done|simpl; lia|].
  destruct (try_from_long (T:=ControlMsgHeader.t) (drop 4 bs))
    as (w & c & Hw & Hg & Hc & Hvc & Hok'); [auto with mctp|rewrite length_drop; simpl; lia|].
  pose proof (try_from_flatten v h [] Hv Hh) as H1. rewrite app_nil_r, Hf in H1.
  pose proof (try_from_flatten w c [] Hw Hc) as H2. rewrite app_nil_r, Hg in H2.
  change (size_of TransportHeader.t) with 4%nat in H1.
  change (size_of ControlMsgHeader.t) with 3%nat in H2.
  rewrite drop_0. change (4 - 0)%nat with 4%nat. change (4 + 3 - 4)%nat with 3%nat.
  rewrite H1. cbn [mbind outcome_bind]. rewrite H2. cbn [mbind outcome_bind].
  eexists. split_and!; [reflexivity|done..].
Qed.

(** C27: Re-encoding a parsed payload gives the bytes it was parsed from, the ones
    of an unknown command included. *)
Theorem payload_reencode {E} bs p :
  is_bytes bs -> try_from bs = Ok p -> into_bytes (E:=E) p = Ok bs.
Proof.
  intros Hbs Hp. destruct (payload_try_from_cases bs Hbs) as [[_ He]|(Hl & q & Hq & Hvq & _ & Hpl & Hh & _)];
    [congruence|].
  assert (q = p) as -> by congruence. unfold into_bytes.
  rewrite (bytes_from_try_from bs) by done. cbn [mbind outcome_bind].
  rewrite Hpl. change (size_of TransportHeader.t) with 4%nat. by rewrite take_drop.
Qed.

Lemma payload_roundtrip_iff bs p :
  valid (hdr p) -> is_bytes (payload p) -> into_bytes (E:=MctpBaseLibError) p = Ok bs ->
  (try_from bs = Ok p <-> try_from_bytes (payload p) = Ok (control_hdr p)).
Proof.
  intros Hh Hpl Hbs. rewrite into_bytes_flatten in Hbs by done.
  assert (bs = flatten (to_value (hdr p)) ++ payload p) as -> by congruence. pose proof (flatten_length _ Hh) as Hlen.
  change (size_of TransportHeader.t) with 4%nat in Hlen.
  assert (drop 4 (flatten (to_value (hdr p)) ++ payload p) = payload p) as Hd
    by (by rewrite drop_app_length').
  destruct (payload_try_from_cases (flatten (to_value (hdr p)) ++ payload p))
    as [[Hs He]|(Hl & q & Hq & _ & Hvc & Hqp & Hqh & Hqc)].
  { apply is_bytes_app; [by apply flatten_bytes|done]. }
  - rewrite length_app in Hs. rewrite He. split; [done|]. intros Hc.
    rewrite try_from_short in Hc by (simpl; lia). done.
  - rewrite Hd in Hqp, Hqc. rewrite Hq.
    rewrite (try_from_flatten _ (hdr p)) in Hqh by first [by apply to_value_typed | by apply of_to_value].
    injection Hqh as Hqh. rewrite Hqc. split; [by intros [= ->]|].
    intros [= Hc]. destruct p, q; simpl in *. congruence.
Qed.

(** A payload survives encoding and parsing exactly when its control header is
    the one its payload bytes start with. *)
Theorem payload_roundtrip bs p :
  valid (hdr p) -> is_bytes (payload p) -> into_bytes (E:=MctpBaseLibError) p = Ok bs ->
  (try_from bs = Ok p <-> try_from_bytes (payload p) = Ok (control_hdr p)).
Proof. apply payload_roundtrip_iff. Qed.

Lemma command_code_ok p code :
  command_code p = Ok code <->
  ControlMsgHeader.command_code (control_hdr p) = code /\ code <> CommandCode.Unknown.
Proof.
  unfold command_code. destruct (ControlMsgHeader.command_code (control_hdr p));
    (split; [intros Hc; first [discriminate Hc | injection Hc as <-; by split]
      | intros [<- Hne]; done]).
Qed.

Lemma control_header_of_message {T : Type} `{Serde T, Valid T, ControlMessage T, !ControlMessageLaws T}
    (m : T) rest :
  valid m -> try_from_bytes (flatten (to_value m) ++ rest) = Ok (message_hdr m).
Proof.
  intros Hm. destruct (message_hdr_prefix m) as (body & ->). rewrite <- (assoc_L (++)).
  pose proof (message_hdr_valid m Hm) as Hh.
  by apply try_from_flatten; [apply to_value_typed|apply of_to_value].
Qed.

(** Parsing the packet of a message, whatever bytes follow it: both the request
    path ([try_from] on the payload) and the response path
    ([try_to_response]) give the message back. *)
Lemma message_parse {T : Type} `{SerdeLaws T, !ControlMessage T, !ControlMessageLaws T}
    (th : TransportHeader.t) (m : T) rest :
  valid th -> valid m -> is_bytes rest ->
  let bs := flatten (to_value th) ++ flatten (to_value m) ++ rest in
  let p := new th (message_hdr m) (flatten (to_value m) ++ rest) in
  is_bytes bs /\ try_from bs = Ok p /\ message_try_from p = Ok m /\
  try_to_response (try_from_bytes (T:=T)) bs = Ok (p, m).
Proof.
  intros Hth Hm Hrest bs p.
  assert (is_bytes (payload p)) as Hpb by (apply is_bytes_app; [by apply flatten_bytes|done]).
  assert (try_from_bytes (payload p) = Ok m) as Hself
    by (by apply try_from_flatten; [apply to_value_typed|apply of_to_value]).
  assert (try_from bs = Ok p) as Hparse.
  { apply payload_roundtrip_iff; [done|done|by apply into_bytes_flatten|].
    exact (control_header_of_message m rest Hm). }
  split_and!; [apply is_bytes_app; [by apply flatten_bytes|done]|done|
    by rewrite message_try_from_bytes|].
  unfold try_to_response. rewrite Hparse. cbn [context map_err mbind outcome_bind].
  by rewrite Hself.
Qed.

(** C26: Sending a message and receiving it: a payload built from a message, under
    the message's own control header, is parsed back into the same payload and
    the same message, both by the response path ([try_to_response]) and by the
    request path ([try_from] on the payload). *)
Theorem message_roundtrip {T : Type} `{SerdeLaws T, !ControlMessage T, !ControlMessageLaws T}
    (th : TransportHeader.t) (m : T) :
  valid th -> valid m ->
  exists body bs, bytes_from (E:=AnyError) m = Ok body /\
    into_bytes (E:=AnyError) (new th (message_hdr m) body) = Ok bs /\
    try_from bs = Ok (new th (message_hdr m) body) /\
    message_try_from (new th (message_hdr m) body) = Ok m /\
    try_to_response (try_from_bytes (T:=T)) bs = Ok (new th (message_hdr m) body, m).
Proof.
  intros Hth Hm. exists (flatten (to_value m)), (flatten (to_value th) ++ flatten (to_value m)).
  destruct (message_parse th m [] Hth Hm is_bytes_nil) as (_ & H1' & H2' & H3').
  rewrite !app_nil_r in *.
  split_and!; [by apply bytes_from_flatten|by rewrite into_bytes_flatten|done..].
Qed.

End facts.
End ControlPayloadFacts.

(** ** Witnesses *)
Section witness.
#[local] Existing Instance Reference.crates.
#[local] Existing Instance Reference.crates_laws.

#[local] Abbreviation req_hdr := (TransportHeader.mk [1] 0 8 [0xc9]).
#[local] Abbreviation req_msg := (EmptyRequest.mk (ControlMsgHeader.mk [0; 0x81] CommandCode.DiscoveryNotify)).

Lemma payload_reencode_witness :
  exists p, ControlPayload.try_from [1; 0; 8; 0xc9; 0; 0x81; 0x20; 9] = Ok p /\
    ControlPayload.into_bytes (E:=AnyError) p = Ok [1; 0; 8; 0xc9; 0; 0x81; 0x20; 9].
Proof.
  eexists. split; [vm_compute; reflexivity|].
  apply ControlPayloadFacts.payload_reencode; [solve_bytes|vm_compute; reflexivity].
Defined.

Lemma payload_roundtrip_witness :
  let p := ControlPayload.new req_hdr (ControlMsgHeader.mk [0; 0x81] CommandCode.DiscoveryNotify)
    [0; 0x81; 0x0d] in
  ControlPayload.try_from [1; 0; 8; 0xc9; 0; 0x81; 0x0d] = Ok p.
Proof.
  intros p. apply (ControlPayloadFacts.payload_roundtrip [1; 0; 8; 0xc9; 0; 0x81; 0x0d] p).
  - repeat split; cbn; solve_bytes || lia.
  - cbn; solve_bytes.
  - vm_compute; reflexivity.
  - vm_compute; reflexivity.
Defined.

Lemma message_roundtrip_witness :
  exists body bs, bytes_from (E:=AnyError) req_msg = Ok body /\
    ControlPayload.into_bytes (E:=AnyError) (ControlPayload.new req_hdr
      (ControlPayload.message_hdr req_msg) body) = Ok bs /\
    ControlPayload.try_from bs = Ok (ControlPayload.new req_hdr (ControlPayload.message_hdr req_msg) body).
Proof.
  destruct (ControlPayloadFacts.message_roundtrip req_hdr req_msg)
    as (body & bs & H1' & H2' & H3' & _);
    [repeat split; cbn; solve_bytes || lia..|].
  exists body, bs. split; [exact H1'|]. split; [exact H2'|exact H3'].
Defined.

End witness.
