(* ===== verification/SetEid.v ===== *)
(** * Set Endpoint ID

    Models [mctp-base-lib/src/control/set_eid.rs]. *)
From S2P Require Import Prelude Crates Reference Derive Enums Transport ControlModels ControlPayload.

Module SetEid.

(** What the bus owner asks for. *)
Module Operation.

Inductive t : Set :=
  | SetEid | ForceEid | ResetEid | SetDiscoveredFlag.

Definition all : list t := [SetEid; ForceEid; ResetEid; SetDiscoveredFlag].

Definition to_u8 (x : t) : Z :=
  match x with
  | SetEid => 0
  | ForceEid => 1
  | ResetEid => 2
  | SetDiscoveredFlag => 3
  end.

#[export] Instance u8_enum : U8Enum t :=
  { variants := all; discriminant := to_u8; default_variant := SetEid }.
#[export] Instance eq_dec : EqDecision t.
Proof. solve_decision. Defined.
#[export] Instance u8_enum_laws : U8EnumLaws t.
Proof. solve_u8_enum. Qed.

End Operation.
#[export] Existing Instance Operation.u8_enum.
#[export] Existing Instance Operation.eq_dec.
#[export] Existing Instance Operation.u8_enum_laws.

(** Whether the endpoint took the EID. *)
Module EidAssignmentStatus.

Inductive t : Set :=
  | Accepted | Rejected.

Definition all : list t := [Accepted; Rejected].

Definition to_u8 (x : t) : Z :=
  match x with
  | Accepted => 0
  | Rejected => 1
  end.

#[export] Instance u8_enum : U8Enum t :=
  { variants := all; discriminant := to_u8; default_variant := Rejected }.
#[export] Instance eq_dec : EqDecision t.
Proof. solve_decision. Defined.
#[export] Instance u8_enum_laws : U8EnumLaws t.
Proof. solve_u8_enum. Qed.

End EidAssignmentStatus.
#[export] Existing Instance EidAssignmentStatus.u8_enum.
#[export] Existing Instance EidAssignmentStatus.eq_dec.
#[export] Existing Instance EidAssignmentStatus.u8_enum_laws.

(** Whether the endpoint needs a pool of EIDs. *)
Module EidAllocationStatus.

Inductive t : Set :=
  | NoPoolSupport | RequiresPoolAllocation | PoolAlreadyAllocated.

Definition all : list t := [NoPoolSupport; RequiresPoolAllocation; PoolAlreadyAllocated].

Definition to_u8 (x : t) : Z :=
  match x with
  | NoPoolSupport => 0
  | RequiresPoolAllocation => 1
  | PoolAlreadyAllocated => 2
  end.

#[export] Instance u8_enum : U8Enum t :=
  { variants := all; discriminant := to_u8; default_variant := NoPoolSupport }.
#[export] Instance eq_dec : EqDecision t.
Proof. solve_decision. Defined.
#[export] Instance u8_enum_laws : U8EnumLaws t.
Proof. solve_u8_enum. Qed.

End EidAllocationStatus.
#[export] Existing Instance EidAllocationStatus.u8_enum.
#[export] Existing Instance EidAllocationStatus.eq_dec.
#[export] Existing Instance EidAllocationStatus.u8_enum_laws.

Module Request.

Record t := mk {
  hdr : ControlMsgHeader.t;
  operation_reserved : bytes;      (** [[u8; 1]] *)
  eid : Z;
}.

Section bitfields.
Context `{Bitfields}.

Definition operation_bits : Z * Z := (0, 1).
Definition reserved_bits : Z * Z := (2, 7).
Definition operation (r : t) : Z := get_field (operation_reserved r) operation_bits.
Definition reserved (r : t) : Z := get_field (operation_reserved r) reserved_bits.
Definition set_operation (v : Z) (r : t) : t :=
  mk (hdr r) (set_field (operation_reserved r) operation_bits v) (eid r).

Definition new (hdr : ControlMsgHeader.t) (operation : Operation.t) (eid : Z) : t :=
  set_operation (discriminant operation) (mk hdr [0] eid).

End bitfields.

#[export] Instance serde `{NumEnum} : Serde t := {
  size_of := size_of ControlMsgHeader.t + 1 + size_of Z;
  ser_type_of := TStruct [ser_type_of ControlMsgHeader.t;
    array_type 1;
    ser_type_of Z];
  to_value r := SStruct [to_value (hdr r);
    array_to_value (operation_reserved r);
    to_value (eid r)];
  of_value v :=
    match v with
    | SStruct [a; b; c] =>
        a ← of_value a; b ← array_of_value b; c ← of_value c;
        Some (mk a b c)
    | _ => None
    end;
}.

#[export] Instance valid_request : Valid t := fun r =>
  valid (hdr r) /\
  array_valid 1 (operation_reserved r) /\
  valid (eid r).
#[export] Instance serde_laws `{NumEnumLaws} : SerdeLaws t.
Proof. solve_serde serde valid_request. Qed.
#[export] Instance control_message : ControlPayload.ControlMessage t := hdr.
#[export] Instance control_message_laws `{NumEnum} : ControlPayload.ControlMessageLaws t.
Proof. solve_control_message. Qed.

End Request.
#[export] Existing Instance Request.serde.
#[export] Existing Instance Request.valid_request.
#[export] Existing Instance Request.serde_laws.
#[export] Existing Instance Request.control_message.
#[export] Existing Instance Request.control_message_laws.

Module Response.

Record t := mk {
  hdr : ControlMsgHeader.t;
  completion_code : Z;
  eid_allocation_status_reserved1_eid_assignment_status_reserved2 : bytes;   (** [[u8; 1]] *)
  eid_setting : Z;
  eid_pool_size : Z;
}.

Section bitfields.
Context `{Bitfields}.

Definition raw_eid_allocation_status_bits : Z * Z := (0, 1).
Definition reserved1_bits : Z * Z := (2, 3).
Definition eid_assignment_status_bits : Z * Z := (4, 5).
Definition reserved2_bits : Z * Z := (6, 7).
Definition getter (b : Z * Z) (r : t) : Z :=
  get_field (eid_allocation_status_reserved1_eid_assignment_status_reserved2 r) b.
Definition setter (b : Z * Z) (v : Z) (r : t) : t :=
  mk (hdr r) (completion_code r)
    (set_field (eid_allocation_status_reserved1_eid_assignment_status_reserved2 r) b v)
    (eid_setting r) (eid_pool_size r).
Definition raw_eid_allocation_status : t -> Z := getter raw_eid_allocation_status_bits.
Definition reserved1 : t -> Z := getter reserved1_bits.
Definition eid_assignment_status : t -> Z := getter eid_assignment_status_bits.
Definition reserved2 : t -> Z := getter reserved2_bits.
Definition set_raw_eid_allocation_status : Z -> t -> t := setter raw_eid_allocation_status_bits.
Definition set_eid_assignment_status : Z -> t -> t := setter eid_assignment_status_bits.

Definition new (hdr : ControlMsgHeader.t) (completion_code : Z)
    (eid_allocation_status : EidAllocationStatus.t) (eid_assignment_status : EidAssignmentStatus.t)
    (eid_setting eid_pool_size : Z) : t :=
  let r := mk hdr completion_code [0] eid_setting eid_pool_size in
  let r := set_raw_eid_allocation_status (discriminant eid_allocation_status) r in
  set_eid_assignment_status (discriminant eid_assignment_status) r.

Definition from (req : Request.t) (completion_code : CompletionCode.t)
    (eid_allocation_status : EidAllocationStatus.t) (eid_assignment_status : EidAssignmentStatus.t)
    (eid_setting eid_pool_size : Z) : t :=
  let hdr := Request.hdr req in
  let hdr := ControlMsgHeader.set_rq 0 hdr in
  new hdr (completion_u8 completion_code) eid_allocation_status eid_assignment_status
    eid_setting eid_pool_size.

Definition eid_allocation_status `{NumEnum} (r : t) : EidAllocationStatus.t :=
  from_u8 (raw_eid_allocation_status r).

End bitfields.

#[export] Instance serde `{NumEnum} : Serde t := {
  size_of := size_of ControlMsgHeader.t + size_of Z + 1 + size_of Z + size_of Z;
  ser_type_of := TStruct [ser_type_of ControlMsgHeader.t;
    ser_type_of Z;
    array_type 1;
    ser_type_of Z;
    ser_type_of Z];
  to_value r := SStruct [to_value (hdr r);
    to_value (completion_code r);
    array_to_value (eid_allocation_status_reserved1_eid_assignment_status_reserved2 r);
    to_value (eid_setting r);
    to_value (eid_pool_size r)];
  of_value v :=
    match v with
    | SStruct [a; b; c; d; e] =>
        a ← of_value a; b ← of_value b; c ← array_of_value c; d ← of_value d; e ← of_value e;
        Some (mk a b c d e)
    | _ => None
    end;
}.

#[export] Instance valid_response : Valid t := fun r =>
  valid (hdr r) /\
  valid (completion_code r) /\
  array_valid 1 (eid_allocation_status_reserved1_eid_assignment_status_reserved2 r) /\
  valid (eid_setting r) /\
  valid (eid_pool_size r).
#[export] Instance serde_laws `{NumEnumLaws} : SerdeLaws t.
Proof. solve_serde serde valid_response. Qed.
#[export] Instance control_message : ControlPayload.ControlMessage t := hdr.
#[export] Instance control_message_laws `{NumEnum} : ControlPayload.ControlMessageLaws t.
Proof. solve_control_message. Qed.
#[export] Instance response_status : ControlMsgReponseStatus t := completion_code.

End Response.
#[export] Existing Instance Response.serde.
#[export] Existing Instance Response.valid_response.
#[export] Existing Instance Response.serde_laws.
#[export] Existing Instance Response.control_message.
#[export] Existing Instance Response.control_message_laws.

#[export] Existing Instance Response.response_status.

End SetEid.
#[export] Existing Instance SetEid.Operation.u8_enum.
#[export] Existing Instance SetEid.Operation.eq_dec.
#[export] Existing Instance SetEid.Operation.u8_enum_laws.
#[export] Existing Instance SetEid.EidAssignmentStatus.u8_enum.
#[export] Existing Instance SetEid.EidAssignmentStatus.eq_dec.
#[export] Existing Instance SetEid.EidAssignmentStatus.u8_enum_laws.
#[export] Existing Instance SetEid.EidAllocationStatus.u8_enum.
#[export] Existing Instance SetEid.EidAllocationStatus.eq_dec.
#[export] Existing Instance SetEid.EidAllocationStatus.u8_enum_laws.
#[export] Existing Instance SetEid.Request.serde.
#[export] Existing Instance SetEid.Request.valid_request.
#[export] Existing Instance SetEid.Request.serde_laws.
#[export] Existing Instance SetEid.Request.control_message.
#[export] Existing Instance SetEid.Request.control_message_laws.
#[export] Existing Instance SetEid.Response.serde.
#[export] Existing Instance SetEid.Response.valid_response.
#[export] Existing Instance SetEid.Response.serde_laws.
#[export] Existing Instance SetEid.Response.control_message.
#[export] Existing Instance SetEid.Response.control_message_laws.
#[export] Existing Instance SetEid.Response.response_status.

(** ** Proofs *)
Module SetEidFacts.
Import SetEid.
Section facts.
Context `{CratesLaws}.

Lemma discriminant_operation_u8 (o : Operation.t) : u8 (discriminant o).
Proof. apply discriminant_u8. Qed.
Lemma discriminant_allocation_u8 (o : EidAllocationStatus.t) : u8 (discriminant o).
Proof. apply discriminant_u8. Qed.
Lemma discriminant_assignment_u8 (o : EidAssignmentStatus.t) : u8 (discriminant o).
Proof. apply discriminant_u8. Qed.
#[local] Hint Resolve discriminant_operation_u8 discriminant_allocation_u8
  discriminant_assignment_u8 : mctp.

(** A request carries its operation and EID, with the reserved bits 0. *)
Lemma set_eid_request_accessors h o e :
  valid h -> u8 e ->
  let r := Request.new h o e in
  valid r /\ Request.hdr r = h /\ Request.eid r = e /\
  Request.operation r = discriminant o /\ Request.reserved r = 0.
Proof.
  intros Hh He r. subst r. unfold Request.operation, Request.reserved. cbn.
  split_and!; try done.
  - split_and!; try done. cbn. solve_array.
  - get_set 1%nat. by destruct o.
  - by get_set 1%nat.
Qed.

(** The wire layout of a request. *)
Lemma set_eid_request_layout r :
  valid r ->
  flatten (to_value r) = flatten (to_value (Request.hdr r)) ++
    [Request.operation r + 4 * Request.reserved r; Request.eid r].
Proof.
  destruct r as [h bs e]. intros (_ & Hbs & _). apply array_valid_one in Hbs as (b & Hb' & Hb).
  unfold Request.operation, Request.reserved. cbn in Hb'. subst.
  cbn [flatten to_value Request.serde Request.hdr Request.eid Request.operation_reserved map concat
    u8_serde array_to_value app].
  apply (f_equal (app _)). unfold Request.operation_bits, Request.reserved_bits.
  get_bytes 1%nat. unfold uint in *. Z.to_euclidean_division_equations. list_lia.
Qed.

(** A response reads back the statuses, EID and pool size it was built from,
    its reserved bits are 0, and its header answers the request's. *)
Lemma set_eid_response_accessors req cc al asg e pool :
  valid req -> u8 e -> u8 pool ->
  let r := Response.from req cc al asg e pool in
  valid r /\ answers (Response.hdr r) (Request.hdr req) /\
  Response.completion_code r = discriminant cc /\ Response.eid_setting r = e /\
  Response.eid_pool_size r = pool /\
  Response.raw_eid_allocation_status r = discriminant al /\
  Response.eid_allocation_status r = al /\
  Response.eid_assignment_status r = discriminant asg /\
  Response.reserved1 r = 0 /\ Response.reserved2 r = 0.
Proof.
  intros (Hh & _) He Hp r.
  destruct (set_rq_0_answers _ Hh) as [Hvh Hans].
  assert (Response.raw_eid_allocation_status r = discriminant al) as Hraw.
  { unfold Response.raw_eid_allocation_status, Response.getter. cbn. get_set 1%nat. by destruct al. }
  unfold Response.eid_allocation_status. rewrite Hraw, from_u8_discriminant. subst r.
  unfold Response.eid_assignment_status, Response.reserved1, Response.reserved2, Response.getter.
  cbn. split_and!; try done; try by get_set 1%nat.
  - split_and!; cbn; try done; [by destruct cc|solve_array].
  - get_set 1%nat. by destruct asg.
Qed.

(** The wire layout of a response after its header. *)
Lemma set_eid_response_layout r :
  valid r ->
  flatten (to_value r) = flatten (to_value (Response.hdr r)) ++
    [Response.completion_code r;
     Response.raw_eid_allocation_status r + 4 * Response.reserved1 r
       + 16 * Response.eid_assignment_status r + 64 * Response.reserved2 r;
     Response.eid_setting r; Response.eid_pool_size r].
Proof.
  destruct r as [h c bs e p]. intros (_ & _ & Hbs & _).
  apply array_valid_one in Hbs as (b & Hb' & Hb).
  unfold Response.raw_eid_allocation_status, Response.reserved1, Response.eid_assignment_status,
    Response.reserved2, Response.getter. cbn in Hb'. subst.
  cbn [flatten to_value Response.serde Response.hdr Response.completion_code Response.eid_setting
    Response.eid_pool_size map concat u8_serde array_to_value app
    Response.eid_allocation_status_reserved1_eid_assignment_status_reserved2].
  apply (f_equal (app _)).
  unfold Response.raw_eid_allocation_status_bits, Response.reserved1_bits,
    Response.eid_assignment_status_bits, Response.reserved2_bits.
  get_bytes 1%nat. unfold uint in *. Z.to_euclidean_division_equations. list_lia.
Qed.

(** The encoding of a response built from a request. *)
Lemma set_eid_response_flatten req cc al asg e pool :
  valid req -> u8 e -> u8 pool ->
  let r := Response.from req cc al asg e pool in
  flatten (to_value r) = flatten (to_value (Response.hdr r)) ++
    [discriminant cc; discriminant al + 16 * discriminant asg; e; pool].
Proof.
  intros Hreq He Hp r.
  destruct (set_eid_response_accessors req cc al asg e pool Hreq He Hp)
    as (Hv & _ & Hc & He' & Hp' & Hal & _ & Has & Hr1 & Hr2).
  fold r in Hv, Hc, He', Hp', Hal, Has, Hr1, Hr2.
  rewrite set_eid_response_layout by done. rewrite Hc, He', Hp', Hal, Has, Hr1, Hr2.
  apply (f_equal (app _)). list_lia.
Qed.

(** A response on the wire: its header, which answers the request's, and four
    bytes; its accessors read back what it was built from. *)
Theorem set_eid_response_wire {E} req cc al asg e pool :
  valid req -> u8 e -> u8 pool ->
  let r := Response.from req cc al asg e pool in
  bytes_from (E:=E) r =
    Ok (flatten (to_value (Response.hdr r)) ++
        [discriminant cc; discriminant al + 16 * discriminant asg; e; pool]) /\
  answers (Response.hdr r) (Request.hdr req) /\
  Response.eid_allocation_status r = al /\ Response.eid_assignment_status r = discriminant asg /\
  Response.eid_setting r = e /\ Response.eid_pool_size r = pool.
Proof.
  intros Hreq He Hp r.
  destruct (set_eid_response_accessors req cc al asg e pool Hreq He Hp)
    as (Hv & Ha & _ & He' & Hp' & _ & Hal & Has & _). fold r in Hv, Ha, He', Hp', Hal, Has.
  split_and!; [|done..]. rewrite bytes_from_flatten by done.
  by apply (f_equal Ok), set_eid_response_flatten.
Qed.

End facts.
End SetEidFacts.

(** ** Witnesses *)
Section witness.
#[local] Existing Instance Reference.crates.
#[local] Existing Instance Reference.crates_laws.

Lemma set_eid_response_wire_witness :
  let req := SetEid.Request.mk (ControlMsgHeader.mk [0; 0x81] CommandCode.SetEndpointID) [0] 0x42 in
  let r := SetEid.Response.from req CompletionCode.Success
    SetEid.EidAllocationStatus.RequiresPoolAllocation SetEid.EidAssignmentStatus.Rejected 0x42 3 in
  bytes_from (E:=AnyError) r = Ok [0; 1; 1; 0; 0x11; 0x42; 3].
Proof.
  intros req r. destruct (SetEidFacts.set_eid_response_wire (E:=AnyError) req CompletionCode.Success
    SetEid.EidAllocationStatus.RequiresPoolAllocation SetEid.EidAssignmentStatus.Rejected 0x42 3)
    as [Hw _]; [repeat split; cbn; solve_bytes || lia|solve_range|solve_range|].
  exact (eq_trans Hw ltac:(vm_compute; reflexivity)).
Defined.

End witness.
