(* ===== verification/GetEid.v ===== *)
(** * Get Endpoint ID

    Models [mctp-base-lib/src/control/get_eid.rs]. *)
From S2P Require Import Prelude Crates Reference Derive Enums Transport ControlModels ControlPayload.

Module GetEid.

(** How the endpoint got its EID. *)
Module EidType.

Inductive t : Set :=
  | Dynamic | StaticSupportedWithPresentEidReturned | StaticMatch | StaticMismatch.

Definition all : list t := [Dynamic; StaticSupportedWithPresentEidReturned; StaticMatch; StaticMismatch].

Definition to_u8 (x : t) : Z :=
  match x with
  | Dynamic => 0
  | StaticSupportedWithPresentEidReturned => 1
  | StaticMatch => 2
  | StaticMismatch => 3
  end.

#[export] Instance u8_enum : U8Enum t :=
  { variants := all; discriminant := to_u8; default_variant := Dynamic }.
#[export] Instance eq_dec : EqDecision t.
Proof. solve_decision. Defined.
#[export] Instance u8_enum_laws : U8EnumLaws t.
Proof. solve_u8_enum. Qed.

End EidType.
#[export] Existing Instance EidType.u8_enum.
#[export] Existing Instance EidType.eq_dec.
#[export] Existing Instance EidType.u8_enum_laws.

(** What kind of endpoint answers. *)
Module EndpointType.

Inductive t : Set :=
  | Simple | BusOwnerOrBridge.

Definition all : list t := [Simple; BusOwnerOrBridge].

Definition to_u8 (x : t) : Z :=
  match x with
  | Simple => 0
  | BusOwnerOrBridge => 1
  end.

#[export] Instance u8_enum : U8Enum t :=
  { variants := all; discriminant := to_u8; default_variant := Simple }.
#[export] Instance eq_dec : EqDecision t.
Proof. solve_decision. Defined.
#[export] Instance u8_enum_laws : U8EnumLaws t.
Proof. solve_u8_enum. Qed.

End EndpointType.
#[export] Existing Instance EndpointType.u8_enum.
#[export] Existing Instance EndpointType.eq_dec.
#[export] Existing Instance EndpointType.u8_enum_laws.

Module Request.

Record t := mk { hdr : ControlMsgHeader.t }.

#[export] Instance serde `{NumEnum} : Serde t := {
  size_of := size_of ControlMsgHeader.t;
  ser_type_of := TStruct [ser_type_of ControlMsgHeader.t];
  to_value r := SStruct [to_value (hdr r)];
  of_value v :=
    match v with
    | SStruct [a] =>
        a ← of_value a;
        Some (mk a)
    | _ => None
    end;
}.

#[export] Instance valid_request : Valid t := fun r =>
  valid (hdr r).
#[export] Instance serde_laws `{NumEnumLaws} : SerdeLaws t.
Proof. solve_serde serde valid_request. Qed.
#[export] Instance control_message : ControlPayload.ControlMessage t := hdr.
#[export] Instance control_message_laws `{NumEnum} : ControlPayload.ControlMessageLaws t.
Proof. solve_control_message. Qed.

End Request.
#[export] Existing Instance Request.serde.
#[export] Existing Instance Request.valid_request.
#[export] Existing Instance Request.serde_laws.
#[export] Existing Instance Request.control_message.
#[export] Existing Instance Request.control_message_laws.

Module Response.

Record t := mk {
  hdr : ControlMsgHeader.t;
  completion_code : Z;
  eid : Z;
  eid_endpoint_type : bytes;       (** [[u8; 1]] *)
  medium_specific : Z;
}.

Section bitfields.
Context `{Bitfields}.

Definition eid_type_bits : Z * Z := (0, 1).
Definition reserved1_bits : Z * Z := (2, 3).
Definition endpoint_type_bits : Z * Z := (4, 5).
Definition reserved2_bits : Z * Z := (6, 7).
Definition getter (b : Z * Z) (r : t) : Z := get_field (eid_endpoint_type r) b.
Definition setter (b : Z * Z) (v : Z) (r : t) : t :=
  mk (hdr r) (completion_code r) (eid r) (set_field (eid_endpoint_type r) b v) (medium_specific r).
Definition eid_type : t -> Z := getter eid_type_bits.
Definition reserved1 : t -> Z := getter reserved1_bits.
Definition endpoint_type : t -> Z := getter endpoint_type_bits.
Definition reserved2 : t -> Z := getter reserved2_bits.
Definition set_eid_type : Z -> t -> t := setter eid_type_bits.
Definition set_endpoint_type : Z -> t -> t := setter endpoint_type_bits.

Definition new (hdr : ControlMsgHeader.t) (completion_code eid : Z) (eid_type : EidType.t)
    (endpoint_type : EndpointType.t) (medium_specific : Z) : t :=
  let r := mk hdr completion_code eid [0] medium_specific in
  let r := set_eid_type (discriminant eid_type) r in
  set_endpoint_type (discriminant endpoint_type) r.

Definition from (req : Request.t) (completion_code : CompletionCode.t) (eid : Z)
    (eid_type : EidType.t) (endpoint_type : EndpointType.t) (medium_specific : Z) : t :=
  let hdr := Request.hdr req in
  let hdr := ControlMsgHeader.set_rq 0 hdr in
  new hdr (completion_u8 completion_code) eid eid_type endpoint_type medium_specific.

End bitfields.

#[export] Instance serde `{NumEnum} : Serde t := {
  size_of := size_of ControlMsgHeader.t + size_of Z + size_of Z + 1 + size_of Z;
  ser_type_of := TStruct [ser_type_of ControlMsgHeader.t;
    ser_type_of Z;
    ser_type_of Z;
    array_type 1;
    ser_type_of Z];
  to_value r := SStruct [to_value (hdr r);
    to_value (completion_code r);
    to_value (eid r);
    array_to_value (eid_endpoint_type r);
    to_value (medium_specific r)];
  of_value v :=
    match v with
    | SStruct [a; b; c; d; e] =>
        a ← of_value a; b ← of_value b; c ← of_value c; d ← array_of_value d; e ← of_value e;
        Some (mk a b c d e)
    | _ => None
    end;
}.

#[export] Instance valid_response : Valid t := fun r =>
  valid (hdr r) /\
  valid (completion_code r) /\
  valid (eid r) /\
  array_valid 1 (eid_endpoint_type r) /\
  valid (medium_specific r).
#[export] Instance serde_laws `{NumEnumLaws} : SerdeLaws t.
Proof. solve_serde serde valid_response. Qed.
#[export] Instance control_message : ControlPayload.ControlMessage t := hdr.
#[export] Instance control_message_laws `{NumEnum} : ControlPayload.ControlMessageLaws t.
Proof. solve_control_message. Qed.
#[export] Instance response_status : ControlMsgReponseStatus t := completion_code.

End Response.
#[export] Existing Instance Response.serde.
#[export] Existing Instance Response.valid_response.
#[export] Existing Instance Response.serde_laws.
#[export] Existing Instance Response.control_message.
#[export] Existing Instance Response.control_message_laws.

#[export] Existing Instance Response.response_status.

End GetEid.
#[export] Existing Instance GetEid.EidType.u8_enum.
#[export] Existing Instance GetEid.EidType.eq_dec.
#[export] Existing Instance GetEid.EidType.u8_enum_laws.
#[export] Existing Instance GetEid.EndpointType.u8_enum.
#[export] Existing Instance GetEid.EndpointType.eq_dec.
#[export] Existing Instance GetEid.EndpointType.u8_enum_laws.
#[export] Existing Instance GetEid.Request.serde.
#[export] Existing Instance GetEid.Request.valid_request.
#[export] Existing Instance GetEid.Request.serde_laws.
#[export] Existing Instance GetEid.Request.control_message.
#[export] Existing Instance GetEid.Request.control_message_laws.
#[export] Existing Instance GetEid.Response.serde.
#[export] Existing Instance GetEid.Response.valid_response.
#[export] Existing Instance GetEid.Response.serde_laws.
#[export] Existing Instance GetEid.Response.control_message.
#[export] Existing Instance GetEid.Response.control_message_laws.
#[export] Existing Instance GetEid.Response.response_status.

(** ** Proofs *)
Module GetEidFacts.
Import GetEid.
Section facts.
Context `{CratesLaws}.

Lemma discriminant_eid_type_u8 (o : EidType.t) : u8 (discriminant o).
Proof. apply discriminant_u8. Qed.
Lemma discriminant_endpoint_type_u8 (o : EndpointType.t) : u8 (discriminant o).
Proof. apply discriminant_u8. Qed.
#[local] Hint Resolve discriminant_eid_type_u8 discriminant_endpoint_type_u8 : mctp.

(** A response reads back the EID and the two types it was built from, its
    reserved bits are 0, and its header answers the request's. *)
Lemma get_eid_response_accessors req cc e et pt ms :
  valid req -> u8 e -> u8 ms ->
  let r := Response.from req cc e et pt ms in
  valid r /\ answers (Response.hdr r) (Request.hdr req) /\
  Response.completion_code r = discriminant cc /\ Response.eid r = e /\
  Response.medium_specific r = ms /\
  Response.eid_type r = discriminant et /\ Response.endpoint_type r = discriminant pt /\
  Response.reserved1 r = 0 /\ Response.reserved2 r = 0.
Proof.
  intros Hh He Hm r. destruct (set_rq_0_answers _ Hh) as [Hvh Hans]. subst r.
  unfold Response.eid_type, Response.endpoint_type, Response.reserved1, Response.reserved2,
    Response.getter. cbn.
  split_and!; try done; try by get_set 1%nat.
  - split_and!; cbn; try done; [by destruct cc|solve_array].
  - get_set 1%nat. by destruct et.
  - get_set 1%nat. by destruct pt.
Qed.

(** The wire layout of a response after its header. *)
Lemma get_eid_response_layout r :
  valid r ->
  flatten (to_value r) = flatten (to_value (Response.hdr r)) ++
    [Response.completion_code r; Response.eid r;
     Response.eid_type r + 4 * Response.reserved1 r
       + 16 * Response.endpoint_type r + 64 * Response.reserved2 r;
     Response.medium_specific r].
Proof.
  destruct r as [h c e bs m]. intros (_ & _ & _ & Hbs & _).
  apply array_valid_one in Hbs as (b & Hb' & Hb).
  unfold Response.eid_type, Response.reserved1, Response.endpoint_type,
    Response.reserved2, Response.getter. cbn in Hb'. subst.
  cbn [flatten to_value Response.serde Response.hdr Response.completion_code Response.eid
    Response.medium_specific map concat u8_serde array_to_value app Response.eid_endpoint_type].
  apply (f_equal (app _)).
  unfold Response.eid_type_bits, Response.reserved1_bits, Response.endpoint_type_bits,
    Response.reserved2_bits.
  get_bytes 1%nat. unfold uint in *. Z.to_euclidean_division_equations. list_lia.
Qed.

(** The encoding of a response built from a request. *)
Lemma get_eid_response_flatten req cc e et pt ms :
  valid req -> u8 e -> u8 ms ->
  let r := Response.from req cc e et pt ms in
  flatten (to_value r) = flatten (to_value (Response.hdr r)) ++
    [discriminant cc; e; discriminant et + 16 * discriminant pt; ms].
Proof.
  intros Hreq He Hm r.
  destruct (get_eid_response_accessors req cc e et pt ms Hreq He Hm)
    as (Hv & _ & Hc & He' & Hm' & Het & Hpt & Hr1 & Hr2).
  fold r in Hv, Hc, He', Hm', Het, Hpt, Hr1, Hr2.
  rewrite get_eid_response_layout by done. rewrite Hc, He', Hm', Het, Hpt, Hr1, Hr2.
  apply (f_equal (app _)). list_lia.
Qed.

(** A response on the wire: its header, which answers the request's, and four
    bytes; its accessors read back what it was built from. *)
Theorem get_eid_response_wire {E} req cc e et pt ms :
  valid req -> u8 e -> u8 ms ->
  let r := Response.from req cc e et pt ms in
  bytes_from (E:=E) r =
    Ok (flatten (to_value (Response.hdr r)) ++
        [discriminant cc; e; discriminant et + 16 * discriminant pt; ms]) /\
  answers (Response.hdr r) (Request.hdr req) /\
  Response.eid r = e /\ from_u8 (Response.eid_type r) = et /\
  from_u8 (Response.endpoint_type r) = pt /\ Response.medium_specific r = ms.
Proof.
  intros Hreq He Hm r.
  destruct (get_eid_response_accessors req cc e et pt ms Hreq He Hm)
    as (Hv & Ha & _ & He' & Hm' & Het & Hpt & _). fold r in Hv, Ha, He', Hm', Het, Hpt.
  rewrite Het, Hpt, !from_u8_discriminant.
  split_and!; [|done..]. rewrite bytes_from_flatten by done.
  by apply (f_equal Ok), get_eid_response_flatten.
Qed.

End facts.
End GetEidFacts.

(** ** Witnesses *)
Section witness.
#[local] Existing Instance Reference.crates.
#[local] Existing Instance Reference.crates_laws.

Lemma get_eid_response_wire_witness :
  let req := GetEid.Request.mk (ControlMsgHeader.mk [0; 0x81] CommandCode.GetEndpointID) in
  let r := GetEid.Response.from req CompletionCode.Success 0x42
    GetEid.EidType.StaticMatch GetEid.EndpointType.BusOwnerOrBridge 3 in
  bytes_from (E:=AnyError) r = Ok [0; 1; 2; 0; 0x42; 0x12; 3].
Proof.
  intros req r. destruct (GetEidFacts.get_eid_response_wire (E:=AnyError) req CompletionCode.Success
    0x42 GetEid.EidType.StaticMatch GetEid.EndpointType.BusOwnerOrBridge 3)
    as [Hw _]; [repeat split; cbn; solve_bytes || lia|solve_range|solve_range|].
  exact (eq_trans Hw ltac:(vm_compute; reflexivity)).
Defined.

End witness.
