(* ===== verification/AllocateEids.v ===== *)
(** * Allocate Endpoint IDs

    Models [mctp-base-lib/src/control/allocate_eids.rs]. *)
From S2P Require Import Prelude Crates Reference Derive Enums Transport ControlModels ControlPayload.

Module AllocateEids.

(** What the bus owner asks for. *)
Module Operation.

Inductive t : Set :=
  | AllocateEids | ForceAllocation | GetAllocationInfo.

Definition all : list t := [AllocateEids; ForceAllocation; GetAllocationInfo].

Definition to_u8 (x : t) : Z :=
  match x with
  | AllocateEids => 0
  | ForceAllocation => 1
  | GetAllocationInfo => 2
  end.

#[export] Instance u8_enum : U8Enum t :=
  { variants := all; discriminant := to_u8; default_variant := AllocateEids }.
#[export] Instance eq_dec : EqDecision t.
Proof. solve_decision. Defined.
#[export] Instance u8_enum_laws : U8EnumLaws t.
Proof. solve_u8_enum. Qed.

End Operation.
#[export] Existing Instance Operation.u8_enum.
#[export] Existing Instance Operation.eq_dec.
#[export] Existing Instance Operation.u8_enum_laws.

(** Whether the bridge took the pool. *)
Module AllocationStatus.

Inductive t : Set :=
  | AllocationAccepted | AllocationRejected.

Definition all : list t := [AllocationAccepted; AllocationRejected].

Definition to_u8 (x : t) : Z :=
  match x with
  | AllocationAccepted => 0
  | AllocationRejected => 1
  end.

#[export] Instance u8_enum : U8Enum t :=
  { variants := all; discriminant := to_u8; default_variant := AllocationRejected }.
#[export] Instance eq_dec : EqDecision t.
Proof. solve_decision. Defined.
#[export] Instance u8_enum_laws : U8EnumLaws t.
Proof. solve_u8_enum. Qed.

End AllocationStatus.
#[export] Existing Instance AllocationStatus.u8_enum.
#[export] Existing Instance AllocationStatus.eq_dec.
#[export] Existing Instance AllocationStatus.u8_enum_laws.

Module Request.

Record t := mk {
  hdr : ControlMsgHeader.t;
  operation_reserved : bytes;      (** [[u8; 1]] *)
  number_of_eids : Z;
  starting_eid : Z;
}.

Section bitfields.
Context `{Bitfields}.

Definition operation_bits : Z * Z := (0, 1).
Definition reserved_bits : Z * Z := (2, 7).
Definition operation (r : t) : Z := get_field (operation_reserved r) operation_bits.
Definition reserved (r : t) : Z := get_field (operation_reserved r) reserved_bits.
Definition set_operation (v : Z) (r : t) : t :=
  mk (hdr r) (set_field (operation_reserved r) operation_bits v) (number_of_eids r) (starting_eid r).

Definition new (hdr : ControlMsgHeader.t) (operation : Operation.t)
    (number_of_eids starting_eid : Z) : t :=
  set_operation (discriminant operation) (mk hdr [0] number_of_eids starting_eid).

End bitfields.

#[export] Instance serde `{NumEnum} : Serde t := {
  size_of := size_of ControlMsgHeader.t + 1 + size_of Z + size_of Z;
  ser_type_of := TStruct [ser_type_of ControlMsgHeader.t;
    array_type 1;
    ser_type_of Z;
    ser_type_of Z];
  to_value r := SStruct [to_value (hdr r);
    array_to_value (operation_reserved r);
    to_value (number_of_eids r);
    to_value (starting_eid r)];
  of_value v :=
    match v with
    | SStruct [a; b; c; d] =>
        a ← of_value a; b ← array_of_value b; c ← of_value c; d ← of_value d;
        Some (mk a b c d)
    | _ => None
    end;
}.

#[export] Instance valid_request : Valid t := fun r =>
  valid (hdr r) /\
  array_valid 1 (operation_reserved r) /\
  valid (number_of_eids r) /\
  valid (starting_eid r).
#[export] Instance serde_laws `{NumEnumLaws} : SerdeLaws t.
Proof. solve_serde serde valid_request. Qed.
#[export] Instance control_message : ControlPayload.ControlMessage t := hdr.
#[export] Instance control_message_laws `{NumEnum} : ControlPayload.ControlMessageLaws t.
Proof. solve_control_message. Qed.

End Request.
#[export] Existing Instance Request.serde.
#[export] Existing Instance Request.valid_request.
#[export] Existing Instance Request.serde_laws.
#[export] Existing Instance Request.control_message.
#[export] Existing Instance Request.control_message_laws.

Module Response.

Record t := mk {
  hdr : ControlMsgHeader.t;
  completion_code : Z;
  allocation_status_reserved : bytes;      (** [[u8; 1]] *)
  eid_pool_size : Z;
  first_eid : Z;
}.

Section bitfields.
Context `{Bitfields}.

Definition raw_allocation_status_bits : Z * Z := (0, 1).
Definition reserved_bits : Z * Z := (2, 7).
Definition raw_allocation_status (r : t) : Z :=
  get_field (allocation_status_reserved r) raw_allocation_status_bits.
Definition reserved (r : t) : Z := get_field (allocation_status_reserved r) reserved_bits.
Definition set_raw_allocation_status (v : Z) (r : t) : t :=
  mk (hdr r) (completion_code r)
    (set_field (allocation_status_reserved r) raw_allocation_status_bits v)
    (eid_pool_size r) (first_eid r).

Definition new (hdr : ControlMsgHeader.t) (completion_code : Z)
    (allocation_status : AllocationStatus.t) (eid_pool_size first_eid : Z) : t :=
  set_raw_allocation_status (discriminant allocation_status)
    (mk hdr completion_code [0] eid_pool_size first_eid).

Definition from (req : Request.t) (completion_code : Z)
    (allocation_status : AllocationStatus.t) (eid_pool_size first_eid : Z) : t :=
  let hdr := Request.hdr req in
  let hdr := ControlMsgHeader.set_rq 0 hdr in
  new hdr completion_code allocation_status eid_pool_size first_eid.

Definition allocation_status `{NumEnum} (r : t) : AllocationStatus.t :=
  from_u8 (raw_allocation_status r).

End bitfields.

#[export] Instance serde `{NumEnum} : Serde t := {
  size_of := size_of ControlMsgHeader.t + size_of Z + 1 + size_of Z + size_of Z;
  ser_type_of := TStruct [ser_type_of ControlMsgHeader.t;
    ser_type_of Z;
    array_type 1;
    ser_type_of Z;
    ser_type_of Z];
  to_value r := SStruct [to_value (hdr r);
    to_value (completion_code r);
    array_to_value (allocation_status_reserved r);
    to_value (eid_pool_size r);
    to_value (first_eid r)];
  of_value v :=
    match v with
    | SStruct [a; b; c; d; e] =>
        a ← of_value a; b ← of_value b; c ← array_of_value c; d ← of_value d; e ← of_value e;
        Some (mk a b c d e)
    | _ => None
    end;
}.

#[export] Instance valid_response : Valid t := fun r =>
  valid (hdr r) /\
  valid (completion_code r) /\
  array_valid 1 (allocation_status_reserved r) /\
  valid (eid_pool_size r) /\
  valid (first_eid r).
#[export] Instance serde_laws `{NumEnumLaws} : SerdeLaws t.
Proof. solve_serde serde valid_response. Qed.
#[export] Instance control_message : ControlPayload.ControlMessage t := hdr.
#[export] Instance control_message_laws `{NumEnum} : ControlPayload.ControlMessageLaws t.
Proof. solve_control_message. Qed.
#[export] Instance response_status : ControlMsgReponseStatus t := completion_code.

End Response.
#[export] Existing Instance Response.serde.
#[export] Existing Instance Response.valid_response.
#[export] Existing Instance Response.serde_laws.
#[export] Existing Instance Response.control_message.
#[export] Existing Instance Response.control_message_laws.

#[export] Existing Instance Response.response_status.

End AllocateEids.
#[export] Existing Instance AllocateEids.Operation.u8_enum.
#[export] Existing Instance AllocateEids.Operation.eq_dec.
#[export] Existing Instance AllocateEids.Operation.u8_enum_laws.
#[export] Existing Instance AllocateEids.AllocationStatus.u8_enum.
#[export] Existing Instance AllocateEids.AllocationStatus.eq_dec.
#[export] Existing Instance AllocateEids.AllocationStatus.u8_enum_laws.
#[export] Existing Instance AllocateEids.Request.serde.
#[export] Existing Instance AllocateEids.Request.valid_request.
#[export] Existing Instance AllocateEids.Request.serde_laws.
#[export] Existing Instance AllocateEids.Request.control_message.
#[export] Existing Instance AllocateEids.Request.control_message_laws.
#[export] Existing Instance AllocateEids.Response.serde.
#[export] Existing Instance AllocateEids.Response.valid_response.
#[export] Existing Instance AllocateEids.Response.serde_laws.
#[export] Existing Instance AllocateEids.Response.control_message.
#[export] Existing Instance AllocateEids.Response.control_message_laws.
#[export] Existing Instance AllocateEids.Response.response_status.

(** ** Proofs *)
Module AllocateEidsFacts.
Import AllocateEids.
Section facts.
Context `{CratesLaws}.

Lemma discriminant_alloc_operation_u8 (o : Operation.t) : u8 (discriminant o).
Proof. apply discriminant_u8. Qed.
Lemma discriminant_alloc_status_u8 (o : AllocationStatus.t) : u8 (discriminant o).
Proof. apply discriminant_u8. Qed.
#[local] Hint Resolve discriminant_alloc_operation_u8 discriminant_alloc_status_u8 : mctp.

(** A request carries its operation and its pool, with the reserved bits 0. *)
Lemma allocate_eids_request_accessors h o n s :
  valid h -> u8 n -> u8 s ->
  let r := Request.new h o n s in
  valid r /\ Request.hdr r = h /\ Request.number_of_eids r = n /\ Request.starting_eid r = s /\
  Request.operation r = discriminant o /\ Request.reserved r = 0.
Proof.
  intros Hh Hn Hs r. subst r. unfold Request.operation, Request.reserved. cbn.
  split_and!; try done; try by get_set 1%nat.
  - split_and!; try done. cbn. solve_array.
  - get_set 1%nat. by destruct o.
Qed.

(** The wire layout of a request. *)
Lemma allocate_eids_request_layout r :
  valid r ->
  flatten (to_value r) = flatten (to_value (Request.hdr r)) ++
    [Request.operation r + 4 * Request.reserved r; Request.number_of_eids r; Request.starting_eid r].
Proof.
  destruct r as [h bs n s]. intros (_ & Hbs & _). apply array_valid_one in Hbs as (b & Hb' & Hb).
  unfold Request.operation, Request.reserved. cbn in Hb'. subst.
  cbn [flatten to_value Request.serde Request.hdr Request.number_of_eids Request.starting_eid
    Request.operation_reserved map concat u8_serde array_to_value app].
  apply (f_equal (app _)). unfold Request.operation_bits, Request.reserved_bits.
  get_bytes 1%nat. unfold uint in *. Z.to_euclidean_division_equations. list_lia.
Qed.

(** A response reads back the status and the pool it was built from, its
    reserved bits are 0, and its header answers the request's. *)
Lemma allocate_eids_response_accessors req cc st pool first :
  valid req -> u8 cc -> u8 pool -> u8 first ->
  let r := Response.from req cc st pool first in
  valid r /\ answers (Response.hdr r) (Request.hdr req) /\
  Response.completion_code r = cc /\ Response.eid_pool_size r = pool /\
  Response.first_eid r = first /\ Response.allocation_status r = st /\
  Response.raw_allocation_status r = discriminant st /\ Response.reserved r = 0.
Proof.
  intros (Hh & _) Hc Hp Hf r. destruct (set_rq_0_answers _ Hh) as [Hvh Hans].
  assert (Response.raw_allocation_status r = discriminant st) as Hraw.
  { unfold Response.raw_allocation_status. cbn. get_set 1%nat. by destruct st. }
  unfold Response.allocation_status. rewrite Hraw, from_u8_discriminant. subst r.
  unfold Response.reserved. cbn.
  split_and!; try done; try by get_set 1%nat.
  split_and!; cbn; try done. solve_array.
Qed.

(** The wire layout of a response after its header. *)
Lemma allocate_eids_response_layout r :
  valid r ->
  flatten (to_value r) = flatten (to_value (Response.hdr r)) ++
    [Response.completion_code r; Response.raw_allocation_status r + 4 * Response.reserved r;
     Response.eid_pool_size r; Response.first_eid r].
Proof.
  destruct r as [h c bs p f]. intros (_ & _ & Hbs & _).
  apply array_valid_one in Hbs as (b & Hb' & Hb).
  unfold Response.raw_allocation_status, Response.reserved. cbn in Hb'. subst.
  cbn [flatten to_value Response.serde Response.hdr Response.completion_code
    Response.eid_pool_size Response.first_eid map concat u8_serde array_to_value app
    Response.allocation_status_reserved].
  apply (f_equal (app _)).
  unfold Response.raw_allocation_status_bits, Response.reserved_bits.
  get_bytes 1%nat. unfold uint in *. Z.to_euclidean_division_equations. list_lia.
Qed.

(** A response on the wire: its header, which answers the request's, and four
    bytes; its accessors read back what it was built from. *)
Theorem allocate_eids_response_wire {E} req cc st pool first :
  valid req -> u8 cc -> u8 pool -> u8 first ->
  let r := Response.from req cc st pool first in
  bytes_from (E:=E) r =
    Ok (flatten (to_value (Response.hdr r)) ++ [cc; discriminant st; pool; first]) /\
  answers (Response.hdr r) (Request.hdr req) /\
  Response.allocation_status r = st /\ Response.eid_pool_size r = pool /\
  Response.first_eid r = first.
Proof.
  intros Hreq Hcc Hp Hf r.
  destruct (allocate_eids_response_accessors req cc st pool first Hreq Hcc Hp Hf)
    as (Hv & Ha & Hc & Hp' & Hf' & Has & Hst & Hr). fold r in Hv, Ha, Hc, Hp', Hf', Has, Hst, Hr.
  split_and!; [|done..].
  rewrite bytes_from_flatten, allocate_eids_response_layout by done.
  rewrite Hc, Hp', Hf', Hst, Hr. do 2 f_equal. list_lia.
Qed.

End facts.
End AllocateEidsFacts.

(** ** Witnesses *)
Section witness.
#[local] Existing Instance Reference.crates.
#[local] Existing Instance Reference.crates_laws.

Lemma allocate_eids_response_wire_witness :
  let req := AllocateEids.Request.mk
    (ControlMsgHeader.mk [0; 0x81] CommandCode.AllocateEndpointIDs) [0] 4 0x42 in
  let r := AllocateEids.Response.from req 0 AllocateEids.AllocationStatus.AllocationRejected 4 0x42 in
  bytes_from (E:=AnyError) r = Ok [0; 1; 8; 0; 1; 4; 0x42].
Proof.
  intros req r. destruct (AllocateEidsFacts.allocate_eids_response_wire (E:=AnyError) req 0
    AllocateEids.AllocationStatus.AllocationRejected 4 0x42)
    as [Hw _]; [repeat split; cbn; solve_bytes || lia|solve_range..|].
  exact (eq_trans Hw ltac:(vm_compute; reflexivity)).
Defined.

End witness.
