(* ===== verification/GetRoutingTable.v ===== *)
(** * Get Routing Table Entries

    Models [mctp-base-lib/src/control/get_routing_table.rs]. *)
From S2P Require Import Prelude Crates Reference Derive Enums Transport ControlModels ControlPayload.

Module GetRoutingTable.

Module Request.

Record t := mk { hdr : ControlMsgHeader.t; entry_handle : Z }.

Definition new (hdr : ControlMsgHeader.t) (entry_handle : Z) : t := mk hdr entry_handle.

#[export] Instance serde `{NumEnum} : Serde t := {
  size_of := size_of ControlMsgHeader.t + size_of Z;
  ser_type_of := TStruct [ser_type_of ControlMsgHeader.t;
    ser_type_of Z];
  to_value r := SStruct [to_value (hdr r);
    to_value (entry_handle r)];
  of_value v :=
    match v with
    | SStruct [a; b] =>
        a ← of_value a; b ← of_value b;
        Some (mk a b)
    | _ => None
    end;
}.

#[export] Instance valid_request : Valid t := fun r =>
  valid (hdr r) /\
  valid (entry_handle r).
#[export] Instance serde_laws `{NumEnumLaws} : SerdeLaws t.
Proof. solve_serde serde valid_request. Qed.
#[export] Instance control_message : ControlPayload.ControlMessage t := hdr.
#[export] Instance control_message_laws `{NumEnum} : ControlPayload.ControlMessageLaws t.
Proof. solve_control_message. Qed.

End Request.
#[export] Existing Instance Request.serde.
#[export] Existing Instance Request.valid_request.
#[export] Existing Instance Request.serde_laws.
#[export] Existing Instance Request.control_message.
#[export] Existing Instance Request.control_message_laws.

Module Response.

Record t := mk {
  hdr : ControlMsgHeader.t;
  completion_code : Z;
  next_entry_handle : Z;
  entries_in_response : Z;
}.

Definition new (hdr : ControlMsgHeader.t)
    (completion_code next_entry_handle entries_in_response : Z) : t :=
  mk hdr completion_code next_entry_handle entries_in_response.

Definition from `{Bitfields} (req : Request.t) (completion_code : CompletionCode.t)
    (next_entry_handle entries_in_response : Z) : t :=
  let hdr := Request.hdr req in
  let hdr := ControlMsgHeader.set_rq 0 hdr in
  new hdr (completion_u8 completion_code) next_entry_handle entries_in_response.

#[export] Instance serde `{NumEnum} : Serde t := {
  size_of := size_of ControlMsgHeader.t + size_of Z + size_of Z + size_of Z;
  ser_type_of := TStruct [ser_type_of ControlMsgHeader.t;
    ser_type_of Z;
    ser_type_of Z;
    ser_type_of Z];
  to_value r := SStruct [to_value (hdr r);
    to_value (completion_code r);
    to_value (next_entry_handle r);
    to_value (entries_in_response r)];
  of_value v :=
    match v with
    | SStruct [a; b; c; d] =>
        a ← of_value a; b ← of_value b; c ← of_value c; d ← of_value d;
        Some (mk a b c d)
    | _ => None
    end;
}.

#[export] Instance valid_response : Valid t := fun r =>
  valid (hdr r) /\
  valid (completion_code r) /\
  valid (next_entry_handle r) /\
  valid (entries_in_response r).
#[export] Instance serde_laws `{NumEnumLaws} : SerdeLaws t.
Proof. solve_serde serde valid_response. Qed.
#[export] Instance control_message : ControlPayload.ControlMessage t := hdr.
#[export] Instance control_message_laws `{NumEnum} : ControlPayload.ControlMessageLaws t.
Proof. solve_control_message. Qed.
#[export] Instance response_status : ControlMsgReponseStatus t := completion_code.

End Response.
#[export] Existing Instance Response.serde.
#[export] Existing Instance Response.valid_response.
#[export] Existing Instance Response.serde_laws.
#[export] Existing Instance Response.control_message.
#[export] Existing Instance Response.control_message_laws.

#[export] Existing Instance Response.response_status.

End GetRoutingTable.
#[export] Existing Instance GetRoutingTable.Request.serde.
#[export] Existing Instance GetRoutingTable.Request.valid_request.
#[export] Existing Instance GetRoutingTable.Request.serde_laws.
#[export] Existing Instance GetRoutingTable.Request.control_message.
#[export] Existing Instance GetRoutingTable.Request.control_message_laws.
#[export] Existing Instance GetRoutingTable.Response.serde.
#[export] Existing Instance GetRoutingTable.Response.valid_response.
#[export] Existing Instance GetRoutingTable.Response.serde_laws.
#[export] Existing Instance GetRoutingTable.Response.control_message.
#[export] Existing Instance GetRoutingTable.Response.control_message_laws.
#[export] Existing Instance GetRoutingTable.Response.response_status.

(** ** Proofs *)
Module GetRoutingTableFacts.
Import GetRoutingTable.
Section facts.
Context `{CratesLaws}.

Lemma routing_table_response_valid req cc next n :
  valid req -> u8 next -> u8 n -> valid (Response.from req cc next n).
Proof.
  intros (Hh & _) Hn Hm. destruct (set_rq_0_answers _ Hh) as [Hvh _].
  split_and!; cbn; try done. by destruct cc.
Qed.

(** A response carries the two counters it was built from, its header answers
    the request's, and the wire has the three bytes after the header. *)
Theorem routing_table_response_wire {E} req cc next n :
  valid req -> u8 next -> u8 n ->
  let r := Response.from req cc next n in
  valid r /\ answers (Response.hdr r) (Request.hdr req) /\
  bytes_from (E:=E) r = Ok (flatten (to_value (Response.hdr r)) ++ [discriminant cc; next; n]).
Proof.
  intros Hreq Hn Hm r. pose proof (routing_table_response_valid req cc next n Hreq Hn Hm) as Hv.
  split_and!; [done|by apply (set_rq_0_answers _ (proj1 Hreq))|by rewrite bytes_from_flatten].
Qed.

End facts.
End GetRoutingTableFacts.

(** ** Witnesses *)
Section witness.
#[local] Existing Instance Reference.crates.
#[local] Existing Instance Reference.crates_laws.

Lemma routing_table_response_wire_witness :
  let req := GetRoutingTable.Request.mk
    (ControlMsgHeader.mk [0; 0x81] CommandCode.GetRoutingTableEntries) 0 in
  let r := GetRoutingTable.Response.from req CompletionCode.Success 0xff 0 in
  bytes_from (E:=AnyError) r = Ok [0; 1; 10; 0; 0xff; 0].
Proof.
  intros req r. destruct (GetRoutingTableFacts.routing_table_response_wire (E:=AnyError) req
    CompletionCode.Success 0xff 0)
    as (_ & _ & Hw); [repeat split; cbn; solve_bytes || lia|solve_range..|].
  exact (eq_trans Hw ltac:(vm_compute; reflexivity)).
Defined.

End witness.
