(* ===== verification/Errors.v ===== *)
(** * The error types of the emulator

    Models [src/lib.rs], [src/phys/error.rs], [src/network/error.rs] and
    [src/endpoint/error.rs]: one error enum per layer, and the enum that wraps
    them.  The [#[from]] conversions the [?] operator applies are the
    constructors of [MctpEmuError]. *)
From S2P Require Import Prelude Derive.

Module Phys.
Inductive Error :=
  | SocketError (err : io_error)
  | TransmitError (msg : string)
  | InvalidAddress (addr : Z)
  | Other (err : AnyError)
  | Unknown.
End Phys.

Module Network.
Inductive Error :=
  | InvalidSocketError (sd : Z)
  | InvalidBindingError (binding_id : Z)
  | Other (err : AnyError)
  | Unknown.
End Network.

Module Endpoint.
Inductive Error :=
  | Other (err : AnyError)
  | Unknown.
End Endpoint.

Module MctpEmuError.
Inductive t :=
  | Base (err : MctpBaseLibError)
  | Endpoint (err : Endpoint.Error)
  | Phys (err : Phys.Error)
  | Network (err : Network.Error)
  | Other (err : AnyError)
  | Unknown.
End MctpEmuError.

(** [MctpEmuResult<T>]; a call may also panic. *)
Abbreviation MctpEmuResult := (outcome MctpEmuError.t).
