(* ===== verification/Smbus.v ===== *)
(** * The SMBus physical transport

    Models [src/phys/smbus_types.rs] and [src/phys/smbus_netdev.rs], with the
    [NetworkBinding] trait of [src/network/types.rs] as the class the networks
    are written against.  The UDP socket is tokio's: what its calls return is
    an argument of the definitions. *)
From S2P Require Import Prelude Crates Reference Derive Errors.

Definition SMBUS_COMMAND_CODE_MCTP : Z := 0x0f.

(** [x << 1] at type [u8]. *)
Definition shl1_u8 (x : Z) : Z := as_u8 (Z.shiftl x 1).

Module SmbusPhysTransportHeader.

Record t := mk {
  dest_addr : Z;
  command_code : Z;
  byte_count : Z;
  src_addr : Z;
}.

Definition new (dest_addr_7bit src_addr_7bit byte_count : Z) : t :=
  mk (shl1_u8 dest_addr_7bit) SMBUS_COMMAND_CODE_MCTP byte_count
    (Z.lor (shl1_u8 src_addr_7bit) 0x01).

#[export] Instance serde : Serde t := {
  size_of := size_of Z + size_of Z + size_of Z + size_of Z;
  ser_type_of := TStruct [ser_type_of Z; ser_type_of Z; ser_type_of Z; ser_type_of Z];
  to_value h := SStruct [to_value (dest_addr h); to_value (command_code h);
    to_value (byte_count h); to_value (src_addr h)];
  of_value v :=
    match v with
    | SStruct [a; b; c; d] =>
        a ← of_value a; b ← of_value b; c ← of_value c; d ← of_value d; Some (mk a b c d)
    | _ => None
    end;
}.

#[export] Instance valid_header : Valid t := fun h =>
  valid (dest_addr h) /\ valid (command_code h) /\ valid (byte_count h) /\ valid (src_addr h).
#[export] Instance serde_laws : SerdeLaws t.
Proof. solve_serde serde valid_header. Qed.
#[export] Instance lossless : Lossless t.
Proof. solve_lossless serde. Qed.

End SmbusPhysTransportHeader.
#[export] Existing Instance SmbusPhysTransportHeader.serde.
#[export] Existing Instance SmbusPhysTransportHeader.valid_header.
#[export] Existing Instance SmbusPhysTransportHeader.serde_laws.
#[export] Existing Instance SmbusPhysTransportHeader.lossless.

(** [validate_smbus_address] *)
Definition validate_smbus_address (addr : Z) : MctpEmuResult unit :=
  if (addr <? 8) || (Z.shiftr addr 3 =? 15) || (0x7F <? addr) then
    Err (MctpEmuError.Phys (Phys.InvalidAddress addr))
  else Ok tt.

(** ** The [NetworkBinding] trait

    [NetworkBindingCallbackMsg::Receive { id, buf }] is what a binding hands to
    the network it is bound to. *)
Inductive NetworkBindingCallbackMsg := ReceiveMsg (id : Z) (buf : bytes).

(** A spawned task, by what it runs: [poll_socket] for a socket and an id, or
    the callback handler of a network. *)
Inductive JoinHandle := PollSocketTask (socket : nat) (id : Z) | CallbackTask.

(** The poll task a call of [bind] spawned, by its id. *)
Definition spawned (res : MctpEmuResult JoinHandle) : list Z :=
  match res with Ok (PollSocketTask _ id) => [id] | _ => [] end.

(** [transmit] hands datagrams to the wire and returns a result; [bind]
    updates the binding and returns the handle of the receive task. *)
Class NetworkBinding (B : Type) := {
  binding_transmit : B -> bytes -> Z -> list bytes * MctpEmuResult unit;
  binding_bind : B -> Z -> B * MctpEmuResult JoinHandle;
}.

(** [NetworkBindingHandle]: an [Arc<Mutex<dyn NetworkBinding>>], by identity. *)
Abbreviation BindingHandle := nat.

Module SmbusNetDevBinding.

(** The socket is an [Option<Arc<UdpSocket>>]; a socket is an identifier. *)
Record t := mk {
  address : Z;
  network_id : Z;            (** [AtomicU64] *)
  socket : option nat;
}.

Definition default_value : t := mk 0 0 None.

(** [set_address]: the binding after the call, and its result. *)
Definition set_address (self : t) (address : Z) : t * MctpEmuResult unit :=
  match validate_smbus_address address with
  | Ok _ => (mk address (network_id self) (socket self), Ok tt)
  | Err e => (self, Err e)
  | Panic p => (self, Panic p)
  end.

(** [new]: the cascade drops the result of [set_address].  [bound] and
    [connected] are the results of the socket's [bind] and [connect]. *)
Definition new (address : Z) (bound : outcome io_error nat) (connected : outcome io_error unit)
    : MctpEmuResult t :=
  let binding := (set_address default_value address).1 in
  socket ← map_err (fun e => MctpEmuError.Phys (Phys.SocketError e)) bound;
  _ ← map_err (fun e => MctpEmuError.Phys (Phys.SocketError e)) connected;
  Ok (mk (SmbusNetDevBinding.address binding) (network_id binding) (Some socket)).

Section transmit.
Context `{Crates}.

(** The message the second [try_send] reports when it was cut short. *)
Definition incomplete_transfer (sent len : nat) : string :=
  "incomplete transfer: " +:+ usize_to_string sent +:+ " != " +:+ usize_to_string len.

(** [transmit]: [try_send n frame] is what the [n]-th [try_send] of the call
    returns.  The first component lists the buffers handed to the socket. *)
Definition transmit (try_send : nat -> bytes -> outcome io_error nat) (self : t)
    (msg : bytes) (phy_addr : Z) : list bytes * MctpEmuResult unit :=
  match validate_smbus_address phy_addr with
  | Err e => ([], Err e)
  | Panic p => ([], Panic p)
  | Ok _ =>
      if (256 <=? length msg)%nat then ([], Panic PanicTodo)
      else
        let dest_addr := as_u8 (Z.land phy_addr 0x7f) in
        let msg_length := as_u8 (Z.land (Z.of_nat (length msg)) 0xff) in
        let hdr := SmbusPhysTransportHeader.new dest_addr (address self) msg_length in
        match bytes_from hdr with
        | Err e => ([], Err e)
        | Panic p => ([], Panic p)
        | Ok hdr_bytes =>
            let tx_buf := hdr_bytes ++ msg ++ [pec msg] in
            match socket self with
            | None => ([], Panic PanicUnwrap)
            | Some _ =>
                let sent_bytes := try_send 0%nat tx_buf in
                ([tx_buf; tx_buf],
                  match try_send 1%nat tx_buf with
                  | Ok sent_bytes =>
                      if decide (sent_bytes = length tx_buf) then Ok tt
                      else Err (MctpEmuError.Phys (Phys.TransmitError
                        (incomplete_transfer sent_bytes (length tx_buf))))
                  | Err err => Err (MctpEmuError.Phys (Phys.SocketError err))
                  | Panic p => Panic p
                  end)
            end
        end
  end.

End transmit.

(** [bind]: the id is stored before the socket is looked at. *)
Definition bind (self : t) (id : Z) : t * MctpEmuResult JoinHandle :=
  let self := mk (address self) id (socket self) in
  match socket self with
  | Some socket => (self, Ok (PollSocketTask socket id))
  | None => (self, Err (MctpEmuError.Phys (Phys.Other (AnyMsg "failed grabbing socket vector"))))
  end.

(** [impl NetworkBinding for SmbusNetDevBinding] *)
Definition network_binding `{Crates} (try_send : nat -> bytes -> outcome io_error nat)
    : NetworkBinding t :=
  {| binding_transmit := transmit try_send; binding_bind := bind |}.

End SmbusNetDevBinding.

(** ** [poll_socket]

    One turn of the loop on what [recv_from] returned: [unwrap] panics on an
    error, an empty datagram is dropped, and anything else is handed to the
    callback under the network's id. *)
Definition poll_socket_step (network_id : Z) (received : outcome io_error bytes)
    : outcome MctpEmuError.t (option NetworkBindingCallbackMsg) :=
  buf_request ← unwrap received;
  Ok (if negb (length buf_request =? 0)%nat then Some (ReceiveMsg network_id buf_request) else None).

(** The turns on a sequence of results: the messages sent, up to a panic. *)
Fixpoint poll_socket (network_id : Z) (received : list (outcome io_error bytes))
    : list NetworkBindingCallbackMsg * outcome MctpEmuError.t unit :=
  match received with
  | [] => ([], Ok tt)
  | r :: rs =>
      match poll_socket_step network_id r with
      | Ok m =>
          let '(ms, res) := poll_socket network_id rs in
          (match m with Some m => m :: ms | None => ms end, res)
      | Err e => ([], Err e)
      | Panic p => ([], Panic p)
      end
  end.

(** ** Proofs *)
Module SmbusFacts.
Import SmbusNetDevBinding.

(** The accepted addresses are exactly 0x08 to 0x77. *)
Lemma validate_smbus_address_spec addr :
  u64 addr ->
  (8 <= addr < 0x78 /\ validate_smbus_address addr = Ok tt) \/
  (~ (8 <= addr < 0x78) /\
   validate_smbus_address addr = Err (MctpEmuError.Phys (Phys.InvalidAddress addr))).
Proof.
  intros Ha. unfold uint in Ha. unfold validate_smbus_address.
  rewrite Z.shiftr_div_pow2 by lia. compute_pow2.
  destruct (Z.ltb_spec addr 8), (Z.eqb_spec (addr / 8) 15), (Z.ltb_spec 0x7F addr); simpl;
    first [ left; split; [Z.to_euclidean_division_equations; lia | reflexivity]
          | right; split; [Z.to_euclidean_division_equations; lia | reflexivity] ].
Qed.

Lemma shl1_u8_small x : 0 <= x < 128 -> shl1_u8 x = 2 * x.
Proof.
  intros Hx. unfold shl1_u8. rewrite Z.shiftl_mul_pow2 by lia. rewrite as_u8_small; [|unfold uint]; lia.
Qed.

Lemma lor_even_1 x : 0 <= x -> Z.lor (2 * x) 1 = 2 * x + 1.
Proof.
  intros Hx. rewrite <- Z.add_lor_land.
  assert (Z.land (2 * x) 1 = 0) as ->; [|lia].
  change 1 with (Z.ones 1). rewrite Z.land_ones by lia.
  rewrite Z.mul_comm. apply Z.mod_mul. lia.
Qed.

Section facts.
Context `{CratesLaws}.

Lemma smbus_header_valid dst src n :
  0 <= dst < 128 -> 0 <= src < 128 -> u8 n -> valid (SmbusPhysTransportHeader.new dst src n).
Proof.
  intros Hd Hs Hn. unfold SmbusPhysTransportHeader.new.
  rewrite !shl1_u8_small, lor_even_1 by lia.
  split_and!; [split; cbn; lia|split; cbn; done|done|split; cbn; lia].
Qed.

(** The header of 7-bit addresses: both are shifted left, and the source
    address has its low bit set. *)
Lemma smbus_header_wire {E} dst src n :
  0 <= dst < 128 -> 0 <= src < 128 -> u8 n ->
  bytes_from (E:=E) (SmbusPhysTransportHeader.new dst src n) =
    Ok [2 * dst; SMBUS_COMMAND_CODE_MCTP; n; 2 * src + 1].
Proof.
  intros Hd Hs Hn. rewrite bytes_from_flatten by by apply smbus_header_valid.
  unfold SmbusPhysTransportHeader.new. by rewrite !shl1_u8_small, lor_even_1 by lia.
Qed.

(** The frame of a message: the addresses, the message's length and its packet
    error code around the message. *)
Definition smbus_frame (dst src : Z) (msg : bytes) : bytes :=
  [2 * dst; SMBUS_COMMAND_CODE_MCTP; Z.of_nat (length msg); 2 * src + 1] ++ msg ++ [pec msg].

Lemma transmit_frames try_send self msg phy_addr s :
  8 <= phy_addr < 0x78 -> (length msg < 256)%nat -> 0 <= address self < 128 ->
  socket self = Some s ->
  let frame := smbus_frame phy_addr (address self) msg in
  transmit try_send self msg phy_addr =
    ([frame; frame],
     match try_send 1%nat frame with
     | Ok sent =>
         if decide (sent = length frame) then Ok tt
         else Err (MctpEmuError.Phys (Phys.TransmitError (incomplete_transfer sent (length frame))))
     | Err e => Err (MctpEmuError.Phys (Phys.SocketError e))
     | Panic p => Panic p
     end).
Proof.
  intros Ha Hl Hs Hsock frame. unfold transmit.
  destruct (validate_smbus_address_spec phy_addr) as [[_ ->]|[Hn _]]; [unfold uint; lia| |lia].
  rewrite (proj2 (Nat.leb_gt _ _)) by lia.
  change 0x7f with (Z.ones 7). change 0xff with (Z.ones 8).
  rewrite !Z.land_ones by lia. compute_pow2. rewrite !Z.mod_small by lia.
  rewrite !as_u8_small by (unfold uint; lia).
  rewrite smbus_header_wire by (unfold uint; lia). by rewrite Hsock.
Qed.

(** C33: What [transmit] puts on the wire for a message of less than 256 bytes to a
    valid address: the message's frame, twice; its result is the second
    send's. *)
Theorem transmit_frame try_send self msg phy_addr s :
  8 <= phy_addr < 0x78 -> (length msg < 256)%nat -> 0 <= address self < 128 ->
  socket self = Some s ->
  let frame := smbus_frame phy_addr (address self) msg in
  transmit try_send self msg phy_addr =
    ([frame; frame],
     match try_send 1%nat frame with
     | Ok sent =>
         if decide (sent = length frame) then Ok tt
         else Err (MctpEmuError.Phys (Phys.TransmitError (incomplete_transfer sent (length frame))))
     | Err e => Err (MctpEmuError.Phys (Phys.SocketError e))
     | Panic p => Panic p
     end).
Proof. apply transmit_frames. Qed.

(** An address that is not valid is refused before anything is sent. *)
Theorem transmit_invalid_address try_send self msg phy_addr :
  u64 phy_addr -> ~ (8 <= phy_addr < 0x78) ->
  transmit try_send self msg phy_addr =
    ([], Err (MctpEmuError.Phys (Phys.InvalidAddress phy_addr))).
Proof.
  intros Hu Hn. unfold transmit.
  destruct (validate_smbus_address_spec phy_addr Hu) as [[? _]|[_ ->]]; [by destruct Hn|done].
Qed.

(** The receiver of a frame reads its header back and finds the message in
    front of the packet error code. *)
Theorem frame_received dst src msg :
  0 <= dst < 128 -> 0 <= src < 128 -> (length msg < 256)%nat ->
  try_from_bytes (smbus_frame dst src msg) =
    Ok (SmbusPhysTransportHeader.new dst src (Z.of_nat (length msg))) /\
  slice_from (E:=MctpEmuError.t) (smbus_frame dst src msg) 4 = Ok (msg ++ [pec msg]).
Proof.
  intros Hd Hs Hl.
  pose proof (smbus_header_wire (E:=MctpBaseLibError) dst src (Z.of_nat (length msg)) Hd Hs) as Hw.
  assert (u8 (Z.of_nat (length msg))) as Hu by (unfold uint; lia). specialize (Hw Hu).
  pose proof (smbus_header_valid dst src _ Hd Hs Hu) as Hv.
  rewrite bytes_from_flatten in Hw by done. injection Hw as Hw. split.
  - unfold smbus_frame.
    pose proof (try_from_flatten _ _ (msg ++ [pec msg]) (to_value_typed _ Hv) (of_to_value _ Hv)) as Ht.
    rewrite <- Ht. f_equal. apply (f_equal (fun l => l ++ msg ++ [pec msg])). cbn. congruence.
  - by rewrite slice_from_Ok by (simpl; lia).
Qed.

End facts.

(** [set_address] changes the address exactly when it is valid; [new] ignores
    a refusal and keeps the default address 0. *)
Theorem new_keeps_default_on_invalid_address addr s :
  u8 addr ->
  new addr (Ok s) (Ok tt) =
    Ok (mk (if decide (8 <= addr < 0x78) then addr else 0) 0 (Some s)).
Proof.
  intros Ha. unfold new, set_address.
  destruct (validate_smbus_address_spec addr) as [[? ->]|[? ->]]; [unfold uint in *; lia|..].
  - by rewrite decide_True.
  - by rewrite decide_False.
Qed.

(** [bind] stores the id whatever happens, and succeeds exactly when there is
    a socket. *)
Theorem bind_spec self id :
  network_id (bind self id).1 = id /\ address (bind self id).1 = address self /\
  (bind self id).2 =
    match socket self with
    | Some s => Ok (PollSocketTask s id)
    | None => Err (MctpEmuError.Phys (Phys.Other (AnyMsg "failed grabbing socket vector")))
    end.
Proof. unfold bind. simpl. destruct (socket self); done. Qed.

(** Without receive errors the poll loop hands over exactly the non-empty
    datagrams, in order, under its id. *)
Theorem poll_socket_delivers id (dgrams : list bytes) :
  poll_socket id (map Ok dgrams) =
    (map (ReceiveMsg id) (filter (fun d => d <> []) dgrams), Ok tt).
Proof.
  induction dgrams as [|d ds IH]; [done|]. cbn [map poll_socket]. rewrite IH.
  destruct d as [|b d]; [by rewrite filter_cons_False by auto|].
  by rewrite filter_cons_True.
Qed.

End SmbusFacts.

(** ** Witnesses *)
Section witness.
#[local] Existing Instance Reference.crates.
#[local] Existing Instance Reference.crates_laws.

#[local] Abbreviation device := (SmbusNetDevBinding.mk 0x10 1 (Some 0%nat)).

Lemma transmit_frame_witness :
  (SmbusNetDevBinding.transmit (fun _ b => Ok (length b)) device [1; 2; 3] 0x30).2 = Ok tt /\
  length (SmbusNetDevBinding.transmit (fun _ b => Ok (length b)) device [1; 2; 3] 0x30).1 = 2%nat.
Proof.
  rewrite (SmbusFacts.transmit_frame (fun _ b => Ok (length b)) device [1; 2; 3] 0x30 0%nat);
    [|lia|simpl; lia|simpl; lia|reflexivity].
  split; vm_compute; reflexivity.
Defined.

Lemma frame_received_witness :
  try_from_bytes (SmbusFacts.smbus_frame 0x30 0x10 [1; 2; 3]) =
    Ok (SmbusPhysTransportHeader.mk 0x60 0x0f 3 0x21) /\
  slice_from (E:=MctpEmuError.t) (SmbusFacts.smbus_frame 0x30 0x10 [1; 2; 3]) 4 =
    Ok ([1; 2; 3] ++ [pec [1; 2; 3]]).
Proof.
  destruct (SmbusFacts.frame_received 0x30 0x10 [1; 2; 3]) as [H1' H2']; [lia|lia|simpl; lia|].
  split; [exact (eq_trans H1' ltac:(vm_compute; reflexivity))|exact H2'].
Defined.

End witness.
