(* ===== verification/Tests.v ===== *)
(** * The unit tests of the repository

    The tests of [control/enums.rs], [control/models.rs] and
    [phys/smbus_netdev.rs] as definitions: a test is [Ok] when it passes, and
    its [assert_eq!]s panic.  The tests of [control.rs] use a variable that is
    never declared, and do not compile. *)
From S2P Require Import Prelude Crates Reference Derive Enums Transport ControlModels.
From S2P Require Import SetEid Errors Smbus.

Module Tests.
Section tests.
Context `{Crates}.

(** [assert_eq!] *)
Definition assert_eq {A} `{EqDecision A} (x y : A) : outcome AnyError unit :=
  if decide (x = y) then Ok tt else Panic PanicUnwrap.

Definition test_completion_code_serialize : outcome AnyError unit :=
  let bs := [0x03] in
  let completion_code := CompletionCode.ErrorInvalidLength in
  serialized ← ok_or AnyBincode (bincode_serialize (to_value completion_code));
  assert_eq serialized bs.

Definition test_completion_code_known_u8_deserialize : outcome AnyError unit :=
  let bs := [2] in
  completion_code ← ok_or AnyBincode (deserialize bs);
  assert_eq CompletionCode.ErrorInvalidData completion_code.

Definition test_completion_code_unknown_u8_deserialize : outcome AnyError unit :=
  let bs := [0x55] in
  completion_code ← ok_or AnyBincode (deserialize bs);
  assert_eq CompletionCode.ErrorUnsupportedCmd completion_code.

Definition test_completion_code_from_u8 : outcome AnyError unit :=
  _ ← assert_eq CompletionCode.Success (from_u8 0);
  _ ← assert_eq CompletionCode.Success (from_u8 0);
  _ ← assert_eq CompletionCode.Error (from_u8 1);
  _ ← assert_eq CompletionCode.Error (from_u8 1);
  _ ← assert_eq CompletionCode.ErrorUnsupportedCmd (from_u8 5);
  assert_eq CompletionCode.ErrorUnsupportedCmd (from_u8 0x55).

Definition test_EmptyResponse_to_Bytes : outcome AnyError unit :=
  let ctrl_hdr := ControlMsgHeader.new CommandCode.DiscoveryNotify 0 false false false in
  ctrl_hdr_bytes ← bytes_from ctrl_hdr;
  _ ← assert_eq (length ctrl_hdr_bytes) 3%nat;
  let resp := EmptyResponse.new ctrl_hdr (discriminant CompletionCode.Success) in
  bs ← bytes_from resp;
  assert_eq (length bs) 4%nat.

Definition test_EmptyResponse_try_from_Bytes : outcome AnyError unit :=
  let ctrl_hdr := ControlMsgHeader.new CommandCode.DiscoveryNotify 0 false false false in
  ctrl_hdr_bytes ← bytes_from ctrl_hdr;
  let resp := EmptyResponse.new ctrl_hdr (discriminant CompletionCode.Success) in
  bs ← bytes_from resp;
  _ ← assert_eq (length ctrl_hdr_bytes) 3%nat;
  assert_eq (length bs) 4%nat.

Definition test_invalid_address : outcome AnyError unit :=
  match validate_smbus_address 0x86 with
  | Ok _ => Err (AnyMsg "Expected an invalid error")
  | Err (MctpEmuError.Phys _) => Ok tt
  | Err _ => Err (AnyMsg "Unexpected error")
  | Panic p => Panic p
  end.

Definition tests : list (outcome AnyError unit) :=
  [test_completion_code_serialize; test_completion_code_known_u8_deserialize;
   test_completion_code_unknown_u8_deserialize; test_completion_code_from_u8;
   test_EmptyResponse_to_Bytes; test_EmptyResponse_try_from_Bytes; test_invalid_address].

End tests.
End Tests.

Module TestFacts.
Import Tests.
Section facts.
Context `{CratesLaws}.

Lemma assert_eq_same {A} `{EqDecision A} (x y : A) : x = y -> assert_eq x y = Ok tt.
Proof. intros ->. unfold assert_eq. by rewrite decide_True. Qed.

Lemma deserialize_code (v : CompletionCode.t) n :
  u8 n -> from_u8 n = v -> deserialize (T:=CompletionCode.t) [n] = Some v.
Proof.
  intros Hn <-. unfold deserialize.
  by rewrite (bincode_decode TU8 (SU8 n) [n] []) by first [done | by apply bincode_u8].
Qed.

Lemma unknown_code n : (forall v : CompletionCode.t, discriminant v <> n) ->
  from_u8 n = CompletionCode.ErrorUnsupportedCmd.
Proof. intros Hn. by rewrite from_u8_unknown. Qed.

(** The repository's unit tests pass, on any crates that behave as documented. *)
Theorem unit_tests_pass : Forall (fun result => result = Ok tt) tests.
Proof.
  assert (forall v : CompletionCode.t, discriminant v <> 0x55) as H55 by by intros [].
  assert (u8 2 /\ u8 3 /\ u8 0x55 /\ u8 0) as (H2 & H3 & H5 & Hz) by (split_and!; solve_range).
  pose proof (ControlMsgHeaderFacts.control_header_new_valid CommandCode.DiscoveryNotify 0
    false false false Hz) as Hh.
  assert (valid (EmptyResponse.new (ControlMsgHeader.new CommandCode.DiscoveryNotify 0 false false false)
    (discriminant CompletionCode.Success))) as Hr by by split.
  unfold tests. repeat apply Forall_cons_2; [| | | | | | |constructor].
  - unfold test_completion_code_serialize. cbn. by rewrite (bincode_u8 3).
  - unfold test_completion_code_known_u8_deserialize.
    rewrite (deserialize_code CompletionCode.ErrorInvalidData 2) by first [done | by apply from_u8_of].
    by apply assert_eq_same.
  - unfold test_completion_code_unknown_u8_deserialize.
    rewrite (deserialize_code CompletionCode.ErrorUnsupportedCmd 0x55) by first [done | by apply unknown_code].
    by apply assert_eq_same.
  - unfold test_completion_code_from_u8.
    rewrite (from_u8_of CompletionCode.Success 0), (from_u8_of CompletionCode.Error 1),
      (from_u8_of CompletionCode.ErrorUnsupportedCmd 5), (unknown_code 0x55 H55) by done.
    by rewrite !assert_eq_same.
  - unfold test_EmptyResponse_to_Bytes. rewrite !bytes_from_flatten by done.
    cbn [mbind outcome_bind]. by rewrite !flatten_length by done.
  - unfold test_EmptyResponse_try_from_Bytes. rewrite !bytes_from_flatten by done.
    cbn [mbind outcome_bind]. by rewrite !flatten_length by done.
  - done.
Qed.

End facts.
End TestFacts.

(** ** Witnesses *)
Section witness.
#[local] Existing Instance Reference.crates.
#[local] Existing Instance Reference.crates_laws.

Lemma try_from_bytes_typed_witness :
  exists req : SetEid.Request.t, try_from_bytes [0; 0x81; 1; 0; 0x42; 7] = Ok req /\ valid req.
Proof.
  destruct (try_from_bytes_typed (T:=SetEid.Request.t) [0; 0x81; 1; 0; 0x42; 7])
    as [[Hs _]|(req & Hreq & Hv & _)]; [solve_bytes|simpl in Hs; lia|].
  exists req. split; [exact Hreq|exact Hv].
Defined.

Lemma unit_tests_pass_witness :
  length Tests.tests = 7%nat /\ Forall (fun result => result = Ok tt) Tests.tests.
Proof. split; [reflexivity|exact TestFacts.unit_tests_pass]. Defined.

End witness.
