(* ===== verification/Network.v ===== *)
(** * The types of the network layer, and the flow list

    Models [src/network/types.rs], [src/endpoint/types.rs] and the parts of
    [src/network/simple_network.rs] that match an incoming packet with the
    request it answers: [create_tag] and the search through the flows. *)
From S2P Require Import Prelude Crates Reference Derive Enums Transport Errors Smbus.

Definition MCTP_NET_ANY : Z := 0x08.
Definition MCTP_ADDR_ANY : Z := 0x08.
Definition MCTP_ADDR_BCAST : Z := 0xff.
Definition MCTP_TAG_OWNER : Z := 0x08.

(** ** The kernel's socket addresses

    The structs mirror Linux's [sockaddr_mctp]; nothing of the program uses them
    beyond their [#[derive(Default)]]. *)
Module MctpAddr.
Record t := mk { s_addr : Z }.
Definition default_value : t := mk 0.
End MctpAddr.

Module SockAddrMctp.
Record t := mk {
  smctp_family : Z;
  smctp_pad0 : Z;
  smctp_network : Z;
  smctp_addr : MctpAddr.t;
  smctp_type : Z;
  smctp_tag : Z;
  smctp_pad1 : Z;
}.
Definition default_value : t := mk 0 0 0 MctpAddr.default_value 0 0 0.
End SockAddrMctp.

Module SockAddrMctpExt.
Record t := mk {
  smctp_base : SockAddrMctp.t;
  smctp_ifindex : Z;
  smctp_halen : Z;
  smctp_pad0 : bytes;                        (** [[uint8_t; 3]] *)
  smctp_haddr : bytes;                       (** [[uint8_t; 32]] *)
}.
Definition default_value : t :=
  mk SockAddrMctp.default_value 0 0 (replicate 3 0) (replicate 32 0).
End SockAddrMctpExt.

(** ** Addresses, clients, routes *)
Inductive SocketAddress :=
  | Basic (address msg_type tag : Z)
  | Extended (address network binding_id phy_addr : Z).

#[export] Instance socket_address_eq_dec : EqDecision SocketAddress.
Proof. solve_decision. Defined.

(** [ClientCallbackMsg::Receive { addr, buf }] *)
Inductive ClientCallbackMsg := Receive (addr : SocketAddress) (buf : bytes).

(** An end of a channel, by the channel's identifier. *)
Abbreviation channel := nat.

Module Client.
Record t := mk {
  address : Z;
  msg_type : Z;
  tag : Z;
  sender_chan : channel;
  receive_chan : channel;
}.

(** [Client::new]: both ends of a new channel [chan] are kept in the client. *)
Definition new (chan : channel) (address msg_type tag : Z) : t := mk address msg_type tag chan chan.
End Client.

Module Route.
Record t := mk {
  min_eid : Z;
  max_eid : Z;
  net : Z;
  mtu : Z;
  route_type : Z;
}.

Definition matches (self : t) (dnet daddr : Z) : bool :=
  (dnet =? net self) && (min_eid self <=? daddr) && (daddr <=? max_eid self).

(** A route covers exactly the EIDs of its range on its network. *)
Lemma matches_spec self dnet daddr :
  matches self dnet daddr = true <-> dnet = net self /\ min_eid self <= daddr <= max_eid self.
Proof. unfold matches. rewrite !andb_true_iff, Z.eqb_eq, !Z.leb_le. lia. Qed.
End Route.

(** ** Neighbours and devices, which nothing implements *)
Inductive NeighbourSource := Static | Discover.

Definition neighbour_source_value (source : NeighbourSource) : Z :=
  match source with Static => 0 | Discover => 1 end.

Module Neighbour.
Record t := mk {
  eid : Z;
  source : NeighbourSource;
  ha : bytes;                                (** [[uint8_t; 32]] *)
}.
End Neighbour.

(** The commands of a device; [resp] is a oneshot, or a channel of responses. *)
Inductive MctpSenderCommand :=
  | OneShot (msg_type : MessageType.t) (buf : bytes) (resp : channel)
  | Broadcast (msg_type : MessageType.t) (buf : bytes) (resp : channel).

Class NetDevice (D : Type) := {
  dev_address : D -> option Z;
  queue_xmit : D -> MctpSenderCommand -> D * MctpEmuResult unit;
}.

(** ** Flows *)
Module MsgFlowTag.
Record t := mk {
  dest_eid : Z;
  src_eid : Z;
  msg_tag : Z;
  tag_owner : bool;
}.

#[export] Instance eq_dec : EqDecision t.
Proof. solve_decision. Defined.

(** [#[derive(Default)]] *)
Definition default_value : t := mk 0 0 0 false.
End MsgFlowTag.
#[export] Existing Instance MsgFlowTag.eq_dec.

(** [MctpFlow]: the tag of a request and the sending end of its oneshot. *)
Abbreviation MctpFlow := (MsgFlowTag.t * channel)%type.
Abbreviation MctpFlowList := (list MctpFlow).

(** [create_tag]; a buffer that is too short gets the default tag. *)
Definition create_tag `{Crates} (bs : bytes) : option MsgFlowTag.t :=
  if (length bs <? 4)%nat then Some MsgFlowTag.default_value
  else
    match try_from_bytes (T:=TransportHeader.t) bs with
    | Ok hdr =>
        Some (MsgFlowTag.mk (TransportHeader.destination_eid hdr) (TransportHeader.source_eid hdr)
          (TransportHeader.msg_tag hdr) (negb (TransportHeader.tag_owner hdr =? 0)))
    | _ => None
    end.

(** Whether a packet answers the request of a flow: same message tag, the
    other owner bit, and sent by the endpoint the request went to. *)
Definition answers_flow (tag recv_tag : MsgFlowTag.t) : bool :=
  (MsgFlowTag.msg_tag tag =? MsgFlowTag.msg_tag recv_tag)
  && negb (eqb (MsgFlowTag.tag_owner tag) (MsgFlowTag.tag_owner recv_tag))
  && (MsgFlowTag.dest_eid tag =? MsgFlowTag.src_eid recv_tag).

(** The [while index < flows.len()] loop; [fuel] bounds its turns. *)
Fixpoint find_flow (fuel : nat) (flows : MctpFlowList) (recv_tag : MsgFlowTag.t) (index : nat)
    : option nat :=
  match fuel with
  | O => None
  | S fuel =>
      if (index <? length flows)%nat then
        match flows !! index with
        | Some (tag, _) =>
            if answers_flow tag recv_tag then Some index
            else find_flow fuel flows recv_tag (S index)
        | None => None
        end
      else Some index
  end.

(** The index the search of a packet stops at. *)
Definition flow_index (flows : MctpFlowList) (recv_tag : MsgFlowTag.t) : nat :=
  default 0%nat (find_flow (S (length flows)) flows recv_tag 0).

(** ** Proofs *)
Section facts.
Context `{CratesLaws}.

(** [create_tag] never fails on a byte string. *)
Lemma create_tag_total bs :
  is_bytes bs ->
  ((length bs < 4)%nat /\ create_tag bs = Some MsgFlowTag.default_value) \/
  exists h : TransportHeader.t, (4 <= length bs)%nat /\ valid h /\ try_from_bytes bs = Ok h /\
    create_tag bs = Some (MsgFlowTag.mk (TransportHeader.destination_eid h)
      (TransportHeader.source_eid h) (TransportHeader.msg_tag h)
      (negb (TransportHeader.tag_owner h =? 0))).
Proof.
  intros Hbs. unfold create_tag. destruct (Nat.ltb_spec (length bs) 4) as [Hs|Hl]; [by left|].
  right. destruct (try_from_long (T:=TransportHeader.t) bs) as (v & h & _ & _ & _ & Hh & Hok);
    [done|done|]. exists h. rewrite Hok. by split_and!.
Qed.

(** The tag of the packet a header and a body make. *)
Lemma create_tag_packet (h : TransportHeader.t) body :
  valid h ->
  create_tag (flatten (to_value h) ++ body) =
    Some (MsgFlowTag.mk (TransportHeader.destination_eid h) (TransportHeader.source_eid h)
      (TransportHeader.msg_tag h) (negb (TransportHeader.tag_owner h =? 0))).
Proof.
  intros Hh. pose proof (flatten_length h Hh) as Hl. change (size_of _) with 4%nat in Hl.
  unfold create_tag. rewrite (proj2 (Nat.ltb_ge _ _)) by (rewrite length_app; lia).
  by rewrite (try_from_flatten _ h) by first [by apply to_value_typed | by apply of_to_value].
Qed.

(** C34: A packet under the response header of a request answers the request's
    flow, whatever the bodies are. *)
Theorem response_answers_flow (h : TransportHeader.t) req_body rsp_body :
  valid h ->
  exists tag recv_tag,
    create_tag (flatten (to_value h) ++ req_body) = Some tag /\
    create_tag (flatten (to_value (TransportHeader.create_response h)) ++ rsp_body) = Some recv_tag /\
    answers_flow tag recv_tag = true.
Proof.
  intros Hh. pose proof (TransportHeaderFacts.create_response_valid h Hh) as Hr.
  rewrite !create_tag_packet by done. do 2 eexists. split_and!; [reflexivity..|].
  destruct (TransportHeaderFacts.create_response_accessors h Hh) as (_ & Hs & Hm & Ho & _).
  unfold answers_flow.
  cbn [MsgFlowTag.msg_tag MsgFlowTag.tag_owner MsgFlowTag.dest_eid MsgFlowTag.src_eid].
  rewrite Hs, Hm, Ho, !Z.eqb_refl. simpl.
  by destruct (TransportHeaderFacts.header_getters_range h Hh) as (_ & [-> | ->] & _).
Qed.

End facts.

(** With one unit of fuel more than there are flows the search ends, at the
    first flow the packet answers, or at the length of the list when it
    answers none. *)
Lemma find_flow_spec fuel flows recv_tag index :
  (index <= length flows)%nat -> (length flows - index < fuel)%nat ->
  exists i, find_flow fuel flows recv_tag index = Some i /\ (index <= i <= length flows)%nat /\
    (forall j tag ch, (index <= j < i)%nat -> flows !! j = Some (tag, ch) ->
      answers_flow tag recv_tag = false) /\
    (forall tag ch, flows !! i = Some (tag, ch) -> answers_flow tag recv_tag = true).
Proof.
  revert index. induction fuel as [|fuel IH]; intros index Hi Hf; [lia|]. cbn [find_flow].
  destruct (Nat.ltb_spec index (length flows)) as [Hlt|Hge].
  - destruct (lookup_lt_is_Some_2 flows index Hlt) as [[tag ch] Hlk]. rewrite Hlk.
    destruct (answers_flow tag recv_tag) eqn:Ha.
    + exists index. split_and!; [done|lia|lia|lia|]. naive_solver.
    + destruct (IH (S index)) as (i & Hfind & Hr & Hbefore & Hat); [lia|lia|].
      exists i. split_and!; [done|lia|lia| |done]. intros j tag' ch' Hj Hlk'.
      destruct (decide (j = index)) as [->|]; [congruence|]. apply (Hbefore j tag' ch'); [lia|done].
  - exists index. split_and!; [done|lia|lia|lia|].
    intros tag ch Hlk. apply lookup_lt_Some in Hlk. lia.
Qed.

(** The search ends within its fuel, at the first flow the packet answers. *)
Lemma flow_index_cases flows recv_tag :
  let i := flow_index flows recv_tag in
  find_flow (S (length flows)) flows recv_tag 0 = Some i /\ (i <= length flows)%nat /\
  (forall j tag ch, (j < i)%nat -> flows !! j = Some (tag, ch) ->
    answers_flow tag recv_tag = false) /\
  (forall tag ch, flows !! i = Some (tag, ch) -> answers_flow tag recv_tag = true).
Proof.
  intros i. destruct (find_flow_spec (S (length flows)) flows recv_tag 0)
    as (k & Hk & Hr & Hb & Ha); [lia|lia|].
  assert (i = k) as -> by (subst i; unfold flow_index; by rewrite Hk).
  split_and!; [done|lia| |done]. intros j tag ch Hj. apply Hb. lia.
Qed.

(** The search stops at the first flow the packet answers. *)
Lemma flow_index_first flows recv_tag i tag ch :
  flows !! i = Some (tag, ch) -> answers_flow tag recv_tag = true ->
  (forall j tag' ch', (j < i)%nat -> flows !! j = Some (tag', ch') ->
    answers_flow tag' recv_tag = false) ->
  flow_index flows recv_tag = i.
Proof.
  intros Hi Ha Hb. destruct (flow_index_cases flows recv_tag) as (_ & Hle & Hb' & Ha').
  destruct (Nat.lt_trichotomy (flow_index flows recv_tag) i) as [Hlt|[->|Hgt]]; [|done|].
  - apply lookup_lt_Some in Hi as Hl.
    destruct (lookup_lt_is_Some_2 flows (flow_index flows recv_tag)) as [[tag' ch'] Hlk]; [lia|].
    specialize (Ha' tag' ch' Hlk). by rewrite (Hb _ tag' ch' Hlt Hlk) in Ha'.
  - by rewrite (Hb' i tag ch Hgt Hi) in Ha.
Qed.

(** C35: The search loop computes what [list_find] specifies: the index of the first
    flow the packet answers, and the length of the list when there is none. *)
Theorem flow_index_list_find flows recv_tag :
  find_flow (S (length flows)) flows recv_tag 0 =
    Some (match list_find (fun f => answers_flow f.1 recv_tag = true) flows with
          | Some (i, _) => i
          | None => length flows
          end).
Proof.
  destruct (flow_index_cases flows recv_tag) as (-> & Hle & Hb & Ha). f_equal.
  destruct (list_find _ flows) as [[i [tag ch]]|] eqn:Hf.
  - apply list_find_Some in Hf as (Hi & Hans & Hbefore). apply (flow_index_first _ _ i tag ch); [done|done|].
    intros j tag' ch' Hj Hlk. apply not_true_is_false. exact (Hbefore j _ Hlk Hj).
  - apply list_find_None in Hf. destruct (decide (flow_index flows recv_tag = length flows)); [done|].
    destruct (lookup_lt_is_Some_2 flows (flow_index flows recv_tag)) as [[tag ch] Hlk]; [lia|].
    by destruct (Forall_lookup_1 _ _ _ _ Hf Hlk (Ha tag ch Hlk)).
Qed.

(** ** Witnesses *)
Section witness.
#[local] Existing Instance Reference.crates.
#[local] Existing Instance Reference.crates_laws.

Lemma response_answers_flow_witness :
  let h := TransportHeader.mk [1] 9 8 [0xc9] in
  exists tag recv_tag,
    create_tag (flatten (to_value h) ++ [0; 0x81; 2]) = Some tag /\
    create_tag (flatten (to_value (TransportHeader.create_response h)) ++ [0; 1; 2; 0]) =
      Some recv_tag /\
    answers_flow tag recv_tag = true.
Proof.
  intros h. apply (response_answers_flow h [0; 0x81; 2] [0; 1; 2; 0]).
  repeat split; cbn; solve_bytes || lia.
Defined.

End witness.
