(* ===== verification/SimpleNetwork.v ===== *)
(** * The simple network

    Models [src/network/simple_network.rs]: sockets, the send path and the
    callback handler of a network with one physical binding.  An [async]
    function is cut at its [await]s: [sendto_begin] runs up to the lock of the
    binding, [sendto_transmit] up to the wait for the response, and
    [sendto_finish] is the rest.  [SimpleNetworkTasks] runs the tasks
    interleaved.  A binding is shared through its handle, and lives in a
    store. *)
From stdpp Require Import functions.
From S2P Require Import Prelude Crates Reference Derive Enums Transport Errors Smbus Network.

Module SimpleNetwork.

Record t := mk {
  clients : gmap Z Client.t;                 (** [HashMap<i32, ClientHandle>] *)
  num_clients : Z;                           (** [AtomicI32] *)
  phys_bindings : BindingHandle;
  callback_handles : list JoinHandle;
  flows : MctpFlowList;
  flows_poisoned : bool;                     (** the mutex around [flows] *)
}.
Section network.
Context `{Crates} {B : Type} `{NetworkBinding B}.

(** [SimpleNetwork::new]: the builder has every field, so it succeeds. *)
Definition new (binding : BindingHandle) : MctpEmuResult (t) :=
  let network := mk ∅ 0 binding [] [] false in
  Ok (mk (clients network) (num_clients network) (phys_bindings network)
    (callback_handles network ++ [CallbackTask]) (flows network) (flows_poisoned network)).

Definition get_binding (self : t) (binding_id : Z) : outcome Network.Error BindingHandle :=
  if negb (binding_id =? 1) then Err (Network.InvalidBindingError binding_id)
  else Ok (phys_bindings self).

Definition get_client (self : t) (sd : Z) : MctpEmuResult Client.t :=
  match clients self !! sd with
  | Some client => Ok client
  | None => Err (MctpEmuError.Network (Network.InvalidSocketError sd))
  end.

(** [socket]: [fetch_add] returns the old value and wraps around. *)
Definition socket (self : t) : t * Z :=
  (mk (clients self) (wrap_i32 (num_clients self + 1)) (phys_bindings self)
     (callback_handles self) (flows self) (flows_poisoned self),
   num_clients self).

(** [bind]; [chan] is the channel [Client::new] creates. *)
Definition bind (checks : bool) (self : t) (sd address msg_type tag : Z) (chan : channel)
    : t * MctpEmuResult unit :=
  match arith_i32 checks (num_clients self - 1) with
  | Ok bound =>
      if sd <? bound then (self, Err (MctpEmuError.Network (Network.InvalidSocketError sd)))
      else
        let client_handle := Client.new chan address msg_type tag in
        (mk (<[sd := client_handle]> (clients self)) (num_clients self) (phys_bindings self)
           (callback_handles self) (flows self) (flows_poisoned self),
         Ok tt)
  | Err e => (self, Err e)
  | Panic p => (self, Panic p)
  end.

Definition set_flows (self : t) (fs : MctpFlowList) (poisoned : bool) : t :=
  mk (clients self) (num_clients self) (phys_bindings self) (callback_handles self) fs poisoned.

(** [self.flows.lock().unwrap()] *)
Definition lock_flows (self : t) : MctpEmuResult MctpFlowList :=
  if flows_poisoned self then Panic PanicPoisoned else Ok (flows self).

(** [sendto] up to the lock of the binding: the flow is registered under the
    tag of the packet, with the sending end of the oneshot [resp_tx]; the
    result is the network, the packet and the physical address. *)
Definition sendto_begin (self : t) (sd : Z) (payload : bytes) (addr : SocketAddress)
    (resp_tx : channel) : MctpEmuResult (t * (bytes * Z)) :=
  match addr with
  | Basic _ _ _ => Panic PanicTodo
  | Extended address network binding_id phy_addr =>
      _ ← map_err MctpEmuError.Network (get_binding self binding_id);
      client ← get_client self sd;
      let hdr := TransportHeader.new (Client.address client) address (Client.tag client)
        (Some true) (Some true) (Some true) in
      hdr_bytes ← bytes_from hdr;
      let buf := hdr_bytes ++ payload in
      match create_tag buf with
      | None => Err (MctpEmuError.Network (Network.Other (AnyMsg "failed to allocate tag")))
      | Some tag =>
          fs ← lock_flows self;
          Ok (set_flows self (fs ++ [(tag, resp_tx)]) (flows_poisoned self), (buf, phy_addr))
      end
  end.

(** [sendto] between the lock of the binding and the wait: the transmission,
    whose error is unwrapped. *)
Definition sendto_transmit (store : BindingHandle -> B) (self : t) (buf : bytes) (phy_addr : Z)
    : list bytes * MctpEmuResult unit :=
  let '(sent, res) := binding_transmit (store (phys_bindings self)) buf phy_addr in
  (sent, unwrap res).

(** [sendto] after the wait; [None] when the sending end was dropped. *)
Definition sendto_finish (received : option ClientCallbackMsg)
    : MctpEmuResult (SocketAddress * bytes) :=
  match received with
  | None => Err (MctpEmuError.Network (Network.Other (AnyContext "response failed" AnyRecv)))
  | Some (Receive addr buf) => Ok (addr, buf)
  end.

(** What a turn of [callback_handler] ends with: the next turn, the next turn
    after a delivery to a oneshot, or a panic of the task. *)
Inductive callback_result :=
  | CallbackContinue
  | CallbackDelivered (resp : channel) (response : ClientCallbackMsg)
  | CallbackPanic (p : panic).

(** The search and the delivery, under the lock of the flows; [send_ok ch] is
    whether the [send] to oneshot [ch] succeeds.  A panic under the lock
    poisons it. *)
Definition callback_deliver (send_ok : channel -> bool) (self : t)
    (recv_tag : MsgFlowTag.t) (response : ClientCallbackMsg) : t * callback_result :=
  match lock_flows self with
  | Ok flows_inflight =>
      let index := flow_index flows_inflight recv_tag in
      match flows_inflight !! index with
      | Some (_, resp) =>
          let flows_inflight := delete index flows_inflight in
          if send_ok resp then
            (set_flows self flows_inflight (flows_poisoned self), CallbackDelivered resp response)
          else (set_flows self flows_inflight true, CallbackPanic PanicUnwrap)
      | None => (self, CallbackContinue)
      end
  | Err _ => (self, CallbackContinue)
  | Panic p => (self, CallbackPanic p)
  end.

(** One turn of [callback_handler], on [Receive { id, buf }]. *)
Definition callback_receive (send_ok : channel -> bool) (self : t) (id : Z) (buf : bytes)
    : t * callback_result :=
  match try_from_bytes (T:=SmbusPhysTransportHeader.t) buf with
  | Ok _ =>
      match slice_from (E:=MctpEmuError.t) buf 4 with
      | Ok buf =>
          match create_tag buf with
          | None => (self, CallbackContinue)
          | Some recv_tag =>
              let response := Receive (Extended 0 1 id 0) buf in
              callback_deliver send_ok self recv_tag response
          end
      | Err _ => (self, CallbackContinue)
      | Panic p => (self, CallbackPanic p)
      end
  | Err _ => (self, CallbackContinue)
  | Panic p => (self, CallbackPanic p)
  end.

(** [add_physical_binding]: binds under id 1 the binding passed in, and keeps
    the task's handle. *)
Definition add_physical_binding (debug : MctpEmuError.t -> string) (store : BindingHandle -> B)
    (self : t) (binding : BindingHandle) : (BindingHandle -> B) * t * MctpEmuResult unit :=
  let '(b, res) := binding_bind (store binding) 1 in
  let store := <[binding := b]> store in
  match res with
  | Ok handle =>
      (store, mk (clients self) (num_clients self) (phys_bindings self)
         (callback_handles self ++ [handle]) (flows self) (flows_poisoned self), Ok tt)
  | Err err =>
      (store, self, Err (MctpEmuError.Network
        (Network.Other (AnyMsg ("failed calling binding: " +:+ debug err)))))
  | Panic p => (store, self, Panic p)
  end.

(** [join_handles]: drains the handles. *)
Definition join_handles (self : t) : t * list JoinHandle :=
  (mk (clients self) (num_clients self) (phys_bindings self) [] (flows self) (flows_poisoned self),
   callback_handles self).

End network.
End SimpleNetwork.

(** ** Proofs *)
Module SimpleNetworkFacts.
Import SimpleNetwork.
Section facts.
Context `{CratesLaws} {B : Type} `{NetworkBinding B}.
Implicit Types (self : t).

(** A turn of the callback handler delivers to the first flow the packet
    answers, and otherwise changes nothing; it panics only on a poisoned lock
    or when the receiver of that flow is gone, and then it poisons the lock. *)
Lemma callback_receive_cases send_ok self id buf :
  is_bytes buf ->
  callback_receive send_ok self id buf = (self, CallbackContinue) \/
  (flows_poisoned self = true /\
   callback_receive send_ok self id buf = (self, CallbackPanic PanicPoisoned)) \/
  exists i tag ch body recv_tag,
    flows_poisoned self = false /\ flows self !! i = Some (tag, ch) /\
    (forall j tag' ch', (j < i)%nat -> flows self !! j = Some (tag', ch') ->
      answers_flow tag' recv_tag = false) /\
    body = drop 4 buf /\ create_tag body = Some recv_tag /\ answers_flow tag recv_tag = true /\
    callback_receive send_ok self id buf =
      (set_flows self (delete i (flows self)) (negb (send_ok ch)),
       if send_ok ch then CallbackDelivered ch (Receive (Extended 0 1 id 0) body)
       else CallbackPanic PanicUnwrap).
Proof.
  intros Hbuf. unfold callback_receive.
  destruct (decide (length buf < 4)%nat) as [Hs|Hl].
  { rewrite (try_from_short (T:=SmbusPhysTransportHeader.t)) by done. by left. }
  destruct (try_from_long (T:=SmbusPhysTransportHeader.t) buf)
    as (v & h & _ & _ & _ & _ & ->); [done|simpl; lia|].
  rewrite slice_from_Ok by lia.
  assert (exists rt, create_tag (drop 4 buf) = Some rt) as [rt Hrt].
  { destruct (create_tag_total (drop 4 buf)) as [[_ Hc]|(? & _ & _ & _ & Hc)];
      [auto with mctp|eauto|eauto]. }
  rewrite Hrt. unfold callback_deliver, lock_flows.
  destruct (flows_poisoned self) eqn:Hp; [by right; left|].
  destruct (flow_index_cases (flows self) rt) as (_ & _ & Hbefore & Hat).
  destruct (flows self !! flow_index (flows self) rt) as [[tag ch]|] eqn:Hlk; [|by left].
  right; right. exists (flow_index (flows self) rt), tag, ch, (drop 4 buf), rt.
  split_and!; try done; [by eapply Hat|]. by destruct (send_ok ch).
Qed.

(** The delivery to the first flow a packet answers. *)
Lemma callback_receive_deliver send_ok self id buf i tag ch recv_tag :
  flows self !! i = Some (tag, ch) -> flows_poisoned self = false -> is_bytes buf ->
  (4 <= length buf)%nat -> create_tag (drop 4 buf) = Some recv_tag ->
  answers_flow tag recv_tag = true ->
  (forall j tag' ch', (j < i)%nat -> flows self !! j = Some (tag', ch') ->
    answers_flow tag' recv_tag = false) ->
  callback_receive send_ok self id buf =
    (set_flows self (delete i (flows self)) (negb (send_ok ch)),
     if send_ok ch then CallbackDelivered ch (Receive (Extended 0 1 id 0) (drop 4 buf))
     else CallbackPanic PanicUnwrap).
Proof.
  intros Hi Hp Hbuf Hlen Hrt Ha Hb. unfold callback_receive.
  destruct (try_from_long (T:=SmbusPhysTransportHeader.t) buf)
    as (v & h & _ & _ & _ & _ & ->); [done|simpl; lia|].
  rewrite slice_from_Ok, Hrt by lia. unfold callback_deliver, lock_flows.
  rewrite Hp, (flow_index_first _ _ i tag ch), Hi by done. by destruct (send_ok ch).
Qed.

Lemma bind_flows checks self sd address msg_type tag chan :
  flows (bind checks self sd address msg_type tag chan).1 = flows self /\
  flows_poisoned (bind checks self sd address msg_type tag chan).1 = flows_poisoned self.
Proof. unfold bind. destruct (arith_i32 _ _); [|done|done]. by destruct (_ <? _). Qed.

Lemma add_physical_binding_flows debug (st : BindingHandle -> B) self binding :
  flows (add_physical_binding debug st self binding).1.2 = flows self /\
  flows_poisoned (add_physical_binding debug st self binding).1.2 = flows_poisoned self.
Proof.
  unfold add_physical_binding. destruct (binding_bind (st binding) 1) as [b r]. by destruct r.
Qed.

Lemma sendto_begin_flows self sd payload addr ch n buf phy :
  sendto_begin self sd payload addr ch = Ok (n, (buf, phy)) ->
  exists tag, create_tag buf = Some tag /\ flows_poisoned self = false /\
    n = set_flows self (flows self ++ [(tag, ch)]) false.
Proof.
  unfold sendto_begin. destruct addr as [|address network binding_id phy_addr]; [done|].
  intros Hs. inv_ok. destruct (create_tag _) as [tag|] eqn:Ht; [|done]. inv_ok.
  unfold lock_flows in *. destruct (flows_poisoned self); [done|]. inv_ok. eauto.
Qed.

(** [bind] while the counter is in range: refused exactly for a descriptor
    below the last one returned, accepted for every other, returned or not. *)
Theorem simple_bind_spec checks self sd address msg_type tag chan :
  - 2 ^ 31 < num_clients self < 2 ^ 31 ->
  (sd < num_clients self - 1 /\
   bind checks self sd address msg_type tag chan =
     (self, Err (MctpEmuError.Network (Network.InvalidSocketError sd)))) \/
  (num_clients self - 1 <= sd /\ exists self',
   bind checks self sd address msg_type tag chan = (self', Ok tt) /\
   (forall sd', get_client self' sd' =
      if decide (sd' = sd) then Ok (Client.new chan address msg_type tag)
      else get_client self sd') /\
   num_clients self' = num_clients self /\ flows self' = flows self).
Proof.
  intros Hn. unfold bind, arith_i32. rewrite decide_True by lia.
  destruct (Z.ltb_spec sd (num_clients self - 1)); [by left|right]. split; [lia|].
  eexists. split_and!; [reflexivity| |done|done]. intros sd'. unfold get_client. simpl.
  destruct (decide (sd' = sd)) as [->|]; [by rewrite lookup_insert_eq|].
  by rewrite lookup_insert_ne by congruence.
Qed.

(** After two sockets, the first one can no longer be bound, and a descriptor
    no call returned can. *)
Theorem first_socket_cannot_be_bound binding self checks chan :
  new binding = Ok self ->
  let '(self1, sd1) := socket self in
  let '(self2, sd2) := socket self1 in
  sd1 = 0 /\ sd2 = 1 /\
  (bind checks self2 sd1 0 0 0 chan).2 =
    Err (MctpEmuError.Network (Network.InvalidSocketError sd1)) /\
  (bind checks self2 7 0 0 0 chan).2 = Ok tt.
Proof. intros Hn. unfold new in Hn. simpl in Hn. injection Hn as <-. done. Qed.

Lemma sendto_begin_cases self sd payload addr ch :
  (forall c, clients self !! sd = Some c -> u8 (Client.address c) /\ u8 (Client.tag c)) ->
  (forall address network binding_id phy_addr,
    addr = Extended address network binding_id phy_addr -> u8 address) ->
  sendto_begin self sd payload addr ch =
  match addr with
  | Basic _ _ _ => Panic PanicTodo
  | Extended address _ binding_id phy_addr =>
      if negb (binding_id =? 1) then
        Err (MctpEmuError.Network (Network.InvalidBindingError binding_id))
      else
        match clients self !! sd with
        | None => Err (MctpEmuError.Network (Network.InvalidSocketError sd))
        | Some c =>
            if flows_poisoned self then Panic PanicPoisoned
            else
              Ok (set_flows self (flows self ++
                    [(MsgFlowTag.mk address (Client.address c) (Client.tag c mod 8) true, ch)]) false,
                  ([1; address; Client.address c; Client.tag c mod 8 + 8 + 64 + 128] ++ payload,
                   phy_addr))
        end
  end.
Proof.
  intros Hc Ha. destruct addr as [|address network binding_id phy_addr]; [done|].
  specialize (Ha _ _ _ _ eq_refl). unfold sendto_begin, get_binding, get_client.
  destruct (Z.eqb_spec binding_id 1) as [->|Hne]; [|done]. cbn [negb map_err mbind outcome_bind].
  destruct (clients self !! sd) as [c|] eqn:Hsd; [|done]. destruct (Hc c eq_refl) as [Hca Hct].
  cbn [mbind outcome_bind]. rewrite bytes_from_flatten by by apply TransportHeaderFacts.header_new_valid.
  cbn [mbind outcome_bind].
  rewrite create_tag_packet by by apply TransportHeaderFacts.header_new_valid.
  pose proof (TransportHeaderFacts.header_new_wire (E:=MctpEmuError.t) (Client.address c) address
    (Client.tag c) (Some true) (Some true) (Some true) Hca Ha Hct) as Hw.
  rewrite bytes_from_flatten in Hw by by apply TransportHeaderFacts.header_new_valid.
  injection Hw as Hw.
  destruct (TransportHeaderFacts.header_new_accessors (Client.address c) address (Client.tag c)
    (Some true) (Some true) (Some true) Hct) as (_ & _ & -> & -> & -> & -> & _).
  unfold lock_flows. destruct (flows_poisoned self) eqn:Hp; [done|]. cbn [mbind outcome_bind].
  simpl flatten. rewrite Hw. simpl. repeat f_equal.
Qed.

(** C32: [sendto] up to its first wait, on every input of the right types: what it
    refuses and in which order, and the packet it builds and the flow it
    registers, last in the list, when it goes on. *)
Theorem sendto_begin_spec self sd payload addr ch :
  (forall c, clients self !! sd = Some c -> u8 (Client.address c) /\ u8 (Client.tag c)) ->
  (forall address network binding_id phy_addr,
    addr = Extended address network binding_id phy_addr -> u8 address) ->
  sendto_begin self sd payload addr ch =
  match addr with
  | Basic _ _ _ => Panic PanicTodo
  | Extended address _ binding_id phy_addr =>
      if negb (binding_id =? 1) then
        Err (MctpEmuError.Network (Network.InvalidBindingError binding_id))
      else
        match clients self !! sd with
        | None => Err (MctpEmuError.Network (Network.InvalidSocketError sd))
        | Some c =>
            if flows_poisoned self then Panic PanicPoisoned
            else
              Ok (set_flows self (flows self ++
                    [(MsgFlowTag.mk address (Client.address c) (Client.tag c mod 8) true, ch)]) false,
                  ([1; address; Client.address c; Client.tag c mod 8 + 8 + 64 + 128] ++ payload,
                   phy_addr))
        end
  end.
Proof. apply sendto_begin_cases. Qed.

End facts.
End SimpleNetworkFacts.

(** ** Witnesses *)
Section witness.
#[local] Existing Instance Reference.crates.
#[local] Existing Instance Reference.crates_laws.

Import SimpleNetwork SimpleNetworkFacts.

(** A network with a socket that is bound. *)
Definition w_net : t := mk ∅ 0 0%nat [CallbackTask] [] false.
Definition w_bound : t := (bind true (socket w_net).1 0 8 0 1 3%nat).1.
Definition w_tag : MsgFlowTag.t := MsgFlowTag.mk 9 8 1 true.
Definition w_packet : bytes := [1; 9; 8; 0xc9; 0; 0x81; 2].
Definition w_sent : t := set_flows w_bound [(w_tag, 7%nat)] false.

Lemma simple_bind_spec_witness :
  (bind true (socket w_net).1 0 8 0 1 3%nat).2 = Ok tt.
Proof.
  destruct (simple_bind_spec true (socket w_net).1 0 8 0 1 3%nat)
    as [[Hlt _]|(_ & self & Hb & _)]; [vm_compute; split; reflexivity|vm_compute in Hlt; discriminate|].
  exact (f_equal snd Hb).
Defined.

Lemma sendto_begin_spec_witness :
  sendto_begin w_bound 0 [0; 0x81; 2] (Extended 9 1 1 0x30) 7%nat = Ok (w_sent, (w_packet, 0x30)).
Proof.
  rewrite (sendto_begin_spec w_bound 0 [0; 0x81; 2] (Extended 9 1 1 0x30) 7%nat).
  - vm_compute. reflexivity.
  - intros c Hc. vm_compute in Hc. injection Hc as <-. split; cbn; solve_range.
  - intros a n b p [= <- _ _ _]. solve_range.
Defined.

End witness.
