(* ===== verification/SimpleNetworkTasks.v ===== *)
(** * The tasks of the simple network

    Runs the operations of [SimpleNetwork] interleaved: any number of calls of
    [sendto], the callback handler, and socket calls and added bindings, as the
    step relation [step].  A oneshot channel is an identifier, its message waits
    in [inbox], and sending fails when the receiving future is gone.  The lock
    of the binding is held by at most one call, and while it waits. *)
From stdpp Require Import functions.
From S2P Require Import Prelude Crates Reference Derive Enums Transport Errors Smbus Network.
From S2P Require Import SimpleNetwork.

Module SimpleNetworkTasks.
Import SimpleNetwork.
Section tasks.
Context `{Crates} {B : Type} `{NetworkBinding B}.

(** Where a call of [sendto] stands: before the lock of the binding, waiting
    for the response, returned, or gone (dropped, or panicked).  The guard of
    the lock is a local of [sendto]: a call holds the lock while it waits. *)
Inductive sender :=
  | Queued (tag : MsgFlowTag.t) (buf : bytes) (phy_addr : Z)
  | Waiting (tag : MsgFlowTag.t)
  | Finished (tag : MsgFlowTag.t) (res : MctpEmuResult (SocketAddress * bytes))
  | Gone.

Record sys := mk_sys {
  store : BindingHandle -> B;                  (** the bindings behind the handles *)
  net : t;
  senders : gmap channel sender;               (** by the oneshot of the call *)
  inbox : gmap channel ClientCallbackMsg;
  handler_alive : bool;
  holder : option channel;                     (** the call that holds [phys_bindings]'s lock *)
}.

(** The receiving end of a oneshot lives as long as its future. *)
Definition receiver_alive (s : sys) (ch : channel) : bool :=
  match senders s !! ch with
  | Some (Queued _ _ _) | Some (Waiting _) => true
  | _ => false
  end.

Definition initial (binding : BindingHandle) (s : sys) : Prop :=
  new binding = Ok (net s) /\ senders s = ∅ /\ inbox s = ∅ /\ handler_alive s = true /\
  holder s = None.

Definition set_net (s : sys) (n : t) : sys :=
  mk_sys (store s) n (senders s) (inbox s) (handler_alive s) (holder s).

(** The call [ch] goes on to [x]; [h] holds the lock after it. *)
Definition set_sender (s : sys) (ch : channel) (x : sender) (h : option channel) : sys :=
  mk_sys (store s) (net s) (<[ch := x]> (senders s)) (inbox s) (handler_alive s) h.

(** A call that ends drops its guard. *)
Definition release (s : sys) (ch : channel) : option channel :=
  if decide (holder s = Some ch) then None else holder s.

Definition deliver (s : sys) (n : t) (r : callback_result) : sys :=
  match r with
  | CallbackContinue => set_net s n
  | CallbackDelivered ch msg =>
      mk_sys (store s) n (senders s) (<[ch := msg]> (inbox s)) (handler_alive s) (holder s)
  | CallbackPanic _ => mk_sys (store s) n (senders s) (inbox s) false (holder s)
  end.

(** A turn of the callback handler on a message of the channel. *)
Definition handle_msg (s : sys) (id : Z) (buf : bytes) : sys :=
  let '(n, r) := callback_receive (receiver_alive s) (net s) id buf in deliver s n r.

(** Nothing holds the lock of a binding. *)
Definition lock_free (s : sys) (binding : BindingHandle) : Prop :=
  holder s = None \/ binding <> phys_bindings (net s).

(** [add_physical_binding] with the lock of the binding. *)
Definition add_binding (debug : MctpEmuError.t -> string) (s : sys) (binding : BindingHandle)
    : sys * MctpEmuResult unit :=
  let '(st, n, res) := add_physical_binding debug (store s) (net s) binding in
  (mk_sys st n (senders s) (inbox s) (handler_alive s) (holder s), res).

(** A poll of a running call gets it on, with the datagrams it hands to the
    wire. *)
Inductive future_step (s : sys) : list bytes -> sys -> Prop :=
  | call_transmit ch tag buf phy out :
      senders s !! ch = Some (Queued tag buf phy) -> holder s = None ->
      sendto_transmit (store s) (net s) buf phy = (out, Ok tt) ->
      future_step s out (set_sender s ch (Waiting tag) (Some ch))
  | call_transmit_panic ch tag buf phy out p :
      senders s !! ch = Some (Queued tag buf phy) -> holder s = None ->
      sendto_transmit (store s) (net s) buf phy = (out, Panic p) ->
      future_step s out (set_sender s ch Gone None)
  | call_finish ch tag msg :
      senders s !! ch = Some (Waiting tag) -> inbox s !! ch = Some msg ->
      future_step s []
        (mk_sys (store s) (net s) (<[ch := Finished tag (sendto_finish (Some msg))]> (senders s))
          (delete ch (inbox s)) (handler_alive s) (release s ch))
  | call_finish_closed ch tag :
      senders s !! ch = Some (Waiting tag) -> inbox s !! ch = None ->
      ch ∉ (flows (net s)).*2 ->
      future_step s [] (set_sender s ch (Finished tag (sendto_finish None)) (release s ch)).

(** A step of a caller.  A call of [sendto] that is refused before it registers its
    flow changes nothing, and is no step. *)
Inductive call_step (checks : bool) (s : sys) : list bytes -> sys -> Prop :=
  | call_socket : call_step checks s [] (set_net s (socket (net s)).1)
  | call_bind sd address msg_type tag chan :
      call_step checks s [] (set_net s (bind checks (net s) sd address msg_type tag chan).1)
  | call_join : call_step checks s [] (set_net s (join_handles (net s)).1)
  | call_send sd payload addr ch n buf phy tag :
      senders s !! ch = None ->
      sendto_begin (net s) sd payload addr ch = Ok (n, (buf, phy)) ->
      create_tag buf = Some tag ->
      call_step checks s [] (set_sender (set_net s n) ch (Queued tag buf phy) (holder s))
  | call_drop ch :
      receiver_alive s ch = true ->
      call_step checks s [] (set_sender s ch Gone (release s ch))
  | call_future out s' : future_step s out s' -> call_step checks s out s'.

Inductive step (checks : bool) (s : sys) : sys -> Prop :=
  | step_call out s' : call_step checks s out s' -> step checks s s'
  | step_add_binding debug binding :
      lock_free s binding -> step checks s (add_binding debug s binding).1
  | step_receive id buf :
      handler_alive s = true -> is_bytes buf -> step checks s (handle_msg s id buf).

Inductive reachable (checks : bool) (binding : BindingHandle) : sys -> Prop :=
  | reachable_initial s : initial binding s -> reachable checks binding s
  | reachable_step s s' :
      reachable checks binding s -> step checks s s' -> reachable checks binding s'.

End tasks.
Arguments sys : clear implicits.
End SimpleNetworkTasks.

(** ** Proofs *)
Module SimpleNetworkTasksFacts.
Import SimpleNetwork SimpleNetworkFacts SimpleNetworkTasks.
Section facts.
Context `{CratesLaws} {B : Type} `{NetworkBinding B}.
Implicit Types (self : t) (s : sys B).

(** ** Exactly one of: flow registered, response waiting *)

Definition sender_tag (x : sender) : option MsgFlowTag.t :=
  match x with
  | Queued tag _ _ | Waiting tag | Finished tag _ => Some tag
  | Gone => None
  end.

Definition sender_live (x : sender) : bool :=
  match x with Queued _ _ _ | Waiting _ => true | _ => false end.

(** A response from the network answers the request of a sender. *)
Definition answers_sender (x : sender) (addr : SocketAddress) (buf : bytes) : Prop :=
  exists id recv_tag, addr = Extended 0 1 id 0 /\ create_tag buf = Some recv_tag /\
    forall tag, sender_tag x = Some tag -> answers_flow tag recv_tag = true.

Record inv (s : sys B) : Prop := {
  inv_nodup : NoDup (flows (net s)).*2;
  inv_flow tag ch : (tag, ch) ∈ flows (net s) ->
    inbox s !! ch = None /\ exists x, senders s !! ch = Some x /\
      (x = Gone \/ (sender_live x = true /\ sender_tag x = Some tag));
  inv_live ch x : senders s !! ch = Some x -> sender_live x = true ->
    ch ∈ (flows (net s)).*2 \/ is_Some (inbox s !! ch);
  inv_inbox ch addr buf : inbox s !! ch = Some (Receive addr buf) ->
    exists x, senders s !! ch = Some x /\ answers_sender x addr buf;
  inv_finished ch tag res : senders s !! ch = Some (Finished tag res) ->
    exists addr buf, res = Ok (addr, buf) /\ answers_sender (Finished tag res) addr buf;
  inv_panic : flows_poisoned (net s) = true \/ handler_alive s = false ->
    exists ch, senders s !! ch = Some Gone;
}.

Lemma inv_initial binding s : initial binding s -> inv s.
Proof.
  intros (Hn & Hs & Hi & Ha & _).
  assert (flows (net s) = [] /\ flows_poisoned (net s) = false) as [Hf Hp].
  { unfold new in Hn. inversion Hn. done. }
  split; rewrite ?Hs, ?Hi, ?Hf; try done.
  - constructor.
  - intros tag ch Hin. by apply elem_of_nil in Hin.
  - intros [?|?]; congruence.
Qed.

(** Only the network's clients change. *)
Lemma inv_same_flows s st n h :
  inv s -> flows n = flows (net s) -> flows_poisoned n = flows_poisoned (net s) ->
  inv (mk_sys st n (senders s) (inbox s) (handler_alive s) h).
Proof.
  intros [? ? ? ? ? Hp] Hf Hpo. split; simpl; rewrite ?Hf; try done. by rewrite Hpo.
Qed.

(** A step that changes one sender and nothing else. *)
Lemma inv_set_sender s ch x y h :
  inv s -> senders s !! ch = Some x -> sender_live x = true ->
  y = Gone \/ (sender_live y = true /\ sender_tag y = sender_tag x) ->
  inv (set_sender s ch y h).
Proof.
  intros [Hnd Hfl Hlv Hib Hfi Hp] Hx Hlx Hy. split; simpl; [done|..].
  - intros tag ch' Hin. destruct (Hfl tag ch' Hin) as (Hnone & z & Hz & Hzz). split; [done|].
    destruct (decide (ch = ch')) as [<-|]; [|rewrite lookup_insert_ne by done; eauto].
    rewrite lookup_insert_eq. exists y. split; [done|].
    destruct Hy as [->|[Hly Ht]]; [by left|right]. split; [done|].
    assert (z = x) as -> by congruence. rewrite Ht. destruct Hzz as [->|[_ ?]]; done.
  - intros ch' z. destruct (decide (ch = ch')) as [<-|].
    + intros _ _. by apply (Hlv ch x).
    + rewrite lookup_insert_ne by done. apply Hlv.
  - intros ch' addr buf Hin. destruct (Hib ch' addr buf Hin) as (z & Hz & id & rt & Ha & Hc & Ht).
    destruct (decide (ch = ch')) as [<-|]; [|rewrite lookup_insert_ne by done; exists z; split; [done|];
      by exists id, rt].
    rewrite lookup_insert_eq. exists y. split; [done|]. exists id, rt. split_and!; [done|done|].
    intros tag Hy'. destruct Hy as [->|[_ Hty]]; [done|]. apply Ht.
    assert (z = x) as -> by congruence. congruence.
  - intros ch' tag res. destruct (decide (ch = ch')) as [<-|].
    + rewrite lookup_insert_eq. intros [= ->]. by destruct Hy as [?|[? _]].
    + rewrite lookup_insert_ne by done. apply Hfi.
  - intros Hpan. destruct (Hp Hpan) as (ch' & Hg). exists ch'.
    rewrite lookup_insert_ne; [done|]. intros <-. rewrite Hx in Hg. by injection Hg as ->.
Qed.

Lemma receiver_alive_spec s ch :
  receiver_alive s ch = true <->
  exists x, senders s !! ch = Some x /\ sender_live x = true.
Proof.
  unfold receiver_alive. destruct (senders s !! ch) as [[]|]; simpl; split; try done; eauto;
    intros (? & [= <-] & ?); done.
Qed.

(** Registering the flow of a new call. *)
Lemma inv_send s n ch tag buf phy h :
  inv s -> senders s !! ch = None -> n = set_flows (net s) (flows (net s) ++ [(tag, ch)]) false ->
  flows_poisoned (net s) = false ->
  inv (set_sender (set_net s n) ch (Queued tag buf phy) h).
Proof.
  intros [Hnd Hfl Hlv Hib Hfi Hp] Hnew -> Hpo.
  assert (inbox s !! ch = None) as Hnone.
  { destruct (inbox s !! ch) as [[addr b]|] eqn:Hi; [|done].
    destruct (Hib ch addr b Hi) as (x & Hx & _). congruence. }
  split; simpl.
  - rewrite fmap_app. apply NoDup_app. split_and!; [done| |apply NoDup_singleton].
    intros ch' Hin ->%list_elem_of_singleton. simpl in *.
    apply list_elem_of_fmap in Hin as ([tag' ch'] & -> & Hin).
    destruct (Hfl _ _ Hin) as (_ & x & Hx & _). simpl in *. congruence.
  - intros tag' ch' [Hin|Hin%list_elem_of_singleton]%elem_of_app.
    + destruct (Hfl _ _ Hin) as (? & x & Hx & ?). split; [done|].
      rewrite lookup_insert_ne by congruence. eauto.
    + simplify_eq. split; [done|]. rewrite lookup_insert_eq. eauto.
  - intros ch' x. destruct (decide (ch = ch')) as [<-|Hne].
    + intros _ _. left. rewrite fmap_app. apply elem_of_app. right. simpl. by left.
    + rewrite lookup_insert_ne by done. intros Hx Hl.
      destruct (Hlv ch' x Hx Hl) as [?|?]; [left|by right].
      rewrite fmap_app. apply elem_of_app. by left.
  - intros ch' addr b Hin. rewrite lookup_insert_ne by congruence. by apply Hib.
  - intros ch' tag' res. destruct (decide (ch = ch')) as [<-|].
    + by rewrite lookup_insert_eq.
    + rewrite lookup_insert_ne by done. apply Hfi.
  - intros Hpan. destruct Hpan as [?|Hh]; [done|].
    destruct Hp as (ch' & Hg); [by right|]. exists ch'.
    rewrite lookup_insert_ne; [done|congruence].
Qed.

(** Removing a flow leaves the others, and its oneshot no longer appears. *)
Lemma delete_flow (fs : MctpFlowList) i tag ch :
  NoDup fs.*2 -> fs !! i = Some (tag, ch) ->
  NoDup (delete i fs).*2 /\ (ch ∉ (delete i fs).*2) /\
  (forall f, f ∈ delete i fs -> f ∈ fs) /\
  (forall ch', ch' ∈ fs.*2 -> ch' <> ch -> ch' ∈ (delete i fs).*2).
Proof.
  intros Hnd Hi. pose proof (delete_Permutation fs i _ Hi) as Hperm.
  pose proof (fmap_Permutation snd _ _ Hperm) as Hperm2. rewrite fmap_cons in Hperm2. simpl in Hperm2.
  rewrite Hperm2 in Hnd. apply NoDup_cons in Hnd as [Hnin Hnd]. split_and!; [done|done|..].
  - intros f Hf. rewrite Hperm. by right.
  - intros ch' Hch Hne. rewrite Hperm2 in Hch. by apply elem_of_cons in Hch as [?|?].
Qed.

(** A turn of the callback handler. *)
Lemma inv_receive s id buf :
  inv s -> handler_alive s = true -> is_bytes buf ->
  inv (handle_msg s id buf).
Proof.
  intros Hinv Halive Hbuf. unfold handle_msg.
  destruct (callback_receive_cases (receiver_alive s) (net s) id buf Hbuf)
    as [->|[[Hp ->]|(i & tag & ch & body & rt & Hpo & Hi & _ & _ & Hrt & Hans & ->)]]; simpl.
  - by destruct s.
  - destruct Hinv. split; simpl; auto.
  - destruct Hinv as [Hnd Hfl Hlv Hib Hfi Hpan].
    destruct (delete_flow _ _ _ _ Hnd Hi) as (Hnd' & Hnin & Hsub & Hrest).
    assert ((tag, ch) ∈ flows (net s)) as Hin by (apply list_elem_of_lookup; eauto).
    destruct (Hfl tag ch Hin) as (Hnone & x & Hx & Hxx).
    destruct (receiver_alive s ch) eqn:Hal; simpl.
    + apply receiver_alive_spec in Hal as (x' & Hx' & Hlx).
      assert (x' = x) as -> by congruence.
      destruct Hxx as [->|[_ Htag]]; [done|].
      split; simpl; [done|..].
      * intros tag' ch' Hf. assert (ch <> ch') as Hne.
        { intros <-. apply Hnin, list_elem_of_fmap. by exists (tag', ch). }
        rewrite lookup_insert_ne by done. by apply Hfl, Hsub.
      * intros ch' y Hy Hly. destruct (decide (ch = ch')) as [<-|Hne].
        { right. rewrite lookup_insert_eq. eauto. }
        rewrite lookup_insert_ne by done.
        destruct (Hlv ch' y Hy Hly) as [?|?]; [left; by apply Hrest|by right].
      * intros ch' addr b. destruct (decide (ch = ch')) as [<-|Hne].
        { rewrite lookup_insert_eq. intros [= <- <-]. exists x. split; [done|].
          exists id, rt. split_and!; [done|done|]. intros tag' Ht. assert (tag' = tag) as -> by congruence. done. }
        rewrite lookup_insert_ne by done. apply Hib.
      * done.
      * intros [?|?]; [done|congruence].
    + assert (x = Gone) as ->.
      { destruct Hxx as [?|[Hlx _]]; [done|].
        assert (receiver_alive s ch = true) by (apply receiver_alive_spec; eauto). congruence. }
      split; simpl; [done|by intros tag' ch' Hf%Hsub; apply Hfl| |done|done|by exists ch].
      intros ch' y Hy Hly. destruct (Hlv ch' y Hy Hly) as [Hch|?]; [left|by right].
      apply Hrest; [done|]. intros ->. rewrite Hx in Hy. by injection Hy as <-.
Qed.

(** Picking the response up. *)
Lemma inv_finish s ch tag msg h :
  inv s -> senders s !! ch = Some (Waiting tag) -> inbox s !! ch = Some msg ->
  inv (mk_sys (store s) (net s) (<[ch := Finished tag (sendto_finish (Some msg))]> (senders s))
    (delete ch (inbox s)) (handler_alive s) h).
Proof.
  intros [Hnd Hfl Hlv Hib Hfi Hpan] Hs Hm.
  split; simpl; [done|..].
  - intros tag' ch' Hin. destruct (Hfl tag' ch' Hin) as (Hnone & y & Hy & Hyy).
    assert (ch <> ch') by congruence.
    rewrite lookup_delete_ne, lookup_insert_ne by done. eauto.
  - intros ch' y. destruct (decide (ch = ch')) as [<-|].
    + rewrite lookup_insert_eq. by intros [= <-].
    + rewrite lookup_insert_ne, lookup_delete_ne by done. apply Hlv.
  - intros ch' addr b. destruct (decide (ch = ch')) as [<-|].
    + by rewrite lookup_delete_eq.
    + rewrite lookup_insert_ne, lookup_delete_ne by done. apply Hib.
  - intros ch' tag' res. destruct (decide (ch = ch')) as [<-|].
    + rewrite lookup_insert_eq. intros [= <- <-]. destruct msg as [addr b]. simpl.
      destruct (Hib ch addr b Hm) as (x & Hx & id & rt & Ha & Hc & Ht).
      exists addr, b. split; [done|]. exists id, rt. split_and!; [done|done|].
      intros tag' [= <-]. apply Ht. rewrite Hs in Hx. by injection Hx as <-.
    + rewrite lookup_insert_ne by done. apply Hfi.
  - intros Hp. destruct (Hpan Hp) as (ch' & Hg). exists ch'.
    rewrite lookup_insert_ne; [done|congruence].
Qed.

Lemma inv_call checks s out s' : inv s -> call_step checks s out s' -> inv s'.
Proof.
  intros Hinv [|sd address msg_type tag chan| |sd payload addr ch n buf phy tag Hnew Hbeg Htag|ch Hal
    |out1 s1 [ch tag buf phy out' Hs _ _|ch tag buf phy out' p Hs _ _|ch tag msg Hs Hm|ch tag Hs Hm Hnin]].
  - by apply inv_same_flows.
  - destruct (bind_flows checks (net s) sd address msg_type tag chan) as [Hf Hp].
    by apply inv_same_flows.
  - by apply inv_same_flows.
  - destruct (sendto_begin_flows _ _ _ _ _ _ _ _ Hbeg) as (tag' & Htag' & Hpo & Hn).
    assert (tag' = tag) as -> by congruence. by apply inv_send.
  - apply receiver_alive_spec in Hal as (x & Hx & Hl).
    apply (inv_set_sender s ch x); [done|done|done|by left].
  - apply (inv_set_sender s ch (Queued tag buf phy)); [done|done|done|by right].
  - apply (inv_set_sender s ch (Queued tag buf phy)); [done|done|done|by left].
  - by apply inv_finish.
  - destruct Hinv as [_ _ Hlv _ _ _]. destruct (Hlv ch _ Hs eq_refl) as [?|[? ?]]; [done|congruence].
Qed.

Lemma add_binding_same debug s binding :
  let s' := (add_binding debug s binding).1 in
  senders s' = senders s /\ inbox s' = inbox s /\ handler_alive s' = handler_alive s /\
  holder s' = holder s /\ flows (net s') = flows (net s) /\
  flows_poisoned (net s') = flows_poisoned (net s).
Proof.
  unfold add_binding. destruct (add_physical_binding_flows debug (store s) (net s) binding) as [Hf Hp].
  by destruct (add_physical_binding debug (store s) (net s) binding) as [[st n] res].
Qed.

Lemma inv_step checks s s' : inv s -> step checks s s' -> inv s'.
Proof.
  intros Hinv [out s1 Hc|debug binding _|id buf Hal Hb].
  - by eapply inv_call.
  - unfold add_binding. destruct (add_physical_binding_flows debug (store s) (net s) binding) as [Hf Hp].
    destruct (add_physical_binding debug (store s) (net s) binding) as [[st n] res].
    by apply inv_same_flows.
  - by apply inv_receive.
Qed.

Lemma reachable_inv checks binding s : reachable checks binding s -> inv s.
Proof. induction 1; eauto using inv_initial, inv_step. Qed.

(** C10: In every reachable state a call of [sendto] that is still running has
    exactly one of: its flow registered, or its response waiting for it. *)
Theorem response_exactly_once checks binding s ch :
  reachable checks binding s -> receiver_alive s ch = true ->
  (ch ∈ (flows (net s)).*2 /\ inbox s !! ch = None) \/
  ((ch ∉ (flows (net s)).*2) /\ exists addr buf, inbox s !! ch = Some (Receive addr buf)).
Proof.
  intros Hr Hal. destruct (reachable_inv _ _ _ Hr) as [_ Hfl Hlv _ _ _].
  apply receiver_alive_spec in Hal as (x & Hx & Hl).
  destruct (decide (ch ∈ (flows (net s)).*2)) as [Hin|Hnin].
  - left. split; [done|]. apply list_elem_of_fmap in Hin as ([tag ch'] & -> & Hin).
    by destruct (Hfl _ _ Hin).
  - right. split; [done|]. destruct (Hlv ch x Hx Hl) as [?|[[addr b] Hi]]; [done|eauto].
Qed.

(** A call of [sendto] that returned never reports a closed channel: it
    returns a packet that answers its request, under the extended address of
    the binding the packet came in on. *)
Theorem sendto_result_answers checks binding s ch tag res :
  reachable checks binding s -> senders s !! ch = Some (Finished tag res) ->
  exists id buf recv_tag, res = Ok (Extended 0 1 id 0, buf) /\
    create_tag buf = Some recv_tag /\ answers_flow tag recv_tag = true.
Proof.
  intros Hr Hs. destruct (inv_finished _ (reachable_inv _ _ _ Hr) ch tag res Hs)
    as (addr & buf & -> & id & rt & -> & Hc & Ht). exists id, buf, rt. auto.
Qed.

(** C20: The callback handler dies, or the lock of the flows is poisoned, only
    after some call of [sendto] was dropped or panicked. *)
Theorem handler_survives checks binding s :
  reachable checks binding s -> (forall ch, senders s !! ch <> Some Gone) ->
  handler_alive s = true /\ flows_poisoned (net s) = false.
Proof.
  intros Hr Hg. destruct (reachable_inv _ _ _ Hr) as [_ _ _ _ _ Hp].
  destruct (handler_alive s), (flows_poisoned (net s)); try done;
    destruct Hp as (ch & Hch); auto; by destruct (Hg ch).
Qed.


(** ** A dead handler and a poisoned lock stay *)





(** ** The lock of the binding *)

(** Exactly the waiting call holds the lock. *)
Definition lock_ok s : Prop :=
  forall ch, holder s = Some ch <-> exists tag, senders s !! ch = Some (Waiting tag).

Definition waits (x : sender) : bool := match x with Waiting _ => true | _ => false end.

(** The call [ch] changes to [x], and releases the lock unless it waits. *)
Lemma lock_set_sender s ch x h n i :
  lock_ok s -> h = (if waits x then Some ch else release s ch) ->
  (waits x = true -> holder s = None) ->
  lock_ok (mk_sys (store s) n (<[ch := x]> (senders s)) i (handler_alive s) h).
Proof.
  intros Hl -> Hx ch'. cbn [holder senders]. destruct (decide (ch = ch')) as [<-|Hne].
  - rewrite lookup_insert_eq. destruct x as [| tag| |]; simpl; [|split; eauto|..];
      unfold release; destruct (decide (holder s = Some ch)); (split; [done|by intros [? ?]]).
  - setoid_rewrite lookup_insert_ne; [|done]. trans (holder s = Some ch'); [|apply Hl].
    destruct (waits x); [rewrite Hx by done; split; congruence|].
    unfold release. destruct (decide (holder s = Some ch)) as [->|]; [split; congruence|done].
Qed.

Lemma release_not_waiting s ch x :
  lock_ok s -> senders s !! ch = x -> (forall tag, x <> Some (Waiting tag)) -> release s ch = holder s.
Proof.
  intros Hl Hs Hx. unfold release. destruct (decide _) as [Hh|]; [|done].
  apply Hl in Hh as [tag Ht]. by destruct (Hx tag); rewrite <- Hs.
Qed.

Lemma lock_call checks s out s' : lock_ok s -> call_step checks s out s' -> lock_ok s'.
Proof.
  intros Hl [|sd address msg_type tag chan| |sd payload addr ch n buf phy tag Hnew Hbeg Htag|ch Hal
    |out1 s1 [ch tag buf phy out' Hs Hh _|ch tag buf phy out' p Hs Hh _|ch tag msg Hs Hm|ch tag Hs Hm Hnin]];
    try exact Hl; apply (lock_set_sender s); try done; simpl.
  - symmetry. by eapply release_not_waiting.
  - unfold release. by rewrite Hh, decide_False.
Qed.

Lemma handle_msg_same s id buf :
  let s' := handle_msg s id buf in
  store s' = store s /\ senders s' = senders s /\ holder s' = holder s.
Proof. unfold handle_msg. by destruct (callback_receive _ _ _ _) as [n []]. Qed.

Lemma lock_step checks s s' : lock_ok s -> step checks s s' -> lock_ok s'.
Proof.
  intros Hl [out s1 Hc|debug binding _|id buf _ _]; [by eapply lock_call| |].
  - destruct (add_binding_same debug s binding) as (Hs & _ & _ & Hh & _).
    intros ch. rewrite Hs, Hh. apply Hl.
  - destruct (handle_msg_same s id buf) as (_ & Hs & Hh). intros ch. rewrite Hs, Hh. apply Hl.
Qed.

Lemma reachable_lock checks binding s : reachable checks binding s -> lock_ok s.
Proof.
  induction 1 as [s (_ & Hs & _ & _ & Hh)|]; [|by eapply lock_step].
  intros ch. rewrite Hs, Hh, lookup_empty. split; [done|by intros [? ?]].
Qed.

Lemma one_waits s ch tag ch' tag' :
  lock_ok s -> senders s !! ch = Some (Waiting tag) -> senders s !! ch' = Some (Waiting tag') -> ch' = ch.
Proof.
  intros Hl H1' H2'. assert (holder s = Some ch) by (apply Hl; eauto).
  assert (holder s = Some ch') by (apply Hl; eauto). congruence.
Qed.

(** A call never goes back. *)
Definition stage (x : option sender) : nat :=
  match x with
  | None => 0
  | Some (Queued _ _ _) => 1
  | Some (Waiting _) => 2
  | Some (Finished _ _) | Some Gone => 3
  end.

Lemma stage_insert s ch x ch' :
  (stage (senders s !! ch) <= stage (Some x))%nat ->
  (stage (senders s !! ch') <= stage (<[ch := x]> (senders s) !! ch'))%nat.
Proof.
  intros Hx. destruct (decide (ch = ch')) as [<-|]; [by rewrite lookup_insert_eq|].
  by rewrite lookup_insert_ne.
Qed.

Lemma call_stage checks s out s' ch :
  call_step checks s out s' -> (stage (senders s !! ch) <= stage (senders s' !! ch))%nat.
Proof.
  intros Hstep. destruct Hstep as [| | |sd payload addr ch' n buf phy tag Hnew _ _|ch' Hal
    |out1 s1 [ch' tag buf phy out' Hs _ _|ch' tag buf phy out' p Hs _ _|ch' tag msg Hs _|ch' tag Hs _ _]];
    try done; apply (stage_insert s ch'); rewrite ?Hnew, ?Hs; simpl; try lia.
  by destruct (senders s !! ch') as [[]|]; simpl; lia.
Qed.

Lemma step_stage checks s s' ch :
  step checks s s' -> (stage (senders s !! ch) <= stage (senders s' !! ch))%nat.
Proof.
  intros [out s1 Hc|debug binding _|id buf _ _]; [by eapply call_stage| |].
  - by destruct (add_binding_same debug s binding) as (-> & _).
  - by destruct (handle_msg_same s id buf) as (_ & -> & _).
Qed.

Lemma step_phys checks s s' : step checks s s' -> phys_bindings (net s') = phys_bindings (net s).
Proof.
  intros [out s1 Hc|debug binding _|id buf _ Hb].
  - destruct Hc as [|sd address msg_type tag chan| |sd payload addr ch n buf phy tag _ Hbeg _| |out1 s1 []];
      try done; simpl.
    + unfold bind. destruct (arith_i32 _ _); [|done|done]. by destruct (_ <? _).
    + by destruct (sendto_begin_flows _ _ _ _ _ _ _ _ Hbeg) as (? & _ & _ & ->).
  - unfold add_binding, add_physical_binding. by destruct (binding_bind _ _) as [b []].
  - unfold handle_msg.
    destruct (callback_receive_cases (receiver_alive s) (net s) id buf Hb)
      as [->|[[_ ->]|(? & ? & ch & ? & ? & _ & _ & _ & _ & _ & _ & ->)]]; [done|done|].
    by destruct (receiver_alive s ch).
Qed.

(** While a call waits, no other transmits, returns, or binds the binding. *)
Lemma blocked_step checks s s' ch tag tag' :
  lock_ok s -> step checks s s' ->
  senders s !! ch = Some (Waiting tag) -> senders s' !! ch = Some (Waiting tag') ->
  store s' (phys_bindings (net s)) = store s (phys_bindings (net s)) /\
  forall ch' tag' res, senders s' !! ch' = Some (Finished tag' res) ->
    senders s !! ch' = Some (Finished tag' res).
Proof.
  intros Hl Hstep Hw Hw'. assert (holder s = Some ch) as Hh by (apply Hl; eauto).
  destruct Hstep as [out s1 Hc|debug binding Hfree|id buf _ _].
  - destruct Hc as [|sd address msg_type tg chan| |sd payload addr ch1 n buf phy tg _ _ _|ch1 _
      |out1 s1 [ch1 tg buf phy out' _ Hn _|ch1 tg buf phy out' p _ Hn _|ch1 tg msg Hs _|ch1 tg Hs _ _]];
      try (split; [done|by intros ch' ? ?]); try congruence;
      (split; [done|]; intros ch' t' res; simpl in *;
       destruct (decide (ch1 = ch')) as [<-|]; [|by rewrite lookup_insert_ne by done];
       rewrite lookup_insert_eq; intros [=]);
      assert (ch1 = ch) as -> by (by eapply one_waits); by rewrite lookup_insert_eq in Hw'.
  - destruct Hfree as [?|Hne]; [congruence|].
    destruct (add_binding_same debug s binding) as (-> & _). split; [|by intros ch' ? ?].
    unfold add_binding, add_physical_binding.
    destruct (binding_bind _ _) as [b []]; simpl; by apply fn_lookup_insert_ne.
  - destruct (handle_msg_same s id buf) as (-> & -> & _). split; [done|by intros ch' ? ?].
Qed.

(** C16: One unanswered call blocks the network: as long as it waits for its
    response, whatever else happens, no other call of [sendto] transmits or
    returns, and the binding cannot be bound. *)
Theorem unanswered_call_blocks checks binding s s' ch tag tag' :
  reachable checks binding s -> senders s !! ch = Some (Waiting tag) ->
  rtc (step checks) s s' -> senders s' !! ch = Some (Waiting tag') ->
  store s' binding = store s binding /\
  forall ch', ch' <> ch ->
    (forall tag', senders s' !! ch' <> Some (Waiting tag')) /\
    (forall tag' res, senders s' !! ch' = Some (Finished tag' res) ->
       senders s !! ch' = Some (Finished tag' res)).
Proof.
  intros Hr Hw Hsteps. revert tag'.
  enough (reachable checks binding s' /\ phys_bindings (net s') = binding /\
    (2 <= stage (senders s' !! ch))%nat /\
    forall tag', senders s' !! ch = Some (Waiting tag') -> store s' binding = store s binding /\
      forall ch' tag' res, senders s' !! ch' = Some (Finished tag' res) ->
        senders s !! ch' = Some (Finished tag' res)) as (Hr' & _ & _ & Hb).
  { intros tag' Hw'. destruct (Hb tag' Hw') as [Hst Hfin]. split; [done|]. intros ch' Hne.
    split; [|by apply Hfin]. intros t' Ht'. apply Hne. eapply one_waits; [|exact Hw'|exact Ht'].
    by eapply reachable_lock. }
  revert s' Hsteps. apply rtc_ind_r.
  { split_and!; [done| |by rewrite Hw|done]. clear Hw tag. induction Hr as [s (Hn & _)|s0 s1 Hr IH Hs].
    - unfold new in Hn. by injection Hn as <-.
    - by rewrite (step_phys _ _ _ Hs). }
  intros s1 s2 _ Hstep (Hr1 & Hphys & Hstage & IH).
  pose proof (step_stage _ _ _ ch Hstep) as Hmono.
  split_and!; [by eapply reachable_step|by rewrite (step_phys _ _ _ Hstep)|lia|].
  intros tag' Hw'. rewrite Hw' in Hmono. simpl in Hmono.
  destruct (senders s1 !! ch) as [[|t1| |]|] eqn:H1w; simpl in *; try lia.
  destruct (IH t1 eq_refl) as [Hst Hfin].
  destruct (blocked_step checks s1 s2 ch t1 tag') as [Hst2 Hfin2]; [by eapply reachable_lock|done..|].
  rewrite Hphys in Hst2. split; [by rewrite Hst2|]. intros ch' t' res Hf. by eapply Hfin, Hfin2.
Qed.

End facts.
End SimpleNetworkTasksFacts.

(** ** Witnesses *)
Section witness.
#[local] Existing Instance Reference.crates.
#[local] Existing Instance Reference.crates_laws.

Import SimpleNetwork SimpleNetworkTasks SimpleNetworkTasksFacts.

(** A network on an SMBus device whose socket takes every datagram whole. *)
#[local] Instance whole_datagrams : NetworkBinding SmbusNetDevBinding.t :=
  SmbusNetDevBinding.network_binding (fun _ b => Ok (length b)).
Definition w_store : BindingHandle -> SmbusNetDevBinding.t :=
  fun _ => SmbusNetDevBinding.mk 0x10 1 (Some 0%nat).

(** A call of [sendto] sends and waits. *)
Definition w_queued : sys SmbusNetDevBinding.t :=
  mk_sys w_store w_sent {[7%nat := Queued w_tag w_packet 0x30]} ∅ true None.
Definition w_waiting : sys SmbusNetDevBinding.t := set_sender w_queued 7%nat (Waiting w_tag) (Some 7%nat).
Definition w_reply : bytes := [0x20; 0x0f; 9; 0x61; 1; 8; 9; 0xc1; 0; 1; 2; 0; 0; 0; 0].

Lemma w_queued_reachable : reachable true 0%nat w_queued.
Proof.
  assert (reachable true 0%nat (mk_sys w_store w_net ∅ ∅ true None)) as H0 by by apply reachable_initial.
  pose proof (reachable_step _ _ _ _ H0 (step_call _ _ _ _ (call_socket _ _))) as H1.
  pose proof (reachable_step _ _ _ _ H1 (step_call _ _ _ _ (call_bind _ _ 0 8 0 1 3%nat))) as H2.
  refine (reachable_step _ _ _ _ H2 (step_call _ _ _ _ (call_send _ _ 0 [0; 0x81; 2] (Extended 9 1 1 0x30)
    7%nat w_sent w_packet 0x30 w_tag _ _ _))); vm_compute; reflexivity.
Qed.

Lemma w_waiting_reachable : reachable true 0%nat w_waiting.
Proof.
  refine (reachable_step _ _ _ _ w_queued_reachable (step_call _ _ _ _
    (call_future _ _ _ _ (call_transmit _ 7%nat w_tag w_packet 0x30 _ _ _ _)))); vm_compute; reflexivity.
Qed.

Lemma response_exactly_once_witness :
  receiver_alive w_waiting 7%nat = true /\
  ((7%nat ∈ (flows (net w_waiting)).*2 /\ inbox w_waiting !! 7%nat = None) \/
   ((7%nat ∉ (flows (net w_waiting)).*2) /\
    exists addr buf, inbox w_waiting !! 7%nat = Some (Receive addr buf))).
Proof.
  split; [vm_compute; reflexivity|].
  apply (response_exactly_once true 0%nat w_waiting 7%nat w_waiting_reachable).
  vm_compute; reflexivity.
Defined.

Lemma handler_survives_witness :
  handler_alive w_waiting = true /\ flows_poisoned (net w_waiting) = false.
Proof.
  apply (handler_survives true 0%nat w_waiting w_waiting_reachable).
  intros ch Hch. unfold w_waiting in Hch. cbn [senders set_sender w_queued] in Hch.
  apply lookup_insert_Some in Hch as [[_ Hch]|[_ [_ Hch]%lookup_singleton_Some]]; discriminate Hch.
Defined.




(** The waiting call, finished. *)
Lemma w_finished_reachable :
  exists s, reachable true 0%nat s /\
    senders s !! 7%nat = Some (Finished w_tag (Ok (Extended 0 1 5 0, drop 4 w_reply))).
Proof.
  assert (handler_alive w_waiting = true) as Ha by done.
  assert (is_bytes w_reply) as Hb by (unfold w_reply; solve_bytes).
  pose proof (reachable_step _ _ _ _ w_waiting_reachable (step_receive _ _ 5 w_reply Ha Hb)) as H1.
  eexists. split.
  - refine (reachable_step _ _ _ _ H1 (step_call _ _ _ _ (call_future _ _ _ _ (call_finish _ 7%nat w_tag
      (Receive (Extended 0 1 5 0) (drop 4 w_reply)) _ _)))); vm_compute; reflexivity.
  - vm_compute. reflexivity.
Qed.

Lemma sendto_result_answers_witness :
  exists id buf recv_tag, Ok (E:=MctpEmuError.t) (Extended 0 1 5 0, drop 4 w_reply) =
      Ok (Extended 0 1 id 0, buf) /\
    create_tag buf = Some recv_tag /\ answers_flow w_tag recv_tag = true.
Proof.
  destruct w_finished_reachable as (s & Hr & Hs).
  exact (sendto_result_answers true 0%nat s 7%nat w_tag _ Hr Hs).
Defined.

(** A second call is made while the first waits. *)
Lemma unanswered_call_blocks_witness :
  exists s', rtc (step true) w_waiting s' /\ is_Some (senders s' !! 8%nat) /\
    store s' 0%nat = w_store 0%nat /\ forall tag, senders s' !! 8%nat <> Some (Waiting tag).
Proof.
  assert (step true w_waiting (set_sender (set_net w_waiting
    (set_flows w_bound [(w_tag, 7%nat); (w_tag, 8%nat)] false)) 8%nat (Queued w_tag w_packet 0x30)
    (Some 7%nat))) as Hstep.
  { refine (step_call _ _ _ _ (call_send _ _ 0 [0; 0x81; 2] (Extended 9 1 1 0x30)
      8%nat _ w_packet 0x30 w_tag _ _ _)); vm_compute; reflexivity. }
  eexists. split; [exact (rtc_once _ _ Hstep)|]. split; [vm_compute; eexists; reflexivity|].
  destruct (unanswered_call_blocks true 0%nat w_waiting _ 7%nat w_tag w_tag w_waiting_reachable
    ltac:(vm_compute; reflexivity) (rtc_once _ _ Hstep) ltac:(vm_compute; reflexivity)) as [Hst Ho].
  split; [exact Hst|]. exact (proj1 (Ho 8%nat ltac:(discriminate))).
Defined.

End witness.
