(* ===== verification/VirtualNetwork.v ===== *)
(** * The virtual network

    Models [src/network/virtual_network.rs]: a network of several physical
    bindings and a routing table.  Binding ids come from a counter, bindings
    are pushed on a vector and told their id: three separate steps of
    [add_physical_binding], which concurrent calls may interleave.  Indexing
    assumes a 64-bit target, where [binding_id as usize] is the identity. *)
From stdpp Require Import functions.
From S2P Require Import Prelude Crates Reference Derive Errors Smbus Network.

Module VirtualNetwork.

Record t := mk {
  clients : gmap Z Client.t;                 (** [HashMap<i32, ClientHandle>] *)
  num_clients : Z;                           (** [AtomicI32] *)
  routes : list Route.t;
  net_devs : list BindingHandle;
  num_bindings : Z;                          (** [AtomicU64] *)
  callback_handles : list JoinHandle;
}.

(** [VirtualNetwork::new]: every field of the builder has a default. *)
Definition new : MctpEmuResult t :=
  let network := mk ∅ 0 [] [] 0 [] in
  Ok (mk (clients network) (num_clients network) (routes network) (net_devs network)
    (num_bindings network) (callback_handles network ++ [CallbackTask])).

(** [get_binding] *)
Definition get_binding (checks : bool) (self : t) (binding_id : Z)
    : outcome Network.Error BindingHandle :=
  bound ← arith checks 64 (num_bindings self - 1);
  if binding_id <? bound then Err (Network.InvalidBindingError binding_id)
  else
    match net_devs self !! Z.to_nat binding_id with
    | Some binding => Ok binding
    | None => Err (Network.InvalidBindingError binding_id)
    end.

Definition get_client (self : t) (sd : Z) : MctpEmuResult Client.t :=
  match clients self !! sd with
  | Some client => Ok client
  | None => Err (MctpEmuError.Network (Network.InvalidSocketError sd))
  end.

(** The [for] loop of [route_lookup]. *)
Fixpoint route_search (routes : list Route.t) (dnet daddr : Z) : option Route.t :=
  match routes with
  | [] => None
  | route :: routes =>
      if Route.matches route dnet daddr then Some route else route_search routes dnet daddr
  end.

Definition route_lookup (self : t) (dnet daddr : Z) : option Route.t :=
  route_search (routes self) dnet daddr.

(** What a turn of [callback_handler] ends with: the binding of the message is
    looked up and dropped. *)
Definition callback_receive (checks : bool) (self : t) (id : Z) : outcome Network.Error unit :=
  match get_binding checks self id with
  | Panic p => Panic p
  | Ok _ | Err _ => Ok tt
  end.

Definition socket (self : t) : t * Z :=
  (mk (clients self) (wrap_i32 (num_clients self + 1)) (routes self) (net_devs self)
     (num_bindings self) (callback_handles self),
   num_clients self).

(** [bind]; [chan] is the channel [Client::new] creates. *)
Definition bind (checks : bool) (self : t) (sd address msg_type tag : Z) (chan : channel)
    : t * MctpEmuResult unit :=
  match arith_i32 checks (num_clients self - 1) with
  | Ok bound =>
      if sd <? bound then (self, Err (MctpEmuError.Network (Network.InvalidSocketError sd)))
      else
        let client_handle := Client.new chan address msg_type tag in
        (mk (<[sd := client_handle]> (clients self)) (num_clients self) (routes self)
           (net_devs self) (num_bindings self) (callback_handles self), Ok tt)
  | Err e => (self, Err e)
  | Panic p => (self, Panic p)
  end.

Definition route_not_found (network address : Z) : AnyError :=
  AnyMsg ("Route not found for " +:+ pretty network +:+ "," +:+ pretty address).

(** [sendto]: both ways on end in a [todo!()]. *)
Definition sendto (self : t) (_sd : Z) (payload : bytes) (addr : SocketAddress)
    : MctpEmuResult (SocketAddress * bytes) :=
  match addr with
  | Basic _ _ _ => Panic PanicTodo
  | Extended address network binding_id phy_addr =>
      route_rt ← ok_or (MctpEmuError.Other (route_not_found network address))
        (route_lookup self network address);
      Panic PanicTodo
  end.

(** [join_handles]: drains the handles. *)
Definition join_handles (self : t) : t * list JoinHandle :=
  (mk (clients self) (num_clients self) (routes self) (net_devs self) (num_bindings self) [],
   callback_handles self).

(** ** [add_physical_binding], cut where other tasks may run *)

(** [self.num_bindings.fetch_add(1)] *)
Definition add_allocate (self : t) : t * Z :=
  (mk (clients self) (num_clients self) (routes self) (net_devs self)
     ((num_bindings self + 1) mod 2 ^ 64) (callback_handles self),
   num_bindings self).

(** [self.net_devs.write().unwrap().push(binding.clone())] *)
Definition add_push (self : t) (binding : BindingHandle) : t :=
  mk (clients self) (num_clients self) (routes self) (net_devs self ++ [binding])
    (num_bindings self) (callback_handles self).

Section network.
Context {B : Type} `{NetworkBinding B}.

(** The rest, from the lock of the binding on. *)
Definition add_bind (debug : MctpEmuError.t -> string) (store : BindingHandle -> B)
    (self : t) (binding : BindingHandle) (bind_id : Z)
    : (BindingHandle -> B) * t * MctpEmuResult unit :=
  let '(b, res) := binding_bind (store binding) bind_id in
  let store := <[binding := b]> store in
  match res with
  | Ok handle =>
      (store, mk (clients self) (num_clients self) (routes self) (net_devs self)
         (num_bindings self) (callback_handles self ++ [handle]), Ok tt)
  | Err err =>
      (store, self, Err (MctpEmuError.Network
        (Network.Other (AnyMsg ("failed calling binding: " +:+ debug err)))))
  | Panic p => (store, self, Panic p)
  end.

(** A call that nothing interrupts. *)
Definition add_physical_binding (debug : MctpEmuError.t -> string) (store : BindingHandle -> B)
    (self : t) (binding : BindingHandle) : (BindingHandle -> B) * t * MctpEmuResult unit :=
  let '(self, bind_id) := add_allocate self in
  add_bind debug store (add_push self binding) binding bind_id.

(** Where a call stands: it has its id, it has pushed, it has returned. *)
Inductive adder :=
  | Allocated (binding : BindingHandle) (bind_id : Z)
  | Pushed (binding : BindingHandle) (bind_id : Z)
  | Added (binding : BindingHandle) (bind_id : Z) (res : MctpEmuResult unit).

Definition adder_id (a : adder) : Z :=
  match a with Allocated _ i | Pushed _ i | Added _ i _ => i end.
Definition adder_binding (a : adder) : BindingHandle :=
  match a with Allocated b _ | Pushed b _ | Added b _ _ => b end.

Record sys := mk_sys {
  store : BindingHandle -> B;
  net : t;
  adders : list adder;            (** the calls, in the order they got their id *)
}.

Definition initial (s : sys) : Prop := new = Ok (net s) /\ adders s = [].

(** A step, with the ids of the poll tasks it spawns. *)
Inductive step (checks : bool) (debug : MctpEmuError.t -> string) : sys -> list Z -> sys -> Prop :=
  | step_socket s :
      step checks debug s [] (mk_sys (store s) (socket (net s)).1 (adders s))
  | step_bind s sd address msg_type tag chan :
      step checks debug s []
        (mk_sys (store s) (bind checks (net s) sd address msg_type tag chan).1 (adders s))
  | step_join s :
      step checks debug s [] (mk_sys (store s) (join_handles (net s)).1 (adders s))
  | step_allocate s binding :
      step checks debug s [] (mk_sys (store s) (add_allocate (net s)).1
        (adders s ++ [Allocated binding (add_allocate (net s)).2]))
  | step_push s i binding bind_id :
      adders s !! i = Some (Allocated binding bind_id) ->
      step checks debug s [] (mk_sys (store s) (add_push (net s) binding)
        (<[i := Pushed binding bind_id]> (adders s)))
  | step_bind_id s i binding bind_id :
      adders s !! i = Some (Pushed binding bind_id) ->
      step checks debug s (spawned (binding_bind (store s binding) bind_id).2)
        (mk_sys (add_bind debug (store s) (net s) binding bind_id).1.1
        (add_bind debug (store s) (net s) binding bind_id).1.2
        (<[i := Added binding bind_id (add_bind debug (store s) (net s) binding bind_id).2]>
          (adders s))).

Inductive reachable (checks : bool) (debug : MctpEmuError.t -> string) : sys -> Prop :=
  | reachable_initial s : initial s -> reachable checks debug s
  | reachable_step s ids s' :
      reachable checks debug s -> step checks debug s ids s' -> reachable checks debug s'.

End network.
Arguments sys : clear implicits.

End VirtualNetwork.

(** ** Proofs *)
Module VirtualNetworkFacts.
Import VirtualNetwork.

(** The search of the routing table returns the first route that matches, and
    nothing exactly when none does. *)
Theorem route_lookup_spec self dnet daddr :
  match route_lookup self dnet daddr with
  | Some r => exists i, routes self !! i = Some r /\ Route.matches r dnet daddr = true /\
      forall j r', (j < i)%nat -> routes self !! j = Some r' -> Route.matches r' dnet daddr = false
  | None => forall r, r ∈ routes self -> Route.matches r dnet daddr = false
  end.
Proof.
  unfold route_lookup. induction (routes self) as [|r rs IH]; simpl.
  { intros r Hr. by apply elem_of_nil in Hr. }
  destruct (Route.matches r dnet daddr) eqn:Hm.
  { exists 0%nat. split_and!; [done|done|lia]. }
  destruct (route_search rs dnet daddr) as [r'|].
  - destruct IH as (i & Hi & Hm' & Hb). exists (S i). split_and!; [done|done|].
    intros [|j] r'' Hj; simpl; [congruence|]. apply Hb. lia.
  - intros r' [->|Hr]%elem_of_cons; [done|by apply IH].
Qed.

(** With [n] bindings added, [get_binding] accepts the id of the last one only. *)
Theorem get_binding_only_last checks self id :
  num_bindings self = Z.of_nat (length (net_devs self)) ->
  0 < num_bindings self < 2 ^ 64 -> u64 id ->
  get_binding checks self id =
    if decide (id = num_bindings self - 1) then
      ok_or (Network.InvalidBindingError id) (last (net_devs self))
    else Err (Network.InvalidBindingError id).
Proof.
  intros Hlen Hn Hid. unfold get_binding. rewrite arith_Ok by (unfold uint; lia).
  cbn [mbind outcome_bind].
  destruct (Z.ltb_spec id (num_bindings self - 1)); [by rewrite decide_False by lia|].
  unfold uint in Hid. case_decide as Heq.
  - rewrite last_lookup. replace (Z.to_nat id) with (pred (length (net_devs self))) by lia.
    by destruct (net_devs self !! _).
  - by rewrite lookup_ge_None_2 by lia.
Qed.

(** Before the first binding is added [get_binding] panics when overflow is
    checked, and refuses every id when it is not. *)
Theorem get_binding_without_bindings self id :
  num_bindings self = 0 -> net_devs self = [] -> u64 id ->
  get_binding true self id = Panic PanicOverflow /\
  get_binding false self id = Err (Network.InvalidBindingError id).
Proof.
  intros Hn Hd Hid. unfold get_binding. rewrite Hn, Hd. split; [done|].
  change (arith false 64 (0 - 1)) with (Ok (E:=Network.Error) (2 ^ 64 - 1)).
  cbn [mbind outcome_bind]. by destruct (id <? 2 ^ 64 - 1).
Qed.

Section facts.
Context {B : Type} `{NetworkBinding B}.
Implicit Types (s : sys B).

Definition pushed (a : adder) : bool := match a with Allocated _ _ => false | _ => true end.

(** The ids count the calls, the vector holds the bindings of the calls that
    pushed, and no operation adds a route. *)
Record inv s : Prop := {
  inv_routes : routes (net s) = [];
  inv_count : num_bindings (net s) = Z.of_nat (length (adders s)) mod 2 ^ 64;
  inv_ids i a : adders s !! i = Some a -> adder_id a = Z.of_nat i mod 2 ^ 64;
  inv_devs : net_devs (net s) ≡ₚ adder_binding <$> filter (fun a => pushed a = true) (adders s);
}.

(** An operation that leaves the binding vector, the counter and the routes
    alone. *)
Lemma inv_same_bindings s n :
  inv s -> routes n = routes (net s) -> num_bindings n = num_bindings (net s) ->
  net_devs n = net_devs (net s) -> inv (mk_sys (store s) n (adders s)).
Proof. intros [? ? ? ?] Hr Hn Hd. split; simpl; rewrite ?Hr, ?Hn, ?Hd; done. Qed.

Lemma bind_bindings checks self sd address msg_type tag chan :
  let n := (bind checks self sd address msg_type tag chan).1 in
  routes n = routes self /\ num_bindings n = num_bindings self /\ net_devs n = net_devs self.
Proof. unfold bind. destruct (arith_i32 _ _); [|done|done]. by destruct (_ <? _). Qed.

Lemma add_bind_bindings debug (st : BindingHandle -> B) self binding bind_id :
  let n := (add_bind debug st self binding bind_id).1.2 in
  routes n = routes self /\ num_bindings n = num_bindings self /\ net_devs n = net_devs self.
Proof. unfold add_bind. destruct (binding_bind (st binding) bind_id) as [b []]; done. Qed.

(** Moving one call on, to a state with its id and binding. *)
Lemma filter_insert_pushed (l : list adder) i a a' :
  l !! i = Some a -> pushed a' = true -> adder_binding a' = adder_binding a ->
  adder_binding <$> filter (fun a => pushed a = true) (<[i := a']> l) ≡ₚ
  (if pushed a then [] else [adder_binding a]) ++
    (adder_binding <$> filter (fun a => pushed a = true) l).
Proof.
  intros Hi Hp Hb. rewrite insert_take_drop by (by eapply lookup_lt_Some).
  rewrite <- (take_drop_middle l i a Hi) at 3.
  rewrite !filter_app, !fmap_app, !filter_cons, Hp. rewrite decide_True by done.
  rewrite fmap_cons, Hb. destruct (pushed a).
  - rewrite decide_True by done. by rewrite fmap_cons.
  - rewrite decide_False by done. by rewrite <- Permutation_middle.
Qed.

Lemma insert_ids (l : list adder) i a a' :
  l !! i = Some a -> adder_id a' = adder_id a ->
  (forall j x, l !! j = Some x -> adder_id x = Z.of_nat j mod 2 ^ 64) ->
  forall j x, <[i := a']> l !! j = Some x -> adder_id x = Z.of_nat j mod 2 ^ 64.
Proof.
  intros Hi Ha Hids j x. destruct (decide (i = j)) as [<-|].
  - rewrite list_lookup_insert_eq by (by eapply lookup_lt_Some). intros [= <-].
    rewrite Ha. by apply Hids.
  - rewrite list_lookup_insert_ne by done. apply Hids.
Qed.

Lemma virtual_inv_step checks debug s ids s' : inv s -> step checks debug s ids s' -> inv s'.
Proof.
  intros Hinv Hstep. destruct Hstep as
    [s|s sd address msg_type tag chan|s|s binding|s i binding bind_id Hi|s i binding bind_id Hi].
  - by apply inv_same_bindings.
  - destruct (bind_bindings checks (net s) sd address msg_type tag chan) as (? & ? & ?).
    by apply inv_same_bindings.
  - by apply inv_same_bindings.
  - destruct Hinv as [Hr Hc Hids Hd]. split; simpl; [done|..].
    + rewrite length_app, Hc. simpl. rewrite Zplus_mod_idemp_l. f_equal. lia.
    + intros i a [Hl|[Hge Hl]]%lookup_app_Some; [by apply Hids|].
      apply list_lookup_singleton_Some in Hl as [Hz <-]. simpl. rewrite Hc. do 2 f_equal. lia.
    + by rewrite filter_app, app_nil_r.
  - destruct Hinv as [Hr Hc Hids Hd]. split; simpl; [done|..].
    + by rewrite length_insert.
    + by eapply insert_ids.
    + rewrite (filter_insert_pushed _ _ _ _ Hi) by done. simpl. by rewrite Hd, Permutation_app_comm.
  - destruct Hinv as [Hr Hc Hids Hd].
    destruct (add_bind_bindings debug (store s) (net s) binding bind_id) as (Hr' & Hn' & Hd').
    split; simpl; rewrite ?Hr', ?Hn', ?Hd', ?length_insert; [done|done|..].
    + by eapply insert_ids.
    + by rewrite (filter_insert_pushed _ _ _ _ Hi).
Qed.

Lemma virtual_reachable_inv checks debug s : reachable checks debug s -> inv s.
Proof.
  induction 1 as [s [Hn Ha]|s ids s' _ IH Hs]; [|by eapply virtual_inv_step].
  unfold new in Hn. simpl in Hn. injection Hn as Hn. split; rewrite <- ?Hn, ?Ha; done.
Qed.

(** C30: However the calls interleave, fewer than 2^64 of them get pairwise
    distinct ids, the ones below the counter, and the vector holds the
    bindings of exactly the calls that have pushed. *)
Theorem binding_ids_distinct checks debug s :
  reachable checks debug s -> Z.of_nat (length (adders s)) < 2 ^ 64 ->
  NoDup (adder_id <$> adders s) /\
  (forall a, a ∈ adders s -> 0 <= adder_id a < num_bindings (net s)) /\
  net_devs (net s) ≡ₚ adder_binding <$> filter (fun a => pushed a = true) (adders s).
Proof.
  intros Hr Hlen. destruct (virtual_reachable_inv _ _ _ Hr) as [_ Hc Hids Hd].
  assert (forall i a, adders s !! i = Some a -> adder_id a = Z.of_nat i) as Hid.
  { intros i a Hi. pose proof (lookup_lt_Some _ _ _ Hi). rewrite (Hids i a Hi), Z.mod_small; lia. }
  split_and!; [|..|done].
  - apply NoDup_alt. intros i j x Hi Hj.
    apply list_lookup_fmap_Some in Hi as (a & -> & Ha), Hj as (b & Hab & Hb).
    pose proof (Hid i a Ha). pose proof (Hid j b Hb). lia.
  - intros a (i & Hi)%list_elem_of_lookup. pose proof (lookup_lt_Some _ _ _ Hi).
    rewrite (Hid i a Hi), Hc, Z.mod_small by lia. lia.
Qed.

(** No route is ever added, so [sendto] to an extended address fails in every
    reachable state, and to a basic one panics. *)
Theorem virtual_sendto_never_sends checks debug s sd payload addr :
  reachable checks debug s ->
  sendto (net s) sd payload addr =
    match addr with
    | Basic _ _ _ => Panic PanicTodo
    | Extended address network _ _ => Err (MctpEmuError.Other (route_not_found network address))
    end.
Proof.
  intros Hr. destruct (virtual_reachable_inv _ _ _ Hr) as [Hroutes _ _ _].
  destruct addr as [|address network binding_id phy_addr]; [done|].
  unfold sendto, route_lookup. by rewrite Hroutes.
Qed.

Lemma reachable_push checks debug st n l i b id :
  reachable checks debug (mk_sys st n l) -> l !! i = Some (Allocated b id) ->
  reachable checks debug (mk_sys st (add_push n b) (<[i := Pushed b id]> l)).
Proof. intros Hr Hi. exact (reachable_step _ _ _ _ _ Hr (step_push _ _ (mk_sys st n l) i b id Hi)). Qed.

Lemma reachable_bind checks debug st n l i b id :
  reachable checks debug (mk_sys st n l) -> l !! i = Some (Pushed b id) ->
  reachable checks debug (mk_sys (add_bind debug st n b id).1.1 (add_bind debug st n b id).1.2
    (<[i := Added b id (add_bind debug st n b id).2]> l)).
Proof. intros Hr Hi. exact (reachable_step _ _ _ _ _ Hr (step_bind_id _ _ (mk_sys st n l) i b id Hi)). Qed.

(** The calls that have their id and have not pushed yet. *)
Definition between s : nat := length (filter (fun a => pushed a = false) (adders s)).

Lemma devs_count s :
  inv s -> (length (net_devs (net s)) + between s)%nat = length (adders s).
Proof.
  intros [_ _ _ Hd]. rewrite Hd, length_fmap. clear Hd. unfold between.
  induction (adders s) as [|a l IH]; [done|]. rewrite !filter_cons. cbn [length].
  destruct (pushed a); [rewrite decide_True, decide_False by done|rewrite decide_False, decide_True by done];
    cbn [length]; lia.
Qed.

(** What a call that nothing interrupts does to the network. *)
Lemma add_physical_binding_net debug (st : BindingHandle -> B) self binding :
  let '(st', self', res) := add_physical_binding debug st self binding in
  net_devs self' = net_devs self ++ [binding] /\
  num_bindings self' = (num_bindings self + 1) mod 2 ^ 64 /\
  st' binding = (binding_bind (st binding) (num_bindings self)).1 /\
  (res = Ok tt <-> exists h, (binding_bind (st binding) (num_bindings self)).2 = Ok h).
Proof.
  unfold add_physical_binding, add_allocate, add_bind, add_push. simpl.
  destruct (binding_bind (st binding) (num_bindings self)) as [b r].
  destruct r; simpl; rewrite fn_lookup_insert; (split_and!; [done..|]); by split; [eauto|intros [??]].
Qed.

(** It is three steps in a row. *)
Lemma add_reachable checks debug s binding :
  reachable checks debug s ->
  let '(st', self', res) := add_physical_binding debug (store s) (net s) binding in
  reachable checks debug (mk_sys st' self' (adders s ++ [Added binding (num_bindings (net s)) res])).
Proof.
  intros Hr. destruct s as [st n l]. cbn [store net adders].
  pose proof (reachable_step _ _ _ _ _ Hr (step_allocate _ _ _ binding)) as H1. cbn in H1.
  apply (reachable_push _ _ _ _ _ (length l) binding (num_bindings n)) in H1; [|by apply list_lookup_middle].
  rewrite insert_app_r_alt, Nat.sub_diag in H1 by done. cbn in H1.
  apply (reachable_bind _ _ _ _ _ (length l) binding (num_bindings n)) in H1; [|by apply list_lookup_middle].
  rewrite insert_app_r_alt, Nat.sub_diag in H1 by done. cbn in H1.
  unfold add_physical_binding. cbn [add_allocate]. by destruct (add_bind _ _ _ _ _) as [[st' n'] res].
Qed.

(** C31: A call of [add_physical_binding] that nothing interrupts, in any
    reachable state before the counter wraps: its id is the number of calls before
    it, the binding is told that id and goes to the end of the vector, as many places
    below its id as there are other calls between their allocation and their
    push.  So it stands at the index of its id, and [get_binding] finds it there,
    exactly when no other call is between the two. *)
Theorem add_sequential checks debug s binding :
  reachable checks debug s -> Z.of_nat (length (adders s)) + 1 < 2 ^ 64 ->
  let '(st', self', res) := add_physical_binding debug (store s) (net s) binding in
  let id := num_bindings (net s) in
  reachable checks debug (mk_sys st' self' (adders s ++ [Added binding id res])) /\
  id = Z.of_nat (length (adders s)) /\
  st' binding = (binding_bind (store s binding) id).1 /\
  net_devs self' = net_devs (net s) ++ [binding] /\
  Z.of_nat (length (net_devs (net s))) = id - Z.of_nat (between s) /\
  (net_devs self' !! Z.to_nat id = Some binding <-> forall a, a ∈ adders s -> pushed a = true) /\
  get_binding checks self' id =
    (if decide (between s = 0%nat) then Ok binding else Err (Network.InvalidBindingError id)) /\
  (res = Ok tt <-> exists h, (binding_bind (store s binding) id).2 = Ok h).
Proof.
  intros Hr Hlen. pose proof (virtual_reachable_inv _ _ _ Hr) as Hinv.
  pose proof (devs_count s Hinv) as Hcount. pose proof (inv_count s Hinv) as Hnum.
  rewrite Z.mod_small in Hnum by lia.
  pose proof (add_reachable checks debug s binding Hr) as Hreach.
  pose proof (add_physical_binding_net debug (store s) (net s) binding) as Hadd.
  destruct (add_physical_binding _ _ _ _) as [[st' self'] res]. destruct Hadd as (Hd & Hn & Hst & Hres).
  assert (net_devs self' !! Z.to_nat (num_bindings (net s)) =
    if decide (between s = 0%nat) then Some binding else None) as Hlook.
  { rewrite Hd, Hnum, Nat2Z.id. case_decide.
    - apply list_lookup_middle. lia.
    - apply lookup_ge_None_2. rewrite length_app. simpl. lia. }
  cbn zeta. split_and!; [exact Hreach|exact Hnum|exact Hst|exact Hd|lia| | |exact Hres].
  - rewrite Hlook. assert (between s = 0%nat <-> forall a, a ∈ adders s -> pushed a = true) as <-.
    { unfold between. split.
      - intros Hz a Ha. destruct (pushed a) eqn:Hp; [done|]. apply nil_length_inv in Hz.
        assert (a ∈ filter (fun a => pushed a = false) (adders s)) as Hin by by apply list_elem_of_filter.
        rewrite Hz in Hin. by apply not_elem_of_nil in Hin.
      - intros Hall. destruct (filter _ (adders s)) as [|a l] eqn:Hf; [done|].
        assert (a ∈ filter (fun a => pushed a = false) (adders s)) as Hin by (rewrite Hf; left).
        apply list_elem_of_filter in Hin as [Hp Ha]. rewrite (Hall a Ha) in Hp. done. }
    by case_decide.
  - unfold get_binding. rewrite Hlook, Hn, Z.mod_small by lia. rewrite arith_Ok by (unfold uint; lia).
    cbn [mbind outcome_bind]. rewrite (proj2 (Z.ltb_ge _ _)) by lia. by case_decide.
Qed.

(** Two concurrent calls can swap their pushes: then each binding is told the
    id of the other's place in the vector. *)
Theorem concurrent_adds_swap checks debug (st : BindingHandle -> B) b0 b1 :
  exists s r0 r1, reachable checks debug s /\
    adders s = [Added b0 0 r0; Added b1 1 r1] /\
    net_devs (net s) = [b1; b0] /\ num_bindings (net s) = 2.
Proof.
  set (n k devs := mk ∅ 0 [] devs k [CallbackTask]).
  assert (reachable checks debug (mk_sys st (n 0 []) [])) as H0 by by apply reachable_initial.
  assert (reachable checks debug (mk_sys st (n 1 []) [Allocated b0 0])) as H1
    by exact (reachable_step _ _ _ _ _ H0 (step_allocate _ _ _ b0)).
  assert (reachable checks debug (mk_sys st (n 2 []) [Allocated b0 0; Allocated b1 1])) as H2
    by exact (reachable_step _ _ _ _ _ H1 (step_allocate _ _ _ b1)).
  assert (reachable checks debug (mk_sys st (n 2 [b1]) [Allocated b0 0; Pushed b1 1])) as H3
    by exact (reachable_push _ _ _ _ _ 1 b1 1 H2 eq_refl).
  assert (reachable checks debug (mk_sys st (n 2 [b1; b0]) [Pushed b0 0; Pushed b1 1])) as H4
    by exact (reachable_push _ _ _ _ _ 0 b0 0 H3 eq_refl).
  pose proof (reachable_bind _ _ _ _ _ 0 b0 0 H4 eq_refl) as H5.
  set (s5 := mk_sys _ _ _) in H5. pose proof (reachable_bind _ _ _ _ _ 1 b1 1 H5 eq_refl) as H6.
  destruct (add_bind_bindings debug st (n 2 [b1; b0]) b0 0) as (_ & Hn & Hd).
  destruct (add_bind_bindings debug (store s5) (net s5) b1 1) as (_ & Hn' & Hd').
  do 3 eexists. split_and!; [exact H6|reflexivity|..]; cbn [net].
  - exact (eq_trans Hd' Hd).
  - exact (eq_trans Hn' Hn).
Qed.

End facts.
End VirtualNetworkFacts.

(** ** Witnesses *)
Section witness.
#[local] Existing Instance Reference.crates.
#[local] Existing Instance Reference.crates_laws.

Import VirtualNetwork VirtualNetworkFacts.
#[local] Instance whole_datagrams : NetworkBinding SmbusNetDevBinding.t :=
  SmbusNetDevBinding.network_binding (fun _ b => Ok (length b)).
#[local] Abbreviation no_debug := (fun _ : MctpEmuError.t => ""%string).
#[local] Abbreviation devices :=
  (fun _ : BindingHandle => SmbusNetDevBinding.mk 0x10 0 (Some 0%nat)).
#[local] Abbreviation two_devices := (mk ∅ 0 [] [4%nat; 9%nat] 2 []).

Lemma get_binding_only_last_witness :
  get_binding true two_devices 0 = Err (Network.InvalidBindingError 0) /\
  get_binding true two_devices 1 = Ok 9%nat.
Proof.
  split; rewrite get_binding_only_last by (first [reflexivity | split; vm_compute; congruence]);
    vm_compute; reflexivity.
Defined.

Lemma w_added_reachable :
  exists s : sys SmbusNetDevBinding.t, reachable true no_debug s /\
    length (adders s) = 1%nat /\ adder_id <$> adders s = [0].
Proof.
  assert (reachable true no_debug (mk_sys devices (mk ∅ 0 [] [] 0 [CallbackTask]) [])) as H0
    by by apply reachable_initial.
  eexists. split; [exact (reachable_step _ _ _ _ _ H0 (step_allocate _ _ _ 4%nat))|done].
Qed.

Lemma binding_ids_distinct_witness :
  exists s : sys SmbusNetDevBinding.t, adder_id <$> adders s = [0] /\
    NoDup (adder_id <$> adders s) /\
    (forall a, a ∈ adders s -> 0 <= adder_id a < num_bindings (net s)).
Proof.
  destruct w_added_reachable as (s & Hr & Hl & Hids). exists s. split; [exact Hids|].
  destruct (binding_ids_distinct true no_debug s Hr) as (Hnd & Hlt & _);
    [rewrite Hl; vm_compute; reflexivity|]. split; [exact Hnd|exact Hlt].
Defined.

Lemma virtual_sendto_never_sends_witness :
  exists s : sys SmbusNetDevBinding.t,
    sendto (net s) 0 [] (Extended 9 1 0 0x30) =
      Err (MctpEmuError.Other (AnyMsg "Route not found for 1,9")).
Proof.
  destruct w_added_reachable as (s & Hr & _). exists s.
  exact (virtual_sendto_never_sends true no_debug s 0 [] (Extended 9 1 0 0x30) Hr).
Defined.

Lemma add_sequential_witness :
  (let '(st, self, _) := add_physical_binding no_debug devices (mk ∅ 0 [] [] 0 [CallbackTask]) 5%nat in
   net_devs self !! 0%nat = Some 5%nat /\ get_binding true self 0 = Ok 5%nat /\
   SmbusNetDevBinding.network_id (st 5%nat) = 0) /\
  (let '(st, self, _) := add_physical_binding no_debug devices (mk ∅ 0 [] [] 1 [CallbackTask]) 5%nat in
   net_devs self !! 0%nat = Some 5%nat /\ get_binding true self 1 = Err (Network.InvalidBindingError 1) /\
   SmbusNetDevBinding.network_id (st 5%nat) = 1).
Proof.
  assert (reachable true no_debug (mk_sys devices (mk ∅ 0 [] [] 0 [CallbackTask]) [])) as H0
    by by apply reachable_initial.
  assert (reachable true no_debug (mk_sys devices (mk ∅ 0 [] [] 1 [CallbackTask]) [Allocated 4%nat 0])) as H1
    by exact (reachable_step _ _ _ _ _ H0 (step_allocate _ _ _ 4%nat)).
  pose proof (add_sequential true no_debug _ 5%nat H0 ltac:(vm_compute; reflexivity)) as Hfirst.
  pose proof (add_sequential true no_debug _ 5%nat H1 ltac:(vm_compute; reflexivity)) as Hsecond.
  cbn [store net num_bindings] in Hfirst, Hsecond. split.
  - destruct (add_physical_binding no_debug devices (mk ∅ 0 [] [] 0 [CallbackTask]) 5%nat) as [[st self] res].
    destruct Hfirst as (_ & _ & Hst & Hd & _ & _ & Hg & _). rewrite Hd, Hst, Hg. vm_compute. auto.
  - destruct (add_physical_binding no_debug devices (mk ∅ 0 [] [] 1 [CallbackTask]) 5%nat) as [[st self] res].
    destruct Hsecond as (_ & _ & Hst & Hd & _ & _ & Hg & _). rewrite Hd, Hst, Hg. vm_compute. auto.
Defined.

End witness.
