(* ===== verification/Channels.v ===== *)
(** * The bounded channel between the tasks

    tokio's [mpsc] channel is not part of the repository: it is a class of
    operations, with the documented behaviour of the channel as laws.  The
    messages are handed over in order, a channel holds at most its capacity, and
    once its receiver is gone it holds nothing and takes nothing. *)
From S2P Require Import Prelude.

Class Mpsc (A : Type) := {
  mpsc : Type;                                (** the channel, both ends *)
  mpsc_channel : nat -> mpsc;                 (** [mpsc::channel(capacity)] *)
  mpsc_try_send : mpsc -> A -> option mpsc;   (** [None] is full or closed *)
  mpsc_is_closed : mpsc -> bool;
  mpsc_recv : mpsc -> option (A * mpsc);      (** [None] waits *)
  mpsc_drop_receiver : mpsc -> mpsc;
}.

(** What a channel holds, in terms of which its behaviour is documented. *)
Class MpscLaws (A : Type) `{Mpsc A} := {
  contents : mpsc -> list A;
  capacity : mpsc -> nat;
  mpsc_channel_spec n :
    (0 < n)%nat -> contents (mpsc_channel n) = [] /\ capacity (mpsc_channel n) = n /\
    mpsc_is_closed (mpsc_channel n) = false;
  mpsc_try_send_None q x :
    mpsc_try_send q x = None <-> mpsc_is_closed q = true \/ (capacity q <= length (contents q))%nat;
  mpsc_try_send_Some q x q' :
    mpsc_try_send q x = Some q' -> contents q' = contents q ++ [x] /\ capacity q' = capacity q /\
    mpsc_is_closed q' = mpsc_is_closed q;
  mpsc_recv_None q : mpsc_recv q = None <-> contents q = [];
  mpsc_recv_Some q x q' :
    mpsc_recv q = Some (x, q') -> contents q = x :: contents q' /\ capacity q' = capacity q /\
    mpsc_is_closed q' = mpsc_is_closed q;
  mpsc_drop_receiver_spec q :
    contents (mpsc_drop_receiver q) = [] /\ capacity (mpsc_drop_receiver q) = capacity q /\
    mpsc_is_closed (mpsc_drop_receiver q) = true;
}.

Section facts.
Context `{MpscLaws A}.

Lemma try_send_open q x :
  mpsc_is_closed q = false -> contents q = [] -> (0 < capacity q)%nat ->
  exists q', mpsc_try_send q x = Some q' /\ contents q' = [x] /\ mpsc_is_closed q' = false /\
    capacity q' = capacity q.
Proof.
  intros Hcl Hq Hcap. destruct (mpsc_try_send q x) as [q'|] eqn:Hs.
  - exists q'. split; [done|]. apply mpsc_try_send_Some in Hs as (-> & -> & ->). by rewrite Hq.
  - apply mpsc_try_send_None in Hs as [?|Hf]; [congruence|]. rewrite Hq in Hf. simpl in Hf. lia.
Qed.

Lemma recv_one q x :
  contents q = [x] ->
  exists q', mpsc_recv q = Some (x, q') /\ contents q' = [] /\ mpsc_is_closed q' = mpsc_is_closed q /\
    capacity q' = capacity q.
Proof.
  intros Hq. destruct (mpsc_recv q) as [[y q']|] eqn:Hr.
  - pose proof (mpsc_recv_Some _ _ _ Hr) as (Hc & Hcap & Hcl). rewrite Hq in Hc.
    injection Hc as -> Hc. by exists q'.
  - apply mpsc_recv_None in Hr. congruence.
Qed.

(** A channel that takes a message is open, and had room. *)
Lemma try_send_room q x q' :
  mpsc_try_send q x = Some q' -> mpsc_is_closed q = false /\ (length (contents q) < capacity q)%nat.
Proof.
  intros Hs. destruct (mpsc_is_closed q) eqn:Hc; [|split; [done|]].
  - assert (mpsc_try_send q x = None) by (apply mpsc_try_send_None; by left). congruence.
  - apply Nat.lt_nge. intros Hf.
    assert (mpsc_try_send q x = None) by (apply mpsc_try_send_None; by right). congruence.
Qed.

End facts.

(** ** A concrete channel

    A list that obeys the laws, for the witnesses; not a translation of the
    crate. *)
Module ListChannel.

Record t (A : Type) := mk { buffer : list A; bound : nat; closed : bool }.
Arguments mk {A}.
Arguments buffer {A}.
Arguments bound {A}.
Arguments closed {A}.

Definition try_send {A} (q : t A) (x : A) : option (t A) :=
  if closed q || (bound q <=? length (buffer q))%nat then None
  else Some (mk (buffer q ++ [x]) (bound q) (closed q)).

Definition recv {A} (q : t A) : option (A * t A) :=
  match buffer q with
  | [] => None
  | x :: rest => Some (x, mk rest (bound q) (closed q))
  end.

#[local] Instance mpsc_list A : Mpsc A := {|
  mpsc := t A;
  mpsc_channel n := mk [] n false;
  mpsc_try_send := try_send;
  mpsc_is_closed := closed;
  mpsc_recv := recv;
  mpsc_drop_receiver q := mk [] (bound q) true;
|}.

#[local] Instance mpsc_list_laws A : MpscLaws A.
Proof.
  refine {| contents := buffer : mpsc -> list A; capacity := bound : mpsc -> nat |}; simpl.
  - done.
  - intros q x. unfold try_send. destruct (closed q); simpl; [naive_solver|].
    destruct (Nat.leb_spec (bound q) (length (buffer q))); split; naive_solver lia.
  - intros q x q'. unfold try_send. destruct (_ || _); [done|]. by intros [= <-].
  - intros q. unfold recv. by destruct (buffer q).
  - intros q x q'. unfold recv. destruct (buffer q); [done|]. by intros [= <- <-].
  - done.
Defined.

End ListChannel.
