(* ===== verification/ReceivePath.v ===== *)
(** * The receive path of a network

    A network listens through a bounded channel: each binding it is bound to
    runs [poll_socket] ([src/phys/smbus_netdev.rs]) as a task, which puts the
    datagrams of its socket in the channel, and the network's callback handler
    takes them out.  The path is the same for both networks, which are reached
    through the class [Node]. *)
From S2P Require Import Prelude Crates Derive Errors Smbus Channels.

(** What a network is to its receive path: a turn of its callback handler,
    whether the handler's task runs, and the steps of everything else, with the
    datagrams they send and the ids of the poll tasks they spawn. *)
Class Node (N : Type) := {
  node_receive : N -> Z -> bytes -> N;
  node_listens : N -> bool;
  node_client : N -> list bytes -> list Z -> N -> Prop;
}.

(** Nothing but a turn of the handler ends the handler. *)
Class NodeLaws (N : Type) `{Node N} := {
  node_client_listens n out ids n' :
    node_client n out ids n' -> node_listens n' = node_listens n;
}.

Module ReceivePath.

(** The channel's size, in both networks, and [poll_socket]'s buffer. *)
Definition CHANNEL_SIZE : nat := 32.
Definition RECV_BUFFER : nat := 4 * 1024.

(** Where a task of [poll_socket] stands: at [recv_from], at the [send] of a
    message, or gone. *)
Inductive poller :=
  | Receiving (id : Z)
  | Sending (id : Z) (cmd : NetworkBindingCallbackMsg)
  | Panicked.

Section path.
Context {N : Type} `{Node N, Mpsc NetworkBindingCallbackMsg}.

(** The last four fields are histories, for the statements: the datagrams sent,
    every datagram [recv_from] gave a poll task, under the id of the task,
    whatever the task does with it, the messages the channel took, by task, and
    the messages handled. *)
Record t := mk {
  net : N;
  queue : mpsc;
  pollers : list poller;
  wire : list bytes;
  received : list (nat * NetworkBindingCallbackMsg);
  accepted : list (nat * NetworkBindingCallbackMsg);
  handled : list NetworkBindingCallbackMsg;
}.

(** A turn of [poll_socket] up to the [send], on what [recv_from] returned. *)
Definition poll_receive (i : nat) (r : outcome io_error bytes) (s : t) : option t :=
  match pollers s !! i with
  | Some (Receiving id) =>
      let p :=
        match poll_socket_step id r with
        | Ok (Some cmd) => Sending id cmd
        | Ok None => Receiving id
        | _ => Panicked
        end in
      let new := match r with Ok buf => [(i, ReceiveMsg id buf)] | _ => [] end in
      Some (mk (net s) (queue s) (<[i := p]> (pollers s)) (wire s) (received s ++ new)
        (accepted s) (handled s))
  | _ => None
  end.

(** [rx_callback.send(cmd).await]: it waits for room, and an error is
    ignored. *)
Definition poll_send (i : nat) (s : t) : option t :=
  match pollers s !! i with
  | Some (Sending id cmd) =>
      match mpsc_try_send (queue s) cmd with
      | Some q =>
          Some (mk (net s) q (<[i := Receiving id]> (pollers s)) (wire s) (received s)
            (accepted s ++ [(i, cmd)]) (handled s))
      | None =>
          if mpsc_is_closed (queue s) then
            Some (mk (net s) (queue s) (<[i := Receiving id]> (pollers s)) (wire s) (received s)
              (accepted s) (handled s))
          else None
      end
  | _ => None
  end.

(** A turn of [callback_handler]; the receiver goes with the task. *)
Definition handler_turn (s : t) : option t :=
  if node_listens (net s) then
    match mpsc_recv (queue s) with
    | Some (ReceiveMsg id buf, q) =>
        let n := node_receive (net s) id buf in
        Some (mk n (if node_listens n then q else mpsc_drop_receiver q) (pollers s) (wire s)
          (received s) (accepted s) (handled s ++ [ReceiveMsg id buf]))
    | None => None
    end
  else None.

(** What [recv_from] may return, given the buffer it fills. *)
Definition datagram_ok (r : outcome io_error bytes) : Prop :=
  match r with
  | Ok buf => is_bytes buf /\ (length buf <= RECV_BUFFER)%nat
  | Err _ => True
  | Panic _ => False
  end.

(** The tasks of the path, without input. *)
Inductive drain (s : t) : t -> Prop :=
  | drain_send i s' : poll_send i s = Some s' -> drain s s'
  | drain_handle s' : handler_turn s = Some s' -> drain s s'.

Inductive step (s : t) : t -> Prop :=
  | step_drain s' : drain s s' -> step s s'
  | step_poll i r s' : datagram_ok r -> poll_receive i r s = Some s' -> step s s'
  | step_client out ids n :
      node_client (net s) out ids n ->
      step s (mk n (queue s) (pollers s ++ (Receiving <$> ids)) (wire s ++ out) (received s)
        (accepted s) (handled s)).

Definition init (n : N) : t := mk n (mpsc_channel CHANNEL_SIZE) [] [] [] [] [].
Definition reachable (n : N) : t -> Prop := rtc step (init n).

(** The entries of a history that are poll task [i]'s, and what it holds. *)
Definition by_poller (i : nat) (l : list (nat * NetworkBindingCallbackMsg)) :=
  (filter (fun x => x.1 = i) l).*2.
Definition held (p : poller) : list NetworkBindingCallbackMsg :=
  match p with Sending _ cmd => [cmd] | _ => [] end.

(** A datagram that is not empty; [poll_socket] skips the others. *)
Definition nonempty (cmd : NetworkBindingCallbackMsg) : Prop :=
  let '(ReceiveMsg _ buf) := cmd in buf <> [].
#[export] Instance nonempty_dec cmd : Decision (nonempty cmd).
Proof. destruct cmd as [id buf]. simpl. apply _. Defined.

End path.
Arguments t : clear implicits.
Arguments t N {_}.
End ReceivePath.

(** ** Proofs *)
Module ReceivePathFacts.
Import ReceivePath.
Section facts.
Context {N : Type} `{NodeLaws N, MpscLaws NetworkBindingCallbackMsg}.
Implicit Types (s : t N).

Lemma by_poller_app i l k : by_poller i (l ++ k) = by_poller i l ++ by_poller i k.
Proof. unfold by_poller. by rewrite filter_app, fmap_app. Qed.

Lemma by_poller_one i j cmd : by_poller i [(j, cmd)] = if decide (j = i) then [cmd] else [].
Proof.
  unfold by_poller. destruct (decide (j = i)); [by rewrite filter_cons_True|by rewrite filter_cons_False].
Qed.

Lemma by_poller_pair i j cmds : by_poller j (pair i <$> cmds) = if decide (i = j) then cmds else [].
Proof.
  induction cmds as [|cmd cmds IH]; [by destruct (decide (i = j))|].
  change (pair i <$> cmd :: cmds) with ([(i, cmd)] ++ (pair i <$> cmds)).
  rewrite by_poller_app, by_poller_one, IH. by destruct (decide (i = j)).
Qed.

(** What task [i] received is in the channel's past, or held by the task, but
    for what is empty. *)
Definition polled s : Prop := forall i,
  filter nonempty (by_poller i (received s)) =
    by_poller i (accepted s) ++ default [] (held <$> pollers s !! i).

Record inv s : Prop := {
  inv_closed : mpsc_is_closed (queue s) = negb (node_listens (net s));
  inv_capacity : capacity (queue s) = CHANNEL_SIZE;
  inv_bound : (length (contents (queue s)) <= CHANNEL_SIZE)%nat;
  inv_fifo : node_listens (net s) = true -> (accepted s).*2 = handled s ++ contents (queue s);
  inv_prefix : handled s `prefix_of` (accepted s).*2;
  inv_polled : node_listens (net s) = true -> polled s;
  inv_accepted : accepted s ⊆ received s;
  inv_held i p : pollers s !! i = Some p -> Forall (fun cmd => (i, cmd) ∈ received s) (held p);
}.

Lemma inv_init n : node_listens n = true -> inv (init n).
Proof.
  intros Hn. destruct (mpsc_channel_spec CHANNEL_SIZE) as (Hc & Hcap & Hcl); [unfold CHANNEL_SIZE; lia|].
  split; simpl; rewrite ?Hc, ?Hn; try done. all: simpl; lia.
Qed.

Lemma lookup_poller_insert (l : list poller) i j p p' :
  l !! i = Some p -> <[i := p']> l !! j = if decide (i = j) then Some p' else l !! j.
Proof.
  intros Hi. apply lookup_lt_Some in Hi. destruct (decide (i = j)) as [<-|].
  - by rewrite list_lookup_insert_eq.
  - by rewrite list_lookup_insert_ne.
Qed.

(** A turn of [poll_socket]: the task stays at [recv_from], holds the message
    of the datagram, or panics. *)
Lemma poll_receive_cases i r s s' :
  poll_receive i r s = Some s' ->
  exists id p new, pollers s !! i = Some (Receiving id) /\
    s' = mk (net s) (queue s) (<[i := p]> (pollers s)) (wire s) (received s ++ (pair i <$> new))
      (accepted s) (handled s) /\
    ((p = Panicked /\ new = []) \/
     exists buf, r = Ok buf /\ new = [ReceiveMsg id buf] /\
       ((p = Receiving id /\ buf = []) \/ (p = Sending id (ReceiveMsg id buf) /\ buf <> []))).
Proof.
  unfold poll_receive. destruct (pollers s !! i) as [[id|id cmd|]|]; try done.
  unfold poll_socket_step. destruct r as [[|b buf]|e|p]; simpl; intros [= <-]; exists id.
  - exists (Receiving id), [ReceiveMsg id []]. split_and!; [done|done|]. right. exists []. auto.
  - exists (Sending id (ReceiveMsg id (b :: buf))), [ReceiveMsg id (b :: buf)]. split_and!; [done|done|].
    right. exists (b :: buf). auto.
  - exists Panicked, []. auto.
  - exists Panicked, []. auto.
Qed.

(** A [send]: the channel takes the message, or it is closed and the message
    is lost. *)
Lemma poll_send_cases i s s' :
  poll_send i s = Some s' ->
  exists id cmd, pollers s !! i = Some (Sending id cmd) /\
    ((exists q, mpsc_try_send (queue s) cmd = Some q /\
       s' = mk (net s) q (<[i := Receiving id]> (pollers s)) (wire s) (received s)
         (accepted s ++ [(i, cmd)]) (handled s)) \/
     (mpsc_is_closed (queue s) = true /\
       s' = mk (net s) (queue s) (<[i := Receiving id]> (pollers s)) (wire s) (received s)
         (accepted s) (handled s))).
Proof.
  unfold poll_send. destruct (pollers s !! i) as [[id|id cmd|]|]; try done.
  intros Hs. exists id, cmd. split; [done|].
  destruct (mpsc_try_send (queue s) cmd) as [q|]; [injection Hs as <-; left; by exists q|].
  destruct (mpsc_is_closed (queue s)); [|done]. injection Hs as <-. by right.
Qed.

Lemma handler_turn_cases s s' :
  handler_turn s = Some s' ->
  exists id buf q, node_listens (net s) = true /\ mpsc_recv (queue s) = Some (ReceiveMsg id buf, q) /\
    s' = mk (node_receive (net s) id buf)
      (if node_listens (node_receive (net s) id buf) then q else mpsc_drop_receiver q)
      (pollers s) (wire s) (received s) (accepted s) (handled s ++ [ReceiveMsg id buf]).
Proof.
  unfold handler_turn. destruct (node_listens (net s)); [|done].
  destruct (mpsc_recv (queue s)) as [[[id buf] q]|]; [|done]. intros [= <-]. by exists id, buf, q.
Qed.

Lemma inv_poll i r s s' : inv s -> poll_receive i r s = Some s' -> inv s'.
Proof.
  intros [Hcl Hcap Hb Hf Hp Hpo Hac Hhe] Hs.
  destruct (poll_receive_cases i r s s' Hs) as (id & p & new & Hi & -> & Hcases).
  assert (filter nonempty new = held p) as Hnew.
  { destruct Hcases as [[-> ->]|(buf & _ & -> & [[-> ->]|[-> Hne]])]; [done|done|].
    by rewrite filter_cons_True. }
  split; simpl; try done.
  - intros Hl j. simpl. rewrite by_poller_app, filter_app, (Hpo Hl j), (lookup_poller_insert _ _ _ _ p Hi).
    rewrite by_poller_pair. destruct (decide (i = j)) as [<-|]; [|by rewrite app_nil_r].
    rewrite Hi, Hnew. simpl. by rewrite app_nil_r.
  - by apply list_subseteq_app_l.
  - intros j p'. rewrite (lookup_poller_insert _ _ _ _ p Hi). destruct (decide (i = j)) as [<-|].
    + intros [= <-]. apply Forall_forall. intros cmd Hc. apply elem_of_app. right.
      apply list_elem_of_fmap. exists cmd. split; [done|]. rewrite <- Hnew in Hc.
      by apply list_elem_of_filter in Hc as [_ ?].
    + intros Hj. eapply Forall_impl; [by apply Hhe|]. intros cmd Hc. apply elem_of_app. by left.
Qed.

Lemma inv_poll_send i s s' : inv s -> poll_send i s = Some s' -> inv s'.
Proof.
  intros [Hcl Hcap Hb Hf Hp Hpo Hac Hhe] Hs.
  destruct (poll_send_cases i s s' Hs) as (id & cmd & Hi & [(q & Hq & ->)|[Hclosed ->]]).
  - destruct (try_send_room _ _ _ Hq) as [Hopen Hroom].
    apply mpsc_try_send_Some in Hq as (Hc & Hcap' & Hcl').
    split; simpl; rewrite ?Hc, ?Hcap', ?Hcl'; try done.
    + rewrite length_app. simpl. lia.
    + intros Hl. by rewrite fmap_app, Hf, (assoc_L _) by done.
    + rewrite fmap_app. by apply prefix_app_r.
    + intros Hl j. simpl. rewrite by_poller_app, by_poller_one, (Hpo Hl j).
      rewrite (lookup_poller_insert _ _ _ _ (Receiving id) Hi).
      destruct (decide (i = j)) as [<-|]; [rewrite Hi; simpl; by rewrite app_nil_r|by rewrite app_nil_r].
    + intros x [Hx|Hx%list_elem_of_singleton]%elem_of_app; [by apply Hac|]. subst x.
      pose proof (Hhe i _ Hi) as Hin. simpl in Hin. by inversion Hin.
    + intros j p'. rewrite (lookup_poller_insert _ _ _ _ (Receiving id) Hi).
      destruct (decide (i = j)); [by intros [= <-]; constructor|apply Hhe].
  - split; simpl; try done.
    + intros Hl. rewrite Hl in Hcl. simpl in Hcl. congruence.
    + intros j p'. rewrite (lookup_poller_insert _ _ _ _ (Receiving id) Hi).
      destruct (decide (i = j)); [by intros [= <-]; constructor|apply Hhe].
Qed.

Lemma inv_handle s s' : inv s -> handler_turn s = Some s' -> inv s'.
Proof.
  intros [Hcl Hcap Hb Hf Hp Hpo Hac Hhe] Hs.
  destruct (handler_turn_cases s s' Hs) as (id & buf & q & Hl & Hq & ->).
  apply mpsc_recv_Some in Hq as (Hc & Hcap' & Hcl'). specialize (Hf Hl). specialize (Hpo Hl).
  assert ((accepted s).*2 = (handled s ++ [ReceiveMsg id buf]) ++ contents q) as Hacc
    by (rewrite <- (assoc_L _); simpl; by rewrite <- Hc).
  assert (length (contents q) <= CHANNEL_SIZE)%nat as Hbq by (rewrite Hc in Hb; simpl in Hb; lia).
  destruct (node_listens (node_receive (net s) id buf)) eqn:Hl'; [split|
    destruct (mpsc_drop_receiver_spec q) as (Hd & Hdc & Hdcl); split]; simpl;
    rewrite ?Hd, ?Hdc, ?Hdcl, ?Hl', ?Hcap', ?Hcl', ?Hcl, ?Hl; simpl; try done;
    try (by rewrite Hacc; apply prefix_app_r); lia.
Qed.

Lemma inv_client s out ids n :
  inv s -> node_client (net s) out ids n ->
  inv (mk n (queue s) (pollers s ++ (Receiving <$> ids)) (wire s ++ out) (received s) (accepted s) (handled s)).
Proof.
  intros [Hcl Hcap Hb Hf Hp Hpo Hac Hhe] Hn. pose proof (node_client_listens _ _ _ _ Hn) as Hl.
  assert (forall j, default [] (held <$> (pollers s ++ (Receiving <$> ids)) !! j) =
    default [] (held <$> pollers s !! j)) as Hheld.
  { intros j. destruct (decide (j < length (pollers s))%nat) as [Hj|Hj]; [by rewrite lookup_app_l|].
    rewrite lookup_app_r, list_lookup_fmap by lia. rewrite (lookup_ge_None_2 (pollers s)) by lia.
    by destruct (ids !! _). }
  split; simpl; rewrite ?Hl; try done.
  - intros Hn' j. simpl. rewrite Hheld. by apply Hpo.
  - intros j p [Hj|[_ Hj]]%lookup_app_Some; [by apply Hhe|].
    rewrite list_lookup_fmap in Hj. destruct (ids !! _); [|done]. injection Hj as <-. constructor.
Qed.

Lemma inv_drain s s' : inv s -> drain s s' -> inv s'.
Proof. intros Hinv [i s1 Hs|s1 Hs]; [by eapply inv_poll_send|by eapply inv_handle]. Qed.

Lemma path_inv_step s s' : inv s -> step s s' -> inv s'.
Proof.
  intros Hinv [s1 Hd|i r s1 _ Hr|out ids n Hc];
    [by eapply inv_drain|by eapply inv_poll|by apply inv_client].
Qed.

Lemma path_reachable_inv n s : node_listens n = true -> reachable n s -> inv s.
Proof.
  intros Hn. revert s. apply rtc_ind_r; [by apply inv_init|]. intros y z _ Hstep Hinv. by eapply path_inv_step.
Qed.

(** C12: No datagram is lost, doubled or reordered between the sockets and a
    handler that runs, but the empty ones, which are dropped: what [recv_from] gave
    a poll task, without its empty datagrams, is what the channel took from the
    task and what the task still holds, in order and unchanged, and what the
    channel took is what was handled and what it holds; the channel never holds
    more than 32 messages. *)
Theorem datagrams_in_order n s :
  node_listens n = true -> reachable n s -> node_listens (net s) = true ->
  (forall i, filter nonempty (by_poller i (received s)) =
     by_poller i (accepted s) ++ default [] (held <$> pollers s !! i)) /\
  (accepted s).*2 = handled s ++ contents (queue s) /\
  (length (contents (queue s)) <= CHANNEL_SIZE)%nat.
Proof. intros Hn Hr Hl. destruct (path_reachable_inv n s Hn Hr). split_and!; [by apply inv_polled0|auto|done]. Qed.

(** What a poll task receives: a datagram that fits its buffer. *)
Definition made s (x : nat * NetworkBindingCallbackMsg) : Prop :=
  (x.1 < length (pollers s))%nat /\
  let '(ReceiveMsg id buf) := x.2 in is_bytes buf /\ (length buf <= RECV_BUFFER)%nat.

Lemma received_step s s' :
  step s s' -> Forall (made s) (received s) -> Forall (made s') (received s').
Proof.
  intros Hstep Hm.
  assert (forall s', received s' = received s -> (length (pollers s) <= length (pollers s'))%nat ->
    Forall (made s') (received s')) as Hmono.
  { intros s1 -> Hle. eapply Forall_impl; [exact Hm|]. intros x [Hx Hb]. split; [lia|exact Hb]. }
  destruct Hstep as [s1 [i s1' Hs|s1' Hs]|i r s1 Hok Hs|out ids n Hc].
  - destruct (poll_send_cases i s s1' Hs) as (? & ? & _ & [(? & _ & ->)|[_ ->]]); apply Hmono;
      simpl; rewrite ?length_insert; done.
  - destruct (handler_turn_cases s s1' Hs) as (? & ? & ? & _ & _ & ->). by apply Hmono.
  - destruct (poll_receive_cases i r s s1 Hs) as (id & p & new & Hi & -> & Hcases). apply Forall_app. split.
    + eapply Forall_impl; [exact Hm|]. intros x [Hx Hb].
      split; [simpl; by rewrite length_insert|exact Hb].
    + apply Forall_fmap. destruct Hcases as [[_ ->]|(buf & -> & -> & _)]; constructor; [|constructor].
      split; [|exact Hok]. simpl. rewrite length_insert. by eapply lookup_lt_Some.
  - apply Hmono; [done|]. simpl. rewrite length_app. lia.
Qed.

Lemma reachable_received n s : reachable n s -> Forall (made s) (received s).
Proof. revert s. apply rtc_ind_r; [constructor|]. eauto using received_step. Qed.

(** The message a running handler takes was made by a poll task. *)
Lemma next_made s id buf q :
  inv s -> node_listens (net s) = true -> mpsc_recv (queue s) = Some (ReceiveMsg id buf, q) ->
  exists i, (i, ReceiveMsg id buf) ∈ received s.
Proof.
  intros Hinv Hl Hq. apply mpsc_recv_Some in Hq as (Hc & _ & _).
  pose proof (inv_fifo s Hinv Hl) as Hf. rewrite Hc in Hf.
  assert (ReceiveMsg id buf ∈ (accepted s).*2) as Hin by (rewrite Hf; apply elem_of_app; right; by left).
  apply list_elem_of_fmap in Hin as ([i cmd] & -> & Hin). exists i. by apply (inv_accepted s Hinv).
Qed.

(** ** The path comes to rest *)

(** What is left to do: a held message takes a [send] and a turn. *)
Definition work s : nat :=
  sum_list_with (fun p => 2 * length (held p))%nat (pollers s) + length (contents (queue s)).

Lemma drain_work s s' : drain s s' -> (work s' < work s)%nat.
Proof.
  intros [i s1 Hs|s1 Hs]; unfold work.
  - destruct (poll_send_cases i s s1 Hs) as (id & cmd & Hi & Hcases).
    pose proof (sum_list_with_insert (fun p => 2 * length (held p))%nat _ i _ (Receiving id) Hi) as Hsum.
    simpl in Hsum. destruct Hcases as [(q & Hq & ->)|[_ ->]]; simpl; [|lia].
    apply mpsc_try_send_Some in Hq as (-> & _). rewrite length_app. simpl. lia.
  - destruct (handler_turn_cases s s1 Hs) as (id & buf & q & _ & Hq & ->).
    apply mpsc_recv_Some in Hq as (-> & _). simpl.
    destruct (node_listens _); [lia|]. destruct (mpsc_drop_receiver_spec q) as (-> & _). simpl. lia.
Qed.

Lemma drain_received s s' : drain s s' -> received s' = received s.
Proof.
  intros [i s1 Hs|s1 Hs].
  - by destruct (poll_send_cases i s s1 Hs) as (? & ? & _ & [(? & _ & ->)|[_ ->]]).
  - by destruct (handler_turn_cases s s1 Hs) as (? & ? & ? & _ & _ & ->).
Qed.

(** At rest under a running handler nothing is on its way. *)
Lemma drained s :
  inv s -> node_listens (net s) = true -> (forall s', ~ drain s s') ->
  contents (queue s) = [] /\ forall i, default [] (held <$> pollers s !! i) = [].
Proof.
  intros Hinv Hl Hrest.
  assert (contents (queue s) = []) as Hq.
  { apply mpsc_recv_None. destruct (mpsc_recv (queue s)) as [[[id buf] q]|] eqn:Hr; [|done].
    destruct (Hrest (default s (handler_turn s))). apply drain_handle.
    unfold handler_turn. by rewrite Hl, Hr. }
  split; [done|]. intros i. destruct (pollers s !! i) as [[id|id cmd|]|] eqn:Hi; try done.
  destruct (Hrest (default s (poll_send i s))). apply (drain_send _ i). unfold poll_send. rewrite Hi.
  destruct (mpsc_try_send (queue s) cmd) eqn:Hs; [done|].
  apply mpsc_try_send_None in Hs as [->|Hf]; [done|].
  rewrite Hq, (inv_capacity s Hinv) in Hf. simpl in Hf. unfold CHANNEL_SIZE in Hf. lia.
Qed.

(** C13: Every datagram received is handled, but the empty ones: from a reachable
    state, the tasks of the path come to rest whatever their order, and unless
    the handler died on the way it has then handled exactly the non-empty
    datagrams that the sockets had given the tasks, in each task's order. *)
Theorem received_is_handled n s :
  node_listens n = true -> reachable n s ->
  Acc (fun s' s => drain s s') s /\
  forall s', rtc drain s s' -> (forall s'', ~ drain s' s'') -> node_listens (net s') = true ->
    (accepted s').*2 = handled s' /\
    forall i, by_poller i (accepted s') = filter nonempty (by_poller i (received s)).
Proof.
  intros Hn Hr. split.
  - apply (Wf_nat.well_founded_lt_compat _ work (fun s' s => drain s s')).
    intros s' s0. apply drain_work.
  - intros s' Hs' Hrest Hl. assert (received s' = received s) as Hrec.
    { clear Hr Hrest Hl. induction Hs' as [|s0 s1 s2 Hd _ IH]; [done|]. by rewrite IH, (drain_received s0). }
    assert (inv s') as Hinv.
    { apply (path_reachable_inv n); [done|]. unfold reachable in *. etrans; [exact Hr|].
      eapply rtc_subrel; [|exact Hs']. intros x y. apply step_drain. }
    destruct (drained s' Hinv Hl Hrest) as [Hq Hheld]. split.
    + by rewrite (inv_fifo s' Hinv), Hq, app_nil_r.
    + intros i. by rewrite <- Hrec, (inv_polled s' Hinv Hl i), Hheld, app_nil_r.
Qed.

End facts.
End ReceivePathFacts.
