(* ===== verification/SimpleNode.v ===== *)
(** * The simple network with its receive path

    The tasks of [SimpleNetworkTasks] as a [Node]: the callback handler takes
    its messages from the bounded channel, and [add_physical_binding] spawns
    the [poll_socket] task that fills it. *)
From S2P Require Import Prelude Crates Reference Derive Enums Transport Errors Smbus Network.
From S2P Require Import SimpleNetwork SimpleNetworkTasks Channels ReceivePath.

Module SimpleNode.
Import SimpleNetworkTasks.
Section node.
Context `{Crates} {B : Type} `{NetworkBinding B} (checks : bool).

Inductive client (s : sys B) : list bytes -> list Z -> sys B -> Prop :=
  | client_call out s' : call_step checks s out s' -> client s out [] s'
  | client_add debug binding :
      lock_free s binding ->
      client s [] (spawned (binding_bind (store s binding) 1).2) (add_binding debug s binding).1.

#[local] Instance simple_node : Node (sys B) := {|
  node_receive := handle_msg;
  node_listens := handler_alive;
  node_client := client;
|}.

#[local] Instance simple_node_laws : NodeLaws (sys B).
Proof.
  split. intros s out ids s' [out' s1 Hc|debug binding _]; simpl.
  - by destruct Hc as [| | | | |? ? []].
  - unfold add_binding. by destruct (SimpleNetwork.add_physical_binding _ _ _ _) as [[st n] res].
Qed.

End node.
End SimpleNode.

(** ** Proofs *)
Module SimpleNodeFacts.
Import SimpleNetwork SimpleNetworkFacts SimpleNetworkTasks SimpleNetworkTasksFacts SimpleNode ReceivePath ReceivePathFacts.
Section facts.
Context `{CratesLaws} {B : Type} `{NetworkBinding B} `{MpscLaws NetworkBindingCallbackMsg}.
Context (checks : bool) (binding : BindingHandle).
#[local] Instance here : Node (sys B) := simple_node checks.
#[local] Instance here_laws : NodeLaws (sys B) := simple_node_laws checks.
Implicit Types (s : ReceivePath.t (sys B)).

(** The network in a node makes steps of its own. *)
Lemma step_network s s' :
  ReceivePathFacts.inv s -> Forall (made s) (received s) -> ReceivePath.step s s' ->
  net s' = net s \/ SimpleNetworkTasks.step checks (net s) (net s').
Proof.
  intros Hinv Hm [s1 [i s1' Hs|s1' Hs]|i r s1 _ Hs|out ids n [out' n' Hc|debug b Hfree]].
  - left. by destruct (poll_send_cases i s s1' Hs) as (? & ? & _ & [(? & _ & ->)|[_ ->]]).
  - right. destruct (handler_turn_cases s s1' Hs) as (id & buf & q & Hl & Hq & ->).
    destruct (next_made s id buf q Hinv Hl Hq) as [i Hi].
    rewrite Forall_forall in Hm. destruct (Hm _ Hi) as (_ & Hb & _). by apply step_receive.
  - left. by destruct (poll_receive_cases i r s s1 Hs) as (? & ? & ? & _ & -> & _).
  - right. by eapply step_call.
  - right. by apply step_add_binding.
Qed.

Context (n : sys B) (Hinit : initial binding n).

Lemma initial_listens : node_listens n = true.
Proof. by destruct Hinit as (_ & _ & _ & ? & _). Qed.

Lemma node_inv s : ReceivePath.reachable n s -> ReceivePathFacts.inv s.
Proof. apply ReceivePathFacts.path_reachable_inv, initial_listens. Qed.

(** What holds of the tasks of a network holds of it in a node. *)
Lemma node_network s : ReceivePath.reachable n s ->
  SimpleNetworkTasks.reachable checks binding (net s).
Proof.
  intros Hr. revert s Hr. apply rtc_ind_r; [by apply reachable_initial|].
  intros s s' Hr Hstep IH. destruct (step_network s s') as [->|Hs];
    [by apply node_inv|by eapply reachable_received|done|done|by eapply reachable_step].
Qed.

(** ** Each result is one datagram *)

(** The response to call [ch], waiting or returned. *)
Definition response (s : ReceivePath.t (sys B)) (ch : channel) (addr : SocketAddress) (buf : bytes) : Prop :=
  inbox (net s) !! ch = Some (Receive addr buf) \/
  exists tag, senders (net s) !! ch = Some (Finished tag (Ok (addr, buf))).

(** [m] says which of the handled messages answered a call. *)
Record answered (s : ReceivePath.t (sys B)) (m : gmap channel nat) : Prop := {
  answered_by ch addr buf : response s ch addr buf ->
    exists k id dg, m !! ch = Some k /\ handled s !! k = Some (ReceiveMsg id dg) /\
      addr = Extended 0 1 id 0 /\ buf = drop 4 dg;
  answered_old ch k : m !! ch = Some k -> (k < length (handled s))%nat;
  answered_once ch ch' k : m !! ch = Some k -> m !! ch' = Some k -> ch = ch';
}.

(** A step that makes no response keeps the map. *)
Lemma answered_same s s' m :
  answered s m -> handled s' = handled s ->
  (forall ch addr buf, response s' ch addr buf -> response s ch addr buf) -> answered s' m.
Proof.
  intros [Hby Hold Honce] Hh Hr. split; rewrite ?Hh; [|done|done]. intros ch addr buf Hch. by apply Hby, Hr.
Qed.

Lemma call_response (x x' : sys B) out ch addr buf :
  SimpleNetworkTasksFacts.inv x -> call_step checks x out x' ->
  (inbox x' !! ch = Some (Receive addr buf) \/
   exists tag, senders x' !! ch = Some (Finished tag (Ok (addr, buf)))) ->
  inbox x !! ch = Some (Receive addr buf) \/
  exists tag, senders x !! ch = Some (Finished tag (Ok (addr, buf))).
Proof.
  intros Hinv Hstep Hr.
  assert (forall ch0 y, (forall tag a b, y <> Finished tag (Ok (a, b))) ->
    inbox x' = inbox x -> senders x' = <[ch0 := y]> (senders x) ->
    inbox x !! ch = Some (Receive addr buf) \/
    exists tag, senders x !! ch = Some (Finished tag (Ok (addr, buf)))) as Hsame.
  { intros ch0 y Hy Hi Hs. rewrite Hi, Hs in Hr. destruct Hr as [?|[tag Ht]]; [by left|right].
    exists tag. apply lookup_insert_Some in Ht as [[_ ->]|[_ ?]]; [by destruct (Hy tag addr buf)|done]. }
  destruct Hstep as [|sd address msg_type tg chan| |sd payload a0 ch1 n' b0 phy tg _ _ _|ch1 _
    |out1 s1 [ch1 tg b0 phy out' _ _ _|ch1 tg b0 phy out' p _ _ _|ch1 tg msg Hs Hm|ch1 tg Hs Hm Hnin]];
    try exact Hr; try (eapply Hsame; [|reflexivity|reflexivity]; done).
  destruct msg as [a b]. simpl in Hr. destruct Hr as [Hi|[t' Ht]].
  - left. by apply lookup_delete_Some in Hi as [_ ?].
  - apply lookup_insert_Some in Ht as [[<- [= _ <- <-]]|[_ ?]]; [by left|right; by exists t'].
Qed.

Lemma answered_handle s s' m :
  ReceivePathFacts.inv s -> Forall (made s) (received s) -> handler_turn s = Some s' ->
  answered s m -> exists m', answered s' m'.
Proof.
  intros Hinv Hm Hs [Hby Hold Honce].
  destruct (handler_turn_cases s s' Hs) as (id & buf & q & Hl & Hq & ->).
  destruct (next_made s id buf q Hinv Hl Hq) as [i Hi].
  rewrite Forall_forall in Hm. destruct (Hm _ Hi) as (_ & Hb & _). simpl.
  set (s' := mk _ _ _ _ _ _ _).
  assert (net s' = handle_msg (net s) id buf) as Hnet by done. unfold handle_msg in Hnet.
  assert (handled s' = handled s ++ [ReceiveMsg id buf]) as Hh by done. clearbody s'.
  assert (forall ch k, m !! ch = Some k -> handled s' !! k = handled s !! k) as Hkeep
    by (intros ch k Hk; rewrite Hh; apply lookup_app_l; by eapply Hold).
  assert (forall k, (k < length (handled s))%nat -> (k < length (handled s'))%nat) as Hlen
    by (intros k Hk; rewrite Hh, length_app; lia).
  destruct (callback_receive_cases (receiver_alive (net s)) (SimpleNetworkTasks.net (net s)) id buf Hb)
    as [Hc|[[_ Hc]|(j & tag & ch0 & body & rt & _ & _ & _ & -> & _ & _ & Hc)]]; rewrite Hc in Hnet.
  3: destruct (receiver_alive (net s) ch0) eqn:Hal.
  3: { exists (<[ch0 := length (handled s)]> m). split.
    - intros ch addr b Hr. destruct (decide (ch0 = ch)) as [<-|Hne].
      + rewrite lookup_insert_eq. exists (length (handled s)), id, buf.
        split_and!; [done|rewrite Hh; by apply list_lookup_middle|..];
          (destruct Hr as [Hr|[t' Hr]]; rewrite Hnet in Hr; simpl in Hr;
            [rewrite lookup_insert_eq in Hr; by simplify_eq|]);
          unfold receiver_alive in Hal; by rewrite Hr in Hal.
      + rewrite lookup_insert_ne by done.
        destruct (Hby ch addr b) as (k & id' & dg & Hk & Hd & ?); [|exists k, id', dg; by rewrite (Hkeep ch)].
        unfold response in *. rewrite Hnet in Hr. simpl in Hr. by rewrite lookup_insert_ne in Hr.
    - intros ch k [[_ <-]|[_ Hk]]%lookup_insert_Some; [rewrite Hh, length_app; simpl; lia|].
      by eapply Hlen, Hold.
    - intros ch ch' k [[<- <-]|[_ Hk]]%lookup_insert_Some [[<- Hk']|[_ Hk']]%lookup_insert_Some;
        try done; [by apply Hold in Hk'; lia|by apply Hold in Hk; lia|by eapply Honce]. }
  all: exists m; split; [|by intros ch k Hk; eapply Hlen, Hold|done].
  all: intros ch addr b Hr; destruct (Hby ch addr b) as (k & id' & dg & Hk & Hd & ?);
    [unfold response in *; by rewrite Hnet in Hr|exists k, id', dg; by rewrite (Hkeep ch)].
Qed.

Lemma answered_step s s' m :
  ReceivePath.reachable n s -> ReceivePath.step s s' -> answered s m -> exists m', answered s' m'.
Proof.
  intros Hr Hstep Ha. pose proof (node_inv s Hr) as Hinv.
  destruct Hstep as [s1 [i s1' Hs|s1' Hs]|i r s1 _ Hs|out ids n' [out' n1 Hc|debug b Hfree]].
  - exists m. destruct (poll_send_cases i s s1' Hs) as (? & ? & _ & [(? & _ & ->)|[_ ->]]);
      by apply (answered_same s).
  - eapply answered_handle; [exact Hinv|by eapply reachable_received|exact Hs|exact Ha].
  - exists m. destruct (poll_receive_cases i r s s1 Hs) as (? & ? & ? & _ & -> & _). by apply (answered_same s).
  - exists m. apply (answered_same s); [done|done|]. intros ch addr buf. eapply call_response; [|exact Hc].
    by eapply SimpleNetworkTasksFacts.reachable_inv, node_network.
  - exists m. destruct (add_binding_same debug (net s) b) as (Hs & Hi & _).
    apply (answered_same s); [done|done|]. intros ch addr buf. unfold response. simpl. by rewrite Hs, Hi.
Qed.

Lemma node_answered s : ReceivePath.reachable n s -> exists m, answered s m.
Proof.
  revert s. apply rtc_ind_r.
  - exists ∅. split; [|by intros ch k; rewrite lookup_empty..].
    destruct Hinit as (_ & Hs & Hi & _). intros ch addr buf. unfold response. simpl.
    rewrite Hs, Hi, !lookup_empty. by intros [?|[? ?]].
  - intros s s' Hr Hstep [m Hm]. by eapply answered_step.
Qed.

Lemma handled_received s k cmd :
  ReceivePath.reachable n s -> handled s !! k = Some cmd -> exists i, (i, cmd) ∈ received s.
Proof.
  intros Hr Hk. pose proof (node_inv s Hr) as Hinv.
  assert (cmd ∈ (accepted s).*2) as Hin
    by (destruct (inv_prefix s Hinv) as [l ->]; apply elem_of_app; left; by eapply list_elem_of_lookup_2).
  apply list_elem_of_fmap in Hin as ([i cmd'] & -> & Hin). exists i. by apply (inv_accepted s Hinv).
Qed.

(** C11: From the wire to the caller: every call of [sendto] that returned did so
    with the body of a datagram that a poll task received and the handler
    handled, and which answers the call's request; no datagram answers two
    calls. *)
Theorem results_are_datagrams s :
  ReceivePath.reachable n s ->
  exists m : gmap channel nat,
    (forall ch tag res, senders (net s) !! ch = Some (Finished tag res) ->
       exists k i id dg recv_tag, m !! ch = Some k /\
         handled s !! k = Some (ReceiveMsg id dg) /\ (i, ReceiveMsg id dg) ∈ received s /\
         res = Ok (Extended 0 1 id 0, drop 4 dg) /\
         create_tag (drop 4 dg) = Some recv_tag /\ answers_flow tag recv_tag = true) /\
    (forall ch ch' k, m !! ch = Some k -> m !! ch' = Some k -> ch = ch').
Proof.
  intros Hr. destruct (node_answered s Hr) as [m [Hby _ Honce]]. exists m. split; [|exact Honce].
  intros ch tag res Hs. pose proof (SimpleNetworkTasksFacts.reachable_inv _ _ _ (node_network s Hr)) as Hinv.
  destruct (inv_finished _ Hinv ch tag res Hs) as (addr & buf & -> & id' & rt & -> & Hc & Ht).
  destruct (Hby ch (Extended 0 1 id' 0) buf) as (k & id & dg & Hk & Hd & [= <-] & ->); [right; by exists tag|].
  destruct (handled_received s k _ Hr Hd) as [i Hi]. exists k, i, id', dg, rt. split_and!; try done.
  by apply Ht.
Qed.

(** ** A handler that died *)

(** The call [ch] waits for a response that nobody can give. *)
Record stuck (x : sys B) (ch : channel) : Prop := {
  stuck_handler : handler_alive x = false;
  stuck_inbox : inbox x !! ch = None;
  stuck_flow : ch ∈ (flows (SimpleNetworkTasks.net x)).*2;
}.

Lemma stuck_call x out x' ch tag :
  lock_ok x -> stuck x ch -> call_step checks x out x' ->
  senders x !! ch = Some (Waiting tag) ->
  stuck x' ch /\ ((senders x' !! ch = Some (Waiting tag) /\ out = []) \/ senders x' !! ch = Some Gone).
Proof.
  intros Hl [Hh Hi Hf] Hstep Hw. assert (holder x = Some ch) as Hlock by (apply Hl; eauto).
  destruct Hstep as [|sd address msg_type tg chan| |sd payload addr ch1 n1 buf phy tg Hnew Hbeg Htag|ch1 Hal
    |out1 s1 [ch1 tg buf phy out' _ Hn _|ch1 tg buf phy out' p _ Hn _|ch1 tg msg Hs Hm|ch1 tg Hs Hm Hnin]];
    try congruence.
  - split; [done|by left].
  - split; [|by left]. split; simpl; [done|done|].
    by destruct (bind_flows checks (SimpleNetworkTasks.net x) sd address msg_type tg chan) as [-> _].
  - split; [done|by left].
  - assert (ch1 <> ch) as Hne by congruence. split; [split; simpl; try done|].
    + destruct (sendto_begin_flows _ _ _ _ _ _ _ _ Hbeg) as (t1 & _ & _ & ->). simpl.
      rewrite fmap_app. apply elem_of_app. by left.
    + left. simpl. by rewrite lookup_insert_ne.
  - split; [done|]. simpl. destruct (decide (ch1 = ch)) as [->|Hne].
    + right. apply lookup_insert_eq.
    + left. by rewrite lookup_insert_ne.
  - assert (ch1 = ch) as -> by (by eapply one_waits). congruence.
  - assert (ch1 = ch) as -> by (by eapply one_waits). done.
Qed.

Lemma gone_call x out x' ch :
  call_step checks x out x' -> senders x !! ch = Some Gone ->
  senders x' !! ch = Some Gone.
Proof.
  intros Hstep Hw.
  destruct Hstep as [|sd address msg_type tg chan| |sd payload addr ch1 n1 buf phy tg Hnew _ _|ch1 Hal
    |out1 s1 [ch1 tg buf phy out' Hs _ _|ch1 tg buf phy out' p Hs _ _|ch1 tg msg Hs Hm|ch1 tg Hs Hm Hnin]];
    try done; simpl in *; (destruct (decide (ch1 = ch)) as [->|]; [|by rewrite lookup_insert_ne]);
    try congruence. by rewrite lookup_insert_eq.
Qed.

(** C21: A dead callback handler hangs its caller: the call that waits for a
    response then waits until it is dropped, and while it waits nothing is sent
    at all, whatever is received and whoever else calls. *)
Theorem dead_handler_hangs s s' ch tag :
  ReceivePath.reachable n s -> handler_alive (net s) = false ->
  senders (net s) !! ch = Some (Waiting tag) -> inbox (net s) !! ch = None ->
  rtc ReceivePath.step s s' ->
  (senders (net s') !! ch = Some (Waiting tag) /\ wire s' = wire s) \/
  senders (net s') !! ch = Some Gone.
Proof.
  intros Hr Hdead Hw Hi Hsteps.
  enough (ReceivePath.reachable n s' /\
    ((stuck (net s') ch /\ senders (net s') !! ch = Some (Waiting tag) /\ wire s' = wire s) \/
     senders (net s') !! ch = Some Gone)) as [_ [(_ & ? & ?)|?]]; [by left|by right|].
  revert s' Hsteps. apply rtc_ind_r.
  { split; [done|left]. split_and!; [split; [done|done|]|done|done].
    destruct (inv_live _ (SimpleNetworkTasksFacts.reachable_inv _ _ _ (node_network s Hr)) ch _ Hw eq_refl)
      as [?|[? ?]]; [done|congruence]. }
  intros s1 s2 _ Hstep [Hr1 Hcase]. split; [by eapply rtc_r|].
  pose proof (reachable_lock _ _ _ (node_network s1 Hr1)) as Hl.
  destruct Hstep as [s2 [i s2' Hs|s2' Hs]|i r s2 _ Hs|out ids n' [out' x Hc|debug b Hfree]].
  - by destruct (poll_send_cases i s1 s2' Hs) as (? & ? & _ & [(? & _ & ->)|[_ ->]]).
  - destruct (handler_turn_cases s1 s2' Hs) as (id & buf & q & Hlis & _ & ->). simpl in *.
    destruct Hcase as [([Hd _ _] & _)|Hg]; [congruence|right].
    by destruct (handle_msg_same (net s1) id buf) as (_ & -> & _).
  - by destruct (poll_receive_cases i r s1 s2 Hs) as (? & ? & ? & _ & -> & _).
  - simpl. destruct Hcase as [(Hst & Hw1 & Hwire)|Hg]; [|right; by eapply gone_call].
    destruct (stuck_call _ _ _ _ _ Hl Hst Hc Hw1) as [Hst' [[Hw2 ->]|Hg]]; [left|by right].
    by rewrite app_nil_r.
  - simpl. destruct (add_binding_same debug (net s1) b) as (Hs & Hib & Hal & _ & Hfl & _).
    rewrite Hs. destruct Hcase as [([Hd Hni Hf] & Hw1 & Hwire)|Hg]; [left|by right].
    rewrite app_nil_r. split; [split; congruence|done].
Qed.

End facts.
End SimpleNodeFacts.
