(* ===== verification/VirtualNode.v ===== *)
(** * The virtual network with its receive path

    The calls of [VirtualNetwork] as a [Node]: each call of
    [add_physical_binding] spawns a [poll_socket] task under the id it took, and
    the callback handler looks that id up. *)
From stdpp Require Import functions.
From S2P Require Import Prelude Crates Reference Derive Errors Smbus Network VirtualNetwork.
From S2P Require Import Channels ReceivePath.

Module VirtualNode.
Import VirtualNetwork.

(** The network, and whether its callback handler runs. *)
Record t (B : Type) := mk { network : sys B; handler_alive : bool }.
Arguments mk {B}.
Arguments network {B}.
Arguments handler_alive {B}.

Section node.
Context {B : Type} `{NetworkBinding B} (checks : bool) (debug : MctpEmuError.t -> string).

(** A turn of the handler on [Receive { id, buf }]. *)
Definition handle_msg (s : t B) (id : Z) (buf : bytes) : t B :=
  match callback_receive checks (net (network s)) id with
  | Panic _ => mk (network s) false
  | _ => s
  end.

Inductive client (s : t B) : list bytes -> list Z -> t B -> Prop :=
  | client_step ids n : step checks debug (network s) ids n -> client s [] ids (mk n (handler_alive s)).

#[local] Instance virtual_node : Node (t B) := {|
  node_receive := handle_msg;
  node_listens := handler_alive;
  node_client := client;
|}.

#[local] Instance virtual_node_laws : NodeLaws (t B).
Proof. split. by intros s out ids s' [ids' n _]. Qed.

End node.
End VirtualNode.

(** ** Proofs *)
Module VirtualNodeFacts.
Import VirtualNetwork VirtualNetworkFacts VirtualNode ReceivePath ReceivePathFacts.
Section facts.
Context {B : Type} `{NetworkBinding B} `{MpscLaws NetworkBindingCallbackMsg}.
Context (checks : bool) (debug : MctpEmuError.t -> string).
#[local] Instance here : Node (VirtualNode.t B) := virtual_node checks debug.
#[local] Instance here_laws : NodeLaws (VirtualNode.t B) := virtual_node_laws checks debug.
Implicit Types (s : ReceivePath.t (VirtualNode.t B)).

Lemma step_adders (x x' : sys B) ids :
  VirtualNetwork.step checks debug x ids x' ->
  (length (adders x) <= length (adders x'))%nat /\ (ids <> [] -> (0 < length (adders x'))%nat).
Proof.
  intros [| | | | |x1 i b id Hi]; simpl; rewrite ?length_app, ?length_insert; try (split; [lia|done]).
  split; [lia|]. intros _. apply lookup_lt_Some in Hi. lia.
Qed.

Context (n : VirtualNode.t B) (Hinit : VirtualNetwork.initial (network n)) (Halive : handler_alive n = true).

(** A poll task exists only once some call took an id; no message comes from
    nowhere, and the handler has met no panic. *)
Record alive s : Prop := {
  alive_network : VirtualNetwork.reachable checks debug (network (ReceivePath.net s));
  alive_pollers : pollers s <> [] -> (0 < length (adders (network (ReceivePath.net s))))%nat;
  alive_handler : Z.of_nat (length (adders (network (ReceivePath.net s)))) < 2 ^ 64 ->
    handler_alive (ReceivePath.net s) = true;
}.

Lemma alive_insert (l : list poller) i p : <[i := p]> l <> [] -> l <> [].
Proof. by destruct l. Qed.

(** With a binding added the handler's lookup does not overflow. *)
Lemma handle_msg_alive (x : VirtualNode.t B) id buf :
  VirtualNetwork.reachable checks debug (network x) ->
  0 < Z.of_nat (length (adders (network x))) < 2 ^ 64 ->
  handle_msg checks x id buf = x.
Proof.
  intros Hr Hlen. unfold handle_msg, callback_receive, get_binding.
  rewrite (inv_count _ (virtual_reachable_inv _ _ _ Hr)), Z.mod_small by lia.
  rewrite arith_Ok by (unfold uint; lia). cbn [mbind outcome_bind].
  destruct (id <? _); [done|]. by destruct (net_devs _ !! _).
Qed.

Lemma alive_step s s' :
  ReceivePathFacts.inv s -> Forall (made s) (received s) -> alive s -> ReceivePath.step s s' -> alive s'.
Proof.
  intros Hinv Hm [Hn Hp Ha] [s1 [i s1' Hs|s1' Hs]|i r s1 _ Hs|out ids n' [ids' x Hc]].
  - destruct (poll_send_cases i s s1' Hs) as (? & ? & _ & [(? & _ & ->)|[_ ->]]);
      (split; [done| |done]); intros Hne%alive_insert; by apply Hp.
  - destruct (handler_turn_cases s s1' Hs) as (id & buf & q & Hl & Hq & ->).
    destruct (next_made s id buf q Hinv Hl Hq) as [i Hi].
    rewrite Forall_forall in Hm. destruct (Hm _ Hi) as (Hlt & _). simpl in Hlt.
    assert (0 < length (adders (network (ReceivePath.net s))))%nat as Hpos
      by (apply Hp; intros Hnil; rewrite Hnil in Hlt; simpl in Hlt; lia).
    assert (network (handle_msg checks (ReceivePath.net s) id buf) = network (ReceivePath.net s)) as Hsame
      by (unfold handle_msg; by destruct (callback_receive _ _ _)).
    split; simpl; rewrite ?Hsame; [done|by intros _|]. intros Hlen.
    rewrite handle_msg_alive by (done || lia). by apply Ha.
  - destruct (poll_receive_cases i r s s1 Hs) as (? & ? & ? & _ & -> & _). split; [done| |done].
    intros Hne%alive_insert. by apply Hp.
  - destruct (step_adders _ _ _ Hc) as [Hle Hpos].
    split; simpl; [by eapply VirtualNetwork.reachable_step| |].
    + intros Hne. destruct ids'; [|by apply Hpos]. simpl in Hne. rewrite app_nil_r in Hne.
      specialize (Hp Hne). lia.
    + intros Hlen. apply Ha. lia.
Qed.

(** C22: The callback handler of the virtual network never dies: its look-up
    overflows with no binding added, but the messages it takes only come from
    tasks of bindings, so however calls and datagrams interleave it keeps
    running, while fewer than 2^64 bindings are added. *)
Theorem virtual_handler_never_dies s :
  ReceivePath.reachable n s ->
  Z.of_nat (length (adders (network (ReceivePath.net s)))) < 2 ^ 64 ->
  handler_alive (ReceivePath.net s) = true.
Proof.
  intros Hr. enough (alive s) as [_ _ Ha] by done. revert s Hr. apply rtc_ind_r.
  - split; simpl; [by apply VirtualNetwork.reachable_initial|done|done].
  - intros s s' Hr Hstep IH. eapply alive_step; [|by eapply reachable_received|exact IH|exact Hstep].
    by apply (ReceivePathFacts.path_reachable_inv n).
Qed.

End facts.
End VirtualNodeFacts.
