(* ===== verification/BusOwner.v ===== *)
(** * The endpoint context of the bus owner example

    Models the [MctpEndpointContext] of [examples/basic_bus_owner_loop.rs]: the
    requests it builds, the decoding of their responses and the request
    handler.  A method takes the context and returns it with its result; the
    atomics are fields, and [fetch_add] on an [AtomicU8] wraps around. *)
From S2P Require Import Prelude Crates Reference Derive Enums Transport ControlModels.
From S2P Require Import ControlPayload SetEid GetEid AllocateEids GetRoutingTable.

Module MctpEndpointContext.

Record t := mk {
  smbus_addr : Z;
  msg_types : bytes;
  topmost_bus_owner : bool;
  assigned_eid : Z;                (** [AtomicU8] *)
  perform_discovery : bool;        (** [AtomicBool] *)
  min_eid_in_pool : Z;
  eid_pool_size : Z;
  next_msg_tag : Z;                (** [AtomicU8] *)
  next_instance_id : Z;            (** [AtomicU8] *)
}.

Definition store_assigned_eid (self : t) (eid : Z) : t :=
  mk (smbus_addr self) (msg_types self) (topmost_bus_owner self) eid (perform_discovery self)
    (min_eid_in_pool self) (eid_pool_size self) (next_msg_tag self) (next_instance_id self).
Definition store_perform_discovery (self : t) (b : bool) : t :=
  mk (smbus_addr self) (msg_types self) (topmost_bus_owner self) (assigned_eid self) b
    (min_eid_in_pool self) (eid_pool_size self) (next_msg_tag self) (next_instance_id self).

(** [self.next_msg_tag.fetch_add(1)] and [self.next_instance_id.fetch_add(1)] *)
Definition fetch_msg_tag (self : t) : t * Z :=
  (mk (smbus_addr self) (msg_types self) (topmost_bus_owner self) (assigned_eid self)
     (perform_discovery self) (min_eid_in_pool self) (eid_pool_size self)
     (as_u8 (next_msg_tag self + 1)) (next_instance_id self), next_msg_tag self).
Definition fetch_instance_id (self : t) : t * Z :=
  (mk (smbus_addr self) (msg_types self) (topmost_bus_owner self) (assigned_eid self)
     (perform_discovery self) (min_eid_in_pool self) (eid_pool_size self)
     (next_msg_tag self) (as_u8 (next_instance_id self + 1)), next_instance_id self).

(** The fields the code uses as [u8]s are in range. *)
#[export] Instance valid_context : Valid t := fun c =>
  u8 (assigned_eid c) /\ u8 (min_eid_in_pool c) /\ u8 (next_msg_tag c) /\ u8 (next_instance_id c).

Section requests.
Context `{Crates}.

Definition new_transport_hdr (self : t) (dst_eid : Z) : t * TransportHeader.t :=
  let src_eid := assigned_eid self in
  let '(self, msg_tag) := fetch_msg_tag self in
  (self, TransportHeader.new src_eid dst_eid msg_tag (Some true) (Some true) (Some true)).

(** The control header of every request the bus owner sends. *)
Definition new_control_hdr (self : t) (cmd : CommandCode.t) : t * ControlMsgHeader.t :=
  let '(self, instance_id) := fetch_instance_id self in
  (self, ControlMsgHeader.new cmd instance_id false true false).

(** The bytes [send_set_eid_request] sends. *)
Definition set_eid_request (self : t) (eid : Z) : t * outcome AnyError bytes :=
  let '(self, transport_hdr) := new_transport_hdr self 0 in
  let '(self, ctrl_hdr) := new_control_hdr self CommandCode.SetEndpointID in
  let req := SetEid.Request.new ctrl_hdr SetEid.Operation.SetEid eid in
  (self,
    body ← bytes_from req;
    ControlPayload.into_bytes (ControlPayload.new transport_hdr ctrl_hdr body)).

(** The bytes [send_get_eid_request] sends. *)
Definition get_eid_request (self : t) (dest_eid : Z) : t * outcome AnyError bytes :=
  let '(self, transport_hdr) := new_transport_hdr self dest_eid in
  let '(self, ctrl_hdr) := new_control_hdr self CommandCode.GetEndpointID in
  let req := GetEid.Request.mk ctrl_hdr in
  (self,
    body ← bytes_from req;
    ControlPayload.into_bytes (ControlPayload.new transport_hdr ctrl_hdr body)).

(** The bytes [send_allocate_eids_request] sends. *)
Definition allocate_eids_request (self : t) (starting_eid number_of_eids : Z)
    : t * outcome AnyError bytes :=
  let '(self, transport_hdr) := new_transport_hdr self 0 in
  let '(self, ctrl_hdr) := new_control_hdr self CommandCode.AllocateEndpointIDs in
  let req := AllocateEids.Request.new ctrl_hdr AllocateEids.Operation.AllocateEids
    number_of_eids starting_eid in
  (self,
    body ← bytes_from req;
    ControlPayload.into_bytes (ControlPayload.new transport_hdr ctrl_hdr body)).

(** ** The request handler *)

(** [payload.create_response_payload(resp.hdr, resp.into())], as bytes. *)
Definition reply {T : Type} `{Serde T} (payload : ControlPayload.t) (hdr : ControlMsgHeader.t)
    (resp : T) : outcome AnyError bytes :=
  body ← bytes_from resp;
  ControlPayload.into_bytes (ControlPayload.create_response_payload payload hdr body).

(** [Request::try_from(payload.clone()).context(ctx)] *)
Definition parse_request {T : Type} `{Serde T} (ctx : string) (payload : ControlPayload.t)
    : outcome AnyError T :=
  context AnyBase ctx (ControlPayload.message_try_from payload).

(** [handle_request]: [print_buf] and the [println!]s aside. *)
Definition handle_request (self : t) (bs : bytes) : t * outcome AnyError bytes :=
  match context AnyBase "Failed parsing payload" (ControlPayload.try_from bs) with
  | Err e => (self, Err e)
  | Panic p => (self, Panic p)
  | Ok payload =>
      match ControlPayload.command_code payload with
      | Ok CommandCode.SetEndpointID =>
          match parse_request "Failed parsing SetEndpointID msg" payload with
          | Err e => (self, Err e)
          | Panic p => (self, Panic p)
          | Ok req =>
              let self := store_assigned_eid self (SetEid.Request.eid req) in
              let resp := SetEid.Response.from req CompletionCode.Success
                SetEid.EidAllocationStatus.NoPoolSupport SetEid.EidAssignmentStatus.Accepted
                (assigned_eid self) 0 in
              (self, reply payload (SetEid.Response.hdr resp) resp)
          end
      | Ok CommandCode.GetEndpointID =>
          match parse_request "Failed parsing GetEid msg" payload with
          | Err e => (self, Err e)
          | Panic p => (self, Panic p)
          | Ok req =>
              let resp := GetEid.Response.from req CompletionCode.Success 0x00
                GetEid.EidType.Dynamic GetEid.EndpointType.Simple 0 in
              (self, reply payload (GetEid.Response.hdr resp) resp)
          end
      | Ok CommandCode.DiscoveryNotify =>
          match parse_request "Failed parsing GetEid msg" payload with
          | Err e => (self, Err e)
          | Panic p => (self, Panic p)
          | Ok _req =>
              let resp := EmptyResponse.from _req CompletionCode.Success in
              match reply payload (EmptyResponse.hdr resp) resp with
              | Ok resp_bytes => (store_perform_discovery self true, Ok resp_bytes)
              | Err e => (self, Err e)
              | Panic p => (self, Panic p)
              end
          end
      | Ok CommandCode.GetRoutingTableEntries =>
          match parse_request "Failed parsing GetRoutingTable msg" payload with
          | Err e => (self, Err e)
          | Panic p => (self, Panic p)
          | Ok req =>
              let resp := GetRoutingTable.Response.from req CompletionCode.Success 0xff 0 in
              (self, reply payload (GetRoutingTable.Response.hdr resp) resp)
          end
      | Ok _ =>
          match parse_request "Failed parsing GetEid msg" payload with
          | Err e => (self, Err e)
          | Panic p => (self, Panic p)
          | Ok _req =>
              let resp := EmptyResponse.from _req CompletionCode.ErrorUnsupportedCmd in
              (self, reply payload (EmptyResponse.hdr resp) resp)
          end
      | Err _ => (self, Panic PanicTodo)
      | Panic p => (self, Panic p)
      end
  end.

End requests.
End MctpEndpointContext.
#[export] Existing Instance MctpEndpointContext.valid_context.

(** ** The handler on bytes

    What the handler promises to a peer: the bytes it answers with, from the
    bytes of the request. *)
Module HandlerSpec.
Import MctpEndpointContext.

(** The error of a body that is shorter than the request type. *)
Definition too_short (ctx : string) (size len : nat) : AnyError :=
  AnyContext ctx (AnyBase (InvalidPayloadSize (usize_to_string size) (usize_to_string len))).

(** The two headers of a reply: to the sender, under its tag with the owner
    bit flipped, as one packet; the request bit cleared. *)
Definition reply_headers (d s t c0 c1 cmd : Z) : bytes :=
  [1; s; d; t mod 8 + 8 * (1 - t / 8 mod 2) + 192; c0; c1 mod 128; cmd].

Definition handle `{NumEnum} (self : MctpEndpointContext.t) (bs : bytes)
    : MctpEndpointContext.t * outcome AnyError bytes :=
  match bs with
  | v :: d :: s :: t :: c0 :: c1 :: cmd :: body =>
      let answer rest := Ok (reply_headers d s t c0 c1 cmd ++ rest) in
      match from_u8 (T:=CommandCode.t) cmd with
      | CommandCode.SetEndpointID =>
          match body with
          | _ :: eid :: _ => (store_assigned_eid self eid, answer [0; 0; eid; 0])
          | _ => (self, Err (too_short "Failed parsing SetEndpointID msg" 5 (3 + length body)))
          end
      | CommandCode.GetEndpointID => (self, answer [0; 0; 0; 0])
      | CommandCode.DiscoveryNotify => (store_perform_discovery self true, answer [0])
      | CommandCode.GetRoutingTableEntries =>
          match body with
          | _ :: _ => (self, answer [0; 0xff; 0])
          | [] => (self, Err (too_short "Failed parsing GetRoutingTable msg" 4 3))
          end
      | CommandCode.Unknown => (self, Panic PanicTodo)
      | _ => (self, answer [discriminant CompletionCode.ErrorUnsupportedCmd])
      end
  | _ => (self, Err (too_short "Failed parsing payload" 7 (length bs)))
  end.

End HandlerSpec.

(** ** Proofs *)
Module BusOwnerFacts.
Import MctpEndpointContext HandlerSpec.
Section facts.
Context `{CratesLaws}.

(** Parsing known bytes: by the value tree they flatten. *)
Lemma try_from_value {T : Type} `{SerdeLaws T} v (x : T) rest bs :
  has_type (ser_type_of T) v -> of_value v = Some x -> bs = flatten v ++ rest ->
  try_from_bytes bs = Ok x.
Proof. intros Hv Hx ->. by apply try_from_flatten. Qed.

Lemma parse_transport_bytes v d s t rest :
  is_bytes [v; d; s; t] ->
  try_from_bytes (v :: d :: s :: t :: rest) = Ok (TransportHeader.mk [v] d s [t]).
Proof.
  intros Hbs. repeat (apply Forall_cons in Hbs as [? Hbs]).
  apply (try_from_value (SStruct [STuple [SU8 v]; SU8 d; SU8 s; STuple [SU8 t]]) _ rest);
    [solve_typed|done|done].
Qed.

Lemma parse_control_bytes c0 c1 cmd rest :
  is_bytes [c0; c1; cmd] ->
  try_from_bytes (c0 :: c1 :: cmd :: rest) = Ok (ControlMsgHeader.mk [c0; c1] (from_u8 cmd)).
Proof.
  intros Hbs. repeat (apply Forall_cons in Hbs as [? Hbs]).
  apply (try_from_value (SStruct [STuple [SU8 c0; SU8 c1]; SU8 cmd]) _ rest);
    [solve_typed|done|done].
Qed.

Lemma transport_bytes_valid v d s t : is_bytes [v; d; s; t] -> valid (TransportHeader.mk [v] d s [t]).
Proof.
  intros Hbs. repeat (apply Forall_cons in Hbs as [? Hbs]). split_and!; cbn; auto with mctp.
Qed.

Lemma control_bytes_valid c0 c1 cmd :
  is_bytes [c0; c1; cmd] -> valid (ControlMsgHeader.mk [c0; c1] (from_u8 cmd)).
Proof.
  intros Hbs. repeat (apply Forall_cons in Hbs as [? Hbs]).
  split; [cbn; split; [done|auto with mctp]|done].
Qed.

(** A payload, from its bytes. *)
Lemma parse_payload_bytes v d s t c0 c1 cmd body :
  is_bytes (v :: d :: s :: t :: c0 :: c1 :: cmd :: body) ->
  ControlPayload.try_from (v :: d :: s :: t :: c0 :: c1 :: cmd :: body) =
    Ok (ControlPayload.new (TransportHeader.mk [v] d s [t])
      (ControlMsgHeader.mk [c0; c1] (from_u8 cmd)) (c0 :: c1 :: cmd :: body)).
Proof.
  intros Hbs. pose proof Hbs as Hall. repeat (apply Forall_cons in Hbs as [? Hbs]).
  destruct (ControlPayloadFacts.payload_try_from_cases _ Hall)
    as [[Hs _]|(_ & [h c p] & Hp & _ & _ & Hpl & Hh & Hc)]; [simpl in Hs; lia|].
  rewrite Hp. simpl in *. rewrite parse_transport_bytes in Hh by auto with mctp.
  rewrite parse_control_bytes in Hc by auto with mctp. unfold ControlPayload.new. congruence.
Qed.

(** The bytes of a reply, from the bytes of the request. *)
Lemma response_header_bytes v d s t :
  is_bytes [v; d; s; t] ->
  flatten (to_value (TransportHeader.create_response (TransportHeader.mk [v] d s [t]))) =
    [1; s; d; t mod 8 + 8 * (1 - t / 8 mod 2) + 192].
Proof.
  intros Hbs. pose proof (transport_bytes_valid _ _ _ _ Hbs) as Hv.
  repeat (apply Forall_cons in Hbs as [? Hbs]).
  set (h := TransportHeader.mk [v] d s [t]) in *.
  pose proof (TransportHeaderFacts.header_layout h Hv) as Hl.
  pose proof (TransportHeaderFacts.create_response_valid h Hv) as Hr.
  destruct (TransportHeaderFacts.create_response_accessors h Hv)
    as (Hd & Hs & Hm & Ho & Hso & He & Hp & Hve & Hrs).
  rewrite TransportHeaderFacts.header_layout by done.
  rewrite Hd, Hs, Hm, Ho, Hso, He, Hp, Hve, Hrs.
  assert (TransportHeader.msg_tag h = t mod 8 /\ TransportHeader.tag_owner h = t / 8 mod 2)
    as [-> ->].
  { unfold TransportHeader.msg_tag, TransportHeader.tag_owner, TransportHeader.msg_tag_bits,
      TransportHeader.tag_owner_bits. cbn. get_bytes 1%nat. rewrite Z.div_1_r. done. }
  simpl. list_lia.
Qed.

Lemma set_rq_bytes c0 c1 cmd :
  is_bytes [c0; c1] ->
  flatten (to_value (ControlMsgHeader.set_rq 0 (ControlMsgHeader.mk [c0; c1] cmd))) =
    [c0; c1 mod 128; discriminant cmd].
Proof.
  intros Hbs. repeat (apply Forall_cons in Hbs as [? Hbs]).
  assert (valid (ControlMsgHeader.mk [c0; c1] cmd)) as Hv
    by (split; [cbn; split; [done|auto with mctp]|done]).
  set (h := ControlMsgHeader.mk [c0; c1] cmd) in *.
  pose proof (ControlMsgHeaderFacts.control_header_layout h Hv) as Hl.
  assert (u8 0) as Hz by solve_range.
  rewrite ControlMsgHeaderFacts.control_header_layout
    by by apply ControlMsgHeaderFacts.set_rq_valid.
  destruct (ControlMsgHeaderFacts.set_rq_fields 0 h Hz Hv) as (-> & -> & -> & -> & -> & -> & ->).
  destruct (ControlMsgHeaderFacts.control_header_range h Hv) as (? & ? & ? & ? & ? & ?).
  simpl in Hl. injection Hl as Hl0 Hl1. unfold uint in *.
  cbn [ControlMsgHeader.command_code h]. subst h. Z.to_euclidean_division_equations. list_lia.
Qed.

(** A reply goes out under the response header of its request. *)
Lemma reply_flatten {T : Type} `{SerdeLaws T} (p : ControlPayload.t) c (resp : T) :
  valid (ControlPayload.hdr p) -> valid resp ->
  reply p c resp = Ok (flatten (to_value (TransportHeader.create_response (ControlPayload.hdr p)))
    ++ flatten (to_value resp)).
Proof.
  intros Hp Hr. unfold reply. rewrite bytes_from_flatten by done. cbn [mbind outcome_bind].
  rewrite ControlPayloadFacts.into_bytes_flatten; [done|].
  by apply TransportHeaderFacts.create_response_valid.
Qed.

Lemma parse_request_short {T : Type} `{Serde T} ctx th ch pl :
  (length pl < size_of T)%nat ->
  parse_request (T:=T) ctx (ControlPayload.new th ch pl) =
    Err (too_short ctx (size_of T) (length pl)).
Proof. intros Hl. unfold parse_request. by rewrite ControlPayloadFacts.message_try_from_bytes, try_from_short. Qed.

Lemma parse_request_value {T : Type} `{SerdeLaws T} ctx th ch pl v (x : T) rest :
  has_type (ser_type_of T) v -> of_value v = Some x -> pl = flatten v ++ rest ->
  parse_request ctx (ControlPayload.new th ch pl) = Ok x.
Proof.
  intros Hv Hx Hpl. unfold parse_request. rewrite ControlPayloadFacts.message_try_from_bytes.
  simpl. by rewrite (try_from_value v x rest).
Qed.

(** A named command keeps its byte. *)
Lemma named_command cmd :
  from_u8 (T:=CommandCode.t) cmd <> CommandCode.Unknown ->
  discriminant (from_u8 (T:=CommandCode.t) cmd) = cmd.
Proof. intros Hn. by destruct (from_u8_cases (T:=CommandCode.t) cmd) as [?|[_ ?]]. Qed.

Lemma control_header_bytes c0 c1 cmd :
  is_bytes [c0; c1] -> from_u8 (T:=CommandCode.t) cmd <> CommandCode.Unknown ->
  flatten (to_value (ControlMsgHeader.set_rq 0 (ControlMsgHeader.mk [c0; c1] (from_u8 cmd)))) =
    [c0; c1 mod 128; cmd].
Proof. intros Hc Hn. by rewrite set_rq_bytes, named_command. Qed.

Lemma reply_bytes {T : Type} `{SerdeLaws T} v d s t c0 c1 cmd ch pl c (resp : T) rest :
  is_bytes [v; d; s; t] -> is_bytes [c0; c1] ->
  from_u8 (T:=CommandCode.t) cmd <> CommandCode.Unknown -> valid resp ->
  flatten (to_value resp) = flatten (to_value (ControlMsgHeader.set_rq 0
    (ControlMsgHeader.mk [c0; c1] (from_u8 cmd)))) ++ rest ->
  reply (ControlPayload.new (TransportHeader.mk [v] d s [t]) ch pl) c resp =
    Ok (reply_headers d s t c0 c1 cmd ++ rest).
Proof.
  intros Ht Hc Hn Hv Hf. rewrite reply_flatten by first [done | by apply transport_bytes_valid].
  cbn [ControlPayload.hdr ControlPayload.new].
  by rewrite response_header_bytes, Hf, control_header_bytes.
Qed.

(** The parts of the handler that [EmptyResponse] answers. *)
Lemma empty_reply ctx v d s t c0 c1 cmd body cc :
  is_bytes (v :: d :: s :: t :: c0 :: c1 :: cmd :: body) ->
  from_u8 (T:=CommandCode.t) cmd <> CommandCode.Unknown ->
  let p := ControlPayload.new (TransportHeader.mk [v] d s [t])
    (ControlMsgHeader.mk [c0; c1] (from_u8 cmd)) (c0 :: c1 :: cmd :: body) in
  let req := EmptyRequest.mk (ControlMsgHeader.mk [c0; c1] (from_u8 cmd)) in
  let resp := EmptyResponse.from req cc in
  parse_request ctx p = Ok req /\
  reply p (EmptyResponse.hdr resp) resp = Ok (reply_headers d s t c0 c1 cmd ++ [discriminant cc]).
Proof.
  intros Hbs Hn p req resp. repeat (apply Forall_cons in Hbs as [? Hbs]).
  assert (u8 0) as Hz by solve_range. split.
  - apply (parse_request_value _ _ _ _
      (SStruct [SStruct [STuple [SU8 c0; SU8 c1]; SU8 cmd]]) req body); [solve_typed|done|done].
  - apply reply_bytes; [auto with mctp|auto with mctp|done| |done].
    split; [|by destruct cc]. apply ControlMsgHeaderFacts.set_rq_valid; [done|].
    apply control_bytes_valid. auto with mctp.
Qed.

(** The request types of the other commands the handler knows. *)
Lemma set_eid_reply v d s t c0 c1 op eid rest :
  is_bytes (v :: d :: s :: t :: c0 :: c1 :: 1 :: op :: eid :: rest) ->
  let p := ControlPayload.new (TransportHeader.mk [v] d s [t])
    (ControlMsgHeader.mk [c0; c1] CommandCode.SetEndpointID) (c0 :: c1 :: 1 :: op :: eid :: rest) in
  let req := SetEid.Request.mk (ControlMsgHeader.mk [c0; c1] CommandCode.SetEndpointID) [op] eid in
  let resp := SetEid.Response.from req CompletionCode.Success
    SetEid.EidAllocationStatus.NoPoolSupport SetEid.EidAssignmentStatus.Accepted eid 0 in
  parse_request "Failed parsing SetEndpointID msg" p = Ok req /\
  reply p (SetEid.Response.hdr resp) resp =
    Ok (reply_headers d s t c0 c1 1 ++ [0; 0; eid; 0]).
Proof.
  intros Hbs p req resp. repeat (apply Forall_cons in Hbs as [? Hbs]).
  pose proof (from_u8_discriminant CommandCode.SetEndpointID) as Hcmd. simpl in Hcmd.
  assert (valid req) as Hreq.
  { split; [split; [cbn; split; [done|auto with mctp]|done]|].
    split; cbn; [split; [done|auto with mctp]|done]. }
  assert (u8 0) as Hz by solve_range. split.
  - apply (parse_request_value _ _ _ _
      (SStruct [SStruct [STuple [SU8 c0; SU8 c1]; SU8 1]; STuple [SU8 op]; SU8 eid]) req rest);
      [solve_typed| |done]. cbn. unfold deserialize_u8_enum. cbn. by rewrite Hcmd.
  - apply reply_bytes; [auto with mctp|auto with mctp|by rewrite Hcmd|..].
    + by apply SetEidFacts.set_eid_response_accessors.
    + rewrite Hcmd. by apply SetEidFacts.set_eid_response_flatten.
Qed.

Lemma get_eid_reply v d s t c0 c1 rest :
  is_bytes (v :: d :: s :: t :: c0 :: c1 :: 2 :: rest) ->
  let p := ControlPayload.new (TransportHeader.mk [v] d s [t])
    (ControlMsgHeader.mk [c0; c1] CommandCode.GetEndpointID) (c0 :: c1 :: 2 :: rest) in
  let req := GetEid.Request.mk (ControlMsgHeader.mk [c0; c1] CommandCode.GetEndpointID) in
  let resp := GetEid.Response.from req CompletionCode.Success 0
    GetEid.EidType.Dynamic GetEid.EndpointType.Simple 0 in
  parse_request "Failed parsing GetEid msg" p = Ok req /\
  reply p (GetEid.Response.hdr resp) resp =
    Ok (reply_headers d s t c0 c1 2 ++ [0; 0; 0; 0]).
Proof.
  intros Hbs p req resp. repeat (apply Forall_cons in Hbs as [? Hbs]).
  pose proof (from_u8_discriminant CommandCode.GetEndpointID) as Hcmd. simpl in Hcmd.
  assert (valid req) as Hreq by (split; [cbn; split; [done|auto with mctp]|done]).
  assert (u8 0) as Hz by solve_range. split.
  - apply (parse_request_value _ _ _ _
      (SStruct [SStruct [STuple [SU8 c0; SU8 c1]; SU8 2]]) req rest);
      [solve_typed| |done]. cbn. unfold deserialize_u8_enum. cbn. by rewrite Hcmd.
  - apply reply_bytes; [auto with mctp|auto with mctp|by rewrite Hcmd|..].
    + by apply GetEidFacts.get_eid_response_accessors.
    + rewrite Hcmd. by apply GetEidFacts.get_eid_response_flatten.
Qed.

Lemma routing_table_reply v d s t c0 c1 e rest :
  is_bytes (v :: d :: s :: t :: c0 :: c1 :: 10 :: e :: rest) ->
  let p := ControlPayload.new (TransportHeader.mk [v] d s [t])
    (ControlMsgHeader.mk [c0; c1] CommandCode.GetRoutingTableEntries)
    (c0 :: c1 :: 10 :: e :: rest) in
  let req := GetRoutingTable.Request.mk
    (ControlMsgHeader.mk [c0; c1] CommandCode.GetRoutingTableEntries) e in
  let resp := GetRoutingTable.Response.from req CompletionCode.Success 0xff 0 in
  parse_request "Failed parsing GetRoutingTable msg" p = Ok req /\
  reply p (GetRoutingTable.Response.hdr resp) resp =
    Ok (reply_headers d s t c0 c1 10 ++ [0; 0xff; 0]).
Proof.
  intros Hbs p req resp. repeat (apply Forall_cons in Hbs as [? Hbs]).
  pose proof (from_u8_discriminant CommandCode.GetRoutingTableEntries) as Hcmd. simpl in Hcmd.
  assert (valid req) as Hreq by (split; [split; [cbn; split; [done|auto with mctp]|done]|done]).
  split.
  - apply (parse_request_value _ _ _ _
      (SStruct [SStruct [STuple [SU8 c0; SU8 c1]; SU8 10]; SU8 e]) req rest);
      [solve_typed| |done]. cbn. unfold deserialize_u8_enum. cbn. by rewrite Hcmd.
  - apply reply_bytes; [auto with mctp|auto with mctp|by rewrite Hcmd| |].
    + apply GetRoutingTableFacts.routing_table_response_valid; [done|solve_range..].
    + by rewrite Hcmd.
Qed.

(** The handler sends, on every byte string, exactly what its byte-level
    specification says: the reply, the error or the panic, and the update of
    the context. *)
Lemma handle_request_handle self bs :
  is_bytes bs -> handle_request self bs = HandlerSpec.handle self bs.
Proof.
  intros Hbs. unfold handle_request.
  destruct bs as [|v [|d [|s [|t [|c0 [|c1 [|cmd body]]]]]]];
    try (destruct (ControlPayloadFacts.payload_try_from_cases _ Hbs) as [[_ ->]|[Hl _]];
      [done|simpl in Hl; lia]).
  rewrite parse_payload_bytes by done. cbn [context map_err].
  unfold ControlPayload.command_code. cbn [ControlPayload.control_hdr ControlPayload.new
    ControlMsgHeader.command_code].
  pose proof (empty_reply "Failed parsing GetEid msg" v d s t c0 c1 cmd body) as Hempty.
  pose proof Hbs as Hall. repeat (apply Forall_cons in Hbs as [? Hbs]).
  cbn [HandlerSpec.handle].
  destruct (from_u8 (T:=CommandCode.t) cmd) eqn:Hcmd; try done;
    try (destruct (Hempty CompletionCode.ErrorUnsupportedCmd Hall ltac:(done)) as [-> Hrep];
      by rewrite Hrep).
  - pose proof (named_command cmd) as Hn. rewrite Hcmd in Hn. simpl in Hn.
    rewrite <- Hn in * by done.
    destruct body as [|op [|eid rest]];
      [rewrite parse_request_short by (simpl; lia); done..|].
    destruct (set_eid_reply v d s t c0 c1 op eid rest Hall) as [-> Hrep].
    cbn [assigned_eid store_assigned_eid SetEid.Request.eid]. by rewrite Hrep.
  - pose proof (named_command cmd) as Hn. rewrite Hcmd in Hn. simpl in Hn.
    rewrite <- Hn in * by done.
    destruct (get_eid_reply v d s t c0 c1 body Hall) as [-> Hrep]. by rewrite Hrep.
  - pose proof (named_command cmd) as Hn. rewrite Hcmd in Hn. simpl in Hn.
    rewrite <- Hn in * by done.
    destruct body as [|e rest]; [rewrite parse_request_short by (simpl; lia); done|].
    destruct (routing_table_reply v d s t c0 c1 e rest Hall) as [-> Hrep]. by rewrite Hrep.
  - destruct (Hempty CompletionCode.Success Hall ltac:(done)) as [-> Hrep]. by rewrite Hrep.
Qed.


(** C3: The handler refines its byte-level specification: on every byte string it
    gives the specified reply, error or panic and the specified context. *)
Theorem handle_request_refines self bs :
  is_bytes bs -> handle_request self bs = HandlerSpec.handle self bs.
Proof. apply handle_request_handle. Qed.

(** The result of the handler does not depend on its context. *)
Lemma handle_result d d' bs : (HandlerSpec.handle d bs).2 = (HandlerSpec.handle d' bs).2.
Proof.
  destruct bs as [|v [|x [|s [|t [|c0 [|c1 [|cmd body]]]]]]]; try done.
  cbn [HandlerSpec.handle]. destruct (from_u8 (T:=CommandCode.t) cmd); try done;
    destruct body as [|? [|? ?]]; done.
Qed.

Lemma handle_panics self bs :
  is_bytes bs ->
  (exists p, (handle_request self bs).2 = Panic p) <->
  (exists cmd, bs !! 6%nat = Some cmd /\ from_u8 (T:=CommandCode.t) cmd = CommandCode.Unknown).
Proof.
  intros Hbs. rewrite handle_request_handle by done.
  destruct bs as [|v [|d [|s [|t [|c0 [|c1 [|cmd body]]]]]]];
    try (split; [by intros [? ?]|by intros (? & ? & _)]).
  cbn [HandlerSpec.handle lookup list_lookup].
  destruct (from_u8 (T:=CommandCode.t) cmd) eqn:Hcmd; cbn [snd];
    try (split; [by intros [? ?]|intros (c & [= <-] & Hc); congruence]).
  - destruct body as [|op [|eid rest]]; cbn [snd];
      (split; [by intros [? ?]|intros (c & [= <-] & Hc); congruence]).
  - destruct body as [|e rest]; cbn [snd];
      (split; [by intros [? ?]|intros (c & [= <-] & Hc); congruence]).
  - split; eauto.
Qed.

(** C37: The handler panics exactly on a packet that holds both headers and whose
    command byte names no command. *)
Theorem handle_request_panics_iff self bs :
  is_bytes bs ->
  (exists p, (handle_request self bs).2 = Panic p) <->
  (exists cmd, bs !! 6%nat = Some cmd /\ from_u8 (T:=CommandCode.t) cmd = CommandCode.Unknown).
Proof. apply handle_panics. Qed.

Lemma handle_request_effect self bs :
  is_bytes bs ->
  (handle_request self bs).1 = self \/
  (exists eid, bs !! 6%nat = Some 1 /\ bs !! 8%nat = Some eid /\
    (handle_request self bs).1 = store_assigned_eid self eid) \/
  (bs !! 6%nat = Some 13 /\ (handle_request self bs).1 = store_perform_discovery self true).
Proof.
  intros Hbs. rewrite handle_request_handle by done.
  destruct bs as [|v [|d [|s [|t [|c0 [|c1 [|cmd body]]]]]]]; try by left.
  pose proof (named_command cmd) as Hn. cbn [HandlerSpec.handle lookup list_lookup].
  destruct (from_u8 (T:=CommandCode.t) cmd) eqn:Hcmd; try by left.
  - rewrite <- Hn by done. destruct body as [|op [|eid rest]]; [by left..|].
    right; left. by exists eid.
  - destruct body as [|e rest]; by left.
  - rewrite <- Hn by done. by right; right.
Qed.

(** What a call of the handler changes: the EID, to the one of a complete Set
    Endpoint ID request, and the discovery flag, set by a Discovery Notify. *)
Theorem handle_request_context self bs :
  is_bytes bs ->
  (handle_request self bs).1 = self \/
  (exists eid, bs !! 6%nat = Some 1 /\ bs !! 8%nat = Some eid /\
    (handle_request self bs).1 = store_assigned_eid self eid) \/
  (bs !! 6%nat = Some 13 /\ (handle_request self bs).1 = store_perform_discovery self true).
Proof. apply handle_request_effect. Qed.

Lemma handle_request_valid self bs :
  valid self -> is_bytes bs -> valid (handle_request self bs).1.
Proof.
  intros (? & ? & ? & ?) Hbs. destruct (handle_request_effect self bs Hbs)
    as [->|[(eid & _ & Heid & ->)|[_ ->]]]; [by split_and!| |by split_and!].
  split_and!; cbn; try done. by apply (Forall_lookup_1 _ _ _ _ Hbs Heid).
Qed.

Lemma reply_headers_bytes d s t c0 c1 cmd rest :
  is_bytes [d; s; t; c0; c1; cmd] -> is_bytes rest ->
  is_bytes (reply_headers d s t c0 c1 cmd ++ rest).
Proof.
  intros Hbs Hrest. repeat (apply Forall_cons in Hbs as [? Hbs]).
  apply is_bytes_app; [|done]. unfold reply_headers.
  pose proof (Z.mod_pos_bound t 8). pose proof (Z.mod_pos_bound (t / 8) 2).
  pose proof (Z.mod_pos_bound c1 128).
  repeat (apply is_bytes_cons; [first [done | unfold uint; lia]|]). apply is_bytes_nil.
Qed.

(** The shape of a successful reply. *)
Lemma handle_ok c c' bs rsp :
  is_bytes bs -> HandlerSpec.handle c bs = (c', Ok rsp) ->
  exists v d s t c0 c1 cmd body rest,
    bs = v :: d :: s :: t :: c0 :: c1 :: cmd :: body /\
    rsp = reply_headers d s t c0 c1 cmd ++ rest /\ is_bytes rest /\ (length rest <= 4)%nat.
Proof.
  intros Hbs. destruct bs as [|v [|d [|s [|t [|c0 [|c1 [|cmd body]]]]]]]; try done.
  intros Hh. exists v, d, s, t, c0, c1, cmd, body.
  assert (exists rest, rsp = reply_headers d s t c0 c1 cmd ++ rest /\ is_bytes rest /\
    (length rest <= 4)%nat) as (rest & -> & Hb & Hl); [|by exists rest].
  apply (is_bytes_drop 7) in Hbs. change (drop 7 _) with body in Hbs. cbn [HandlerSpec.handle] in Hh.
  destruct (from_u8 (T:=CommandCode.t) cmd); try destruct body as [|? [|? ?]]; try done;
    injection Hh as _ <-; eexists; (split; [reflexivity|]); (split; [|simpl; lia]);
    repeat (apply Forall_cons in Hbs as [? Hbs]); solve_bytes.
Qed.

(** ** The bytes of the requests *)

Definition request_headers (c : MctpEndpointContext.t) (dst cmd : Z) : bytes :=
  [1; dst; assigned_eid c; next_msg_tag c mod 8 + 200; 0; next_instance_id c mod 32 + 128; cmd].

Definition after_request (c : MctpEndpointContext.t) : MctpEndpointContext.t :=
  (fetch_instance_id (fetch_msg_tag c).1).1.

Lemma after_request_valid c : valid c -> valid (after_request c).
Proof. intros (? & ? & ? & ?). split_and!; cbn; auto with mctp. Qed.

(** A request of the bus owner: the message under new headers. *)
Lemma request_bytes {E} {T : Type} `{SerdeLaws T} c dst cmd (req : T) body :
  valid c -> u8 dst -> valid req ->
  let th := TransportHeader.new (assigned_eid c) dst (next_msg_tag c)
    (Some true) (Some true) (Some true) in
  let ch := ControlMsgHeader.new cmd (next_instance_id c) false true false in
  flatten (to_value req) = flatten (to_value ch) ++ body ->
  (x ← bytes_from (E:=E) req; ControlPayload.into_bytes (ControlPayload.new th ch x)) =
    Ok (request_headers c dst (discriminant cmd) ++ body).
Proof.
  intros (Ha & _ & Ht & Hi) Hd Hr th ch Hf.
  rewrite bytes_from_flatten by done. cbn [mbind outcome_bind].
  unfold ControlPayload.into_bytes. cbn [ControlPayload.hdr ControlPayload.new ControlPayload.payload].
  unfold th. rewrite TransportHeaderFacts.header_new_wire by done. cbn [mbind outcome_bind].
  pose proof (ControlMsgHeaderFacts.control_header_new_wire (E:=E) cmd (next_instance_id c)
    false true false Hi) as Hw. fold ch in Hw.
  rewrite bytes_from_flatten in Hw by by apply ControlMsgHeaderFacts.control_header_new_valid.
  injection Hw as Hw. simpl flatten in *. rewrite Hf, Hw. unfold request_headers. simpl.
  apply (f_equal Ok). repeat (apply (f_equal2 cons); [lia|]). done.
Qed.

Lemma set_eid_request_bytes c eid :
  valid c -> u8 eid ->
  set_eid_request c eid = (after_request c, Ok (request_headers c 0 1 ++ [0; eid])).
Proof.
  intros Hc He. pose proof Hc as (Ha & _ & Ht & Hi).
  assert (u8 0) as Hz by solve_range.
  set (ch := ControlMsgHeader.new CommandCode.SetEndpointID (next_instance_id c) false true false).
  destruct (SetEidFacts.set_eid_request_accessors ch SetEid.Operation.SetEid eid
    (ControlMsgHeaderFacts.control_header_new_valid _ _ _ _ _ Hi) He) as (Hv & _ & _ & Ho & Hr).
  unfold set_eid_request. apply (f_equal (pair _)).
  apply (request_bytes c 0 CommandCode.SetEndpointID
    (SetEid.Request.new ch SetEid.Operation.SetEid eid) [0; eid]); [done..|].
  rewrite SetEidFacts.set_eid_request_layout, Ho, Hr by done. done.
Qed.

Lemma get_eid_request_bytes c dst :
  valid c -> u8 dst ->
  get_eid_request c dst = (after_request c, Ok (request_headers c dst 2)).
Proof.
  intros Hc Hd. pose proof Hc as (Ha & _ & Ht & Hi).
  unfold get_eid_request. apply (f_equal (pair _)).
  rewrite <- (app_nil_r (request_headers c dst 2)).
  apply (request_bytes c dst CommandCode.GetEndpointID _ []); [done..| |].
  - by apply ControlMsgHeaderFacts.control_header_new_valid.
  - done.
Qed.

Lemma allocate_eids_request_bytes c start n :
  valid c -> u8 start -> u8 n ->
  allocate_eids_request c start n = (after_request c, Ok (request_headers c 0 8 ++ [0; n; start])).
Proof.
  intros Hc Hs Hn. pose proof Hc as (Ha & _ & Ht & Hi).
  assert (u8 0) as Hz by solve_range.
  set (ch := ControlMsgHeader.new CommandCode.AllocateEndpointIDs (next_instance_id c)
    false true false).
  destruct (AllocateEidsFacts.allocate_eids_request_accessors ch
    AllocateEids.Operation.AllocateEids n start
    (ControlMsgHeaderFacts.control_header_new_valid _ _ _ _ _ Hi) Hn Hs)
    as (Hv & _ & _ & _ & Ho & Hr).
  unfold allocate_eids_request. apply (f_equal (pair _)).
  apply (request_bytes c 0 CommandCode.AllocateEndpointIDs
    (AllocateEids.Request.new ch AllocateEids.Operation.AllocateEids n start) [0; n; start]);
    [done..|].
  rewrite AllocateEidsFacts.allocate_eids_request_layout, Ho, Hr by done. done.
Qed.

End facts.
End BusOwnerFacts.

(** ** Witnesses *)
Section witness.
#[local] Existing Instance Reference.crates.
#[local] Existing Instance Reference.crates_laws.

Import MctpEndpointContext BusOwnerFacts.
#[local] Abbreviation self := (mk 0x10 [0x7e] false 0 false 0x80 32 1 1).

Lemma handle_request_refines_witness :
  handle_request self [1; 0; 8; 0xc9; 0; 0x81; 1; 0; 0x42; 7] =
    (store_assigned_eid self 0x42, Ok [1; 8; 0; 0xc1; 0; 1; 1; 0; 0; 0x42; 0]).
Proof.
  rewrite (handle_request_refines self [1; 0; 8; 0xc9; 0; 0x81; 1; 0; 0x42; 7]) by solve_bytes.
  vm_compute. reflexivity.
Defined.

Lemma handle_request_panics_iff_witness :
  exists p, (handle_request self [1; 0; 8; 0xc9; 0; 0x81; 0x20]).2 = Panic p.
Proof.
  apply (handle_request_panics_iff self [1; 0; 8; 0xc9; 0; 0x81; 0x20]); [solve_bytes|].
  exists 0x20. split; vm_compute; reflexivity.
Defined.

Lemma handle_request_context_witness :
  let bs := [1; 0; 8; 0xc9; 0; 0x81; 13] in
  (handle_request self bs).1 = self \/
  (exists eid, bs !! 6%nat = Some 1 /\ bs !! 8%nat = Some eid /\
    (handle_request self bs).1 = store_assigned_eid self eid) \/
  (bs !! 6%nat = Some 13 /\ (handle_request self bs).1 = store_perform_discovery self true).
Proof. intros bs. apply (handle_request_context self bs). subst bs. solve_bytes. Defined.

End witness.
