(* ===== verification/Discovery.v ===== *)
(** * The discovery loop of the bus owner

    Models [run_bus_owner_loop] of [examples/basic_bus_owner_loop.rs] and the
    [send_*] methods it awaits.  The loop is a program in a resumption monad: it
    stops wherever another task may run, which is at every access to the shared
    context and at every await.  [Bus.run] runs such a program against an
    environment; [BusOwnerSystem] runs it as one task among others. *)
From S2P Require Import Prelude Crates Reference Derive Enums Transport ControlModels.
From S2P Require Import ControlPayload SetEid GetEid AllocateEids GetRoutingTable Errors BusOwner.

(** ** Programs and their environment *)
Module Bus.

(** How sending a command and awaiting its oneshot ends. *)
Inductive exchange :=
  | NotSent                                   (** the command channel is closed *)
  | Closed                                    (** the oneshot's sender was dropped *)
  | Replied (res : bytes + io_error).

(** A program of the loop, with anyhow's errors: it is done, or it updates the
    shared context and goes on with what the context was, or sends a command
    and awaits its oneshot, or sleeps. *)
Inductive prog (A : Type) : Type :=
  | Done (o : outcome AnyError A)
  | Access (f : MctpEndpointContext.t -> MctpEndpointContext.t)
      (k : MctpEndpointContext.t -> prog A)
  | Exchange (buf : bytes) (k : exchange -> prog A)
  | Sleep (p : prog A).
Arguments Done {A} o.
Arguments Access {A} f k.
Arguments Exchange {A} buf k.
Arguments Sleep {A} p.

(** [p] and then [g] on its outcome. *)
Fixpoint after {A B} (g : outcome AnyError A -> prog B) (p : prog A) : prog B :=
  match p with
  | Done o => g o
  | Access f k => Access f (fun c => after g (k c))
  | Exchange buf k => Exchange buf (fun x => after g (k x))
  | Sleep p => Sleep (after g p)
  end.

(** The [?] operator: an error or a panic ends the program. *)
Definition try_with {A B} (f : A -> prog B) (o : outcome AnyError A) : prog B :=
  match o with
  | Ok x => f x
  | Err e => Done (Err e)
  | Panic p => Done (Panic p)
  end.

#[export] Instance prog_ret : MRet prog := fun A x => Done (Ok x).
#[export] Instance prog_bind : MBind prog := fun A B f => after (try_with f).

Definition lift {A} (o : outcome AnyError A) : prog A := Done o.
Definition on_outcome {A} (f : outcome AnyError A -> outcome AnyError A) : prog A -> prog A :=
  after (fun o => Done (f o)).
Definition with_context {A} (c : string) : prog A -> prog A := on_outcome (context id c).
Definition unwrap_result {A} : prog A -> prog A := on_outcome unwrap.
(** A method of the context. *)
Definition call {A} (f : MctpEndpointContext.t -> MctpEndpointContext.t * outcome AnyError A)
    : prog A := Access (fun c => (f c).1) (fun c => Done (f c).2).

(** What the other tasks do, by the number of times the program has stopped:
    [interfere n c] is the context its [n]-th stop finds, where it left [c];
    [exchange_with n buf c] and [sleep n c] say how an await ends and in what
    context. *)
Record env := mk_env {
  interfere : nat -> MctpEndpointContext.t -> MctpEndpointContext.t;
  exchange_with : nat -> bytes -> MctpEndpointContext.t -> MctpEndpointContext.t * exchange;
  sleep : nat -> MctpEndpointContext.t -> MctpEndpointContext.t;
}.

(** The shared context, the packets sent so far, and the number of stops. *)
Record sys := mk_sys { ctx : MctpEndpointContext.t; sent : list bytes; clock : nat }.

Fixpoint run {A} (e : env) (p : prog A) (s : sys) : sys * outcome AnyError A :=
  match p with
  | Done o => (s, o)
  | Access f k =>
      let c := interfere e (clock s) (ctx s) in
      run e (k c) (mk_sys (f c) (sent s) (S (clock s)))
  | Exchange buf k =>
      let '(c, x) := exchange_with e (clock s) buf (ctx s) in
      let sent := match x with NotSent => sent s | _ => sent s ++ [buf] end in
      run e (k x) (mk_sys c sent (S (clock s)))
  | Sleep p => run e p (mk_sys (sleep e (clock s) (ctx s)) (sent s) (S (clock s)))
  end.

(** The printers [derive(Debug)] generates for two responses. *)
Class Debug := {
  debug_set_eid : SetEid.Response.t -> string;
  debug_allocate : AllocateEids.Response.t -> string;
}.

Lemma run_after {A B} e (g : outcome AnyError A -> prog B) p s :
  run e (after g p) s = let '(s, o) := run e p s in run e (g o) s.
Proof.
  revert s. induction p as [o|f k IH|buf k IH|p IH]; intros s; cbn [after run]; [done| | |apply IH].
  - apply IH.
  - destruct (exchange_with e _ _ _) as [c x]. apply IH.
Qed.

Lemma run_bind {A B} e (p : prog A) (f : A -> prog B) s :
  run e (p ≫= f) s = let '(s, o) := run e p s in run e (try_with f o) s.
Proof. apply run_after. Qed.

Lemma run_on_outcome {A} e f (p : prog A) s :
  run e (on_outcome f p) s = let '(s, o) := run e p s in (s, f o).
Proof. unfold on_outcome. rewrite run_after. by destruct (run e p s). Qed.

End Bus.

Module EndpointContext.
Record t := mk {
  eid : Z;
  endpoint_type : GetEid.EndpointType.t;
  eid_type : GetEid.EidType.t;
  eid_allocation_status : SetEid.EidAllocationStatus.t;
  min_dynamic_eid : Z;
  max_dynamic_eid : Z;
  dynamic_eid_pool_size : Z;
}.
End EndpointContext.

Module Discovery.
Import Bus MctpEndpointContext.
Section loop.
Context `{Crates, Debug} (checks : bool).

(** What [send_and_decode] makes of an exchange: the response is unwrapped and
    decoded. *)
Definition decode_reply {T : Type} `{Serde T} (x : exchange) : outcome AnyError (ControlPayload.t * T) :=
  match x with
  | NotSent => Err (AnyContext "Failed sending GetEid cmd" AnySend)
  | Closed => Err (AnyContext "Failed waiting for result" AnyRecv)
  | Replied (inl res_bytes) => ControlPayload.try_to_response (try_from_bytes (T:=T)) res_bytes
  | Replied (inr _) => Panic PanicUnwrap
  end.

Definition send_and_decode {T : Type} `{Serde T} (buf : bytes) : prog (ControlPayload.t * T) :=
  Exchange buf (fun x => Done (decode_reply x)).

Definition send_set_eid_request (eid : Z) : prog SetEid.Response.t :=
  buf ← call (fun c => set_eid_request c eid);
  r ← with_context "Failed sending SetEid request" (send_and_decode buf);
  mret r.2.

Definition send_get_eid_request (dest_eid : Z) : prog GetEid.Response.t :=
  buf ← call (fun c => get_eid_request c dest_eid);
  r ← with_context "Failed sending GetEid request" (send_and_decode buf);
  mret r.2.

Definition send_allocate_eids_request (starting_eid number_of_eids : Z) : prog AllocateEids.Response.t :=
  buf ← call (fun c => allocate_eids_request c starting_eid number_of_eids);
  r ← with_context "Failed sending GetEid request" (send_and_decode buf);
  mret r.2.

(** ** One round of discovery *)

(** The endpoint of a Get Endpoint ID response. *)
Definition discovered (resp : GetEid.Response.t) : EndpointContext.t :=
  EndpointContext.mk (GetEid.Response.eid resp)
    (from_u8 (GetEid.Response.endpoint_type resp)) (from_u8 (GetEid.Response.eid_type resp))
    SetEid.EidAllocationStatus.NoPoolSupport 0 0 0.

Definition set_allocation_status (endpoint : EndpointContext.t) (st : SetEid.EidAllocationStatus.t)
    : EndpointContext.t :=
  EndpointContext.mk (EndpointContext.eid endpoint) (EndpointContext.endpoint_type endpoint)
    (EndpointContext.eid_type endpoint) st (EndpointContext.min_dynamic_eid endpoint)
    (EndpointContext.max_dynamic_eid endpoint) (EndpointContext.dynamic_eid_pool_size endpoint).

(** The pool a bridge asks for is taken from [next_eid] on; the arithmetic is
    on [u8]. *)
Definition reserve_pool (endpoint : EndpointContext.t) (next_eid : Z) (resp : SetEid.Response.t)
    : outcome AnyError (EndpointContext.t * Z) :=
  if bool_decide (EndpointContext.endpoint_type endpoint = GetEid.EndpointType.BusOwnerOrBridge)
     && bool_decide (EndpointContext.eid_allocation_status endpoint =
          SetEid.EidAllocationStatus.RequiresPoolAllocation)
     && (0 <? SetEid.Response.eid_pool_size resp)
  then
    sum ← arith checks 8 (next_eid + SetEid.Response.eid_pool_size resp);
    max ← arith checks 8 (sum - 1);
    next ← arith checks 8 (next_eid + SetEid.Response.eid_pool_size resp);
    Ok (EndpointContext.mk (EndpointContext.eid endpoint) (EndpointContext.endpoint_type endpoint)
      (EndpointContext.eid_type endpoint) (EndpointContext.eid_allocation_status endpoint)
      next_eid max (SetEid.Response.eid_pool_size resp), next)
  else Ok (endpoint, next_eid).

(** Step 2: a dynamic endpoint is given the next EID. *)
Definition assign_eid (endpoint : EndpointContext.t) (next_eid : Z) : prog (EndpointContext.t * Z) :=
  let eid := next_eid in
  next_eid ← lift (arith checks 8 (next_eid + 1));
  resp ← with_context "SetEid request failed" (send_set_eid_request eid);
  _ ← lift (is_success resp);
  let endpoint := set_allocation_status endpoint (SetEid.Response.eid_allocation_status resp) in
  if negb (SetEid.Response.eid_assignment_status resp =? 0) then
    lift (Err (AnyMsg ("EID assignment was rejected: " +:+ debug_set_eid resp)))
  else lift (reserve_pool endpoint next_eid resp).

(** Step 3: the pool is allocated, unless its ends are equal. *)
Definition allocate_pool (endpoint : EndpointContext.t) : prog unit :=
  if negb (EndpointContext.min_dynamic_eid endpoint =? EndpointContext.max_dynamic_eid endpoint) then
    resp ← with_context "AllocateEid request failed"
      (send_allocate_eids_request (EndpointContext.min_dynamic_eid endpoint)
        (EndpointContext.dynamic_eid_pool_size endpoint));
    _ ← lift (is_success resp);
    if negb (bool_decide (AllocateEids.Response.allocation_status resp =
         AllocateEids.AllocationStatus.AllocationAccepted)) then
      lift (Err (AnyMsg ("EID pool allocation was rejected: " +:+ debug_allocate resp)))
    else mret tt
  else mret tt.

(** The discovery branch of the loop: the next EID after it. *)
Definition discover (next_eid : Z) : prog Z :=
  resp ← with_context "GetEid request failed" (send_get_eid_request 0);
  _ ← lift (context id "GetEID Response is non-successful" (is_success resp));
  let endpoint := discovered resp in
  r ← (if bool_decide (EndpointContext.eid_type endpoint = GetEid.EidType.Dynamic) then
         assign_eid endpoint next_eid
       else mret (endpoint, next_eid));
  _ ← allocate_pool r.1;
  mret r.2.

(** [tokio::time::sleep] *)
Definition sleep_5s : prog unit := Sleep (mret tt).

(** The idle branch: a sleep, and a ping when there is an EID to ping. *)
Definition idle (ping_eid : Z) : prog unit :=
  _ ← sleep_5s;
  if negb (ping_eid =? 0) then
    resp ← unwrap_result (with_context "GetEid request failed" (send_get_eid_request ping_eid));
    unwrap_result (lift (context id "GetEID Response is non-successful" (is_success resp)))
  else mret tt.

(** [self.perform_discovery.swap(false)] *)
Definition swap_perform_discovery : prog bool :=
  Access (fun c => store_perform_discovery c false) (fun c => Done (Ok (perform_discovery c))).

(** One turn of the loop. *)
Definition turn (ping_eid next_eid : Z) : prog Z :=
  found ← swap_perform_discovery;
  if (found : bool) then discover next_eid
  else (_ ← idle ping_eid; mret next_eid).

(** The first [n] turns; the loop has no other exit than an error. *)
Fixpoint turns (n : nat) (ping_eid next_eid : Z) : prog Z :=
  match n with
  | O => mret next_eid
  | S n => next_eid ← turn ping_eid next_eid; turns n ping_eid next_eid
  end.

(** [self]'s [min_eid_in_pool] is no atomic: it never changes. *)
Definition run_bus_owner_loop (n : nat) (ping_eid : Z) (self : MctpEndpointContext.t) : prog Z :=
  turns n ping_eid (min_eid_in_pool self).

(** A request, run: the packet is sent and what comes back is decoded. *)
Lemma run_request {T : Type} `{Serde T} e f msg s c bs :
  f (interfere e (clock s) (ctx s)) = (c, Ok bs) ->
  run e (buf ← call f; r ← with_context msg (send_and_decode (T:=T) buf); mret r.2) s =
    let '(c, x) := exchange_with e (S (clock s)) bs c in
    (mk_sys c (match x with NotSent => sent s | _ => sent s ++ [bs] end) (2 + clock s),
     snd <$> context id msg (decode_reply (T:=T) x)).
Proof.
  intros Hf. cbn -[decode_reply context]. rewrite Hf. cbn -[decode_reply context].
  destruct (exchange_with e _ bs c) as [c' x]. f_equal. by destruct (context id msg _).
Qed.

End loop.
End Discovery.
