(* ===== verification/Offers.v ===== *)
(** * The EIDs the bus owner offers

    A logic of programs of the discovery loop: [offers lo p Q] says that,
    whatever happens where [p] stops, the packets it sends are requests that
    give away increasing EIDs from [lo] on.  The loop satisfies it with overflow
    checks on; runs against an environment and runs among the other tasks both
    inherit what it says. *)
From Stdlib Require Import Sorting.Sorted.
From S2P Require Import Prelude Crates Reference Derive Enums Transport ControlModels.
From S2P Require Import ControlPayload SetEid GetEid AllocateEids GetRoutingTable Errors BusOwner.
From S2P Require Import Discovery.

Module Offers.
Import Bus MctpEndpointContext Discovery BusOwnerFacts.

(** A strictly increasing list between two bounds. *)
Definition increasing (lo hi : Z) (l : list Z) : Prop :=
  StronglySorted Z.lt l /\ Forall (fun x => lo <= x < hi) l.

Lemma increasing_nil lo hi : increasing lo hi [].
Proof. split; constructor. Qed.

Lemma increasing_one lo : increasing lo (lo + 1) [lo].
Proof. split; repeat constructor; lia. Qed.

Lemma increasing_app lo mid hi l k :
  lo <= mid <= hi -> increasing lo mid l -> increasing mid hi k -> increasing lo hi (l ++ k).
Proof.
  intros Hb [Hs Hl] [Ht Hk]. split.
  - induction Hs as [|x l Hs IH Hx]; [done|]. apply Forall_cons in Hl as [Hxl Hl]. simpl. constructor.
    + by apply IH.
    + apply Forall_app. split; [done|]. eapply Forall_impl; [exact Hk|]. simpl. lia.
  - apply Forall_app. split; (eapply Forall_impl; [eassumption|]; simpl; lia).
Qed.

Lemma increasing_seqZ lo n : 0 <= n -> increasing lo (lo + n) (seqZ lo n).
Proof.
  intros Hn. revert lo. pattern n. apply natlike_ind; [intros; apply increasing_nil| |done].
  intros x Hx IH lo. rewrite seqZ_cons by lia. replace (Z.pred (Z.succ x)) with x by lia.
  apply (increasing_app lo (lo + 1) _ [lo]); [lia|apply increasing_one|].
  replace (lo + Z.succ x) with (lo + 1 + x) by lia. replace (Z.succ lo) with (lo + 1) by lia.
  apply IH.
Qed.

Lemma increasing_weaken lo lo' hi hi' l :
  lo' <= lo -> hi <= hi' -> increasing lo hi l -> increasing lo' hi' l.
Proof. intros ? ? [Hs Hf]. split; [done|]. eapply Forall_impl; [exact Hf|]. simpl. lia. Qed.

(** What precedes sorted elements is sorted. *)
Lemma increasing_app_inv lo hi l k : increasing lo hi (l ++ k) -> increasing lo hi l.
Proof.
  intros [Hs Hf]. split; [|by apply Forall_app in Hf as [? _]]. clear Hf.
  induction l as [|x l IH]; [constructor|]. simpl in Hs. apply StronglySorted_inv in Hs as [Hs Hx].
  constructor; [by apply IH|]. by apply Forall_app in Hx as [? _].
Qed.

(** The request bit of a packet. *)
Definition is_request (packet : bytes) : bool :=
  match packet !! 5%nat with Some c1 => Z.testbit c1 7 | None => false end.

Section offers.
Context `{CratesLaws}.

(** The EIDs a packet of the bus owner gives away: one, a pool, or none. *)
Definition granted (bs : bytes) : list Z :=
  match ControlPayload.try_from bs with
  | Ok p =>
      match ControlPayload.command_code p with
      | Ok CommandCode.SetEndpointID =>
          match ControlPayload.message_try_from (T:=SetEid.Request.t) p with
          | Ok req => [SetEid.Request.eid req]
          | _ => []
          end
      | Ok CommandCode.AllocateEndpointIDs =>
          match ControlPayload.message_try_from (T:=AllocateEids.Request.t) p with
          | Ok req => seqZ (AllocateEids.Request.starting_eid req)
                        (AllocateEids.Request.number_of_eids req)
          | _ => []
          end
      | _ => []
      end
  | _ => []
  end.

Definition grants (packets : list bytes) : list Z := concat (granted <$> packets).

Lemma grants_app ps qs : grants (ps ++ qs) = grants ps ++ grants qs.
Proof. unfold grants. by rewrite fmap_app, concat_app. Qed.

Lemma grants_one p : grants [p] = granted p.
Proof. unfold grants. simpl. by rewrite app_nil_r. Qed.

(** A request of the bus owner: short, under the request bit, and with the same
    meaning, and a reply, when the error code of its datagram follows it. *)
Record own_request (buf : bytes) : Prop := {
  own_bytes : is_bytes buf;
  own_length : (7 <= length buf <= 10)%nat;
  own_rq rest : is_request (buf ++ rest) = true;
  own_granted rest : is_bytes rest -> granted (buf ++ rest) = granted buf;
  own_answered d rest : is_bytes rest -> exists d' rsp,
    handle_request d (buf ++ rest) = (d', Ok rsp);
}.

(** The replies a program may be given. *)
Definition exchange_ok (x : exchange) : Prop :=
  match x with Replied (inl bs) => is_bytes bs | _ => True end.

(** ** The logic *)
Fixpoint offers {A} (lo : Z) (p : prog A) (Q : A -> Z -> Prop) : Prop :=
  match p with
  | Done o => lo <= 255 /\ forall a, o = Ok a -> Q a lo
  | Access f k => forall c, valid c -> valid (f c) /\ offers lo (k c) Q
  | Exchange buf k => exists hi, lo <= hi <= 255 /\ increasing lo hi (granted buf) /\
      own_request buf /\ forall x, exchange_ok x -> offers hi (k x) Q
  | Sleep p => offers lo p Q
  end.

Lemma offers_after {A B} lo (p : prog A) (g : outcome AnyError A -> prog B) Q R :
  offers lo p Q ->
  (forall o hi, (forall a, o = Ok a -> Q a hi) -> lo <= hi <= 255 -> offers hi (g o) R) ->
  offers lo (after g p) R.
Proof.
  revert lo. induction p as [o|f k IH|buf k IH|p IH]; intros lo; cbn [offers after].
  - intros [Hlo HQ] Hg. by apply Hg.
  - intros Hk Hg c Hc. destruct (Hk c Hc). auto.
  - intros (hi & Hb & Hi & Hown & Hk) Hg. exists hi. split_and!; try done; try lia.
    intros x Hx. apply IH; [by apply Hk|]. intros o hi' HQ Hb'. apply Hg; [done|lia].
  - intros Hp Hg. auto.
Qed.

Lemma offers_lower {A} lo lo' (p : prog A) Q :
  lo' <= lo -> (forall a, Q a lo -> Q a lo') -> offers lo p Q -> offers lo' p Q.
Proof.
  intros Hle HQ. induction p as [o|f k IH|buf k IH|p IH]; cbn [offers].
  - intros [Hlo Ho]. split; [lia|]. auto.
  - intros Hk c Hc. destruct (Hk c Hc). auto.
  - intros (hi & Hb & Hi & Hown & Hk). exists hi. split_and!; try done; try lia.
    by eapply increasing_weaken; [| |exact Hi].
  - exact IH.
Qed.

Lemma offers_lift {A} lo (o : outcome AnyError A) Q :
  lo <= 255 -> (forall a, o = Ok a -> Q a lo) -> offers lo (lift o) Q.
Proof. done. Qed.

Lemma offers_ret {A} lo (a : A) (Q : A -> Z -> Prop) : lo <= 255 -> Q a lo -> offers lo (mret a) Q.
Proof. intros Hlo HQ. split; [done|]. by intros ? [= <-]. Qed.

Lemma offers_bind {A B} lo (p : prog A) (f : A -> prog B) Q R :
  offers lo p Q -> (forall a hi, Q a hi -> lo <= hi <= 255 -> offers hi (f a) R) ->
  offers lo (p ≫= f) R.
Proof.
  intros Hp Hf. apply (offers_after _ _ _ Q); [done|]. intros [a|err|w] hi HQ Hb; cbn [try_with].
  - apply Hf; [by apply HQ|done].
  - by split; [lia|].
  - by split; [lia|].
Qed.

Lemma offers_weaken {A} lo (p : prog A) Q R :
  offers lo p Q -> (forall a hi, Q a hi -> lo <= hi <= 255 -> R a hi) -> offers lo p R.
Proof.
  revert lo. induction p as [o|f k IH|buf k IH|p IH]; intros lo; cbn [offers].
  - intros [Hlo HQ] HR. split; [done|]. intros a Ha. apply HR; [by apply HQ|lia].
  - intros Hk HR c Hc. destruct (Hk c Hc). eauto.
  - intros (hi & Hb & Hi & Hown & Hk) HR. exists hi. split_and!; try done; try lia.
    intros x Hx. apply (IH x); [by apply Hk|]. intros a hi' HQ Hb'. apply HR; [done|lia].
  - eauto.
Qed.

Lemma offers_on_outcome {A} lo f (p : prog A) Q :
  (forall o a, f o = Ok a -> o = Ok a) -> offers lo p Q -> offers lo (on_outcome f p) Q.
Proof.
  intros Hf Hp. apply (offers_after _ _ _ Q); [done|]. intros o hi HQ Hb.
  split; [lia|]. intros a Ha. by apply HQ, Hf.
Qed.

Lemma offers_context {A} lo c (p : prog A) Q : offers lo p Q -> offers lo (with_context c p) Q.
Proof. apply offers_on_outcome. intros [] ?; by intros [= ->]. Qed.

Lemma offers_unwrap {A} lo (p : prog A) Q : offers lo p Q -> offers lo (unwrap_result p) Q.
Proof. apply offers_on_outcome. intros [] ?; by intros [= ->]. Qed.

(** ** The packets of the bus owner *)

Lemma request_headers_bytes c dst cmd :
  valid c -> u8 dst -> u8 cmd -> is_bytes (request_headers c dst cmd).
Proof.
  intros (Ha & _ & _ & _) Hd Hc. unfold request_headers.
  assert (u8 (next_msg_tag c mod 8 + 200) /\ u8 (next_instance_id c mod 32 + 128)) as [? ?].
  { pose proof (Z.mod_pos_bound (next_msg_tag c) 8). pose proof (Z.mod_pos_bound (next_instance_id c) 32).
    unfold uint. lia. }
  repeat (apply is_bytes_cons; [first [done | solve_range]|]). apply is_bytes_nil.
Qed.

Lemma request_headers_rq c dst cmd rest : is_request (request_headers c dst cmd ++ rest) = true.
Proof.
  unfold is_request, request_headers. cbn [app lookup list_lookup].
  pose proof (Z.mod_pos_bound (next_instance_id c) 32 ltac:(lia)).
  set (x := next_instance_id c mod 32) in *. rewrite Z.testbit_true by lia.
  change (2 ^ 7) with 128. replace (x + 128) with (x + 1 * 128) by lia.
  rewrite Z.div_add, (Z.div_small x) by lia. done.
Qed.

(** How a packet is parsed, by the name of its command. *)
Lemma parse_request_headers c dst cmd body :
  valid c -> u8 dst -> u8 cmd -> is_bytes body ->
  exists th c1, ControlPayload.try_from (request_headers c dst cmd ++ body) =
    Ok (ControlPayload.new th (ControlMsgHeader.mk [0; c1] (from_u8 cmd)) (0 :: c1 :: cmd :: body)) /\
    is_bytes (0 :: c1 :: cmd :: body).
Proof.
  intros Hc Hd Hcmd Hbody.
  assert (is_bytes (request_headers c dst cmd ++ body)) as Hbs
    by (apply is_bytes_app; [by apply request_headers_bytes|done]).
  do 2 eexists. split; [by apply parse_payload_bytes|].
  by apply (is_bytes_drop 4) in Hbs.
Qed.

Ltac parse_granted c dst cmd body Hcmd Hbs :=
  unfold granted;
  destruct (parse_request_headers c dst cmd body) as (th & c1 & -> & Hbs);
    [done|done|solve_range|
     repeat (apply is_bytes_cons; [first [done|solve_range]|]); first [done|apply is_bytes_nil]|];
  unfold ControlPayload.command_code; cbn [ControlPayload.control_hdr ControlPayload.new
    ControlMsgHeader.command_code]; rewrite Hcmd;
  rewrite ?ControlPayloadFacts.message_try_from_bytes; cbn [ControlPayload.payload ControlPayload.new];
  repeat (apply Forall_cons in Hbs as [? Hbs]).

Lemma granted_get_eid c dst rest :
  valid c -> u8 dst -> is_bytes rest -> granted (request_headers c dst 2 ++ rest) = [].
Proof.
  intros Hc Hd Hr. assert (from_u8 2 = CommandCode.GetEndpointID) as Hcmd by by apply from_u8_of.
  parse_granted c dst 2 rest Hcmd Hbs. done.
Qed.

Lemma granted_set_eid c eid rest :
  valid c -> u8 eid -> is_bytes rest -> granted (request_headers c 0 1 ++ 0 :: eid :: rest) = [eid].
Proof.
  intros Hc He Hr. assert (from_u8 1 = CommandCode.SetEndpointID) as Hcmd by by apply from_u8_of.
  assert (u8 0) as Hz by solve_range.
  parse_granted c 0 1 (0 :: eid :: rest) Hcmd Hbs.
  rewrite (try_from_value (T:=SetEid.Request.t)
    (SStruct [SStruct [STuple [SU8 0; SU8 c1]; SU8 1]; STuple [SU8 0]; SU8 eid])
    (SetEid.Request.mk (ControlMsgHeader.mk [0; c1] (from_u8 1)) [0] eid) rest);
    [done|solve_typed|done|done].
Qed.

Lemma granted_allocate c start n rest :
  valid c -> u8 start -> u8 n -> is_bytes rest ->
  granted (request_headers c 0 8 ++ 0 :: n :: start :: rest) = seqZ start n.
Proof.
  intros Hc Hs Hn Hr.
  assert (from_u8 8 = CommandCode.AllocateEndpointIDs) as Hcmd by by apply from_u8_of.
  assert (u8 0) as Hz by solve_range.
  parse_granted c 0 8 (0 :: n :: start :: rest) Hcmd Hbs.
  rewrite (try_from_value (T:=AllocateEids.Request.t)
    (SStruct [SStruct [STuple [SU8 0; SU8 c1]; SU8 8]; STuple [SU8 0]; SU8 n; SU8 start])
    (AllocateEids.Request.mk (ControlMsgHeader.mk [0; c1] (from_u8 8)) [0] n start) rest);
    [done|solve_typed|done|done].
Qed.

(** Any named command that has its body is answered. *)
Lemma request_answered c dst cmd body d rest :
  valid c -> u8 dst -> u8 cmd -> is_bytes body -> is_bytes rest ->
  from_u8 (T:=CommandCode.t) cmd <> CommandCode.Unknown -> cmd = 2 \/ (2 <= length body)%nat ->
  exists d' rsp, handle_request d ((request_headers c dst cmd ++ body) ++ rest) = (d', Ok rsp).
Proof.
  intros Hc Hd Hcmd Hb Hr Hn Hl.
  assert (is_bytes (request_headers c dst cmd)) as Hh by by apply request_headers_bytes.
  rewrite handle_request_handle by (by repeat apply is_bytes_app).
  assert (cmd = 2 -> from_u8 (T:=CommandCode.t) cmd = CommandCode.GetEndpointID) as Hget
    by (intros ->; by apply from_u8_of).
  unfold request_headers. cbn [app HandlerSpec.handle].
  destruct (from_u8 (T:=CommandCode.t) cmd) eqn:Hcc; try done; try (by do 2 eexists);
    (destruct Hl as [H2|Hl]; [by specialize (Hget H2)|]);
    destruct body as [|x [|y body]]; simpl in Hl; try lia; by do 2 eexists.
Qed.

Lemma own_headers c dst cmd body g :
  valid c -> u8 dst -> u8 cmd -> is_bytes body -> (length body <= 3)%nat ->
  from_u8 (T:=CommandCode.t) cmd <> CommandCode.Unknown -> cmd = 2 \/ (2 <= length body)%nat ->
  (forall rest, is_bytes rest -> granted ((request_headers c dst cmd ++ body) ++ rest) = g) ->
  own_request (request_headers c dst cmd ++ body) /\ granted (request_headers c dst cmd ++ body) = g.
Proof.
  intros Hc Hd Hcmd Hb Hl Hn Hs Hg.
  assert (granted (request_headers c dst cmd ++ body) = g) as Hg0
    by (rewrite <- (app_nil_r (_ ++ body)); by apply Hg).
  split; [|done]. split.
  - apply is_bytes_app; [by apply request_headers_bytes|done].
  - rewrite length_app. simpl. lia.
  - intros rest. rewrite <- (assoc_L (++)). apply request_headers_rq.
  - intros rest Hr. by rewrite Hg, Hg0.
  - intros d rest Hr. by apply request_answered.
Qed.

Lemma own_get_eid c dst :
  valid c -> u8 dst ->
  own_request (request_headers c dst 2) /\ granted (request_headers c dst 2) = [].
Proof.
  intros Hc Hd. assert (from_u8 2 = CommandCode.GetEndpointID) as Hcmd by by apply from_u8_of.
  rewrite <- (app_nil_r (request_headers c dst 2)).
  apply own_headers; [done|done|solve_range|done|simpl; lia|by rewrite Hcmd|by left|].
  intros rest Hr. rewrite app_nil_r. by apply granted_get_eid.
Qed.

Lemma own_set_eid c eid :
  valid c -> u8 eid ->
  own_request (request_headers c 0 1 ++ [0; eid]) /\
  granted (request_headers c 0 1 ++ [0; eid]) = [eid].
Proof.
  intros Hc He. assert (from_u8 1 = CommandCode.SetEndpointID) as Hcmd by by apply from_u8_of.
  apply own_headers; [done|solve_range|solve_range|auto with mctp|simpl; lia|by rewrite Hcmd| |].
  - right. simpl. lia.
  - intros rest Hr. rewrite <- (assoc_L (++)). by apply granted_set_eid.
Qed.

Lemma own_allocate c start n :
  valid c -> u8 start -> u8 n ->
  own_request (request_headers c 0 8 ++ [0; n; start]) /\
  granted (request_headers c 0 8 ++ [0; n; start]) = seqZ start n.
Proof.
  intros Hc Hs Hn. assert (from_u8 8 = CommandCode.AllocateEndpointIDs) as Hcmd by by apply from_u8_of.
  apply own_headers; [done|solve_range|solve_range|auto with mctp|simpl; lia|by rewrite Hcmd| |].
  - right. simpl. lia.
  - intros rest Hr. rewrite <- (assoc_L (++)). by apply granted_allocate.
Qed.

(** ** The loop *)
Context `{Debug}.

Lemma try_to_response_valid {T : Type} `{SerdeLaws T} bs p (resp : T) :
  is_bytes bs -> ControlPayload.try_to_response (try_from_bytes (T:=T)) bs = Ok (p, resp) ->
  valid resp.
Proof.
  intros Hbs. unfold ControlPayload.try_to_response.
  destruct (ControlPayloadFacts.payload_try_from_cases bs Hbs)
    as [[_ ->]|(_ & q & -> & _ & _ & Hpl & _ & _)]; [done|].
  cbn [context map_err mbind outcome_bind]. rewrite Hpl.
  destruct (decide (length (drop 4 bs) < size_of T)%nat) as [Hs|Hl].
  { by rewrite (try_from_short (T:=T)) by done. }
  destruct (try_from_long (T:=T) (drop 4 bs)) as (v & x & _ & _ & _ & Hx & ->);
    [auto with mctp|lia|]. by intros [= _ <-].
Qed.

(** A request that gives its packet's EIDs away: its response is a valid message. *)
Lemma offers_request {T : Type} `{SerdeLaws T} lo hi
    (f : MctpEndpointContext.t -> MctpEndpointContext.t * outcome AnyError bytes) msg :
  (forall c, valid c -> exists bs, f c = (after_request c, Ok bs) /\ own_request bs /\
    increasing lo hi (granted bs)) ->
  lo <= hi <= 255 ->
  offers lo (buf ← call f; r ← with_context msg (send_and_decode (T:=T) buf); mret r.2)
    (fun resp h => valid resp /\ h = hi).
Proof.
  intros Hf Hb c Hc. destruct (Hf c Hc) as (bs & -> & Hown & Hi).
  split; [by apply after_request_valid|]. cbn. exists hi. split_and!; try done; try lia.
  intros x Hx. destruct x as [| |[rb|err]]; cbn; try (split; [lia|done]).
  destruct (ControlPayload.try_to_response _ rb) as [[p resp]|err|w] eqn:Hr; cbn;
    (split; [lia|]); [|done|done].
  intros a [= <-]. split; [|done]. by eapply try_to_response_valid; [|exact Hr].
Qed.

Lemma offers_get_eid lo dst :
  lo <= 255 -> u8 dst ->
  offers lo (send_get_eid_request dst) (fun resp h => valid resp /\ h = lo).
Proof.
  intros Hlo Hd. apply (offers_request lo lo); [|lia].
  intros c Hc. rewrite get_eid_request_bytes by done. eexists. split; [done|].
  destruct (own_get_eid c dst Hc Hd) as [Hown ->]. split; [done|apply increasing_nil].
Qed.

Lemma offers_set_eid lo :
  0 <= lo -> lo + 1 <= 255 ->
  offers lo (send_set_eid_request lo) (fun resp h => valid resp /\ h = lo + 1).
Proof.
  intros H0' Hlo. assert (u8 lo) as Hu by (unfold uint; lia).
  apply (offers_request lo (lo + 1)); [|lia].
  intros c Hc. rewrite set_eid_request_bytes by done. eexists. split; [done|].
  destruct (own_set_eid c lo Hc Hu) as [Hown ->]. split; [done|apply increasing_one].
Qed.

Lemma offers_allocate lo n :
  0 <= lo -> 0 <= n -> lo + n <= 255 ->
  offers lo (send_allocate_eids_request lo n) (fun resp h => valid resp /\ h = lo + n).
Proof.
  intros H0' H1' Hlo. assert (u8 lo /\ u8 n) as [Hu Hn] by (unfold uint; lia).
  apply (offers_request lo (lo + n)); [|lia].
  intros c Hc. rewrite allocate_eids_request_bytes by done. eexists. split; [done|].
  destruct (own_allocate c lo n Hc Hu Hn) as [Hown ->]. split; [done|by apply increasing_seqZ].
Qed.

Lemma arith_checked {E} w x y : arith (E:=E) true w x = Ok y -> y = x /\ uint w x.
Proof. unfold arith. case_decide; [|done]. by intros [= ->]. Qed.

(** The pool an endpoint is to get starts at [lo] and ends before [next]. *)
Definition pool_fits (r : EndpointContext.t * Z) (lo : Z) : Prop :=
  lo <= r.2 <= 255 /\
  (EndpointContext.min_dynamic_eid r.1 = EndpointContext.max_dynamic_eid r.1 \/
   (EndpointContext.min_dynamic_eid r.1 = lo /\ 0 <= EndpointContext.dynamic_eid_pool_size r.1 /\
    r.2 = lo + EndpointContext.dynamic_eid_pool_size r.1)).

Lemma reserve_pool_fits endpoint next resp r :
  EndpointContext.min_dynamic_eid endpoint = EndpointContext.max_dynamic_eid endpoint ->
  next <= 255 -> reserve_pool true endpoint next resp = Ok r -> pool_fits r next.
Proof.
  intros Heq Hn. unfold reserve_pool.
  destruct (_ && _ && _) eqn:Hc; [|intros [= <-]; split; [simpl; lia|by left]].
  apply andb_true_iff in Hc as [_ Hp%Z.ltb_lt]. intros Hr.
  apply bind_Ok in Hr as (sum & Hs & Hr). apply bind_Ok in Hr as (mx & Hm & Hr).
  apply bind_Ok in Hr as (nx & Hx & Hr). injection Hr as <-.
  apply arith_checked in Hs as [-> Hs], Hm as [-> _], Hx as [-> _].
  unfold uint in Hs. split; [simpl; lia|right]. simpl. lia.
Qed.

Lemma offers_assign endpoint next :
  EndpointContext.min_dynamic_eid endpoint = EndpointContext.max_dynamic_eid endpoint ->
  0 <= next <= 255 ->
  offers next (assign_eid true endpoint next) pool_fits.
Proof.
  intros Heq Hn. unfold assign_eid.
  eapply (offers_bind next _ _ (fun x hi => x = next + 1 /\ hi = next /\ next + 1 <= 255)).
  { apply offers_lift; [lia|]. intros a [-> Ha]%arith_checked. unfold uint in Ha. lia. }
  intros x hi (-> & -> & Hle) _.
  eapply offers_bind; [by apply offers_context, offers_set_eid; lia|].
  intros resp hi [Hresp ->] _.
  eapply (offers_bind _ _ _ (fun _ hi => hi = next + 1)); [by apply offers_lift|].
  intros _ hi -> _. cbn zeta. destruct (negb _); [by apply offers_lift|].
  apply offers_lift; [lia|]. intros r Hr. eapply reserve_pool_fits; [|lia|exact Hr]. done.
Qed.

Lemma offers_pool r lo :
  0 <= lo -> pool_fits r lo ->
  offers lo (allocate_pool r.1) (fun _ hi => lo <= hi <= r.2).
Proof.
  intros H0' [Hle Hp]. unfold allocate_pool. destruct (Z.eqb_spec
    (EndpointContext.min_dynamic_eid r.1) (EndpointContext.max_dynamic_eid r.1)) as [Heq|Hne].
  { by apply offers_ret; lia. }
  destruct Hp as [?|(-> & Hsz & Hnext)]; [done|]. cbn [negb].
  eapply offers_bind; [by apply offers_context, offers_allocate; lia|].
  intros resp hi [_ ->] _.
  eapply (offers_bind _ _ _ (fun _ hi => hi = r.2)); [apply offers_lift; [lia|done]|].
  intros _ hi -> _. destruct (negb _); [by apply offers_lift; lia|by apply offers_ret; lia].
Qed.

Lemma offers_discover next :
  0 <= next <= 255 -> offers next (discover true next) (fun next' hi => hi <= next' <= 255).
Proof.
  intros Hn. unfold discover.
  eapply offers_bind; [apply offers_context, offers_get_eid; [lia|solve_range]|].
  intros resp hi [_ ->] _.
  eapply (offers_bind _ _ _ (fun _ hi => hi = next)); [apply offers_lift; [lia|done]|].
  intros _ hi -> _. cbn zeta.
  eapply (offers_bind _ _ _ pool_fits).
  { case_bool_decide; [by apply offers_assign|].
    apply offers_ret; [lia|]. split; [simpl; lia|by left]. }
  intros r hi Hr Hhi.
  eapply offers_bind; [apply offers_pool; [lia|exact Hr]|].
  intros u hi' Hhi' _. simpl in Hhi'. destruct Hr as [Hr _]. by apply offers_ret; lia.
Qed.

Lemma offers_turn ping next :
  u8 ping -> 0 <= next <= 255 ->
  offers next (turn true ping next) (fun next' hi => hi <= next' <= 255).
Proof.
  intros Hp Hn. unfold turn.
  eapply (offers_bind _ _ _ (fun _ hi => hi = next)).
  { intros c (? & ? & ? & ?). split; [by split_and!|]. by split; [lia|]. }
  intros found hi -> _. destruct found; [by apply offers_discover|].
  eapply (offers_bind _ _ _ (fun _ hi => hi = next)).
  - unfold idle. eapply (offers_bind _ _ _ (fun _ hi => hi = next)).
    { by apply offers_ret; [lia|]. }
    intros _ hi -> _. destruct (negb _); [|by apply offers_ret; lia].
    eapply offers_bind; [by apply offers_unwrap, offers_context, offers_get_eid; [lia|]|].
    intros resp hi [_ ->] _. by apply offers_unwrap, offers_lift; [lia|].
  - intros _ hi -> _. apply offers_ret; lia.
Qed.

Lemma offers_turns n ping next :
  u8 ping -> 0 <= next <= 255 -> offers next (turns true n ping next) (fun _ _ => True).
Proof.
  intros Hp. revert next. induction n as [|n IH]; intros next Hn; [by apply offers_ret; lia|].
  cbn [turns]. eapply offers_bind; [by apply offers_turn|].
  intros next' hi Hq Hhi. simpl in Hq. apply (offers_lower next'); [lia|done|]. apply IH. lia.
Qed.

(** ** Runs against an environment *)

(** What the environment must respect: the ranges of the context's bytes, and
    that replies are byte strings. *)
Record env_ok (e : env) : Prop := {
  interfere_valid n c : valid c -> valid (interfere e n c);
  exchange_valid n buf c : valid c -> valid (exchange_with e n buf c).1;
  exchange_bytes n buf c : exchange_ok (exchange_with e n buf c).2;
  sleep_valid n c : valid c -> valid (sleep e n c);
}.

Lemma offers_run {A} e lo (p : prog A) Q s :
  env_ok e -> offers lo p Q -> valid (ctx s) ->
  valid (ctx (run e p s).1) /\ exists new hi, sent (run e p s).1 = sent s ++ new /\
    lo <= hi <= 255 /\ increasing lo hi (grants new) /\ Forall own_request new /\
    (forall a, (run e p s).2 = Ok a -> Q a hi).
Proof.
  intros He. revert lo s. induction p as [o|f k IH|buf k IH|p IH]; intros lo s; cbn [offers run].
  - intros [Hlo HQ] Hs. split; [done|]. exists [], lo. rewrite app_nil_r.
    split_and!; [done|lia|lia|apply increasing_nil|constructor|done].
  - intros Hk Hs. destruct (Hk _ (interfere_valid e He (clock s) _ Hs)) as [Hf Hp].
    exact (IH _ lo (mk_sys _ (sent s) (S (clock s))) Hp Hf).
  - intros (hi & Hb & Hi & Hown & Hk) Hs.
    pose proof (exchange_valid e He (clock s) buf _ Hs) as Hv.
    pose proof (exchange_bytes e He (clock s) buf (ctx s)) as Hx.
    destruct (exchange_with e (clock s) buf (ctx s)) as [c x]. simpl in Hv, Hx.
    set (s' := mk_sys c _ _).
    destruct (IH x hi s' (Hk x Hx) Hv) as (Hv' & new & hi' & Hsent & Hb' & Hi' & Ho' & HQ).
    split; [done|].
    assert (exists now, sent s' = sent s ++ now /\ increasing lo hi (grants now) /\
      Forall own_request now) as (now & Hnow & Hin & Ho).
    { subst s'. destruct x; cbn [sent].
      - exists []. split_and!; [by rewrite app_nil_r|apply increasing_nil|constructor].
      - exists [buf]. rewrite grants_one, Forall_singleton. done.
      - exists [buf]. rewrite grants_one, Forall_singleton. done. }
    exists (now ++ new), hi'. rewrite Hsent, Hnow, (assoc_L (++)), grants_app.
    split_and!; [done|lia|lia| |by apply Forall_app|done]. by apply (increasing_app lo hi hi'); [lia|..].
  - intros Hp Hs. apply (IH lo (mk_sys _ (sent s) (S (clock s))) Hp), (sleep_valid e He), Hs.
Qed.

Lemma loop_requests e n ping c :
  env_ok e -> valid c -> u8 ping ->
  let s := (run e (run_bus_owner_loop true n ping c) (mk_sys c [] 0)).1 in
  increasing (min_eid_in_pool c) 255 (grants (sent s)) /\ Forall own_request (sent s).
Proof.
  intros He Hc Hp s. pose proof Hc as (_ & Hmin & _). unfold uint in Hmin.
  destruct (offers_run e (min_eid_in_pool c) (run_bus_owner_loop true n ping c) (fun _ _ => True)
    (mk_sys c [] 0) He) as (_ & new & hi & Hsent & Hb & Hi & Ho & _);
    [by apply offers_turns; [|lia]|done|].
  assert (sent s = new) as -> by exact Hsent. split; [|done].
  by eapply increasing_weaken; [| |exact Hi]; lia.
Qed.

(** C9: With overflow checks on, the bus owner never offers an EID twice: over any
    number of turns, whatever the endpoints reply and whoever changes the
    shared context meanwhile, the EIDs of its Set Endpoint ID and Allocate
    Endpoint IDs packets are strictly increasing, from the start of the pool
    and below 255. *)
Theorem eids_offered_once e n ping c :
  env_ok e -> valid c -> u8 ping ->
  let s := (run e (run_bus_owner_loop true n ping c) (mk_sys c [] 0)).1 in
  StronglySorted Z.lt (grants (sent s)) /\
  Forall (fun eid => min_eid_in_pool c <= eid < 255) (grants (sent s)).
Proof. intros He Hc Hp. by destruct (loop_requests e n ping c He Hc Hp). Qed.

End offers.
End Offers.
