(* ===== verification/Interop.v ===== *)
(** * Discovery against a peer

    Runs of the discovery loop against an endpoint that answers with
    [handle_request], and concrete runs: what happens at the end of the pool and
    with a pool of one EID. *)
From Stdlib Require Import Sorting.Sorted.
From S2P Require Import Prelude Crates Reference Derive Enums Transport ControlModels.
From S2P Require Import ControlPayload SetEid GetEid AllocateEids GetRoutingTable Errors BusOwner.
From S2P Require Import Discovery Offers.

Module DiscoveryFacts.
Import Bus MctpEndpointContext Discovery BusOwnerFacts Offers.
Section facts.
Context `{CratesLaws, Debug}.

(** A bridge that asks for a pool of one EID: the EID is set aside, but the
    two ends of the pool are equal, and no allocation is sent. *)
Theorem pool_of_one_not_allocated checks e endpoint next resp s :
  EndpointContext.endpoint_type endpoint = GetEid.EndpointType.BusOwnerOrBridge ->
  EndpointContext.eid_allocation_status endpoint =
    SetEid.EidAllocationStatus.RequiresPoolAllocation ->
  SetEid.Response.eid_pool_size resp = 1 -> 0 <= next < 255 ->
  exists endpoint', reserve_pool checks endpoint next resp = Ok (endpoint', next + 1) /\
    EndpointContext.dynamic_eid_pool_size endpoint' = 1 /\
    run e (allocate_pool endpoint') s = (s, Ok tt).
Proof.
  intros Ht Ha Hp Hn. unfold reserve_pool. rewrite Ht, Ha, Hp, !bool_decide_true by done.
  rewrite !arith_Ok by (unfold uint; lia). cbn [andb mbind outcome_bind].
  replace (next + 1 - 1) with next by lia. rewrite arith_Ok by (unfold uint; lia).
  eexists. split_and!; [done|done|]. unfold allocate_pool. simpl. by rewrite Z.eqb_refl.
Qed.

(** A completion code of 0 is a success. *)
Lemma is_success_zero {T : Type} `{ControlMsgReponseStatus T} (r : T) :
  completion_code_field r = 0 -> is_success r = Ok tt.
Proof.
  intros Hr. unfold is_success. rewrite Hr.
  by rewrite (from_u8_of CompletionCode.Success 0), bool_decide_true.
Qed.

(** Decoding a response, from its bytes. *)
Lemma decode_response {T : Type} `{SerdeLaws T} v d s t c0 c1 cmd body w (resp : T) rest :
  is_bytes (v :: d :: s :: t :: c0 :: c1 :: cmd :: body) ->
  has_type (ser_type_of T) w -> of_value w = Some resp ->
  c0 :: c1 :: cmd :: body = flatten w ++ rest ->
  exists p, ControlPayload.try_to_response (try_from_bytes (T:=T))
    (v :: d :: s :: t :: c0 :: c1 :: cmd :: body) = Ok (p, resp) /\
    ControlPayload.hdr p = TransportHeader.mk [v] d s [t].
Proof.
  intros Hbs Hw Hr Hf. unfold ControlPayload.try_to_response.
  rewrite parse_payload_bytes by done. cbn [context map_err mbind outcome_bind].
  cbn [ControlPayload.payload ControlPayload.new]. rewrite (try_from_value w resp rest) by done.
  by eexists.
Qed.

(** An endpoint that answers with [handle_request], in the context [d].
    [code] is what follows a packet on the wire. *)
Definition peer (d : MctpEndpointContext.t) (code : bytes -> bytes) : env :=
  mk_env (fun _ c => c)
    (fun _ buf c => (c, match (handle_request d (buf ++ code buf)).2 with
                        | Ok rsp => Replied (inl (rsp ++ code rsp))
                        | _ => Closed
                        end))
    (fun _ c => c).

Section peer.
Context (c d : MctpEndpointContext.t) (code : bytes -> bytes) (Hc : valid c).
Context (Hcode : forall packet, is_bytes (code packet)).

(** The peer's reply to a request under the bus owner's headers. *)
Lemma peer_handles dst cmd body rest d' :
  u8 dst -> u8 cmd -> is_bytes body -> is_bytes rest ->
  (forall s t c1 tail, HandlerSpec.handle d (1 :: dst :: s :: t :: 0 :: c1 :: cmd :: body ++ tail) =
    (d', Ok (HandlerSpec.reply_headers dst s t 0 c1 cmd ++ rest))) ->
  exists s t c1 tail,
    handle_request d ((request_headers c dst cmd ++ body) ++ code (request_headers c dst cmd ++ body)) =
      (d', Ok (HandlerSpec.reply_headers dst s t 0 c1 cmd ++ rest)) /\
    tail = code (HandlerSpec.reply_headers dst s t 0 c1 cmd ++ rest) /\
    is_bytes ((HandlerSpec.reply_headers dst s t 0 c1 cmd ++ rest) ++ tail).
Proof.
  intros Hdst Hcmd Hbody Hrest Hh.
  pose proof (request_headers_bytes c dst cmd Hc Hdst Hcmd) as Hb.
  do 4 eexists. split_and!; [|reflexivity|].
  - rewrite handle_request_handle by (by repeat apply is_bytes_app).
    rewrite <- (assoc_L (++)). apply Hh.
  - apply is_bytes_app; [|apply Hcode].
    unfold request_headers in Hb. repeat (apply Forall_cons in Hb as [? Hb]).
    apply reply_headers_bytes; [solve_bytes|done].
Qed.

Lemma peer_get_eid dst tr n :
  u8 dst ->
  exists h, run (peer d code) (send_get_eid_request dst) (mk_sys c tr n) =
    (mk_sys (after_request c) (tr ++ [request_headers c dst 2]) (2 + n),
     Ok (GetEid.Response.mk h 0 0 [0] 0)).
Proof.
  intros Hdst. unfold send_get_eid_request.
  rewrite (run_request _ _ _ _ (after_request c) (request_headers c dst 2)) by by apply get_eid_request_bytes.
  cbn [exchange_with peer].
  destruct (peer_handles dst 2 [] [0; 0; 0; 0] d) as (s & t & c1 & tail & Hh & Htl & Hb);
    [done|solve_range|done|auto with mctp| |].
  { intros s t c1 tail. cbn [HandlerSpec.handle]. by rewrite (from_u8_of CommandCode.GetEndpointID 2). }
  rewrite app_nil_r in Hh. rewrite Hh. cbn [snd]. rewrite <- Htl. clear Htl.
  unfold HandlerSpec.reply_headers in Hb |- *. cbn [app] in Hb |- *.
  pose proof Hb as Hb'. repeat (apply Forall_cons in Hb' as [? Hb']).
  set (c2 := c1 mod 128) in *. cbn [decode_reply].
  destruct (decode_response (T:=GetEid.Response.t) _ _ _ _ _ _ _ _
    (SStruct [SStruct [STuple [SU8 0; SU8 c2]; SU8 2]; SU8 0; SU8 0; STuple [SU8 0]; SU8 0])
    (GetEid.Response.mk (ControlMsgHeader.mk [0; c2] (from_u8 2)) 0 0 [0] 0) tail Hb)
    as (p & -> & _); [solve_typed|done|done|].
  by eexists.
Qed.

Lemma peer_set_eid tr n eid :
  u8 eid ->
  let assign := request_headers c 0 1 ++ [0; eid] in
  (exists h, run (peer d code) (send_set_eid_request eid) (mk_sys c tr n) =
    (mk_sys (after_request c) (tr ++ [assign]) (2 + n), Ok (SetEid.Response.mk h 0 [0] eid 0))) /\
  (handle_request d (assign ++ code assign)).1 = store_assigned_eid d eid.
Proof.
  intros He assign. assert (u8 0) as Hz by solve_range.
  destruct (peer_handles 0 1 [0; eid] [0; 0; eid; 0] (store_assigned_eid d eid))
    as (s & t & c1 & tail & Hh & Htl & Hb); [done|solve_range|auto with mctp|auto with mctp| |].
  { intros s t c1 tail. cbn [HandlerSpec.handle app]. by rewrite (from_u8_of CommandCode.SetEndpointID 1). }
  fold assign in Hh. split; [|by rewrite Hh].
  unfold send_set_eid_request.
  rewrite (run_request _ _ _ _ (after_request c) assign) by by apply set_eid_request_bytes.
  cbn [exchange_with peer].
  rewrite Hh. cbn [snd]. rewrite <- Htl. clear Htl.
  unfold HandlerSpec.reply_headers in Hb |- *. cbn [app] in Hb |- *.
  pose proof Hb as Hb'. repeat (apply Forall_cons in Hb' as [? Hb']).
  set (c2 := c1 mod 128) in *. cbn [decode_reply].
  destruct (decode_response (T:=SetEid.Response.t) _ _ _ _ _ _ _ _
    (SStruct [SStruct [STuple [SU8 0; SU8 c2]; SU8 1]; SU8 0; STuple [SU8 0]; SU8 eid; SU8 0])
    (SetEid.Response.mk (ControlMsgHeader.mk [0; c2] (from_u8 1)) 0 [0] eid 0) tail Hb)
    as (p & -> & _); [solve_typed|done|done|].
  by eexists.
Qed.

End peer.

(** The assignment the peer accepts; the next EID is computed first. *)
Lemma peer_assign checks c d code endpoint next next' tr n :
  valid c -> (forall packet, is_bytes (code packet)) -> u8 next ->
  arith (E:=AnyError) checks 8 (next + 1) = Ok next' ->
  run (peer d code) (assign_eid checks endpoint next) (mk_sys c tr n) =
    (mk_sys (after_request c) (tr ++ [request_headers c 0 1 ++ [0; next]]) (2 + n),
     Ok (set_allocation_status endpoint SetEid.EidAllocationStatus.NoPoolSupport, next')).
Proof.
  intros Hc Hcode Hu Hnext.
  destruct (peer_set_eid c d code Hc Hcode tr n next Hu) as [(h & Hset) _].
  unfold assign_eid. rewrite Hnext, run_bind. cbn [lift run try_with].
  rewrite run_bind. unfold with_context. rewrite run_on_outcome, Hset. cbn [context map_err try_with].
  rewrite run_bind, is_success_zero by done. cbn [lift run try_with].
  unfold SetEid.Response.eid_allocation_status, SetEid.Response.raw_eid_allocation_status,
    SetEid.Response.eid_assignment_status, SetEid.Response.getter.
  rewrite !(get_field_zero 1) by first [done | solve_in_field].
  rewrite (from_u8_of SetEid.EidAllocationStatus.NoPoolSupport 0) by done. cbn [Z.eqb negb].
  unfold reserve_pool. cbn [set_allocation_status EndpointContext.eid_allocation_status].
  by rewrite (bool_decide_false (SetEid.EidAllocationStatus.NoPoolSupport = _)), andb_false_r.
Qed.

(** A round of discovery asks, and goes on with the assignment. *)
Lemma peer_discover_assign checks c d code next tr n :
  valid c -> (forall packet, is_bytes (code packet)) ->
  exists endpoint, EndpointContext.min_dynamic_eid endpoint = EndpointContext.max_dynamic_eid endpoint /\
    run (peer d code) (discover checks next) (mk_sys c tr n) =
      let '(s, o) := run (peer d code) (assign_eid checks endpoint next)
        (mk_sys (after_request c) (tr ++ [request_headers c 0 2]) (2 + n)) in
      run (peer d code) (try_with (fun r => _ ← allocate_pool r.1; mret r.2) o) s.
Proof.
  intros Hc Hcode. destruct (peer_get_eid c d code Hc Hcode 0 tr n) as (h & Hget); [solve_range|].
  exists (discovered (GetEid.Response.mk h 0 0 [0] 0)). split; [done|].
  unfold discover, with_context. rewrite run_bind, run_on_outcome, Hget.
  cbn [context map_err try_with]. rewrite run_bind, is_success_zero by done.
  cbn [context map_err lift run try_with].
  assert (EndpointContext.eid_type (discovered (GetEid.Response.mk h 0 0 [0] 0)) =
    GetEid.EidType.Dynamic) as ->.
  { unfold discovered. cbn [EndpointContext.eid_type]. unfold GetEid.Response.eid_type, GetEid.Response.getter.
    rewrite (get_field_zero 1) by first [done | solve_in_field]. by apply from_u8_of. }
  by rewrite bool_decide_true, run_bind.
Qed.

Lemma peer_discover_next checks c d code next next' tr n :
  valid c -> (forall packet, is_bytes (code packet)) -> u8 next ->
  arith (E:=AnyError) checks 8 (next + 1) = Ok next' ->
  run (peer d code) (discover checks next) (mk_sys c tr n) =
    (mk_sys (after_request (after_request c))
       (tr ++ [request_headers c 0 2; request_headers (after_request c) 0 1 ++ [0; next]]) (4 + n), Ok next').
Proof.
  intros Hc Hcode Hu Hnext. pose proof (after_request_valid c Hc) as Hc'.
  destruct (peer_discover_assign checks c d code next tr n Hc Hcode) as (endpoint & Hends & ->).
  rewrite (peer_assign checks (after_request c) d code endpoint next next') by done.
  cbn [try_with fst snd]. unfold allocate_pool. cbn. rewrite Hends, Z.eqb_refl. cbn.
  by rewrite <- (assoc_L (++)).
Qed.

(** When the EIDs overflow, the round ends after its question. *)
Lemma peer_discover_panic checks c d code next tr n w :
  valid c -> (forall packet, is_bytes (code packet)) ->
  arith (E:=AnyError) checks 8 (next + 1) = Panic w ->
  run (peer d code) (discover checks next) (mk_sys c tr n) =
    (mk_sys (after_request c) (tr ++ [request_headers c 0 2]) (2 + n), Panic w).
Proof.
  intros Hc Hcode Hnext.
  destruct (peer_discover_assign checks c d code next tr n Hc Hcode) as (endpoint & _ & ->).
  unfold assign_eid. by rewrite Hnext, run_bind.
Qed.

Lemma peer_discover checks c d code next tr n :
  valid c -> (forall packet, is_bytes (code packet)) -> 0 <= next < 255 ->
  let ask := request_headers c 0 2 in
  let assign := request_headers (after_request c) 0 1 ++ [0; next] in
  run (peer d code) (discover checks next) (mk_sys c tr n) =
    (mk_sys (after_request (after_request c)) (tr ++ [ask; assign]) (4 + n), Ok (next + 1)) /\
  (handle_request d (assign ++ code assign)).1 = store_assigned_eid d next.
Proof.
  intros Hc Hcode Hn ask assign. assert (u8 next) as Hu by (unfold uint; lia).
  pose proof (after_request_valid c Hc) as Hc'.
  destruct (peer_set_eid (after_request c) d code Hc' Hcode (tr ++ [ask]) n next Hu) as [_ Hd].
  split; [|done]. apply peer_discover_next; [done|done|done|]. apply arith_Ok. unfold uint. lia.
Qed.

(** ** Round after round *)

Lemma run_clock {A} e (p : prog A) s : (clock s <= clock (run e p s).1)%nat.
Proof.
  revert s. induction p as [o|f k IH|buf k IH|p IH]; intros s; cbn [run]; [done| | |].
  - etrans; [|apply IH]. cbn. lia.
  - destruct (exchange_with _ _ _ _). etrans; [|apply IH]. cbn. lia.
  - etrans; [|apply IH]. cbn. lia.
Qed.

(** A run depends on its environment at its own stops only. *)
Lemma run_agrees {A} e e' (p : prog A) s :
  (forall m, (clock s <= m < clock (run e' p s).1)%nat ->
    (forall c, interfere e m c = interfere e' m c) /\
    (forall buf c, exchange_with e m buf c = exchange_with e' m buf c) /\
    (forall c, sleep e m c = sleep e' m c)) ->
  run e p s = run e' p s.
Proof.
  revert s. induction p as [o|f k IH|buf k IH|p IH]; intros s Hag; cbn [run] in *; [done| | |].
  - destruct (Hag (clock s)) as (-> & _); [split; [done|eapply Nat.lt_le_trans; [|apply run_clock]; cbn; lia]|].
    apply IH. cbn [clock]. intros m Hm. apply Hag. lia.
  - destruct (exchange_with e' (clock s) buf (Bus.ctx s)) as [c x] eqn:Hx.
    destruct (Hag (clock s)) as (_ & -> & _); [split; [done|eapply Nat.lt_le_trans; [|apply run_clock]; cbn; lia]|].
    rewrite Hx. apply IH. cbn [clock]. intros m Hm. apply Hag. lia.
  - destruct (Hag (clock s)) as (_ & _ & ->); [split; [done|eapply Nat.lt_le_trans; [|apply run_clock]; cbn; lia]|].
    apply IH. cbn [clock]. intros m Hm. apply Hag. lia.
Qed.

(** An endpoint that answers as [peer] and asks for a discovery before each turn
    of the loop; a turn with a discovery has five stops. *)
Definition notifying (d : MctpEndpointContext.t) (code : bytes -> bytes) : env :=
  mk_env (fun m c => if (m mod 5 =? 0)%nat then store_perform_discovery c true else c)
    (exchange_with (peer d code)) (fun _ c => c).

(** In the middle of a turn it is [peer]. *)
Lemma notifying_discover d code {A} (p : prog A) c tr k s :
  run (peer d code) p (mk_sys c tr (S (5 * k))) = s -> (clock s.1 <= 5 + 5 * k)%nat ->
  run (notifying d code) p (mk_sys c tr (S (5 * k))) = s.
Proof.
  intros <- Hk. apply run_agrees. cbn [clock]. intros m Hm. split; [|split; reflexivity].
  intros c'. cbn [interfere notifying peer]. destruct (Nat.eqb_spec (m mod 5) 0) as [Hz|]; [|done].
  exfalso. apply Nat.Div0.mod_divides in Hz as [q ->]. lia.
Qed.

Lemma notifying_turn d code checks ping c next tr k :
  run (notifying d code) (turn checks ping next) (mk_sys c tr (5 * k)) =
    run (notifying d code) (discover checks next) (mk_sys (store_perform_discovery c false) tr (S (5 * k))).
Proof.
  unfold turn. rewrite run_bind. cbn [run swap_perform_discovery Bus.ctx clock sent].
  assert (interfere (notifying d code) (5 * k) c = store_perform_discovery c true) as ->.
  { cbn [interfere notifying]. by rewrite Nat.mul_comm, Nat.Div0.mod_mul. }
  cbn [store_perform_discovery perform_discovery try_with]. by destruct c.
Qed.

(** The EIDs from [start] on, modulo 256. *)
Definition eids_from (start : Z) (n : nat) : list Z := (fun i => (start + Z.of_nat i) mod 256) <$> seq 0 n.

Lemma eids_from_S start n :
  u8 start -> eids_from start (S n) = start :: eids_from ((start + 1) mod 256) n.
Proof.
  intros Hs. unfold eids_from. cbn [seq fmap list_fmap].
  rewrite Z.add_0_r, Z.mod_small by (unfold uint in Hs; lia). f_equal.
  rewrite <- fmap_S_seq, <- list_fmap_compose. apply list_fmap_ext. intros i x _. cbn [compose].
  rewrite Zplus_mod_idemp_l. f_equal. lia.
Qed.

(** After 256 of them they repeat. *)
Lemma eids_from_repeat start n : (256 < n)%nat -> ~ NoDup (eids_from start n).
Proof.
  intros Hn Hnd. assert (forall i, (i < n)%nat ->
    eids_from start n !! i = Some ((start + Z.of_nat i) mod 256)) as Hi.
  { intros i Hi. unfold eids_from. rewrite list_lookup_fmap, lookup_seq_lt by lia. done. }
  assert (0 = 256)%nat; [|done]. eapply NoDup_lookup; [exact Hnd|apply Hi; lia|].
  rewrite Hi by lia. f_equal. change (Z.of_nat 256) with 256. change (Z.of_nat 0) with 0.
  by rewrite <- Zplus_mod_idemp_r, Z_mod_same_full.
Qed.

Lemma store_valid c b : valid c -> valid (store_perform_discovery c b).
Proof. by intros (? & ? & ? & ?). Qed.

(** A round that is asked for offers one EID, or overflows. *)
Lemma notifying_round checks d code ping c next tr k :
  valid c -> (forall packet, is_bytes (code packet)) -> u8 next ->
  exists c' now, valid c' /\
    if checks && (next =? 255) then
      exists m, run (notifying d code) (turn checks ping next) (mk_sys c tr (5 * k)) =
        (mk_sys c' (tr ++ now) m, Panic PanicOverflow) /\ grants now = []
    else
      run (notifying d code) (turn checks ping next) (mk_sys c tr (5 * k)) =
        (mk_sys c' (tr ++ now) (5 * S k), Ok ((next + 1) mod 256)) /\ grants now = [next].
Proof.
  intros Hc Hcode Hn. rewrite notifying_turn. set (c0 := store_perform_discovery c false).
  assert (valid c0) as Hc0 by by apply store_valid.
  pose proof (after_request_valid c0 Hc0) as Hc1. pose proof (after_request_valid _ Hc1) as Hc2.
  assert (u8 0) as Hz by solve_range.
  destruct (checks && (next =? 255)) eqn:Hend.
  - apply andb_true_iff in Hend as [-> ->%Z.eqb_eq].
    do 2 eexists. split; [exact Hc1|]. eexists. split.
    + apply notifying_discover; [by eapply peer_discover_panic|cbn [fst clock]; lia].
    + by rewrite grants_one; apply own_get_eid.
  - assert (arith (E:=AnyError) checks 8 (next + 1) = Ok ((next + 1) mod 256)) as Hnext.
    { unfold arith. change (2 ^ 8) with 256. unfold uint in Hn. case_decide.
      - by rewrite Z.mod_small by lia.
      - destruct checks; [|done]. cbn [andb] in Hend. apply Z.eqb_neq in Hend. lia. }
    do 2 eexists. split; [exact Hc2|]. split.
    + rewrite (notifying_discover d code _ c0 tr k _ (peer_discover_next _ c0 d code next _ tr _ Hc0 Hcode Hn Hnext));
        [|cbn [fst clock]; lia]. do 2 f_equal. lia.
    + change [?a; ?b] with ([a] ++ [b]). rewrite grants_app, !grants_one.
      destruct (own_get_eid c0 0 Hc0 Hz) as [_ ->]. by destruct (own_set_eid (after_request c0) next Hc1 Hn) as [_ ->].
Qed.

(** The rounds one after the other. *)
Lemma notifying_turns checks d code ping n : forall c next tr k,
  valid c -> (forall packet, is_bytes (code packet)) -> u8 next ->
  let fits := negb checks || (next + Z.of_nat n <=? 255) in
  exists s new,
    run (notifying d code) (turns checks n ping next) (mk_sys c tr (5 * k)) =
      (s, if fits then Ok ((next + Z.of_nat n) mod 256) else Panic PanicOverflow) /\
    sent s = tr ++ new /\ grants new = eids_from next (if fits then n else Z.to_nat (255 - next)).
Proof.
  induction n as [|n IH]; intros c next tr k Hc Hcode Hn fits.
  { exists (mk_sys c tr (5 * k)), []. unfold uint in Hn. assert (fits = true) as ->.
    { subst fits. rewrite (proj2 (Z.leb_le _ _)) by lia. by destruct checks. }
    rewrite Z.add_0_r, Z.mod_small, app_nil_r by lia. done. }
  destruct (notifying_round checks d code ping c next tr k Hc Hcode Hn) as (c' & now & Hc' & Hround).
  cbn [turns]. rewrite run_bind. unfold uint in Hn. destruct (checks && (next =? 255)) eqn:Hend.
  - destruct Hround as (m & -> & Hg). cbn [try_with run].
    apply andb_true_iff in Hend as [-> ->%Z.eqb_eq]. assert (fits = false) as ->
      by (subst fits; cbn [negb orb]; apply Z.leb_gt; lia).
    exists (mk_sys c' (tr ++ now) m), now. by rewrite Hg.
  - destruct Hround as (-> & Hg). cbn [try_with].
    assert (u8 ((next + 1) mod 256)) as Hu by (unfold uint; apply Z.mod_pos_bound; lia).
    destruct (IH c' ((next + 1) mod 256) (tr ++ now) (S k) Hc' Hcode Hu) as (s & new & -> & Hs & Hnew).
    assert (negb checks || ((next + 1) mod 256 + Z.of_nat n <=? 255) = fits /\
      (fits = false -> Z.to_nat (255 - next) = S (Z.to_nat (255 - (next + 1) mod 256)))) as [Hf Hcount].
    { subst fits. destruct checks; [|done]. cbn [negb orb andb] in *. apply Z.eqb_neq in Hend.
      rewrite Z.mod_small by lia. split; [f_equal; lia|intros _; lia]. }
    rewrite Hf in *. exists s, (now ++ new). rewrite Hs, (assoc_L (++)), grants_app, Hg, Hnew.
    split_and!; [|done|].
    + destruct fits; [|done]. rewrite Zplus_mod_idemp_l. do 3 f_equal. lia.
    + destruct fits; [|rewrite Hcount by done]; by rewrite eids_from_S.
Qed.

(** C40: The next EID is an [u8].  Against an endpoint that answers with
    [handle_request] and asks for a discovery before each turn, [n] turns of the
    loop offer the [n] EIDs from the start of the pool on, modulo 256, and return the
    one after them: without overflow checks for every [n], so more than 256 turns
    offer an EID twice; with overflow checks as long as they stay below 255, and
    past it the EIDs below 255 are offered and the loop panics. *)
Theorem next_eid_wraps checks d code ping c n :
  valid c -> (forall packet, is_bytes (code packet)) ->
  let start := min_eid_in_pool c in
  let r := run (notifying d code) (run_bus_owner_loop checks n ping c) (mk_sys c [] 0) in
  (if negb checks || (start + Z.of_nat n <=? 255)
   then r.2 = Ok ((start + Z.of_nat n) mod 256) /\
        grants (sent r.1) = (fun i => (start + Z.of_nat i) mod 256) <$> seq 0 n
   else r.2 = Panic PanicOverflow /\
        grants (sent r.1) = (fun i => (start + Z.of_nat i) mod 256) <$> seq 0 (Z.to_nat (255 - start))) /\
  (checks = false -> (256 < n)%nat -> ~ NoDup (grants (sent r.1))).
Proof.
  intros Hc Hcode start r. pose proof Hc as (_ & Hmin & _).
  destruct (notifying_turns checks d code ping n c start [] 0 Hc Hcode Hmin) as (s & new & Hr & Hs & Hnew).
  assert (r = (s, if negb checks || (start + Z.of_nat n <=? 255)
    then Ok ((start + Z.of_nat n) mod 256) else Panic PanicOverflow)) as -> by exact Hr.
  cbn [fst snd]. rewrite Hs. cbn [app]. rewrite Hnew. split.
  - by destruct (negb checks || _).
  - intros -> Hn. by apply eids_from_repeat.
Qed.

(** An idle turn: a ping, when there is an EID to ping. *)
Definition ping_packets (c : MctpEndpointContext.t) (ping : Z) : list bytes :=
  if ping =? 0 then [] else [request_headers c ping 2].
Definition after_ping (c : MctpEndpointContext.t) (ping : Z) : MctpEndpointContext.t :=
  if ping =? 0 then c else after_request c.

Lemma peer_turn_idle checks c d code ping next tr n :
  valid c -> (forall packet, is_bytes (code packet)) -> u8 ping -> perform_discovery c = false ->
  exists k, run (peer d code) (turn checks ping next) (mk_sys c tr n) =
    (mk_sys (after_ping c ping) (tr ++ ping_packets c ping) k, Ok next).
Proof.
  intros Hc Hcode Hping Hp. unfold turn, idle, ping_packets, after_ping. rewrite run_bind.
  cbn [run swap_perform_discovery Bus.ctx clock]. change (interfere (peer d code) _ ?x) with x.
  rewrite Hp. cbn [try_with].
  assert (store_perform_discovery c false = c) as -> by (destruct c; simpl in *; by subst).
  rewrite !run_bind. cbn [sleep_5s run Bus.sleep peer mret prog_ret try_with Bus.ctx sent clock].
  destruct (Z.eqb_spec ping 0) as [|Hnz]; cbn [negb].
  - rewrite app_nil_r. by eexists.
  - destruct (peer_get_eid c d code Hc Hcode ping tr (S (S n)) Hping) as (h & Hget).
    unfold unwrap_result, with_context. rewrite run_bind, run_on_outcome, run_on_outcome, Hget.
    cbn [context map_err unwrap try_with]. rewrite run_on_outcome, is_success_zero by done. by eexists.
Qed.

(** C17: The bus owner and an endpoint that answers with [handle_request]
    interoperate: a round of discovery asks for the EID, assigns the next one
    and ends there, and the endpoint has stored it; whatever bytes follow a
    packet on the wire. *)
Theorem discovery_completes checks c d code next tr n :
  valid c -> (forall packet, is_bytes (code packet)) -> 0 <= next < 255 ->
  let ask := request_headers c 0 2 in
  let assign := request_headers (after_request c) 0 1 ++ [0; next] in
  run (peer d code) (discover checks next) (mk_sys c tr n) =
    (mk_sys (after_request (after_request c)) (tr ++ [ask; assign]) (4 + n), Ok (next + 1)) /\
  (handle_request d (assign ++ code assign)).1 = store_assigned_eid d next.
Proof. apply peer_discover. Qed.

End facts.
End DiscoveryFacts.

(** ** Concrete runs *)
Module DiscoveryRuns.
Import Bus MctpEndpointContext Discovery Offers.
#[local] Instance debug : Debug := {| debug_set_eid _ := ""%string; debug_allocate _ := ""%string |}.
#[local] Existing Instance Reference.crates.
#[local] Existing Instance Reference.crates_laws.

(** The context [main] builds. *)
Definition main_context : MctpEndpointContext.t := mk 0x10 [0x7e] false 0 false 0x80 32 1 1.

(** The context once discovery was asked for. *)
Definition notified : MctpEndpointContext.t := store_perform_discovery main_context true.

(** A bridge that asks for [pool] EIDs and wants to be discovered again: the
    replies of one round, by the stops of the loop. *)
Definition bridge_reply (pool : Z) (n : nat) : bytes :=
  match (n mod 7)%nat with
  | 2%nat => [1; 0; 0; 0xc1; 0; 0; 2; 0; 0; 0x10; 0]
  | 4%nat => [1; 0; 0; 0xc2; 0; 0; 1; 0; 1; 0; pool]
  | _ => [1; 0; 0; 0xc3; 0; 0; 8; 0; 0; pool; 0]
  end.

Definition bridge (pool : Z) : env :=
  mk_env (fun _ c => c)
    (fun n _ c => (store_perform_discovery c true, Replied (inl (bridge_reply pool n))))
    (fun _ c => c).

Lemma bridge_ok pool : u8 pool -> env_ok (bridge pool).
Proof.
  intros Hp. split; [done|by intros n buf c (? & ? & ? & ?)| |done].
  intros n buf c. simpl. unfold bridge_reply. destruct (n mod 7)%nat as [|[|[|[|[|?]]]]]; solve_bytes.
Qed.

(** The size of the pool the bus owner was given is never looked at: with 32
    EIDs from 0x80 on, it offers an EID past them. *)
Theorem pool_size_not_enforced :
  let s := (run (bridge 100) (run_bus_owner_loop true 1 0 notified) (mk_sys notified [] 0)).1 in
  eid_pool_size notified = 32 /\
  exists eid, eid ∈ grants (sent s) /\
    min_eid_in_pool notified + eid_pool_size notified <= eid.
Proof.
  split; [done|]. exists 0xe0. split; [|vm_compute; congruence].
  apply (bool_decide_unpack _). vm_compute. exact I.
Qed.

Lemma main_context_valid : valid main_context.
Proof. repeat split; vm_compute; congruence. Qed.

Lemma notified_valid : valid notified.
Proof. exact main_context_valid. Qed.

Lemma eids_offered_once_witness :
  let s := (run (bridge 30) (run_bus_owner_loop true 3 0 notified) (mk_sys notified [] 0)).1 in
  let eids := grants (sent s) in
  length eids = 93%nat /\ StronglySorted Z.lt eids.
Proof.
  split; [vm_compute; reflexivity|].
  apply (Offers.eids_offered_once (bridge 30) 3 0 notified);
    [apply bridge_ok; solve_range|exact notified_valid|solve_range].
Defined.

Lemma discovery_completes_witness :
  exists trace, run (DiscoveryFacts.peer notified (fun bs => [pec bs])) (discover true 0x80)
      (mk_sys notified [] 0) =
    (mk_sys (BusOwnerFacts.after_request (BusOwnerFacts.after_request notified)) trace 4, Ok 0x81).
Proof.
  destruct (DiscoveryFacts.discovery_completes true notified notified (fun bs => [pec bs])
    0x80 [] 0 notified_valid) as [Hd _];
    [intros packet; apply is_bytes_cons; [apply pec_u8|constructor]|lia|].
  eexists. exact Hd.
Defined.

(** 257 rounds of a release build from EID 0x80: the 0x80 is offered again. *)
Lemma next_eid_wraps_witness :
  let r := run (DiscoveryFacts.notifying notified (fun bs => [pec bs]))
    (run_bus_owner_loop false 257 0 notified) (mk_sys notified [] 0) in
  r.2 = Ok 0x81 /\ 0 ∈ grants (sent r.1) /\ ~ NoDup (grants (sent r.1)).
Proof.
  destruct (DiscoveryFacts.next_eid_wraps false notified (fun bs => [pec bs]) 0 notified 257 notified_valid)
    as [[Hr Hg] Hrep]; [intros packet; apply is_bytes_cons; [apply pec_u8|constructor]|].
  split; [exact Hr|]. split; [rewrite Hg; apply (bool_decide_unpack _); vm_compute; exact I|].
  apply Hrep; [reflexivity|]. apply Nat.ltb_lt. vm_compute. reflexivity.
Defined.

Lemma pool_of_one_not_allocated_witness :
  exists endpoint', EndpointContext.dynamic_eid_pool_size endpoint' = 1 /\
    run (bridge 1) (allocate_pool endpoint') (mk_sys notified [] 0) =
      (mk_sys notified [] 0, Ok tt).
Proof.
  destruct (DiscoveryFacts.pool_of_one_not_allocated true (bridge 1)
    (EndpointContext.mk 0 GetEid.EndpointType.BusOwnerOrBridge GetEid.EidType.Dynamic
      SetEid.EidAllocationStatus.RequiresPoolAllocation 0 0 0) 0x81
    (SetEid.Response.mk (ControlMsgHeader.mk [0; 1] CommandCode.SetEndpointID) 0 [1] 0x80 1)
    (mk_sys notified [] 0)) as (e' & _ & Hs & Ha); [reflexivity..|lia|].
  exists e'. split; [exact Hs|exact Ha].
Defined.

End DiscoveryRuns.
