(* ===== verification/EventLoop.v ===== *)
(** * The event loop of the bus owner example

    Models the task of [main] in [examples/basic_bus_owner_loop.rs] that takes
    commands from the channel: [send_cmd_closure], the [while let] loop and the
    [create_tag] closure, a copy of the function of the simple network.  The
    flow list is the task's own, so its lock is never poisoned while the task
    runs. *)
From S2P Require Import Prelude Crates Reference Derive Enums Transport ControlModels.
From S2P Require Import ControlPayload Errors Smbus Network BusOwner.

Module EventLoop.

Inductive PhysicalTransportCommands :=
  | ReceiveMsg (buf : bytes)
  | SendMsg (msg_type : MessageType.t) (buf : bytes) (resp : option channel).

Definition SMBUS_ADDR_7BIT : Z := 0x10.
Definition DEST_SMBUS_ADDR_7BIT : Z := Z.shiftr 0x60 1.

(** The shared context, and the task's [pending_cmd]. *)
Record t := mk {
  ctx : MctpEndpointContext.t;
  pending_cmd : MctpFlowList;
}.

(** What the task does: send a datagram, or complete a oneshot. *)
Inductive output :=
  | Frame (buf : bytes)
  | Answer (resp : channel) (buf : bytes).

Section loop.
Context `{Crates} (checks : bool).

(** The datagram of a packet: [buf.len() as u8 + 1] is arithmetic on [u8]. *)
Definition frame_of {E} (buf : bytes) : outcome E bytes :=
  count ← arith checks 8 (as_u8 (Z.of_nat (length buf)) + 1);
  let resp_buf := [shl1_u8 DEST_SMBUS_ADDR_7BIT; 0x0f; count;
    Z.lor (shl1_u8 SMBUS_ADDR_7BIT) 1] ++ buf in
  Ok (resp_buf ++ [pec resp_buf]).

(** The [create_tag] closure, a copy of the simple network's function. *)
Definition create_tag_closure (bs : bytes) : option MsgFlowTag.t :=
  if (length bs <? 4)%nat then Some MsgFlowTag.default_value
  else
    match try_from_bytes (T:=TransportHeader.t) bs with
    | Ok hdr =>
        Some (MsgFlowTag.mk (TransportHeader.destination_eid hdr) (TransportHeader.source_eid hdr)
          (TransportHeader.msg_tag hdr) (negb (TransportHeader.tag_owner hdr =? 0)))
    | _ => None
    end.

(** [send_cmd_closure]; [send] is what the socket's [send] returns, and a
    count that is short is only printed. *)
Definition send_cmd (send : bytes -> outcome io_error nat) (self : t) (msg_type : MessageType.t)
    (buf : bytes) (resp : option channel) : t * list output * outcome MctpEmuError.t unit :=
  let transmit self :=
    match frame_of buf with
    | Ok buf =>
        match unwrap (send buf) with
        | Ok sent_bytes => (self, [Frame buf], Ok tt)
        | Err e => (self, [], Err e)
        | Panic p => (self, [], Panic p)
        end
    | Err e => (self, [], Err e)
    | Panic p => (self, [], Panic p)
    end in
  match resp with
  | Some resp =>
      match create_tag_closure buf with
      | None => (self, [], Ok tt)
      | Some tag => transmit (mk (ctx self) (pending_cmd self ++ [(tag, resp)]))
      end
  | None => transmit self
  end.

(** [ReceiveMsg]: a packet that answers a pending request completes it, and
    any other is a request.  [send_ok ch] is whether the [send] to oneshot [ch]
    succeeds. *)
Definition receive (send_ok : channel -> bool) (send : bytes -> outcome io_error nat)
    (self : t) (buf : bytes) : t * list output * outcome MctpEmuError.t unit :=
  if (length buf <? 4)%nat || negb (default 0 (buf !! 1%nat) =? 0x0f) then (self, [], Ok tt)
  else
    match slice_from buf 4 with
    | Ok resp_buf =>
        match create_tag_closure resp_buf with
        | None => (self, [], Ok tt)
        | Some recv_tag =>
            let index := flow_index (pending_cmd self) recv_tag in
            match pending_cmd self !! index with
            | Some (_, resp) =>
                let self := mk (ctx self) (delete index (pending_cmd self)) in
                if send_ok resp then (self, [Answer resp resp_buf], Ok tt)
                else (self, [], Panic PanicUnwrap)
            | None =>
                let '(c, res) := MctpEndpointContext.handle_request (ctx self) resp_buf in
                let self := mk c (pending_cmd self) in
                match res with
                | Ok resp => send_cmd send self MessageType.Control resp None
                | Err err => (self, [], Ok tt)
                | Panic p => (self, [], Panic p)
                end
            end
        end
    | Err e => (self, [], Err e)
    | Panic p => (self, [], Panic p)
    end.

Definition handle (send_ok : channel -> bool) (send : bytes -> outcome io_error nat) (self : t)
    (cmd : PhysicalTransportCommands) : t * list output * outcome MctpEmuError.t unit :=
  match cmd with
  | ReceiveMsg buf => receive send_ok send self buf
  | SendMsg msg_type buf resp => send_cmd send self msg_type buf resp
  end.

(** The [while let] loop on the commands of the channel, up to a panic. *)
Fixpoint run (send_ok : channel -> bool) (send : bytes -> outcome io_error nat) (self : t)
    (cmds : list PhysicalTransportCommands) : t * list output * outcome MctpEmuError.t unit :=
  match cmds with
  | [] => (self, [], Ok tt)
  | cmd :: cmds =>
      let '(self, out, res) := handle send_ok send self cmd in
      match res with
      | Ok _ =>
          let '(self, out', res) := run send_ok send self cmds in
          (self, out ++ out', res)
      | Err e => (self, out, Err e)
      | Panic p => (self, out, Panic p)
      end
  end.

End loop.
End EventLoop.

(** ** Proofs *)

(** Unfold an operation of the loop; its closure is [create_tag]. *)
Ltac open_loop := unfold EventLoop.send_cmd, EventLoop.receive;
  change @EventLoop.create_tag_closure with @create_tag.

Module EventLoopFacts.
Import EventLoop BusOwnerFacts.
Section facts.
Context `{CratesLaws}.


(** The datagram of a packet of less than 255 bytes: its byte count covers the
    source address and the packet, and its error code everything before it. *)
Definition loop_frame (buf : bytes) : bytes :=
  let head := [0x60; 0x0f; Z.of_nat (length buf) + 1; 0x21] ++ buf in head ++ [pec head].

Lemma frame_of_short {E} checks buf :
  (length buf < 255)%nat -> frame_of (E:=E) checks buf = Ok (loop_frame buf).
Proof.
  intros Hl. unfold frame_of. rewrite as_u8_small by (unfold uint; lia).
  by rewrite arith_Ok by (unfold uint; lia).
Qed.

(** The error code at the end of a datagram. *)
Definition frame_code (buf : bytes) : bytes :=
  [pec ([0x60; 0x0f; Z.of_nat (length buf) + 1; 0x21] ++ buf)].

Lemma loop_frame_code buf :
  loop_frame buf = 0x60 :: 0x0f :: (Z.of_nat (length buf) + 1) :: 0x21 :: buf ++ frame_code buf.
Proof. done. Qed.

Lemma loop_frame_drop_code buf : drop 4 (loop_frame buf) = buf ++ frame_code buf.
Proof. done. Qed.

Lemma frame_code_bytes buf : is_bytes (frame_code buf).
Proof. apply is_bytes_cons; [apply pec_u8|constructor]. Qed.

(** C38: A packet of less than 255 bytes is framed with its length and one; with one
    byte more the count overflows: a panic, or a count of 0. *)
Theorem frame_byte_count {E} checks buf :
  (length buf <= 255)%nat ->
  frame_of (E:=E) checks buf =
    if decide (length buf = 255%nat) then
      if checks then Panic PanicOverflow
      else let head := [0x60; 0x0f; 0; 0x21] ++ buf in Ok (head ++ [pec head])
    else Ok (loop_frame buf).
Proof.
  intros Hl. case_decide as Heq; [|apply frame_of_short; lia].
  unfold frame_of. rewrite Heq. by destruct checks.
Qed.

(** The tag of a packet, from its bytes. *)
Lemma create_tag_bytes v d s t rest :
  is_bytes [v; d; s; t] ->
  create_tag (v :: d :: s :: t :: rest) =
    Some (MsgFlowTag.mk d s (t mod 8) (negb (t / 8 mod 2 =? 0))).
Proof.
  intros Hbs. unfold create_tag. cbn [length Nat.ltb Nat.leb].
  rewrite parse_transport_bytes by done.
  repeat (apply Forall_cons in Hbs as [? Hbs]).
  unfold TransportHeader.msg_tag, TransportHeader.tag_owner, TransportHeader.msg_tag_bits,
    TransportHeader.tag_owner_bits. cbn. get_bytes 1%nat. by rewrite Z.div_1_r.
Qed.

(** A successful reply is short, and answers the flow of its request. *)
Lemma reply_answers c c' bs rsp :
  is_bytes bs -> MctpEndpointContext.handle_request c bs = (c', Ok rsp) ->
  is_bytes rsp /\ (7 <= length rsp <= 11)%nat /\
  exists tag recv_tag, create_tag bs = Some tag /\
    (forall rest, create_tag (rsp ++ rest) = Some recv_tag) /\ answers_flow tag recv_tag = true.
Proof.
  intros Hbs. rewrite handle_request_handle by done. intros Hh.
  destruct (handle_ok c c' bs rsp Hbs Hh)
    as (v & d & s & t & c0 & c1 & cmd & body & rest & -> & -> & Hrest & Hl).
  repeat (apply Forall_cons in Hbs as [? Hbs]).
  assert (is_bytes (HandlerSpec.reply_headers d s t c0 c1 cmd ++ rest)) as Hr
    by (apply reply_headers_bytes; [solve_bytes|done]).
  split_and!; [done|simpl; lia|simpl; lia|].
  rewrite create_tag_bytes by solve_bytes. do 2 eexists. split_and!; [reflexivity| |].
  - intros rest'. unfold HandlerSpec.reply_headers in *. simpl in *. apply create_tag_bytes.
    repeat (apply Forall_cons in Hr as [? Hr]). solve_bytes.
  - unfold answers_flow.
    cbn [MsgFlowTag.msg_tag MsgFlowTag.tag_owner MsgFlowTag.dest_eid MsgFlowTag.src_eid].
    rewrite Z.eqb_refl, andb_true_r. apply andb_true_intro. split.
    + apply Z.eqb_eq. Z.to_euclidean_division_equations. lia.
    + destruct (Z.eqb_spec (t / 8 mod 2) 0);
        destruct (Z.eqb_spec ((t mod 8 + 8 * (1 - t / 8 mod 2) + 192) / 8 mod 2) 0); try done;
        Z.to_euclidean_division_equations; lia.
Qed.

(** ** The flows of the loop *)

(** The oneshots handed to the loop, and the ones it completed. *)
Definition cmd_channel (cmd : PhysicalTransportCommands) : list channel :=
  match cmd with SendMsg _ _ (Some ch) => [ch] | _ => [] end.
Definition answered (out : output) : list channel :=
  match out with Answer ch _ => [ch] | Frame _ => [] end.
Definition cmd_bytes (cmd : PhysicalTransportCommands) : Prop :=
  match cmd with ReceiveMsg buf | SendMsg _ buf _ => is_bytes buf end.

Lemma create_tag_some bs : is_bytes bs -> exists tag, create_tag bs = Some tag.
Proof. intros Hbs. destruct (create_tag_total bs Hbs) as [[_ ?]|(? & _ & _ & _ & ?)]; eauto. Qed.

(** Sending a packet with no oneshot leaves the flows alone. *)
Lemma send_cmd_none checks send self msg_type buf :
  let '(self', out, _) := send_cmd checks send self msg_type buf None in
  self' = self /\ concat (answered <$> out) = [].
Proof.
  open_loop. destruct (frame_of _ _); [|done|done]. by destruct (unwrap _).
Qed.

Lemma send_cmd_some checks send self msg_type buf ch :
  is_bytes buf ->
  let '(self', out, _) := send_cmd checks send self msg_type buf (Some ch) in
  (pending_cmd self').*2 = (pending_cmd self).*2 ++ [ch] /\ concat (answered <$> out) = [].
Proof.
  intros Hb. open_loop. destruct (create_tag_some buf Hb) as [tag ->].
  destruct (frame_of _ _); [destruct (unwrap _)|..]; cbn [pending_cmd]; by rewrite fmap_app.
Qed.

(** One command: the flows after it and the oneshots it completed are the
    flows before it and its own oneshot. *)
Lemma handle_flows checks send_ok send self cmd :
  cmd_bytes cmd ->
  let '(self', out, res) := handle checks send_ok send self cmd in
  res = Ok tt ->
  (pending_cmd self').*2 ++ concat (answered <$> out) ≡ₚ (pending_cmd self).*2 ++ cmd_channel cmd.
Proof.
  destruct cmd as [buf|msg_type buf [ch|]]; intros Hb; cbn [handle cmd_bytes] in *.
  - open_loop. destruct (_ || _) eqn:Hc; [done|].
    apply orb_false_iff in Hc as [Hl%Nat.ltb_ge _]. rewrite slice_from_Ok by done.
    destruct (create_tag (drop 4 buf)) as [rt|]; [|done].
    destruct (pending_cmd self !! _) as [[tag ch]|] eqn:Hi.
    + destruct (send_ok ch); [intros _|done]. simpl.
      rewrite (fmap_Permutation snd _ _ (delete_Permutation _ _ _ Hi)). simpl.
      by rewrite app_nil_r, Permutation_app_comm.
    + destruct (MctpEndpointContext.handle_request _ _) as [c [rsp|err|p]]; [|done|done].
      pose proof (send_cmd_none checks send (mk c (pending_cmd self)) MessageType.Control rsp) as Hs.
      destruct (send_cmd _ _ _ _ _ _) as [[self' out] res]. destruct Hs as [-> ->]. done.
  - pose proof (send_cmd_some checks send self msg_type buf ch Hb) as Hs.
    destruct (send_cmd _ _ _ _ _ _) as [[self' out] res]. destruct Hs as [-> ->].
    by rewrite app_nil_r.
  - pose proof (send_cmd_none checks send self msg_type buf) as Hs.
    destruct (send_cmd _ _ _ _ _ _) as [[self' out] res]. destruct Hs as [-> ->]. done.
Qed.

Lemma run_flows checks send_ok send self cmds :
  Forall cmd_bytes cmds ->
  let '(self', out, res) := run checks send_ok send self cmds in
  res = Ok tt ->
  (pending_cmd self').*2 ++ concat (answered <$> out) ≡ₚ
    (pending_cmd self).*2 ++ concat (cmd_channel <$> cmds).
Proof.
  intros Hcmds. revert self. induction Hcmds as [|cmd cmds Hc Hcs IH]; intros self; [by simpl|].
  cbn [run]. pose proof (handle_flows checks send_ok send self cmd Hc) as Hh.
  destruct (handle _ _ _ _ _) as [[self1 out1] [[]|e|p]]; [|done|done].
  specialize (IH self1). destruct (run _ _ _ _ _) as [[self2 out2] res].
  intros Hres. specialize (IH Hres). specialize (Hh eq_refl).
  rewrite fmap_app, concat_app, fmap_cons. cbn [concat].
  rewrite (assoc_L (++) (pending_cmd self).*2), <- Hh.
  rewrite (Permutation_app_comm (pending_cmd self1).*2), <- (assoc_L (++)), <- IH.
  apply Permutation_app_swap_app.
Qed.

(** C19: No oneshot is lost or completed twice: after any commands under distinct
    oneshots that the loop handles without a panic, each oneshot is either
    completed, once, or still pending. *)
Theorem flows_conserved checks send_ok send c cmds :
  Forall cmd_bytes cmds -> NoDup (concat (cmd_channel <$> cmds)) ->
  let '(self, out, res) := run checks send_ok send (mk c []) cmds in
  res = Ok tt ->
  NoDup ((pending_cmd self).*2 ++ concat (answered <$> out)) /\
  forall ch, ch ∈ concat (cmd_channel <$> cmds) <->
    ch ∈ (pending_cmd self).*2 \/ ch ∈ concat (answered <$> out).
Proof.
  intros Hcmds Hnd. pose proof (run_flows checks send_ok send (mk c []) cmds Hcmds) as Hr.
  destruct (run _ _ _ _ _) as [[self out] res]. intros Hres. specialize (Hr Hres). simpl in Hr.
  split; [by rewrite Hr|]. intros ch. by rewrite <- Hr, elem_of_app.
Qed.

(** ** What a command leaves *)

Definition recv_bytes (cmd : PhysicalTransportCommands) : Prop :=
  match cmd with ReceiveMsg buf => is_bytes buf | SendMsg _ _ _ => True end.
Definition answer_bytes (out : output) : Prop :=
  match out with Answer _ buf => is_bytes buf | Frame _ => True end.

Lemma send_cmd_outputs checks send self msg_type buf resp :
  let '(self', out, _) := send_cmd checks send self msg_type buf resp in
  ctx self' = ctx self /\ Forall answer_bytes out.
Proof.
  open_loop. destruct resp as [ch|]; [destruct (create_tag buf)|];
    try (by split; [|constructor]); destruct (frame_of _ _); try (by split; [|constructor]);
    destruct (unwrap _); split; by repeat constructor.
Qed.

(** The context stays valid, and oneshots are sent byte strings. *)
Lemma handle_valid checks send_ok send self cmd :
  valid (ctx self) -> recv_bytes cmd ->
  let '(self', out, _) := handle checks send_ok send self cmd in
  valid (ctx self') /\ Forall answer_bytes out.
Proof.
  intros Hv. destruct cmd as [buf|msg_type buf resp]; intros Hb; cbn [handle recv_bytes] in *.
  - open_loop. destruct (_ || _) eqn:Hc; [by split; [|constructor]|].
    apply orb_false_iff in Hc as [Hl%Nat.ltb_ge _]. rewrite slice_from_Ok by done.
    destruct (create_tag (drop 4 buf)) as [rt|]; [|by split; [|constructor]].
    destruct (pending_cmd self !! _) as [[tag ch]|].
    { destruct (send_ok ch); (split; [done|]); repeat constructor. cbn. auto with mctp. }
    pose proof (handle_request_valid (ctx self) (drop 4 buf) Hv ltac:(auto with mctp)) as Hv'.
    destruct (MctpEndpointContext.handle_request _ _) as [c [rsp|err|p]]; cbn [fst] in Hv';
      try (by split; [|constructor]).
    pose proof (send_cmd_outputs checks send (mk c (pending_cmd self)) MessageType.Control rsp None) as Hs.
    destruct (send_cmd _ _ _ _ _ _) as [[self' out] res]. destruct Hs as [-> ?]. done.
  - pose proof (send_cmd_outputs checks send self msg_type buf resp) as Hs.
    destruct (send_cmd _ _ _ _ _ _) as [[self' out] res]. destruct Hs as [-> ?]. done.
Qed.

(** ** Two loops *)

(** The packet a datagram carries: the error code stays at its end. *)
Lemma loop_frame_packet buf :
  exists code, u8 code /\ loop_frame buf =
    [0x60; 0x0f; Z.of_nat (length buf) + 1; 0x21] ++ buf ++ [code] /\
    drop 4 (loop_frame buf) = buf ++ [code].
Proof.
  exists (pec ([0x60; 0x0f; Z.of_nat (length buf) + 1; 0x21] ++ buf)).
  split_and!; [apply pec_u8|done|done].
Qed.

Lemma create_tag_app bs rest :
  is_bytes bs -> (4 <= length bs)%nat -> create_tag (bs ++ rest) = create_tag bs.
Proof.
  intros Hbs Hl. destruct bs as [|v [|d [|s [|t bs]]]]; simpl in Hl; try lia.
  repeat (apply Forall_cons in Hbs as [? Hbs]). simpl. by rewrite !create_tag_bytes by solve_bytes.
Qed.

Lemma flow_index_nil tag : flow_index [] tag = 0%nat.
Proof. done. Qed.

(** A socket that takes every datagram whole. *)
Definition send_all (buf : bytes) : outcome io_error nat := Ok (length buf).

Lemma receive_frame checks send_ok send self head0 head2 head3 buf tag :
  let datagram := head0 :: 0x0f :: head2 :: head3 :: buf in
  create_tag buf = Some tag -> flow_index (pending_cmd self) tag = length (pending_cmd self) ->
  receive checks send_ok send self datagram =
    let '(c, res) := MctpEndpointContext.handle_request (ctx self) buf in
    match res with
    | Ok resp => send_cmd checks send (mk c (pending_cmd self)) MessageType.Control resp None
    | Err _ => (mk c (pending_cmd self), [], Ok tt)
    | Panic p => (mk c (pending_cmd self), [], Panic p)
    end.
Proof.
  intros datagram Htag Hi. open_loop. subst datagram.
  rewrite slice_from_Ok by (simpl; lia). cbn [drop length Nat.ltb Nat.leb lookup list_lookup default orb].
  rewrite drop_0. change (negb _) with false. cbn iota. rewrite Htag, Hi, lookup_ge_None_2 by done. done.
Qed.

Lemma exchange_handles checks owner endpoint req ch c' rsp :
  is_bytes req -> (length req < 255)%nat -> pending_cmd owner = [] -> pending_cmd endpoint = [] ->
  MctpEndpointContext.handle_request (ctx endpoint) (drop 4 (loop_frame req)) = (c', Ok rsp) ->
  exists tag,
    (forall send_ok, handle checks send_ok send_all owner (SendMsg MessageType.Control req (Some ch)) =
      (mk (ctx owner) [(tag, ch)], [Frame (loop_frame req)], Ok tt)) /\
    (forall send_ok, handle checks send_ok send_all endpoint (ReceiveMsg (loop_frame req)) =
      (mk c' [], [Frame (loop_frame rsp)], Ok tt)) /\
    (forall (send_ok : channel -> bool) c, send_ok ch = true ->
      handle checks send_ok send_all (mk c [(tag, ch)]) (ReceiveMsg (loop_frame rsp)) =
      (mk c [], [Answer ch (drop 4 (loop_frame rsp))], Ok tt)).
Proof.
  intros Hreq Hlen Ho He Hh.
  destruct (loop_frame_packet req) as (code & Hcode & Hframe & Hdrop). rewrite Hdrop in Hh.
  assert (is_bytes (req ++ [code])) as Hb by (apply is_bytes_app; [done|solve_bytes]).
  destruct (reply_answers _ _ _ _ Hb Hh) as (Hrsp & Hrl & tag & rt & Htag & Hrt & Hans).
  assert (7 <= length (req ++ [code]))%nat as Hl.
  { destruct (handle_ok (ctx endpoint) c' (req ++ [code]) rsp Hb)
      as (? & ? & ? & ? & ? & ? & ? & ? & ? & -> & _); [|simpl; lia].
    by rewrite <- handle_request_handle. }
  rewrite length_app in Hl. simpl in Hl.
  pose proof (create_tag_app req [code] Hreq ltac:(lia)) as Htag'. rewrite Htag in Htag'.
  destruct (loop_frame_packet rsp) as (code' & Hcode' & Hframe' & Hdrop').
  exists tag. split_and!; intros send_ok.
  - cbn [handle]. open_loop. rewrite <- Htag', frame_of_short, Ho by lia. done.
  - cbn [handle]. rewrite Hframe. cbn [app].
    rewrite (receive_frame _ _ _ _ _ _ _ _ tag) by (by rewrite ?He).
    rewrite Hh. open_loop. rewrite frame_of_short by lia. by rewrite He.
  - intros c Hok. rewrite Hdrop'. cbn [handle]. open_loop. rewrite Hframe'. cbn [app].
    rewrite slice_from_Ok by (simpl; lia). cbn [drop length Nat.ltb Nat.leb lookup list_lookup
      default orb].
    rewrite drop_0. change (negb _) with false. cbn iota. rewrite Hrt. cbn [pending_cmd].
    rewrite (flow_index_first _ _ 0 tag ch) by (done || lia). cbn. by rewrite Hok.
Qed.

(** C18: A request and its response, between two loops: the bus owner's loop sends
    the request as a datagram; the endpoint's loop, which waits for no
    response, answers that datagram with another; and the bus owner's loop
    completes the request's oneshot with it. *)
Theorem request_reply_exchange checks (send_ok : channel -> bool) owner endpoint req ch c' rsp :
  is_bytes req -> (length req < 255)%nat -> pending_cmd owner = [] -> pending_cmd endpoint = [] ->
  send_ok ch = true ->
  MctpEndpointContext.handle_request (ctx endpoint) (drop 4 (loop_frame req)) = (c', Ok rsp) ->
  exists owner1 tag,
    handle checks send_ok send_all owner (SendMsg MessageType.Control req (Some ch)) =
      (owner1, [Frame (loop_frame req)], Ok tt) /\
    pending_cmd owner1 = [(tag, ch)] /\
    handle checks send_ok send_all endpoint (ReceiveMsg (loop_frame req)) =
      (mk c' [], [Frame (loop_frame rsp)], Ok tt) /\
    handle checks send_ok send_all owner1 (ReceiveMsg (loop_frame rsp)) =
      (owner, [Answer ch (drop 4 (loop_frame rsp))], Ok tt).
Proof.
  intros Hreq Hlen Ho He Hok Hh.
  destruct (exchange_handles checks owner endpoint req ch c' rsp Hreq Hlen Ho He Hh)
    as (tag & Hs & Hr & Ha).
  exists (mk (ctx owner) [(tag, ch)]), tag. split_and!; [apply Hs|done|apply Hr|].
  rewrite Ha by done. destruct owner; simpl in Ho. by subst.
Qed.



(** ** Replies that are answered *)

(** Two loops, [a] to receive a datagram and [b] the next: the datagram after
    [n] turns, if each answered with exactly one. *)
Fixpoint volley (checks : bool) (n : nat) (a b : t) (datagram : bytes) : option bytes :=
  match n with
  | O => Some datagram
  | S n =>
      match handle checks (fun _ => false) send_all a (ReceiveMsg datagram) with
      | (a, [Frame answer], Ok _) => volley checks n b a answer
      | _ => None
      end
  end.

(** The handler answers its own replies, with any bytes behind them. *)
Lemma reply_is_answered c c' d bs rsp tail :
  is_bytes bs -> HandlerSpec.handle c bs = (c', Ok rsp) ->
  exists d' rsp', HandlerSpec.handle d (rsp ++ tail) = (d', Ok rsp').
Proof.
  intros Hbs. destruct bs as [|v [|x [|s [|t [|c0 [|c1 [|cmd body]]]]]]]; try done.
  cbn [HandlerSpec.handle].
  destruct (from_u8 (T:=CommandCode.t) cmd) eqn:Hcmd; try done;
    (destruct body as [|? [|? ?]]; intros Hh; try done; injection Hh as _ <-);
    unfold HandlerSpec.reply_headers; cbn [app HandlerSpec.handle]; rewrite Hcmd; by do 2 eexists.
Qed.

(** A loop that waits for nothing answers what the handler answers, whatever
    frames the packet. *)
Lemma loop_answers_packet checks send_ok self head0 head2 head3 buf c' rsp :
  is_bytes buf -> pending_cmd self = [] ->
  MctpEndpointContext.handle_request (ctx self) buf = (c', Ok rsp) ->
  handle checks send_ok send_all self (ReceiveMsg (head0 :: 0x0f :: head2 :: head3 :: buf)) =
    (mk c' [], [Frame (loop_frame rsp)], Ok tt) /\ is_bytes rsp /\ (7 <= length rsp <= 11)%nat.
Proof.
  intros Hbs Hp Hh. destruct (reply_answers _ _ _ _ Hbs Hh) as (Hr & Hrl & tag & _ & Htag & _).
  split; [|done]. cbn [handle]. rewrite (receive_frame _ _ _ _ _ _ _ _ tag) by (by rewrite ?Hp).
  rewrite Hh. open_loop. rewrite frame_of_short by lia. by rewrite Hp.
Qed.

Lemma loop_answers checks send_ok self buf c' rsp :
  is_bytes buf -> pending_cmd self = [] ->
  MctpEndpointContext.handle_request (ctx self) (drop 4 (loop_frame buf)) = (c', Ok rsp) ->
  handle checks send_ok send_all self (ReceiveMsg (loop_frame buf)) =
    (mk c' [], [Frame (loop_frame rsp)], Ok tt) /\ is_bytes rsp /\ (7 <= length rsp <= 11)%nat.
Proof.
  intros Hb Hp Hh. rewrite loop_frame_drop_code in Hh. rewrite loop_frame_code.
  apply loop_answers_packet; [|done|done]. apply is_bytes_app; [done|apply frame_code_bytes].
Qed.

(** C25: A packet that is answered is answered for ever: between two endpoints that
    wait for no response, whatever request or stray response starts it, every
    reply is taken for a request and answered in turn; the request bit is never
    looked at. *)
Theorem replies_bounce checks a b buf c' rsp n :
  is_bytes buf -> pending_cmd a = [] -> pending_cmd b = [] ->
  MctpEndpointContext.handle_request (ctx a) (drop 4 (loop_frame buf)) = (c', Ok rsp) ->
  is_Some (volley checks n a b (loop_frame buf)).
Proof.
  revert a b buf c' rsp. induction n as [|n IH]; intros a b buf c' rsp Hb Ha Hb' Hh; [by eexists|].
  destruct (loop_answers checks (fun _ => false) a buf c' rsp Hb Ha Hh) as (Hstep & Hr & Hrl).
  cbn [volley]. rewrite Hstep.
  assert (is_bytes (buf ++ frame_code buf)) as Hbs by (apply is_bytes_app; [done|apply frame_code_bytes]).
  rewrite loop_frame_drop_code, handle_request_handle in Hh by done.
  destruct (reply_is_answered _ _ (ctx b) _ _ (frame_code rsp) Hbs Hh) as (d' & rsp' & Hh').
  apply (IH b (mk c' []) rsp d' rsp'); [done|done|done|].
  rewrite loop_frame_drop_code, handle_request_handle; [done|].
  apply is_bytes_app; [done|apply frame_code_bytes].
Qed.

(** ** What a peer can do to the loop *)

(** A datagram too short for a transport header gets the default tag, and
    completes the first request to the null EID under message tag 0, with what
    little it carries. *)
Theorem runt_packet_completes_flow checks send_ok send self buf tag ch rest :
  (4 <= length buf < 8)%nat -> buf !! 1%nat = Some 0x0f ->
  pending_cmd self = (tag, ch) :: rest -> MsgFlowTag.dest_eid tag = 0 ->
  MsgFlowTag.msg_tag tag = 0 -> MsgFlowTag.tag_owner tag = true -> send_ok ch = true ->
  handle checks send_ok send self (ReceiveMsg buf) =
    (mk (ctx self) rest, [Answer ch (drop 4 buf)], Ok tt).
Proof.
  intros Hl H1' Hp Hd Hm Ho Hok. cbn [handle]. open_loop.
  rewrite (proj2 (Nat.ltb_ge _ _)), H1', slice_from_Ok by lia. change (_ || _) with false.
  cbn iota. unfold create_tag.
  rewrite (proj2 (Nat.ltb_lt _ _)) by (rewrite length_drop; lia).
  rewrite (flow_index_first _ _ 0 tag ch), Hp; [simpl; by rewrite Hok|by rewrite Hp| |lia].
  unfold answers_flow. by rewrite Hd, Hm, Ho.
Qed.

(** A request under a command byte that names no command ends the task. *)
Theorem unknown_command_kills_loop checks send_ok send self head0 head2 head3 buf cmd :
  is_bytes buf -> buf !! 6%nat = Some cmd ->
  from_u8 (T:=CommandCode.t) cmd = CommandCode.Unknown -> pending_cmd self = [] ->
  handle checks send_ok send self (ReceiveMsg (head0 :: 0x0f :: head2 :: head3 :: buf)) =
    (self, [], Panic PanicTodo).
Proof.
  intros Hb Hcmd Hu Hp. destruct (create_tag_some buf Hb) as [tag Htag].
  cbn [handle]. rewrite (receive_frame _ _ _ _ _ _ _ _ tag) by (by rewrite ?Hp).
  rewrite handle_request_handle by done.
  destruct buf as [|v [|d [|s [|t [|c0 [|c1 [|c body]]]]]]]; try done. injection Hcmd as ->.
  cbn [HandlerSpec.handle]. rewrite Hu. by destruct self.
Qed.

End facts.
End EventLoopFacts.

(** ** Witnesses *)
Section witness.
#[local] Existing Instance Reference.crates.
#[local] Existing Instance Reference.crates_laws.

Import EventLoop EventLoopFacts.
#[local] Abbreviation context := (MctpEndpointContext.mk 0x10 [0x7e] false 0 false 0x80 32 1 1).
#[local] Abbreviation request := [1; 0; 0; 0xc9; 0; 0x81; 1; 0; 0x80].

Lemma frame_byte_count_witness :
  frame_of (E:=MctpEmuError.t) true (repeat 7 255) = Panic PanicOverflow.
Proof. rewrite (frame_byte_count true (repeat 7 255)) by (vm_compute; lia). reflexivity. Defined.

Lemma flows_conserved_witness :
  let '(self, out, res) := run true (fun _ => true) send_all (mk context [])
    [SendMsg MessageType.Control request (Some 5%nat);
     ReceiveMsg [0x60; 0x0f; 12; 0x21; 1; 0; 0; 0xc1; 0; 1; 1; 0; 0; 0x80; 0]] in
  res = Ok tt /\ NoDup ((pending_cmd self).*2 ++ concat (answered <$> out)).
Proof.
  pose proof (flows_conserved true (fun _ => true) send_all context
    [SendMsg MessageType.Control request (Some 5%nat);
     ReceiveMsg [0x60; 0x0f; 12; 0x21; 1; 0; 0; 0xc1; 0; 1; 1; 0; 0; 0x80; 0]]) as Hf.
  destruct (run _ _ _ _ _) as [[self out] res] eqn:Hrun. vm_compute in Hrun.
  injection Hrun as <- <- <-. split; [reflexivity|]. apply Hf; [|apply NoDup_singleton|reflexivity].
  repeat constructor; unfold uint; lia.
Defined.

Lemma request_reply_exchange_witness :
  exists owner1 tag reply,
    handle true (fun _ => true) send_all (mk context []) (SendMsg MessageType.Control request (Some 5%nat)) =
      (owner1, [Frame (loop_frame request)], Ok tt) /\
    pending_cmd owner1 = [(tag, 5%nat)] /\
    handle true (fun _ => true) send_all owner1 (ReceiveMsg (loop_frame reply)) =
      (mk context [], [Answer 5%nat (drop 4 (loop_frame reply))], Ok tt).
Proof.
  destruct (request_reply_exchange true (fun _ => true) (mk context []) (mk context []) request 5%nat
    (MctpEndpointContext.store_assigned_eid context 0x80) [1; 0; 0; 0xc1; 0; 1; 1; 0; 0; 0x80; 0])
    as (owner1 & tag & Hs & Hp & _ & Hr);
    [solve_bytes|simpl; lia|reflexivity|reflexivity|reflexivity|vm_compute; reflexivity|].
  exists owner1, tag, [1; 0; 0; 0xc1; 0; 1; 1; 0; 0; 0x80; 0].
  split; [exact Hs|]. split; [exact Hp|exact Hr].
Defined.

Lemma replies_bounce_witness :
  is_Some (volley true 1000 (mk context []) (mk context []) (loop_frame [1; 0; 0; 0xc1; 0; 1; 1; 0; 0; 0x80; 0])).
Proof.
  destruct (MctpEndpointContext.handle_request context
    (drop 4 (loop_frame [1; 0; 0; 0xc1; 0; 1; 1; 0; 0; 0x80; 0]))) as [c' [rsp|e|p]] eqn:Hh;
    [|vm_compute in Hh; discriminate Hh..].
  apply (replies_bounce true (mk context []) (mk context []) [1; 0; 0; 0xc1; 0; 1; 1; 0; 0; 0x80; 0]
    c' rsp 1000); [solve_bytes|reflexivity|reflexivity|exact Hh].
Defined.

Lemma runt_packet_completes_flow_witness :
  handle true (fun _ => true) send_all (mk context [(MsgFlowTag.mk 0 0 0 true, 5%nat)])
    (ReceiveMsg [0x60; 0x0f; 1; 0x21; 0xff]) = (mk context [], [Answer 5%nat [0xff]], Ok tt).
Proof.
  apply (runt_packet_completes_flow true (fun _ => true) send_all
    (mk context [(MsgFlowTag.mk 0 0 0 true, 5%nat)]) [0x60; 0x0f; 1; 0x21; 0xff]
    (MsgFlowTag.mk 0 0 0 true) 5%nat []); first [reflexivity | simpl; lia].
Defined.

End witness.
