(* ===== verification/ExampleNetwork.v ===== *)
(** * A client of a network

    The trait [MctpNetwork] of [src/network/types.rs] as a class that both
    networks implement, and the program of [examples/example_simple_network.rs]
    as a client of it: its theorem on the calls it makes is proved against the
    class, and its exchange with an endpoint on the simple network. *)
From stdpp Require Import functions.
From S2P Require Import Prelude Crates Reference Derive Enums Transport ControlModels.
From S2P Require Import ControlPayload GetEid Errors Smbus Network SimpleNetwork VirtualNetwork BusOwner.
From S2P Require Import EventLoop.

(** ** The trait

    A method takes the network and returns it with its result; the bindings
    behind the handles are in [store].  [net_sendto] is an [async] call: [await]
    is what happens to the network, and what the oneshot yields, while it waits
    for the oneshot [resp]; the datagrams are those it hands to the wire. *)
Class MctpNetwork (N B : Type) := {
  net_socket : N -> N * Z;
  net_bind : bool -> N -> Z -> Z -> Z -> Z -> channel -> N * MctpEmuResult unit;
  net_sendto : (BindingHandle -> B) -> (N -> channel -> N * option ClientCallbackMsg) -> N ->
    Z -> bytes -> SocketAddress -> channel -> N * list bytes * MctpEmuResult (SocketAddress * bytes);
  net_add_physical_binding : (MctpEmuError.t -> string) -> (BindingHandle -> B) -> N ->
    BindingHandle -> (BindingHandle -> B) * N * MctpEmuResult unit;
  net_join_handles : N -> N * list JoinHandle;
}.

(** What a client may rely on: a descriptor that was just returned can be
    bound, while the counter of sockets is in range, which the other calls
    leave alone. *)
Class MctpNetworkLaws (N B : Type) `{MctpNetwork N B} := {
  net_in_range : N -> Prop;
  net_bind_fresh checks n address msg_type tag chan :
    net_in_range n ->
    (net_bind checks (net_socket n).1 (net_socket n).2 address msg_type tag chan).2 = Ok tt;
  net_add_in_range debug st n binding :
    net_in_range n -> net_in_range (net_add_physical_binding debug st n binding).1.2;
}.

(** ** The implementations *)
Section implementations.
Context `{Crates} {B : Type} `{NetworkBinding B}.

(** [sendto] of the simple network, its three parts in a row. *)
Definition simple_sendto (st : BindingHandle -> B)
    (await : SimpleNetwork.t -> channel -> SimpleNetwork.t * option ClientCallbackMsg)
    (self : SimpleNetwork.t) (sd : Z) (payload : bytes) (addr : SocketAddress) (resp : channel)
    : SimpleNetwork.t * list bytes * MctpEmuResult (SocketAddress * bytes) :=
  match SimpleNetwork.sendto_begin self sd payload addr resp with
  | Err e => (self, [], Err e)
  | Panic p => (self, [], Panic p)
  | Ok (self, (buf, phy_addr)) =>
      let '(frames, sent) := SimpleNetwork.sendto_transmit st self buf phy_addr in
      match sent with
      | Err e => (self, frames, Err e)
      | Panic p => (self, frames, Panic p)
      | Ok _ =>
          let '(self, received) := await self resp in
          (self, frames, SimpleNetwork.sendto_finish received)
      end
  end.

#[export] Instance simple_network : MctpNetwork SimpleNetwork.t B := {|
  net_socket := SimpleNetwork.socket;
  net_bind := SimpleNetwork.bind;
  net_sendto := simple_sendto;
  net_add_physical_binding := SimpleNetwork.add_physical_binding;
  net_join_handles := SimpleNetwork.join_handles;
|}.

#[export] Instance virtual_network : MctpNetwork VirtualNetwork.t B := {|
  net_socket := VirtualNetwork.socket;
  net_bind := VirtualNetwork.bind;
  net_sendto _ _ self sd payload addr _ := (self, [], VirtualNetwork.sendto self sd payload addr);
  net_add_physical_binding := VirtualNetwork.add_physical_binding;
  net_join_handles := VirtualNetwork.join_handles;
|}.

Lemma fresh_bound n : - 2 ^ 31 <= n < 2 ^ 31 - 1 -> wrap_i32 (n + 1) - 1 = n.
Proof. intros Hn. unfold wrap_i32. rewrite Z.mod_small by lia. lia. Qed.

#[export] Instance simple_network_laws : MctpNetworkLaws SimpleNetwork.t B.
Proof.
  refine {| net_in_range := fun n => - 2 ^ 31 <= SimpleNetwork.num_clients n < 2 ^ 31 - 1 |}.
  - intros checks n address msg_type tag chan Hn. cbn. unfold SimpleNetwork.bind. cbn.
    rewrite fresh_bound by done. unfold arith_i32. rewrite decide_True by lia. by rewrite Z.ltb_irrefl.
  - intros debug st n binding. cbn. unfold SimpleNetwork.add_physical_binding.
    destruct (binding_bind _ _) as [b [|e|p]]; done.
Defined.

#[export] Instance virtual_network_laws : MctpNetworkLaws VirtualNetwork.t B.
Proof.
  refine {| net_in_range := fun n => - 2 ^ 31 <= VirtualNetwork.num_clients n < 2 ^ 31 - 1 |}.
  - intros checks n address msg_type tag chan Hn. cbn. unfold VirtualNetwork.bind. cbn.
    rewrite fresh_bound by done. unfold arith_i32. rewrite decide_True by lia. by rewrite Z.ltb_irrefl.
  - intros debug st n binding. cbn. unfold VirtualNetwork.add_physical_binding. cbn.
    unfold VirtualNetwork.add_bind. destruct (binding_bind _ _) as [b [|e|p]]; done.
Defined.

End implementations.

(** ** The program *)
Module ExampleSimpleNetwork.
Section client.
Context `{Crates}.

(** The packet of the request. *)
Definition request_packet {E} : outcome E bytes :=
  let transport_hdr := TransportHeader.new 0 0 0 (Some true) (Some true) (Some true) in
  let ctrl_hdr := ControlMsgHeader.new CommandCode.GetEndpointID 0 false true false in
  let req := GetEid.Request.mk ctrl_hdr in
  body ← bytes_from req;
  ControlPayload.into_bytes (ControlPayload.new transport_hdr ctrl_hdr body).

Definition dest_add : SocketAddress := Extended 0 1 1 0x25.

(** [main] on a network that was made over binding 0: the binding is added, a
    socket made and bound, and the request sent; [chan] and [resp] are the
    channels the calls create. *)
Definition on_network {N B} `{MctpNetwork N B} (checks : bool) (debug : MctpEmuError.t -> string)
    (st : BindingHandle -> B) (await : N -> channel -> N * option ClientCallbackMsg)
    (simpl_net1 : N) (chan resp : channel) : list bytes * MctpEmuResult (SocketAddress * bytes) :=
  let '(st, simpl_net1, added) := net_add_physical_binding debug st simpl_net1 0%nat in
  match added with
  | Err e => ([], Err e)
  | Panic p => ([], Panic p)
  | Ok _ =>
      let '(simpl_net1, sd) := net_socket simpl_net1 in
      let '(simpl_net1, bound) := net_bind checks simpl_net1 sd 0 0 0 chan in
      match bound with
      | Err e => ([], Err e)
      | Panic p => ([], Panic p)
      | Ok _ =>
          match (bs ← request_packet; slice_from bs 4) with
          | Err e => ([], Err e)
          | Panic p => ([], Panic p)
          | Ok payload =>
              let '(_, frames, res) := net_sendto st await simpl_net1 sd payload dest_add resp in
              (frames, res)
          end
      end
  end.

(** [main]: the binding, over the socket calls' results, and the network over
    it. *)
Definition main (checks : bool) (debug : MctpEmuError.t -> string)
    (bound : outcome io_error nat) (connected : outcome io_error unit)
    (try_send : nat -> bytes -> outcome io_error nat)
    (await : SimpleNetwork.t -> channel -> SimpleNetwork.t * option ClientCallbackMsg)
    (chan resp : channel) : list bytes * MctpEmuResult (SocketAddress * bytes) :=
  let binding := SmbusNetDevBinding.network_binding try_send in
  match SmbusNetDevBinding.new 0x10 bound connected with
  | Err e => ([], Err e)
  | Panic p => ([], Panic p)
  | Ok smbus_binding =>
      match SimpleNetwork.new 0%nat with
      | Err e => ([], Err e)
      | Panic p => ([], Panic p)
      | Ok simpl_net1 => on_network checks debug (fun _ => smbus_binding) await simpl_net1 chan resp
      end
  end.

End client.
End ExampleSimpleNetwork.

(** ** Proofs *)
Module ExampleFacts.
Import ExampleSimpleNetwork BusOwnerFacts SmbusFacts.
Section facts.
Context `{CratesLaws}.

(** The bytes of the request. *)
Definition request : bytes := [1; 0; 0; 0xc8; 0; 0x80; 2].

Lemma request_packet_bytes {E} : request_packet (E:=E) = Ok request.
Proof.
  pose (c := MctpEndpointContext.mk 0 [] false 0 false 0 0 0 0).
  assert (u8 0) as Hz by solve_range.
  pose proof (request_bytes (E:=E) c 0 CommandCode.GetEndpointID
    (GetEid.Request.mk (ControlMsgHeader.new CommandCode.GetEndpointID 0 false true false)) []) as Hr.
  cbn [MctpEndpointContext.assigned_eid MctpEndpointContext.next_msg_tag
    MctpEndpointContext.next_instance_id c] in Hr.
  unfold request_packet. rewrite Hr; [done|by split_and!|done| |done].
  by apply ControlMsgHeaderFacts.control_header_new_valid.
Qed.

(** On any network that lets a fresh descriptor be bound, the example gets as
    far as its one request: nothing fails before [sendto] is called with the
    three bytes of a Get Endpoint ID request. *)
Theorem example_sends {N B} `{MctpNetworkLaws N B} checks debug (st : BindingHandle -> B) await n chan resp :
  net_in_range n -> (net_add_physical_binding debug st n 0%nat).2 = Ok tt ->
  exists st' n' sd,
    on_network checks debug st await n chan resp =
      let '(_, frames, res) := net_sendto st' await n' sd [0; 0x80; 2] dest_add resp in (frames, res).
Proof.
  intros Hn Hadd. unfold on_network.
  pose proof (net_add_in_range debug st n 0%nat Hn) as Hn1.
  destruct (net_add_physical_binding debug st n 0%nat) as [[st' n1] added]. cbn in Hadd, Hn1. subst added.
  pose proof (net_bind_fresh checks n1 0 0 0 chan Hn1) as Hbind.
  destruct (net_socket n1) as [n2 sd]. cbn in Hbind.
  destruct (net_bind checks n2 sd 0 0 0 chan) as [n3 bound]. cbn in Hbind. subst bound.
  exists st', n3, sd. by rewrite request_packet_bytes.
Qed.

(** The callback handler is handed [frame] while the call waits. *)
Definition reply_arrives (frame : bytes) (n : SimpleNetwork.t) (resp : channel)
    : SimpleNetwork.t * option ClientCallbackMsg :=
  let '(n, r) := SimpleNetwork.callback_receive (fun ch => bool_decide (ch = resp)) n 1 frame in
  (n, match r with SimpleNetwork.CallbackDelivered ch msg => Some msg | _ => None end).

(** The example's packet is answered by any endpoint. *)
Lemma request_reply d code :
  u8 code -> exists rsp, MctpEndpointContext.handle_request d (request ++ [code]) = (d, Ok rsp) /\
    rsp = [1; 0; 0; 0xc0; 0; 0; 2; 0; 0; 0; 0].
Proof.
  intros Hc. eexists. split; [|reflexivity].
  rewrite handle_request_handle by (unfold request; solve_bytes).
  unfold request. cbn [app HandlerSpec.handle]. by rewrite (from_u8_of CommandCode.GetEndpointID 2).
Qed.

(** C29: The example and an endpoint at 0x25 that answers with [handle_request]: the
    request goes out as a frame, twice, and the reply to that frame, framed
    back, is what [sendto] returns, with its error code. *)
Theorem example_exchange checks debug s d chan resp :
  let frame := smbus_frame 0x25 0x10 request in
  exists d' rsp, MctpEndpointContext.handle_request d (drop 4 frame) = (d', Ok rsp) /\
    main checks debug (Ok s) (Ok tt) (fun _ buf => Ok (length buf))
      (reply_arrives (smbus_frame 0x10 0x25 rsp)) chan resp =
    ([frame; frame], Ok (Extended 0 1 1 0, rsp ++ [pec rsp])).
Proof.
  intros frame. destruct (request_reply d (pec request) (pec_u8 request)) as (rsp & Hh & Hrsp).
  exists d, rsp. split; [exact Hh|].
  change (drop 4 frame) with (request ++ [pec request]) in *.
  set (binding := SmbusNetDevBinding.mk 0x10 1 (Some s)).
  set (net := SimpleNetwork.mk {[0 := Client.new chan 0 0 0]} 1 0%nat
    [CallbackTask; PollSocketTask s 1] [] false).
  assert (main checks debug (Ok s) (Ok tt) (fun _ buf => Ok (length buf))
      (reply_arrives (smbus_frame 0x10 0x25 rsp)) chan resp =
    let '(_, frames, res) := simple_sendto
      (H0 := SmbusNetDevBinding.network_binding (fun _ buf => Ok (length buf)))
      (<[0%nat := binding]> (fun _ => SmbusNetDevBinding.mk 0x10 0 (Some s)))
      (reply_arrives (smbus_frame 0x10 0x25 rsp)) net 0 [0; 0x80; 2] dest_add resp in (frames, res)) as ->.
  { unfold main, on_network. rewrite request_packet_bytes. reflexivity. }
  assert (SimpleNetwork.clients net !! 0 = Some (Client.new chan 0 0 0)) as Hclient
    by apply lookup_singleton_eq.
  assert (u8 0) as Hz by solve_range.
  assert (SimpleNetwork.sendto_begin net 0 [0; 0x80; 2] dest_add resp =
    Ok (SimpleNetwork.set_flows net [(MsgFlowTag.mk 0 0 0 true, resp)] false, (request, 0x25))) as Hbegin.
  { rewrite SimpleNetworkFacts.sendto_begin_cases, Hclient; [reflexivity| |].
    - intros c. rewrite Hclient. by intros [= <-].
    - by intros ? ? ? ? [= <- _ _ _]. }
  unfold simple_sendto. rewrite Hbegin. unfold SimpleNetwork.sendto_transmit.
  cbn [SimpleNetwork.phys_bindings SimpleNetwork.set_flows net].
  rewrite fn_lookup_insert. cbn [binding_transmit SmbusNetDevBinding.network_binding].
  rewrite (transmit_frames _ binding request 0x25 s) by first [done | simpl; lia].
  rewrite decide_True by done. cbn [unwrap]. unfold reply_arrives.
  rewrite (SimpleNetworkFacts.callback_receive_deliver _ _ _ _ 0
    (MsgFlowTag.mk 0 0 0 true) resp (MsgFlowTag.mk 0 0 0 false)); [|done|done| | | |done|lia].
  - rewrite bool_decide_true by done. reflexivity.
  - subst rsp. unfold smbus_frame. cbn [app].
    repeat (apply is_bytes_cons; [first [apply pec_u8|unfold uint, SMBUS_COMMAND_CODE_MCTP; simpl; lia]|]). constructor.
  - subst rsp. simpl. lia.
  - subst rsp. cbn [smbus_frame app drop]. by rewrite EventLoopFacts.create_tag_bytes by solve_bytes.
Qed.

End facts.
End ExampleFacts.

(** ** Witnesses *)
Section witness.
#[local] Existing Instance Reference.crates.
#[local] Existing Instance Reference.crates_laws.

Import ExampleSimpleNetwork ExampleFacts.
#[local] Abbreviation device := (SmbusNetDevBinding.mk 0x10 0 (Some 3%nat)).
#[local] Instance whole_datagrams : NetworkBinding SmbusNetDevBinding.t :=
  SmbusNetDevBinding.network_binding (fun _ buf => Ok (length buf)).

(** The virtual network keeps the promise, and panics in its [sendto]. *)
Lemma example_sends_witness :
  exists st' n' sd, on_network true (fun _ => ""%string) (fun _ => device) (fun n _ => (n, None))
      (VirtualNetwork.mk ∅ 0 [] [] 0 []) 3%nat 4%nat =
    (let '(_, frames, res) := net_sendto (N:=VirtualNetwork.t) (B:=SmbusNetDevBinding.t) st'
       (fun n _ => (n, None)) n' sd [0; 0x80; 2] dest_add 4%nat in (frames, res)).
Proof.
  apply (example_sends (N:=VirtualNetwork.t) (B:=SmbusNetDevBinding.t) true (fun _ => ""%string)
    (fun _ => device) (fun n _ => (n, None)) (VirtualNetwork.mk ∅ 0 [] [] 0 []) 3%nat 4%nat);
    [simpl; lia|reflexivity].
Defined.

(** An endpoint without an EID answers the example. *)
#[local] Abbreviation endpoint := (MctpEndpointContext.mk 0x30 [0x7e] false 0 false 0 0 0 0).

Lemma example_exchange_witness :
  exists frame rsp, main true (fun _ => ""%string) (Ok 3%nat) (Ok tt) (fun _ buf => Ok (length buf))
      (reply_arrives (SmbusFacts.smbus_frame 0x10 0x25 rsp)) 3%nat 4%nat =
    ([frame; frame], Ok (Extended 0 1 1 0, rsp ++ [pec rsp])).
Proof.
  destruct (example_exchange true (fun _ => ""%string) 3%nat endpoint 3%nat 4%nat)
    as (d' & rsp & _ & Hmain).
  eexists _, rsp. exact Hmain.
Defined.

End witness.
