(* ===== verification/BusOwnerSystem.v ===== *)
(** * The bus owner as a system of tasks

    Models [main] of [examples/basic_bus_owner_loop.rs]: the task that receives
    datagrams, the task that handles commands ([EventLoop]) and the discovery
    loop ([Discovery]), which share the endpoint context, a bounded channel of
    commands and one oneshot per request.  A step is what one task does between
    two points where it waits or touches the shared context. *)
From S2P Require Import Prelude Crates Reference Derive Enums Transport ControlModels.
From S2P Require Import ControlPayload Errors Smbus Network BusOwner Discovery EventLoop Channels.

Module BusOwnerSystem.
Import Bus.

(** The size of [buf_request], and of the channel. *)
Definition RECV_BUFFER : nat := 4 * 1024.
Definition CHANNEL_SIZE : nat := 32.

(** What the discovery loop has met where it stopped: the context of an access,
    how an exchange ended, or the end of a sleep. *)
Inductive event :=
  | Accessed (c : MctpEndpointContext.t)
  | Exchanged (buf : bytes) (x : exchange)
  | Slept.

(** The discovery loop's task is at a program, or its command was accepted by
    the channel and it awaits the oneshot. *)
Inductive task :=
  | Running (p : prog Z)
  | Awaiting (ch : channel) (buf : bytes) (k : exchange -> prog Z).

(** The task, with a record of what it met, for the statements; the oneshots
    it makes are numbered. *)
Record discovery := mk_discovery {
  state : task;
  history : list event;
  next_channel : channel;
}.

Section system.
Context `{Crates, Debug, Mpsc EventLoop.PhysicalTransportCommands}.

Record t := mk {
  ctx : MctpEndpointContext.t;           (** [Arc<MctpEndpointContext>] *)
  queue : mpsc;                          (** the channel of commands *)
  rx_alive : bool;                       (** the receiving task runs *)
  loop : option MctpFlowList;            (** the event loop's flows, while it runs *)
  mailbox : gmap channel (option bytes); (** oneshots sent to, or whose sender is gone *)
  wire : list bytes;                     (** the datagrams sent *)
  main : discovery;
}.

Definition set_main (s : t) (m : discovery) : t :=
  mk (ctx s) (queue s) (rx_alive s) (loop s) (mailbox s) (wire s) m.
Definition set_queue (s : t) (q : mpsc) : t :=
  mk (ctx s) q (rx_alive s) (loop s) (mailbox s) (wire s) (main s).
Definition set_ctx (s : t) (c : MctpEndpointContext.t) : t :=
  mk c (queue s) (rx_alive s) (loop s) (mailbox s) (wire s) (main s).
Definition kill_rx (s : t) : t :=
  mk (ctx s) (queue s) false (loop s) (mailbox s) (wire s) (main s).

(** ** The receiving task *)

(** One turn on what [recv_from] returned: an error, a full channel and a
    closed one panic. *)
Definition receive_datagram (r : outcome io_error bytes) (s : t) : t :=
  match unwrap (F:=MctpEmuError.t) r with
  | Ok buf_request =>
      if (length buf_request =? 0)%nat then s
      else match mpsc_try_send (queue s) (EventLoop.ReceiveMsg buf_request) with
           | Some q => set_queue s q
           | None => kill_rx s
           end
  | _ => kill_rx s
  end.

(** ** The event loop's task *)

(** The receiver of oneshot [ch] waits. *)
Definition receiver_waits (s : t) (ch : channel) : bool :=
  match state (main s) with
  | Awaiting ch' _ _ => bool_decide (ch' = ch) && bool_decide (mailbox s !! ch = None)
  | Running _ => false
  end.

Definition frames (out : list EventLoop.output) : list bytes :=
  omap (fun o => match o with EventLoop.Frame buf => Some buf | _ => None end) out.

Definition deliver (out : list EventLoop.output) (m : gmap channel (option bytes))
    : gmap channel (option bytes) :=
  foldl (fun m o => match o with
    | EventLoop.Answer ch buf => <[ch := Some buf]> m
    | EventLoop.Frame _ => m
    end) m out.

(** A command's oneshot that was not kept is dropped. *)
Definition drop_sender (cmd : EventLoop.PhysicalTransportCommands) (flows : MctpFlowList)
    (m : gmap channel (option bytes)) : gmap channel (option bytes) :=
  match cmd with
  | EventLoop.SendMsg _ _ (Some ch) => if decide (ch ∈ flows.*2) then m else <[ch := None]> m
  | _ => m
  end.

(** One turn: a command is received and handled.  A panic ends the task, and
    drops the receiver of the channel with every flow. *)
Definition loop_turn (checks : bool) (send : bytes -> outcome io_error nat) (s : t) : option t :=
  match loop s, mpsc_recv (queue s) with
  | Some flows, Some (cmd, q) =>
      let '(self, out, res) :=
        EventLoop.handle checks (receiver_waits s) send (EventLoop.mk (ctx s) flows) cmd in
      let flows := EventLoop.pending_cmd self in
      let m := deliver out (drop_sender cmd flows (mailbox s)) in
      match res with
      | Ok _ =>
          Some (mk (EventLoop.ctx self) q (rx_alive s) (Some flows) m (wire s ++ frames out) (main s))
      | _ =>
          Some (mk (EventLoop.ctx self) (mpsc_drop_receiver q) (rx_alive s) None m
            (wire s ++ frames out) (main s))
      end
  | _, _ => None
  end.

(** ** The discovery loop's task *)

Definition resume (s : t) (p : prog Z) (ev : event) : t :=
  set_main s (mk_discovery (Running p) (history (main s) ++ [ev]) (next_channel (main s))).

(** One move; [None] waits, or has returned. *)
Definition main_step (checks : bool) (ping_eid : Z) (s : t) : option t :=
  let m := main s in
  match state m with
  | Running (Done (Ok next_eid)) =>
      Some (set_main s (mk_discovery (Running (Discovery.turn checks ping_eid next_eid))
        (history m) (next_channel m)))
  | Running (Done _) => None
  | Running (Access f k) => Some (resume (set_ctx s (f (ctx s))) (k (ctx s)) (Accessed (ctx s)))
  | Running (Exchange buf k) =>
      let ch := next_channel m in
      match mpsc_try_send (queue s) (EventLoop.SendMsg MessageType.Control buf (Some ch)) with
      | Some q =>
          Some (set_main (set_queue s q) (mk_discovery (Awaiting ch buf k) (history m) (S ch)))
      | None =>
          if mpsc_is_closed (queue s) then Some (resume s (k NotSent) (Exchanged buf NotSent))
          else None
      end
  | Running (Sleep p) => Some (resume s p Slept)
  | Awaiting ch buf k =>
      let result x := Some (resume s (k x) (Exchanged buf x)) in
      match mailbox s !! ch, loop s with
      | Some (Some bs), _ => result (Replied (inl bs))
      | Some None, _ | None, None => result Closed
      | None, Some _ => None
      end
  end.

(** What [main] returned; the other tasks end with it. *)
Definition exit_status (s : t) : option (outcome AnyError Z) :=
  match state (main s) with
  | Running (Done (Ok _)) => None
  | Running (Done o) => Some o
  | _ => None
  end.

(** The discovery loop only waits for the timer. *)
Definition sleeping (s : t) : bool :=
  match state (main s) with Running (Sleep _) => true | _ => false end.

(** ** Steps *)

(** What [recv_from] may return, given the buffer it fills. *)
Definition datagram_ok (r : outcome io_error bytes) : Prop :=
  match r with
  | Ok buf => is_bytes buf /\ (length buf <= RECV_BUFFER)%nat
  | Err _ => True
  | Panic _ => False
  end.

Inductive step (checks : bool) (ping_eid : Z) (s : t) : t -> Prop :=
  | step_receive r :
      exit_status s = None -> rx_alive s = true -> datagram_ok r ->
      step checks ping_eid s (receive_datagram r s)
  | step_loop send s' :
      exit_status s = None -> loop_turn checks send s = Some s' -> step checks ping_eid s s'
  | step_main s' :
      main_step checks ping_eid s = Some s' -> step checks ping_eid s s'.

(** [main] up to the spawned tasks: [self] is the context it builds. *)
Definition init (checks : bool) (ping_eid : Z) (self : MctpEndpointContext.t) : t :=
  mk self (mpsc_channel CHANNEL_SIZE) true (Some []) ∅ []
    (mk_discovery (Running (Discovery.turn checks ping_eid (MctpEndpointContext.min_eid_in_pool self)))
      [] 0%nat).

(** [main] with the results of the socket's [bind] and [connect]: an error ends
    it before it spawns a task. *)
Definition start (checks : bool) (ping_eid : Z) (bound connected : outcome io_error unit)
    (self : MctpEndpointContext.t) : outcome AnyError t :=
  _ ← map_err AnyIo bound;
  _ ← map_err AnyIo connected;
  Ok (init checks ping_eid self).

Definition reachable (checks : bool) (ping_eid : Z) (self : MctpEndpointContext.t) (s : t) : Prop :=
  rtc (step checks ping_eid) (init checks ping_eid self) s.

(** The requests the discovery loop has handed to the channel. *)
Definition sent_of (h : list event) : list bytes :=
  omap (fun ev => match ev with
    | Exchanged _ NotSent => None
    | Exchanged buf _ => Some buf
    | _ => None
    end) h.
Definition requests (s : t) : list bytes :=
  sent_of (history (main s)) ++
    match state (main s) with Awaiting _ buf _ => [buf] | Running _ => [] end.

End system.
End BusOwnerSystem.

(** Evaluate the fields of an updated state. *)
Ltac proj := cbn [BusOwnerSystem.ctx BusOwnerSystem.queue BusOwnerSystem.rx_alive BusOwnerSystem.loop
  BusOwnerSystem.mailbox BusOwnerSystem.wire BusOwnerSystem.main BusOwnerSystem.set_main
  BusOwnerSystem.set_queue BusOwnerSystem.set_ctx BusOwnerSystem.kill_rx BusOwnerSystem.resume
  BusOwnerSystem.state BusOwnerSystem.history BusOwnerSystem.next_channel].
