(* ===== verification/NodeLink.v ===== *)
(** * The simple network and an endpoint over the wire

    A node of [SimpleNode] on an SMBus device whose socket takes every datagram
    whole, next to an endpoint that runs the event loop of the bus owner
    example, with the datagrams of each as the other's input. *)
From stdpp Require Import functions.
From S2P Require Import Prelude Crates Reference Derive Enums Transport Errors Smbus Network.
From S2P Require Import SimpleNetwork SimpleNetworkTasks Channels ReceivePath SimpleNode.
From S2P Require Import BusOwner EventLoop BusOwnerSystem.

Module NodeLink.
Import SimpleNetwork SimpleNetworkTasks SimpleNode ReceivePath.
Section link.
Context `{Crates, Mpsc NetworkBindingCallbackMsg} (checks : bool).
#[local] Instance whole_datagrams : NetworkBinding SmbusNetDevBinding.t :=
  SmbusNetDevBinding.network_binding (fun _ buf => Ok (length buf)).
#[local] Instance node : Node (sys SmbusNetDevBinding.t) := simple_node checks.

(** The owner's datagrams are [wire], of which the endpoint has taken [taken];
    the endpoint's datagrams to the owner are [replies]. *)
Record link := mk_link {
  owner : ReceivePath.t (sys SmbusNetDevBinding.t);
  endpoint : EventLoop.t;
  taken : nat;
  replies : list bytes;
}.

Inductive link_step (l : link) : link -> Prop :=
  | owner_drains s :
      drain (owner l) s -> link_step l (mk_link s (endpoint l) (taken l) (replies l))
  | owner_calls out ids n :
      client checks (net (owner l)) out ids n ->
      link_step l (mk_link (mk n (queue (owner l)) (pollers (owner l) ++ (Receiving <$> ids))
        (wire (owner l) ++ out) (received (owner l)) (accepted (owner l)) (handled (owner l)))
        (endpoint l) (taken l) (replies l))
  | owner_receives i frame rest s :
      replies l = frame :: rest -> poll_receive i (Ok frame) (owner l) = Some s ->
      link_step l (mk_link s (endpoint l) (taken l) rest)
  | endpoint_receives frame send_ok self out :
      wire (owner l) !! taken l = Some frame ->
      EventLoop.handle checks send_ok EventLoopFacts.send_all (endpoint l)
        (EventLoop.ReceiveMsg frame) = (self, out, Ok tt) ->
      link_step l (mk_link (owner l) self (S (taken l)) (replies l ++ BusOwnerSystem.frames out)).

End link.
End NodeLink.

(** ** Proofs *)
Module NodeLinkFacts.
Import SimpleNetwork SimpleNetworkFacts SimpleNetworkTasks SimpleNetworkTasksFacts.
Import BusOwnerFacts SimpleNode ReceivePath ReceivePathFacts NodeLink EventLoopFacts SmbusFacts.
Section facts.
Context `{CratesLaws, MpscLaws NetworkBindingCallbackMsg} (checks : bool).
#[local] Instance binding : NetworkBinding SmbusNetDevBinding.t := whole_datagrams.
#[local] Instance here : Node (sys SmbusNetDevBinding.t) := node checks.
#[local] Instance here_laws : NodeLaws (sys SmbusNetDevBinding.t) := simple_node_laws checks.
Implicit Types (l : link) (s : ReceivePath.t (sys SmbusNetDevBinding.t)) (x : sys SmbusNetDevBinding.t).

(** The packet of a call, the tag of its flow, and its frame. *)
Definition packet (c : Client.t) (eid : Z) (payload : bytes) : bytes :=
  [1; eid; Client.address c; Client.tag c mod 8 + 8 + 64 + 128] ++ payload.
Definition flow_tag (c : Client.t) (eid : Z) : MsgFlowTag.t :=
  MsgFlowTag.mk eid (Client.address c) (Client.tag c mod 8) true.
Definition frame_to (x : sys SmbusNetDevBinding.t) (phy : Z) (msg : bytes) : bytes :=
  smbus_frame phy (SmbusNetDevBinding.address (store x (phys_bindings (SimpleNetworkTasks.net x)))) msg.

(** A socket is bound, and the device is in order. *)
Record usable (x : sys SmbusNetDevBinding.t) (sd : Z) (c : Client.t) : Prop := {
  usable_client : clients (SimpleNetworkTasks.net x) !! sd = Some c;
  usable_values : u8 (Client.address c) /\ u8 (Client.tag c);
  usable_poison : flows_poisoned (SimpleNetworkTasks.net x) = false;
  usable_device : let dev := store x (phys_bindings (SimpleNetworkTasks.net x)) in
    0 <= SmbusNetDevBinding.address dev < 128 /\ is_Some (SmbusNetDevBinding.socket dev);
}.

Lemma flow_tag_packet c eid payload rest :
  u8 eid -> u8 (Client.address c) -> create_tag (packet c eid payload ++ rest) = Some (flow_tag c eid).
Proof.
  intros He Ha. unfold packet. cbn [app]. rewrite create_tag_bytes.
  - set (t := Client.tag c mod 8 + 8 + 64 + 128).
    assert (t mod 8 = Client.tag c mod 8 /\ (t / 8 mod 2 =? 0) = false) as [-> ->]; [|done].
    subst t. split; [|apply Z.eqb_neq]; Z.to_euclidean_division_equations; lia.
  - repeat (apply is_bytes_cons; [first [assumption|unfold uint; Z.to_euclidean_division_equations; lia]|]).
    constructor.
Qed.

Lemma packet_bytes c eid payload :
  u8 eid -> u8 (Client.address c) -> is_bytes payload ->
  is_bytes (packet c eid payload ++ [pec (packet c eid payload)]).
Proof.
  intros He Ha Hp. apply is_bytes_app; [|by apply is_bytes_cons; [apply pec_u8|]].
  apply is_bytes_app; [|done]. repeat (apply is_bytes_cons;
    [first [assumption|unfold uint in *; Z.to_euclidean_division_equations; lia]|]). constructor.
Qed.

(** A call up to the lock of the binding. *)
Lemma call_registers x sd c payload eid phy ch :
  usable x sd c -> u8 eid -> senders x !! ch = None ->
  call_step checks x []
    (set_sender (set_net x (set_flows (SimpleNetworkTasks.net x)
      (flows (SimpleNetworkTasks.net x) ++ [(flow_tag c eid, ch)]) false))
      ch (Queued (flow_tag c eid) (packet c eid payload) phy) (holder x)).
Proof.
  intros [Hc [Ha Ht] Hp _] He Hnew.
  apply (call_send _ _ sd payload (Extended eid 1 1 phy)); [done| |].
  - rewrite sendto_begin_cases, Hc, Hp; [done| |by intros ? ? ? ? [= <- _ _ _]].
    intros c'. rewrite Hc. by intros [= <-].
  - pose proof (flow_tag_packet c eid payload [] He Ha) as Htag. by rewrite app_nil_r in Htag.
Qed.

(** The frame goes out twice. *)
Lemma transmit_twice x sd c msg phy :
  usable x sd c -> 8 <= phy < 0x78 -> (length msg < 256)%nat ->
  sendto_transmit (store x) (SimpleNetworkTasks.net x) msg phy =
    ([frame_to x phy msg; frame_to x phy msg], Ok tt).
Proof.
  intros [_ _ _ [Haddr [sock Hs]]] Hphy Hl. unfold sendto_transmit.
  cbn [binding_transmit binding whole_datagrams SmbusNetDevBinding.network_binding].
  rewrite (transmit_frames _ _ msg phy sock) by done. by rewrite decide_True.
Qed.

(** The call gets the lock and sends. *)
Lemma call_sends x sd c tag msg phy ch :
  usable x sd c -> senders x !! ch = Some (Queued tag msg phy) -> holder x = None ->
  8 <= phy < 0x78 -> (length msg < 256)%nat ->
  call_step checks x [frame_to x phy msg; frame_to x phy msg] (set_sender x ch (Waiting tag) (Some ch)).
Proof.
  intros Hu Hq Hh Hphy Hl. eapply call_future, call_transmit; [exact Hq|exact Hh|by eapply transmit_twice].
Qed.

(** A datagram reaches a handler that waits. *)
Record ready s (id : Z) : Prop := {
  ready_poller : pollers s !! 0%nat = Some (Receiving id);
  ready_queue : contents (queue s) = [];
  ready_open : mpsc_is_closed (queue s) = false;
  ready_capacity : (0 < capacity (queue s))%nat;
  ready_handler : handler_alive (net s) = true;
}.

Lemma reply_handled l id frame rest :
  ready (owner l) id -> replies l = frame :: rest -> frame <> [] ->
  handler_alive (handle_msg (net (owner l)) id frame) = true ->
  exists s, rtc (link_step checks) l (mk_link s (endpoint l) (taken l) rest) /\
    ready s id /\ net s = handle_msg (net (owner l)) id frame /\ wire s = wire (owner l).
Proof.
  destruct l as [[x q P W R A H'] ep tk rp]. intros [Hp Hq Hcl Hcap Hal] Hr Hne Hal'. simpl in *. subst rp.
  destruct frame as [|b frame]; [done|]. clear Hne.
  pose proof (lookup_lt_Some _ _ _ Hp) as Hlt.
  destruct (try_send_open q (ReceiveMsg id (b :: frame)) Hcl Hq Hcap) as (q1 & Hq1 & Hc1 & Hcl1 & Hcap1).
  destruct (recv_one q1 _ Hc1) as (q2 & Hq2 & Hc2 & Hcl2 & Hcap2).
  set (cmd := ReceiveMsg id (b :: frame)) in *.
  eexists (mk (handle_msg x id (b :: frame)) q2 (<[0%nat := Receiving id]> (<[0%nat := Sending id cmd]> P))
    W (R ++ [(0%nat, cmd)]) (A ++ [(0%nat, cmd)]) (H' ++ [cmd])); subst cmd.
  split_and!; [|split; simpl; [|done|congruence|lia|done]|done|done].
  - eapply rtc_l.
    { eapply (owner_receives _ _ 0%nat (b :: frame) rest); [done|]. unfold poll_receive. simpl. rewrite Hp.
      reflexivity. }
    eapply rtc_l.
    { apply owner_drains, (drain_send _ 0%nat). unfold poll_send. cbn [owner pollers queue].
      rewrite list_lookup_insert_eq by done. rewrite Hq1. reflexivity. }
    apply rtc_once, owner_drains, drain_handle. unfold handler_turn. cbn [owner net queue].
    change (node_listens x) with (handler_alive x). rewrite Hal, Hq2.
    change (node_listens _) with (handler_alive (handle_msg x id (b :: frame))). by rewrite Hal'.
  - by rewrite list_lookup_insert_eq by by rewrite length_insert.
Qed.

(** A step of a caller. *)
Lemma link_call l out x' id :
  call_step checks (net (owner l)) out x' -> ready (owner l) id -> handler_alive x' = true ->
  exists s, link_step checks l (mk_link s (endpoint l) (taken l) (replies l)) /\
    net s = x' /\ wire s = wire (owner l) ++ out /\ ready s id.
Proof.
  intros Hc [Hp Hq Hcl Hcap Hal] Hal'.
  eexists. split; [apply owner_calls, client_call, Hc|]. split_and!; [done|done|].
  split; simpl; try done. by rewrite app_nil_r.
Qed.

(** The endpoint takes a datagram and answers it. *)
Lemma link_endpoint l head0 head2 head3 bs d rsp :
  wire (owner l) !! taken l = Some (head0 :: 0x0f :: head2 :: head3 :: bs) -> is_bytes bs ->
  EventLoop.pending_cmd (endpoint l) = [] ->
  MctpEndpointContext.handle_request (EventLoop.ctx (endpoint l)) bs = (d, Ok rsp) ->
  link_step checks l (mk_link (owner l) (EventLoop.mk d []) (S (taken l)) (replies l ++ [loop_frame rsp])).
Proof.
  intros Hw Hb Hp Hh.
  eapply (endpoint_receives checks l _ (fun _ => true) (EventLoop.mk d []) [EventLoop.Frame (loop_frame rsp)]);
    [exact Hw|]. by apply loop_answers_packet.
Qed.

(** The node while calls run: only the flows, the calls, their responses and
    the lock differ from [x]. *)
Definition during x (fs : MctpFlowList) (snd : gmap channel sender) (ib : gmap channel ClientCallbackMsg)
    (h : option channel) : sys SmbusNetDevBinding.t :=
  mk_sys (store x) (set_flows (SimpleNetworkTasks.net x) fs false) snd ib true h.

(** What a move of the owner leads to. *)
Definition moves l (y : sys SmbusNetDevBinding.t) (out rest : list bytes) (id : Z) : Prop :=
  exists s, rtc (link_step checks) l (mk_link s (endpoint l) (taken l) rest) /\
    ready s id /\ net s = y /\ wire s = wire (owner l) ++ out.

Lemma moves_call l y out id :
  ready (owner l) id -> call_step checks (net (owner l)) out y -> handler_alive y = true ->
  moves l y out (replies l) id.
Proof.
  intros Hr Hc Hal. destruct (link_call l out y id Hc Hr Hal) as (s & Hs & Hn & Hw & Hr').
  exists s. split_and!; [by apply rtc_once|done..].
Qed.

(** A call is made. *)
Lemma call_made l x sd c payload eid phy ch id fs snd ib h :
  ready (owner l) id -> net (owner l) = during x fs snd ib h -> usable x sd c -> u8 eid ->
  snd !! ch = None ->
  moves l (during x (fs ++ [(flow_tag c eid, ch)])
    (<[ch := Queued (flow_tag c eid) (packet c eid payload) phy]> snd) ib h) [] (replies l) id.
Proof.
  intros Hr Hn [Hc Hv _ Hd] He Hnew. apply moves_call; [done| |done]. rewrite Hn.
  apply (call_registers (during x fs snd ib h) sd); [by split|done|done].
Qed.

(** It gets the lock, and sends its request twice. *)
Lemma call_goes l x sd c tag msg phy ch id fs snd ib :
  ready (owner l) id -> net (owner l) = during x fs snd ib None -> usable x sd c ->
  snd !! ch = Some (Queued tag msg phy) -> 8 <= phy < 0x78 -> (length msg < 256)%nat ->
  moves l (during x fs (<[ch := Waiting tag]> snd) ib (Some ch))
    (replicate 2 (frame_to x phy msg)) (replies l) id.
Proof.
  intros Hr Hn [Hc Hv _ Hd] Hq Hphy Hl. apply moves_call; [done| |done]. rewrite Hn.
  exact (call_sends (during x fs snd ib None) sd c tag msg phy ch ltac:(by split) Hq eq_refl Hphy Hl).
Qed.

(** Its response is there, and it returns it. *)
Lemma call_returns l x tag ch id fs snd ib addr buf :
  ready (owner l) id -> net (owner l) = during x fs snd ib (Some ch) ->
  snd !! ch = Some (Waiting tag) -> ib !! ch = Some (Receive addr buf) ->
  moves l (during x fs (<[ch := Finished tag (Ok (addr, buf))]> snd) (delete ch ib) None) [] (replies l) id.
Proof.
  intros Hr Hn Hw Hi. apply moves_call; [done| |done]. rewrite Hn.
  pose proof (call_future checks _ _ _
    (call_finish (during x fs snd ib (Some ch)) ch tag (Receive addr buf) Hw Hi)) as Hc.
  unfold release in Hc. cbn [holder during] in Hc. by rewrite decide_True in Hc.
Qed.

(** The handler completes the only flow with its reply, and drops a datagram
    nobody waits for. *)
Lemma handle_reply x tag recv_tag ch y id snd ib h rsp :
  is_bytes (loop_frame rsp) -> snd !! ch = Some y -> sender_live y = true ->
  create_tag (rsp ++ frame_code rsp) = Some recv_tag -> answers_flow tag recv_tag = true ->
  handle_msg (during x [(tag, ch)] snd ib h) id (loop_frame rsp) =
    during x [] snd (<[ch := Receive (Extended 0 1 id 0) (rsp ++ frame_code rsp)]> ib) h.
Proof.
  intros Hb Hy Hl Hc Ha. assert (receiver_alive (during x [(tag, ch)] snd ib h) ch = true) as Hal
    by (apply receiver_alive_spec; by exists y). unfold handle_msg.
  rewrite (callback_receive_deliver _ _ id (loop_frame rsp) 0 tag ch recv_tag);
    rewrite ?loop_frame_drop_code; try done; [by rewrite Hal|simpl; lia|lia].
Qed.

Lemma handle_stray x id snd ib h buf :
  is_bytes buf -> handle_msg (during x [] snd ib h) id buf = during x [] snd ib h.
Proof.
  intros Hb. unfold handle_msg.
  destruct (callback_receive_cases (receiver_alive (during x [] snd ib h))
    (SimpleNetworkTasks.net (during x [] snd ib h)) id buf Hb) as [->|[[? _]|(? & ? & ? & ? & ? & _ & ? & _)]]; done.
Qed.

(** A reply arrives for the only flow, whether its call has sent or not. *)
Lemma reply_arrives l x tag recv_tag ch y id snd ib h rsp rest :
  ready (owner l) id -> net (owner l) = during x [(tag, ch)] snd ib h ->
  replies l = loop_frame rsp :: rest -> is_bytes (loop_frame rsp) ->
  snd !! ch = Some y -> sender_live y = true ->
  create_tag (rsp ++ frame_code rsp) = Some recv_tag -> answers_flow tag recv_tag = true ->
  moves l (during x [] snd (<[ch := Receive (Extended 0 1 id 0) (rsp ++ frame_code rsp)]> ib) h) [] rest id.
Proof.
  intros Hr Hn Hrp Hb Hy Hl Hc Ha.
  assert (handle_msg (net (owner l)) id (loop_frame rsp) = _) as Hm by (rewrite Hn; by eapply handle_reply).
  destruct (reply_handled l id (loop_frame rsp) rest Hr Hrp) as (s & Hs & Hr' & Hn' & Hw);
    [done|by rewrite Hm|]. exists s. rewrite app_nil_r. split_and!; [done|done|by rewrite Hn', Hm|done].
Qed.

(** Nothing is on its way, and no call runs. *)
Record quiet l (id sd : Z) (c : Client.t) : Prop := {
  quiet_ready : ready (owner l) id;
  quiet_usable : usable (net (owner l)) sd c;
  quiet_flows : flows (SimpleNetworkTasks.net (net (owner l))) = [];
  quiet_lock : holder (net (owner l)) = None;
  quiet_taken : taken l = length (wire (owner l));
  quiet_replies : replies l = [];
  quiet_endpoint : EventLoop.pending_cmd (endpoint l) = [];
}.

(** A reply to a request of the call answers its flow. *)
Lemma reply_fits c eid payload e d rsp :
  u8 eid -> u8 (Client.address c) -> is_bytes (packet c eid payload ++ [pec (packet c eid payload)]) ->
  MctpEndpointContext.handle_request e (packet c eid payload ++ [pec (packet c eid payload)]) = (d, Ok rsp) ->
  is_bytes (loop_frame rsp) /\ exists recv_tag,
    create_tag (rsp ++ frame_code rsp) = Some recv_tag /\ answers_flow (flow_tag c eid) recv_tag = true.
Proof.
  intros He Ha Hb Hh. destruct (reply_answers _ _ _ _ Hb Hh) as (Hr & Hrl & tag & rt & Htag & Hrt & Hans).
  rewrite flow_tag_packet in Htag by done. injection Htag as <-. split; [|eauto].
  rewrite loop_frame_code. repeat (apply is_bytes_cons; [unfold uint; lia|]).
  apply is_bytes_app; [done|apply frame_code_bytes].
Qed.

Lemma quiet_during l id sd c :
  quiet l id sd c ->
  net (owner l) = during (net (owner l)) [] (senders (net (owner l))) (inbox (net (owner l))) None.
Proof.
  intros [Hr [_ _ Hp _] Hf Hh _ _ _]. pose proof (ready_handler _ _ Hr) as Hal. unfold during, set_flows.
  destruct (net (owner l)) as [st [? ? ? ? ? ?] snd ib al h]. simpl in *. by subst.
Qed.

(** A call is made: its request is sent twice, and answered twice. *)
Lemma request_answered_twice l id sd c eid phy payload ch d rsp :
  quiet l id sd c -> u8 eid -> 8 <= phy < 0x78 -> is_bytes payload -> (length payload < 252)%nat ->
  let x := net (owner l) in
  senders x !! ch = None ->
  let msg := packet c eid payload in
  MctpEndpointContext.handle_request (EventLoop.ctx (endpoint l)) (msg ++ [pec msg]) = (d, Ok rsp) ->
  exists l1, rtc (link_step checks) l l1 /\ ready (owner l1) id /\
    wire (owner l1) = wire (owner l) ++ replicate 2 (frame_to x phy msg) /\
    replies l1 = [loop_frame rsp; loop_frame rsp] /\
    net (owner l1) = during x [(flow_tag c eid, ch)] (<[ch := Waiting (flow_tag c eid)]> (senders x))
      (inbox x) (Some ch).
Proof.
  intros Hq He Hphy Hpb Hpl x Hnew msg Hh. pose proof (quiet_during l id sd c Hq) as Hx.
  destruct Hq as [Hr Hu Hf Hlock Htk Hrp Hep]. fold x in Hx, Hu.
  assert (is_bytes (msg ++ [pec msg])) as Hb by (destruct Hu as [_ [? ?] _ _]; by apply packet_bytes).
  destruct (call_made l x sd c payload eid phy ch id _ _ _ _ Hr Hx Hu He Hnew)
    as (s1 & Hsteps1 & Hr1 & Hn1 & Hw1). rewrite app_nil_r in Hw1.
  destruct (call_goes (mk_link s1 (endpoint l) (taken l) (replies l)) x sd c _ msg phy ch id _ _ _ Hr1 Hn1 Hu
    (lookup_insert_eq _ _ _) Hphy ltac:(subst msg; simpl; lia)) as (s2 & Hsteps2 & Hr2 & Hn2 & Hw2).
  cbn [owner endpoint taken replies] in *. rewrite Hw1 in Hw2. rewrite insert_insert_eq in Hn2.
  destruct (MctpEndpointContext.handle_request d (msg ++ [pec msg])) as [d2 res] eqn:Hh2.
  assert (res = Ok rsp) as ->.
  { rewrite handle_request_handle in Hh, Hh2 by done. pose proof (handle_result d
      (EventLoop.ctx (endpoint l)) (msg ++ [pec msg])) as Hres. by rewrite Hh, Hh2 in Hres. }
  eexists (mk_link s2 (EventLoop.mk d2 []) (S (S (taken l))) _). split.
  - etrans; [exact Hsteps1|]. etrans; [exact Hsteps2|].
    eapply rtc_l; [eapply (link_endpoint (mk_link s2 (endpoint l) (taken l) (replies l)));
      [|exact Hb|done|exact Hh]|].
    { simpl. rewrite Hw2, Htk. by apply list_lookup_middle. }
    apply rtc_once. eapply (link_endpoint (mk_link s2 (EventLoop.mk d []) (S (taken l))
      (replies l ++ [loop_frame rsp]))); [|exact Hb|done|exact Hh2].
    simpl. rewrite Hw2, Htk, lookup_app_r by lia.
    by replace (S (length (wire (owner l))) - length (wire (owner l)))%nat with 1%nat by lia.
  - simpl. rewrite Hrp. by split_and!.
Qed.

(** The call returns the first answer to its request; the second is on its way. *)
Lemma first_answer_returned l id sd c eid phy payload ch d rsp :
  quiet l id sd c -> u8 eid -> 8 <= phy < 0x78 -> is_bytes payload -> (length payload < 252)%nat ->
  let x := net (owner l) in
  senders x !! ch = None ->
  let msg := packet c eid payload in
  let reply := Ok (Extended 0 1 id 0, rsp ++ frame_code rsp) in
  MctpEndpointContext.handle_request (EventLoop.ctx (endpoint l)) (msg ++ [pec msg]) = (d, Ok rsp) ->
  exists l1, rtc (link_step checks) l l1 /\ ready (owner l1) id /\
    wire (owner l1) = wire (owner l) ++ replicate 2 (frame_to x phy msg) /\
    replies l1 = [loop_frame rsp] /\ exists ib,
    net (owner l1) = during x [] (<[ch := Finished (flow_tag c eid) reply]> (senders x)) ib None.
Proof.
  intros Hq He Hphy Hpb Hpl x Hnew msg reply Hh.
  destruct (request_answered_twice l id sd c eid phy payload ch d rsp Hq He Hphy Hpb Hpl Hnew Hh)
    as ([s1 ep tk rp1] & Hsteps1 & Hr1 & Hw1 & Hrp1 & Hn1). cbn [owner replies] in *. subst rp1. fold x in Hn1.
  pose proof (usable_values _ _ _ (quiet_usable _ _ _ _ Hq)) as [Hca _].
  destruct (reply_fits c eid payload _ d rsp He Hca (packet_bytes c eid payload He Hca Hpb) Hh)
    as (Hlb & rt & Hrt & Hans).
  destruct (reply_arrives (mk_link s1 ep tk [loop_frame rsp; loop_frame rsp]) x _ rt ch (Waiting (flow_tag c eid))
    id _ _ _ rsp [loop_frame rsp] Hr1 Hn1 eq_refl Hlb (lookup_insert_eq _ _ _) eq_refl Hrt Hans)
    as (s2 & Hsteps2 & Hr2 & Hn2 & Hw2).
  destruct (call_returns (mk_link s2 ep tk [loop_frame rsp]) x (flow_tag c eid) ch id _ _ _ _ _ Hr2 Hn2
    (lookup_insert_eq _ _ _) (lookup_insert_eq _ _ _)) as (s3 & Hsteps3 & Hr3 & Hn3 & Hw3).
  cbn [owner endpoint taken replies] in *. exists (mk_link s3 ep tk [loop_frame rsp]).
  rewrite insert_insert_eq in Hn3. split_and!; [by do 2 (etrans; [eassumption|])|done| |done|eauto].
  cbn [owner]. by rewrite Hw3, Hw2, Hw1, !app_nil_r.
Qed.

(** From the caller to the endpoint and back: on a network at rest a call of
    [sendto] can put its request on the wire, be answered by an endpoint that
    runs the event loop, and return what its request handler answers, with the
    error code, through the receive path and the callback handler; no flow and
    no lock are left. *)
Theorem call_over_the_wire l id sd c eid phy payload ch d rsp :
  quiet l id sd c -> u8 eid -> 8 <= phy < 0x78 -> is_bytes payload -> (length payload < 252)%nat ->
  senders (net (owner l)) !! ch = None ->
  let msg := packet c eid payload in
  MctpEndpointContext.handle_request (EventLoop.ctx (endpoint l)) (msg ++ [pec msg]) = (d, Ok rsp) ->
  exists l', rtc (link_step checks) l l' /\ ready (owner l') id /\
    wire (owner l') = wire (owner l) ++ replicate 2 (frame_to (net (owner l)) phy msg) /\
    senders (net (owner l')) !! ch =
      Some (Finished (flow_tag c eid) (Ok (Extended 0 1 id 0, rsp ++ frame_code rsp))) /\
    flows (SimpleNetworkTasks.net (net (owner l'))) = [] /\ holder (net (owner l')) = None.
Proof.
  intros Hq He Hphy Hpb Hpl Hnew msg Hh.
  destruct (first_answer_returned l id sd c eid phy payload ch d rsp Hq He Hphy Hpb Hpl Hnew Hh)
    as (l1 & Hsteps & Hr & Hw & _ & ib & Hn). exists l1. rewrite Hn.
  split_and!; [done|done|done|apply lookup_insert_eq|done|done].
Qed.


End facts.
End NodeLinkFacts.
