(* ===== verification/NodeProgress.v ===== *)
(** * A call of the simple network cannot fail to return

    The node and the endpoint of [NodeLink], from the moment a call is made,
    when no other call is made and none is dropped: whatever the order of the
    tasks, the call returns the endpoint's answer. *)
From stdpp Require Import functions.
From S2P Require Import Prelude Crates Reference Derive Enums Transport Errors Smbus Network.
From S2P Require Import SimpleNetwork SimpleNetworkTasks Channels ReceivePath SimpleNode.
From S2P Require Import BusOwner EventLoop BusOwnerSystem NodeLink.

Module NodeProgress.
Import SimpleNetwork SimpleNetworkTasks SimpleNode ReceivePath NodeLink.
Section progress.
Context `{Crates, Mpsc NetworkBindingCallbackMsg} (checks : bool).
#[local] Instance binding : NetworkBinding SmbusNetDevBinding.t := whole_datagrams.
#[local] Instance here : Node (sys SmbusNetDevBinding.t) := node checks.

(** The steps of the running tasks: those of [NodeLink.link_step] without new
    calls, added bindings and dropped calls. *)
Inductive progress (l : link) : link -> Prop :=
  | progress_drains s :
      drain (owner l) s -> progress l (mk_link s (endpoint l) (taken l) (replies l))
  | progress_future out n :
      future_step (net (owner l)) out n ->
      progress l (mk_link (mk n (queue (owner l)) (pollers (owner l)) (wire (owner l) ++ out)
        (received (owner l)) (accepted (owner l)) (handled (owner l)))
        (endpoint l) (taken l) (replies l))
  | progress_receives i frame rest s :
      replies l = frame :: rest -> poll_receive i (Ok frame) (owner l) = Some s ->
      progress l (mk_link s (endpoint l) (taken l) rest)
  | progress_answers frame send_ok self out :
      wire (owner l) !! taken l = Some frame ->
      EventLoop.handle checks send_ok EventLoopFacts.send_all (endpoint l)
        (EventLoop.ReceiveMsg frame) = (self, out, Ok tt) ->
      progress l (mk_link (owner l) self (S (taken l)) (replies l ++ BusOwnerSystem.frames out)).

End progress.
End NodeProgress.

(** ** Proofs *)
Module NodeProgressFacts.
Import SimpleNetwork SimpleNetworkFacts SimpleNetworkTasks SimpleNetworkTasksFacts.
Import BusOwnerFacts SimpleNode ReceivePath ReceivePathFacts NodeLink EventLoopFacts SmbusFacts.
Import NodeLinkFacts NodeProgress.
Section facts.
Context `{CratesLaws, MpscLaws NetworkBindingCallbackMsg} (checks : bool).
#[local] Instance binding : NetworkBinding SmbusNetDevBinding.t := whole_datagrams.
#[local] Instance here : Node (sys SmbusNetDevBinding.t) := node checks.
#[local] Instance here_laws : NodeLaws (sys SmbusNetDevBinding.t) := simple_node_laws checks.
Implicit Types (l : link) (s : ReceivePath.t (sys SmbusNetDevBinding.t)).

(** The steps are steps of the link. *)
Lemma progress_link l l' : progress checks l l' -> link_step checks l l'.
Proof.
  intros [s Hd|out n Hf|i frame rest s Hr Hp|frame send_ok self out Hw Hh].
  - by apply owner_drains.
  - rewrite <- (app_nil_r (pollers (owner l))).
    apply (owner_calls checks l out [] n), client_call, call_future, Hf.
  - by eapply owner_receives.
  - by eapply endpoint_receives.
Qed.

Lemma poll_makes id buf : buf <> [] -> poll_socket_step id (Ok buf) = Ok (Some (ReceiveMsg id buf)).
Proof. by destruct buf. Qed.

(** The replies on their way to the handler of a node with one poll task. *)
Section flow.
Context (id : Z) (reply : bytes) (Hne : reply <> []).

Record flowing l : Prop := {
  flowing_poller : pollers (owner l) = [Receiving id] \/
    pollers (owner l) = [Sending id (ReceiveMsg id reply)];
  flowing_replies : Forall (eq reply) (replies l);
  flowing_queue : Forall (eq (ReceiveMsg id reply)) (contents (queue (owner l)));
  flowing_open : mpsc_is_closed (queue (owner l)) = false;
  flowing_capacity : (0 < capacity (queue (owner l)))%nat;
  flowing_endpoint : EventLoop.pending_cmd (endpoint l) = [];
}.

Definition polled l : nat := sum_list_with (fun p => length (held p)) (pollers (owner l)).
Definition inflight l : nat := (length (replies l) + polled l + length (contents (queue (owner l))))%nat.
Definition weight l : nat :=
  (3 * length (replies l) + 2 * polled l + length (contents (queue (owner l))))%nat.

(** A reply moves on; nothing else changes. *)
Definition moved l l' : Prop :=
  flowing l' /\ net (owner l') = net (owner l) /\ wire (owner l') = wire (owner l) /\
  taken l' = taken l /\ inflight l' = inflight l /\ (weight l' < weight l)%nat.

Lemma flow_send l i s :
  flowing l -> poll_send i (owner l) = Some s ->
  moved l (mk_link s (endpoint l) (taken l) (replies l)).
Proof.
  intros [Hp Hr Hq Ho Hc He] Hs. destruct (poll_send_cases i _ s Hs) as (id' & cmd & Hi & Hcases).
  assert (pollers (owner l) = [Sending id (ReceiveMsg id reply)] /\ i = 0%nat /\ id' = id /\
    cmd = ReceiveMsg id reply) as (Hps & -> & -> & ->).
  { destruct Hp as [Hp|Hp]; rewrite Hp in Hi; apply list_lookup_singleton_Some in Hi as [-> Hi]; by simplify_eq. }
  destruct Hcases as [(q & Htry & ->)|[Hcl _]]; [|congruence].
  apply mpsc_try_send_Some in Htry as (Hcq & Hcap & Hclq).
  split_and!; [split; simpl| | | | |]; rewrite ?Hps; simpl; try done; try congruence.
  - by left.
  - rewrite Hcq. apply Forall_app. split; [done|by constructor].
  - unfold inflight, polled. simpl. rewrite Hps, Hcq, length_app. simpl. lia.
  - unfold weight, polled. simpl. rewrite Hps, Hcq, length_app. simpl. lia.
Qed.

Lemma flow_receive l i frame rest s :
  flowing l -> replies l = frame :: rest -> poll_receive i (Ok frame) (owner l) = Some s ->
  moved l (mk_link s (endpoint l) (taken l) rest).
Proof.
  intros [Hp Hr Hq Ho Hc He] Hrp Hs. rewrite Hrp in Hr. apply Forall_cons in Hr as [<- Hr].
  unfold poll_receive in Hs. destruct (pollers (owner l) !! i) as [p|] eqn:Hi; [|done].
  destruct Hp as [Hps|Hps]; rewrite Hps in Hi; apply list_lookup_singleton_Some in Hi as [-> <-]; [|done].
  rewrite poll_makes in Hs by done. injection Hs as <-.
  split_and!; [split; simpl| | | | |]; rewrite ?Hps; simpl; try done.
  - by right.
  - unfold inflight, polled. simpl. rewrite Hps, Hrp. simpl. lia.
  - unfold weight, polled. simpl. rewrite Hps, Hrp. simpl. lia.
Qed.

(** A turn of the handler takes one. *)
Lemma flow_handle l s :
  flowing l -> handler_turn (owner l) = Some s ->
  handler_alive (handle_msg (net (owner l)) id reply) = true ->
  let l' := mk_link s (endpoint l) (taken l) (replies l) in
  flowing l' /\ net s = handle_msg (net (owner l)) id reply /\ wire s = wire (owner l) /\
  inflight l = S (inflight l') /\ (weight l' < weight l)%nat.
Proof.
  intros [Hp Hr Hq Ho Hc He] Hs Hal.
  destruct (handler_turn_cases _ s Hs) as (id' & buf & q & Hlis & Hrecv & ->).
  apply mpsc_recv_Some in Hrecv as (Hcq & Hcap & Hclq). rewrite Hcq in Hq.
  apply Forall_cons in Hq as [[= <- <-] Hq].
  change (node_listens (node_receive (net (owner l)) id reply)) with
    (handler_alive (handle_msg (net (owner l)) id reply)). rewrite Hal.
  split_and!; [split; simpl| | | |]; try done; try congruence; [| ].
  - unfold inflight, polled. simpl. rewrite Hcq. simpl. lia.
  - unfold weight, polled. simpl. rewrite Hcq. simpl. lia.
Qed.

(** As long as replies are on their way, some task can move. *)
Lemma flow_moves l :
  flowing l -> handler_alive (net (owner l)) = true -> (0 < inflight l)%nat ->
  exists l', progress checks l l'.
Proof.
  intros [Hp Hr Hq Ho Hc He] Hal Hin.
  destruct (mpsc_recv (queue (owner l))) as [[[id' buf] q]|] eqn:Hrecv.
  { eexists. eapply progress_drains, drain_handle. unfold handler_turn.
    change (node_listens (net (owner l))) with (handler_alive (net (owner l))). by rewrite Hal, Hrecv. }
  apply mpsc_recv_None in Hrecv. destruct Hp as [Hp|Hp].
  - destruct (replies l) as [|frame rest] eqn:Hrp;
      [unfold inflight, polled in Hin; rewrite Hrp, Hp, Hrecv in Hin; simpl in Hin; lia|].
    apply Forall_cons in Hr as [<- _].
    eexists. eapply (progress_receives _ _ 0%nat reply rest); [exact Hrp|]. unfold poll_receive. rewrite Hp.
    cbn [lookup list_lookup]. by rewrite poll_makes.
  - destruct (try_send_open (queue (owner l)) (ReceiveMsg id reply) Ho Hrecv Hc) as (q1 & Hq1 & _).
    eexists. eapply progress_drains, (drain_send _ 0%nat). unfold poll_send. rewrite Hp. simpl.
    by rewrite Hq1.
Qed.

End flow.

(** ** The phases of the call *)
Section call.
Context (x : sys SmbusNetDevBinding.t) (snd : gmap channel sender) (ib : gmap channel ClientCallbackMsg).
Context (id phy : Z) (ch : channel) (tag recv_tag : MsgFlowTag.t) (msg rsp : bytes) (w0 : list bytes).
Context (Hother : forall ch' y, snd !! ch' = Some y -> sender_live y = false) (Hinbox : ib !! ch = None).
Context (Hmsg : is_bytes (msg ++ [pec msg])) (Hrsp : is_bytes (loop_frame rsp)).
Context (Hanswer : forall e, exists d, MctpEndpointContext.handle_request e (msg ++ [pec msg]) = (d, Ok rsp)).
Context (Hrecv : create_tag (rsp ++ frame_code rsp) = Some recv_tag) (Hans : answers_flow tag recv_tag = true).

Let frame := frame_to x phy msg.
Let reply := Receive (Extended 0 1 id 0) (rsp ++ frame_code rsp).
Context (Hsend : sendto_transmit (store x) (SimpleNetworkTasks.net x) msg phy = ([frame; frame], Ok tt)).

(** The network, the wire, the datagrams taken and the replies on their way,
    from the call's registration to its return. *)
Inductive phase : sys SmbusNetDevBinding.t -> list bytes -> nat -> nat -> nat -> Prop :=
  | phase_queued :
      phase (during x [(tag, ch)] (<[ch := Queued tag msg phy]> snd) ib None) w0 (length w0) 0 3
  | phase_waiting k :
      (k <= 2)%nat ->
      phase (during x [(tag, ch)] (<[ch := Waiting tag]> snd) ib (Some ch)) (w0 ++ [frame; frame])
        (length w0 + k) k 2
  | phase_answered k f :
      (k <= 2)%nat ->
      phase (during x [] (<[ch := Waiting tag]> snd) (<[ch := reply]> ib) (Some ch)) (w0 ++ [frame; frame])
        (length w0 + k) f 1
  | phase_returned y w k f :
      senders y !! ch = Some (Finished tag (Ok (Extended 0 1 id 0, rsp ++ frame_code rsp))) ->
      phase y w k f 0.

(** What is left to do. *)
Definition going (n : nat) l : Prop :=
  flowing id (loop_frame rsp) l /\ exists p,
    phase (net (owner l)) (wire (owner l)) (taken l) (inflight l) p /\
    n = (weight l + 4 * (length w0 + 2 - taken l) + p)%nat.

Lemma phase_alive y w k f p : phase y w k f (S p) -> handler_alive y = true.
Proof. by inversion 1. Qed.

(** The other calls do not run. *)
Lemma others_stopped y ch' z :
  <[ch := y]> snd !! ch' = Some z -> sender_live z = true -> ch' = ch /\ z = y.
Proof.
  intros [[<- <-]|[_ Hz]]%lookup_insert_Some Hl; [done|]. apply Hother in Hz. congruence.
Qed.

Lemma phase_future y w k f p out y' :
  phase y w k f (S p) -> future_step y out y' -> exists p', (p' <= p)%nat /\ phase y' (w ++ out) k f p'.
Proof.
  intros Hp Hf. destruct Hf as [ch' tg buf a out Hs Hh Ht|ch' tg buf a out pc Hs Hh Ht|ch' tg m Hs Hm|ch' tg Hs Hm Hn];
    inversion Hp; subst; cbn in Hs; pose proof (others_stopped _ _ _ Hs eq_refl) as [-> [=]]; subst; cbn in *;
    try done.
  - change (sendto_transmit _ _ _ _) with (sendto_transmit (store x) (SimpleNetworkTasks.net x) msg phy) in Ht.
    rewrite Hsend in Ht. injection Ht as <-. exists 2%nat. split; [lia|].
    rewrite <- (Nat.add_0_r (length w0)) at 1. unfold set_sender. cbn. rewrite insert_insert_eq.
    apply (phase_waiting 0). lia.
  - change (sendto_transmit _ _ _ _) with (sendto_transmit (store x) (SimpleNetworkTasks.net x) msg phy) in Ht.
    congruence.
  - congruence.
  - rewrite lookup_insert_eq in Hm. injection Hm as <-. exists 0%nat. split; [lia|].
    apply phase_returned. apply lookup_insert_eq.
  - destruct Hn. by left.
  - by rewrite lookup_insert_eq in Hm.
Qed.

Lemma phase_handle y w k f p :
  phase y w k (S f) (S p) ->
  handler_alive (handle_msg y id (loop_frame rsp)) = true /\
  exists p', (p' <= S p)%nat /\ phase (handle_msg y id (loop_frame rsp)) w k f p'.
Proof.
  intros Hp. inversion Hp; subst.
  - erewrite handle_reply by (try done; apply lookup_insert_eq). split; [done|].
    exists 1%nat. split; [lia|]. by apply phase_answered.
  - rewrite handle_stray by done. split; [done|]. exists 1%nat. split; [lia|]. by apply phase_answered.
Qed.

(** The endpoint answers what it takes from the wire. *)
Lemma phase_answer l p fr send_ok self out :
  phase (net (owner l)) (wire (owner l)) (taken l) (inflight l) (S p) -> flowing id (loop_frame rsp) l ->
  wire (owner l) !! taken l = Some fr ->
  EventLoop.handle checks send_ok send_all (endpoint l) (EventLoop.ReceiveMsg fr) = (self, out, Ok tt) ->
  EventLoop.pending_cmd self = [] /\ out = [EventLoop.Frame (loop_frame rsp)] /\
  (taken l < length w0 + 2)%nat /\
  phase (net (owner l)) (wire (owner l)) (S (taken l)) (S (inflight l)) (S p).
Proof.
  intros Hp Hfl Hw Hh. destruct (Hanswer (EventLoop.ctx (endpoint l))) as [d Hd].
  assert (fr = frame -> EventLoop.pending_cmd self = [] /\ out = [EventLoop.Frame (loop_frame rsp)]) as Hout.
  { intros ->. unfold frame, frame_to, smbus_frame in Hh. cbn [app] in Hh.
    rewrite (proj1 (loop_answers_packet checks send_ok (endpoint l) _ _ _ _ d rsp Hmsg
      (flowing_endpoint _ _ _ Hfl) Hd)) in Hh. by injection Hh as <- <-. }
  assert (forall k, ([frame; frame] : list bytes) !! k = Some fr -> fr = frame /\ (k < 2)%nat) as Hk.
  { intros [|[|k]]; [intros [= <-]; split; [done|lia]..|done]. }
  inversion Hp as [Hn Hwr Ht Hf|k Hle Hn Hwr Ht Hf|k f Hle Hn Hwr Ht Hf|]; rewrite <- Hwr, <- Ht in Hw.
  - apply lookup_lt_Some in Hw. rewrite Hwr in Hw. lia.
  - rewrite lookup_app_r, Nat.add_comm, Nat.add_sub in Hw by lia. destruct (Hk _ Hw) as [Hfr Hlt].
    destruct (Hout Hfr). split_and!; [done|done|lia|]. rewrite <- Nat.add_succ_r. apply phase_waiting. lia.
  - rewrite lookup_app_r, Nat.add_comm, Nat.add_sub in Hw by lia. destruct (Hk _ Hw) as [Hfr Hlt].
    destruct (Hout Hfr). split_and!; [done|done|lia|]. rewrite <- Nat.add_succ_r. apply phase_answered. lia.
Qed.

(** A phase before the return has a step. *)
Lemma going_moves n l p :
  going n l -> phase (net (owner l)) (wire (owner l)) (taken l) (inflight l) (S p) ->
  exists l', progress checks l l'.
Proof.
  intros [Hfl _] Hp. pose proof (phase_alive _ _ _ _ _ Hp) as Hal.
  inversion Hp as [Hn Hw Ht Hf|k Hle Hn Hw Ht Hf|k f Hle Hn Hw Ht Hf|].
  - eexists. eapply progress_future. rewrite <- Hn.
    eapply (call_transmit _ ch tag msg phy); [apply lookup_insert_eq|done|exact Hsend].
  - destruct k as [|k]; [|eapply flow_moves; [| exact Hfl|exact Hal|]; [done|lia]].
    destruct (Hanswer (EventLoop.ctx (endpoint l))) as [d Hd]. eexists.
    apply (progress_answers checks l frame (fun _ => true) (EventLoop.mk d []) [EventLoop.Frame (loop_frame rsp)]).
    + rewrite <- Hw, <- Ht, Nat.add_0_r. by apply list_lookup_middle.
    + unfold frame, frame_to, smbus_frame. cbn [app].
      apply loop_answers_packet; [exact Hmsg|apply (flowing_endpoint _ _ _ Hfl)|exact Hd].
  - eexists. eapply progress_future. rewrite <- Hn.
    eapply (call_finish _ ch tag reply); apply lookup_insert_eq.
Qed.

Lemma going_moved p l l' :
  moved id (loop_frame rsp) l l' ->
  phase (net (owner l)) (wire (owner l)) (taken l) (inflight l) p ->
  exists m, (m < weight l + 4 * (length w0 + 2 - taken l) + p)%nat /\ going m l'.
Proof.
  intros (Hfl & Hn & Hw & Ht & Hi & Hlt) Hp. eexists. split; [|split; [exact Hfl|]].
  2: { exists p. rewrite Hn, Hw, Ht, Hi. split; [exact Hp|reflexivity]. }
  lia.
Qed.

Lemma handle_inflight l s :
  flowing id (loop_frame rsp) l -> handler_turn (owner l) = Some s -> exists f, inflight l = S f.
Proof.
  intros _ Hs. destruct (handler_turn_cases _ s Hs) as (? & ? & q & _ & Hq & _).
  apply mpsc_recv_Some in Hq as (Hq & _). unfold inflight. rewrite Hq. simpl. eexists. rewrite Nat.add_succ_r.
  reflexivity.
Qed.

(** Every step comes closer to the return. *)
Lemma going_on p l l' :
  flowing id (loop_frame rsp) l ->
  phase (net (owner l)) (wire (owner l)) (taken l) (inflight l) (S p) -> progress checks l l' ->
  exists m, (m < weight l + 4 * (length w0 + 2 - taken l) + S p)%nat /\ going m l'.
Proof.
  intros Hfl Hp [s [i s' Hs|s' Hs]|out n Hf|i fr rest s Hr Hs|fr send_ok self out Hw Hh].
  - eapply going_moved; [by eapply flow_send|exact Hp].
  - destruct (handle_inflight l s' Hfl Hs) as [f Hf]. rewrite Hf in Hp.
    destruct (phase_handle _ _ _ _ _ Hp) as (Hal & p' & Hle & Hp').
    destruct (flow_handle id (loop_frame rsp) l s' Hfl Hs Hal) as (Hfl' & Hn & Hwr & Hi & Hlt).
    eexists. split; [|split; [exact Hfl'|exists p'; split; [|reflexivity]]]; cbn [owner taken] in *; [lia|].
    rewrite Hn, Hwr. rewrite Hf in Hi. injection Hi as <-. exact Hp'.
  - destruct (phase_future _ _ _ _ _ _ _ Hp Hf) as (p' & Hle & Hp').
    eexists. split; [|split; [by destruct Hfl|exists p'; split; [exact Hp'|reflexivity]]].
    unfold weight, polled. cbn [owner taken replies pollers queue]. lia.
  - eapply going_moved; [by eapply flow_receive|exact Hp].
  - destruct (phase_answer l p fr send_ok self out Hp Hfl Hw Hh) as (He & -> & Hlt & Hp').
    eexists. split; [|split; [|exists (S p); split; [|reflexivity]]].
    + unfold weight, polled. cbn [owner taken replies]. rewrite length_app. simpl. lia.
    + destruct Hfl. split; simpl; try done. apply Forall_app. split; [done|by constructor].
    + replace (inflight _) with (S (inflight l)); [exact Hp'|]. unfold inflight, polled. simpl.
      rewrite length_app. simpl. lia.
Qed.

Lemma going_returns n l :
  going n l ->
  eventually (progress checks) (fun l => senders (net (owner l)) !! ch =
    Some (Finished tag (Ok (Extended 0 1 id 0, rsp ++ frame_code rsp)))) l.
Proof.
  apply eventually_measure. clear n l. intros n l Hg. pose proof Hg as [Hfl (p & Hp & ->)].
  destruct p as [|p]; [left; by inversion Hp|right]. split; [by eapply going_moves|].
  intros l' Hl'. by apply going_on.
Qed.

End call.

(** C14: A call of [sendto] to an endpoint that runs the event loop returns: on a
    network at rest with one polled device, once the call has registered its
    flow, every order of the tasks' steps leads to the state in which it has
    returned what [handle_request] answers, with the error code, as long as it
    is not dropped and no other call is made. *)
Theorem sendto_completes l id sd c eid phy payload ch d rsp :
  quiet l id sd c -> pollers (owner l) = [Receiving id] ->
  (forall ch' y, senders (net (owner l)) !! ch' = Some y -> sender_live y = false) ->
  u8 eid -> 8 <= phy < 0x78 -> is_bytes payload -> (length payload < 252)%nat ->
  senders (net (owner l)) !! ch = None -> inbox (net (owner l)) !! ch = None ->
  let msg := packet c eid payload in
  MctpEndpointContext.handle_request (EventLoop.ctx (endpoint l)) (msg ++ [pec msg]) = (d, Ok rsp) ->
  exists l1, link_step checks l l1 /\
    senders (net (owner l1)) !! ch = Some (Queued (flow_tag c eid) msg phy) /\
    eventually (progress checks) (fun l' => senders (net (owner l')) !! ch =
      Some (Finished (flow_tag c eid) (Ok (Extended 0 1 id 0, rsp ++ frame_code rsp)))) l1.
Proof.
  intros Hq Hps Hother He Hphy Hpb Hpl Hnew Hib msg Hh. pose proof (quiet_during l id sd c Hq) as Hx.
  destruct Hq as [Hr Hu Hf Hlock Htk Hrp Hep]. pose proof (usable_values _ _ _ Hu) as [Hca _].
  set (x := net (owner l)) in *.
  assert (is_bytes (msg ++ [pec msg])) as Hb by by apply packet_bytes.
  destruct (reply_fits c eid payload _ d rsp He Hca Hb Hh) as (Hlb & rt & Hrt & Hans).
  set (y := during x [(flow_tag c eid, ch)] (<[ch := Queued (flow_tag c eid) msg phy]> (senders x)) (inbox x) None).
  assert (call_step checks x [] y) as Hc.
  { rewrite Hx at 1. apply (call_registers checks (during x [] (senders x) (inbox x) None) sd c payload);
      [by destruct Hu|done|done]. }
  eexists (mk_link (mk y (queue (owner l)) (pollers (owner l)) (wire (owner l)) _ _ _) (endpoint l) (taken l)
    (replies l)). split; [|split; [apply lookup_insert_eq|]].
  { pose proof (owner_calls checks l [] [] y (client_call _ _ _ _ Hc)) as Hs. by rewrite !app_nil_r in Hs. }
  eapply (going_returns x (senders x) (inbox x) id phy ch (flow_tag c eid) rt msg rsp (wire (owner l)) Hother Hib
    Hb Hlb); [|exact Hrt|exact Hans| |].
  - intros e. destruct (MctpEndpointContext.handle_request e (msg ++ [pec msg])) as [d2 res] eqn:Hh2.
    exists d2. rewrite handle_request_handle in Hh, Hh2 by done.
    pose proof (handle_result e (EventLoop.ctx (endpoint l)) (msg ++ [pec msg])) as Hres.
    by rewrite Hh, Hh2 in Hres; simplify_eq/=.
  - eapply transmit_twice; [exact Hu|done|subst msg; simpl; lia].
  - split; [split; simpl; try done; [by left|by rewrite Hrp|by rewrite (ready_queue _ _ Hr)|..]; by destruct Hr|].
    exists 3%nat. split; [|reflexivity]. cbn [owner taken net wire].
    replace (inflight _) with 0%nat; [rewrite Htk; apply phase_queued|].
    unfold inflight, polled. simpl. by rewrite Hrp, Hps, (ready_queue _ _ Hr).
Qed.

End facts.
End NodeProgressFacts.
