(* ===== verification/SystemRefinement.v ===== *)
(** * The requests of the system and the discovery loop alone

    Whatever the tasks of the bus owner do, the discovery loop among them
    behaves like [Bus.run] of [run_bus_owner_loop] in some environment: the
    environment that replays what the loop met where it stopped. *)
From S2P Require Import Prelude Crates Reference Derive Enums Transport ControlModels.
From S2P Require Import ControlPayload Errors Smbus Network BusOwner Discovery Offers EventLoop.
From S2P Require Import Channels BusOwnerSystem.

(** ** Replaying what a program met *)
Module Replay.
Import Bus BusOwnerSystem.

Fixpoint replay {A} (p : prog A) (h : list event) {struct h} : option (prog A) :=
  match h with
  | [] => Some p
  | Accessed c :: h => match p with Access f k => replay (k c) h | _ => None end
  | Exchanged buf x :: h =>
      match p with
      | Exchange buf' k => if decide (buf = buf') then replay (k x) h else None
      | _ => None
      end
  | Slept :: h => match p with Sleep p => replay p h | _ => None end
  end.

Lemma replay_app {A} (p : prog A) h h' : replay p (h ++ h') = replay p h ≫= fun p => replay p h'.
Proof.
  revert p. induction h as [|ev h IH]; intros p; [done|].
  destruct ev, p; cbn [app replay]; try done; try apply IH.
  case_decide; [apply IH|done].
Qed.

Lemma replay_after {A B} (g : outcome AnyError A -> prog B) p h p' :
  replay p h = Some p' -> replay (after g p) h = Some (after g p').
Proof.
  revert p. induction h as [|ev h IH]; intros p; [by intros [= <-]|].
  destruct ev, p; cbn [after replay]; try done; try apply IH.
  case_decide; [apply IH|done].
Qed.

Lemma replay_bind {A B} (p p' : prog A) (f : A -> prog B) h :
  replay p h = Some p' -> replay (p ≫= f) h = Some (p' ≫= f).
Proof. apply replay_after. Qed.

(** The environment that does again what a history tells; where the history
    ends, it changes nothing and drops the oneshot. *)
Definition env_of (h : list event) : env :=
  mk_env
    (fun n c => match h !! n with Some (Accessed c') => c' | _ => c end)
    (fun n _ c => (c, match h !! n with Some (Exchanged _ x) => x | _ => Closed end))
    (fun _ c => c).

Lemma run_replay {A} (p p' : prog A) h1 h2 s :
  clock s = length h1 -> replay p h2 = Some p' ->
  exists c, run (env_of (h1 ++ h2)) p s =
    run (env_of (h1 ++ h2)) p' (mk_sys c (sent s ++ sent_of h2) (length (h1 ++ h2))).
Proof.
  revert h1 p s. induction h2 as [|ev h2 IH]; intros h1 p s Hc Hr.
  { cbn in Hr. injection Hr as <-. exists (Bus.ctx s). unfold sent_of. cbn. rewrite !app_nil_r, <- Hc.
    by destruct s. }
  assert (h1 ++ ev :: h2 = (h1 ++ [ev]) ++ h2) as Heq by by rewrite <- (assoc_L (++)).
  assert ((h1 ++ ev :: h2) !! length h1 = Some ev) as Hev by by apply list_lookup_middle.
  destruct ev as [c|buf x|], p as [o|f k|buf' k|p]; cbn [replay] in Hr; try done;
    [| destruct (decide (buf = buf')) as [<-|?]; [|done] |];
    cbn [run env_of interfere exchange_with sleep]; rewrite Hc, ?Hev, Heq;
    match goal with |- exists _, run (env_of (?h ++ h2)) ?q ?s' = _ =>
      destruct (IH h q s') as [c' Hrun];
        [cbn [clock]; rewrite length_app; simpl; lia|exact Hr|exists c'; rewrite Hrun]
    end; [done| |done].
  unfold sent_of. destruct x; cbn; by rewrite <- ?(assoc_L (++)).
Qed.

End Replay.

(** ** The simulation *)
Module SystemRefinement.
Import Bus MctpEndpointContext Discovery BusOwnerSystem Replay Offers.
Section facts.
Context `{CratesLaws, Debug, MpscLaws EventLoop.PhysicalTransportCommands}.

Definition event_ok (ev : event) : Prop :=
  match ev with
  | Accessed c => valid c
  | Exchanged _ x => exchange_ok x
  | Slept => True
  end.

(** ** What programs do to the context

    They keep it valid, and none asks for a discovery. *)
Fixpoint tame {A} (p : prog A) : Prop :=
  match p with
  | Done _ => True
  | Access f k => forall c, valid c -> valid (f c) /\
      (perform_discovery (f c) = true -> perform_discovery c = true) /\ tame (k c)
  | Exchange _ k => forall x, exchange_ok x -> tame (k x)
  | Sleep p => tame p
  end.

Lemma tame_after {A B} (p : prog A) (g : outcome AnyError A -> prog B) :
  tame p -> (forall o, tame (g o)) -> tame (after g p).
Proof.
  intros Hp Hg. induction p as [o|f k IH|buf k IH|p IH]; cbn [tame after] in *; [apply Hg| | |auto].
  - intros c Hc. destruct (Hp c Hc) as (? & ? & ?). auto.
  - auto.
Qed.

Lemma tame_lift {A} (o : outcome AnyError A) : tame (lift o).
Proof. done. Qed.
Lemma tame_ret {A} (x : A) : tame (mret x).
Proof. done. Qed.
Lemma tame_bind {A B} (p : prog A) (f : A -> prog B) :
  tame p -> (forall x, tame (f x)) -> tame (p ≫= f).
Proof. intros Hp Hf. apply tame_after; [done|]. intros [x|e|w]; [apply Hf|done|done]. Qed.
Lemma tame_on_outcome {A} f (p : prog A) : tame p -> tame (on_outcome f p).
Proof. intros Hp. by apply tame_after. Qed.

(** A method that leaves the context as every request leaves it. *)
Lemma tame_request {A} f (k : bytes -> prog A) :
  (forall c, (f c).1 = BusOwnerFacts.after_request c) -> (forall bs, tame (k bs)) ->
  tame (call f ≫= k).
Proof.
  intros Hf Hk. apply tame_bind; [|done]. intros c Hc. rewrite Hf.
  split; [by apply BusOwnerFacts.after_request_valid|done].
Qed.

Lemma tame_send_and_decode {T : Type} `{Serde T} buf : tame (send_and_decode (T:=T) buf).
Proof. done. Qed.

Create HintDb tame.
Hint Resolve tame_lift tame_ret tame_bind tame_on_outcome tame_request tame_send_and_decode : tame.

Lemma tame_turn checks ping next : tame (turn checks ping next).
Proof.
  assert (tame swap_perform_discovery) as Hswap.
  { intros c (? & ? & ? & ?). split_and!; [by split_and!|done|done]. }
  assert (forall dst, tame (send_get_eid_request dst)) as Hget.
  { intros dst. unfold send_get_eid_request, with_context. eauto 6 with tame. }
  assert (forall eid, tame (send_set_eid_request eid)) as Hset.
  { intros eid. unfold send_set_eid_request, with_context. eauto 6 with tame. }
  assert (forall start n, tame (send_allocate_eids_request start n)) as Halloc.
  { intros start n. unfold send_allocate_eids_request, with_context. eauto 6 with tame. }
  assert (forall endpoint, tame (assign_eid checks endpoint next)) as Hassign.
  { intros endpoint. unfold assign_eid. apply tame_bind; [apply tame_lift|]. intros next'.
    apply tame_bind; [apply tame_on_outcome, Hset|]. intros resp.
    apply tame_bind; [apply tame_lift|]. intros []. cbn zeta. case_match; apply tame_lift. }
  assert (forall endpoint, tame (allocate_pool endpoint)) as Hpool.
  { intros endpoint. unfold allocate_pool. case_match; [|apply tame_ret].
    apply tame_bind; [apply tame_on_outcome, Halloc|]. intros resp.
    apply tame_bind; [apply tame_lift|]. intros []. case_match; [apply tame_lift|apply tame_ret]. }
  unfold turn. apply tame_bind; [exact Hswap|]. intros [|].
  - unfold discover. apply tame_bind; [apply tame_on_outcome, Hget|]. intros resp.
    apply tame_bind; [apply tame_lift|]. intros []. cbn zeta.
    apply tame_bind; [case_match; [apply Hassign|apply tame_ret]|]. intros r.
    apply tame_bind; [apply Hpool|]. intros []. apply tame_ret.
  - apply tame_bind; [|intros []; apply tame_ret]. unfold idle. apply tame_bind; [done|]. intros [].
    case_match; [|apply tame_ret]. apply tame_bind; [apply tame_on_outcome, tame_on_outcome, Hget|].
    intros resp. apply tame_on_outcome, tame_lift.
Qed.

(** The program a task still has to run. *)
Definition rest_of (st : task) : prog Z :=
  match st with Running p => p | Awaiting _ buf k => Exchange buf k end.

(** The relation to a run of the loop: for some number of turns the task
    started, and any number it has not, replaying its history leaves what it
    still has to run. *)
Record sim (checks : bool) (ping : Z) (self : MctpEndpointContext.t) (s : t) : Prop := {
  sim_ctx : valid (ctx s);
  sim_queue : Forall EventLoopFacts.recv_bytes (contents (queue s));
  sim_mailbox ch bs : mailbox s !! ch = Some (Some bs) -> is_bytes bs;
  sim_tame : tame (rest_of (state (main s)));
  sim_history : Forall event_ok (history (main s));
  sim_replay : exists started, forall more,
    replay (turns checks (S started + more) ping (min_eid_in_pool self)) (history (main s)) =
      Some (rest_of (state (main s)) ≫= turns checks more ping);
}.

Lemma sim_init checks ping self : valid self -> sim checks ping self (init checks ping self).
Proof.
  intros Hv. split; cbn; [done| |by intros ch bs; rewrite lookup_empty|apply tame_turn|constructor|].
  - by destruct (mpsc_channel_spec CHANNEL_SIZE) as (-> & _ & _); [unfold CHANNEL_SIZE; lia|].
  - by exists 0%nat.
Qed.

(** A step of another task leaves the discovery loop alone. *)
Lemma sim_others checks ping self s s' :
  main s' = main s -> valid (ctx s') -> Forall EventLoopFacts.recv_bytes (contents (queue s')) ->
  (forall ch bs, mailbox s' !! ch = Some (Some bs) -> is_bytes bs) ->
  sim checks ping self s -> sim checks ping self s'.
Proof. intros Hm Hc Hq Hb [_ _ _ Ht Hh Hr]. by split; rewrite ?Hm. Qed.

Lemma contents_try_send P q x q' :
  mpsc_try_send q x = Some q' -> P x -> Forall P (contents q) -> Forall P (contents q').
Proof.
  intros (-> & _ & _)%mpsc_try_send_Some Hx Hq. apply Forall_app. split; [done|by repeat constructor].
Qed.

Lemma sim_receive checks ping self s r :
  datagram_ok r -> sim checks ping self s -> sim checks ping self (receive_datagram r s).
Proof.
  intros Hr Hs. pose proof Hs as [Hc Hq Hb _ _ _]. unfold receive_datagram.
  destruct r as [buf|err|p]; cbn [unwrap]; [|by apply sim_others with s..].
  destruct (length buf =? 0)%nat; [done|].
  destruct (mpsc_try_send _ _) as [q|] eqn:Hsend; [|by apply sim_others with s].
  apply sim_others with s; try done. cbn [queue set_queue].
  eapply contents_try_send; [done| |done]. by destruct Hr.
Qed.

Lemma deliver_lookup out m ch v :
  deliver out m !! ch = Some v ->
  m !! ch = Some v \/ exists buf, v = Some buf /\ EventLoop.Answer ch buf ∈ out.
Proof.
  unfold deliver. revert m. induction out as [|o out IH]; intros m; cbn [foldl]; [by left|].
  intros [Hm|(buf & -> & Hin)]%IH; [|right; exists buf; split; [done|by apply list_elem_of_further]].
  destruct o as [frame|ch' buf]; [by left|].
  destruct (decide (ch' = ch)) as [->|Hne].
  - rewrite lookup_insert_eq in Hm. injection Hm as <-. right. exists buf. split; [done|constructor].
  - rewrite lookup_insert_ne in Hm by done. by left.
Qed.

Lemma drop_sender_lookup cmd flows m ch bs :
  drop_sender cmd flows m !! ch = Some (Some bs) -> m !! ch = Some (Some bs).
Proof.
  unfold drop_sender. destruct cmd as [|? ? [ch'|]]; try done. case_decide; [done|].
  destruct (decide (ch' = ch)) as [->|]; [by rewrite lookup_insert_eq|by rewrite lookup_insert_ne].
Qed.

(** What a turn of the event loop is made of. *)
Lemma loop_turn_inv checks send s s' :
  loop_turn checks send s = Some s' ->
  exists flows cmd q self out res,
    loop s = Some flows /\ contents (queue s) = cmd :: contents q /\
    capacity q = capacity (queue s) /\ mpsc_is_closed q = mpsc_is_closed (queue s) /\
    EventLoop.handle checks (receiver_waits s) send (EventLoop.mk (ctx s) flows) cmd = (self, out, res) /\
    let m := deliver out (drop_sender cmd (EventLoop.pending_cmd self) (mailbox s)) in
    let alive := match res with Ok _ => true | _ => false end in
    s' = mk (EventLoop.ctx self) (if alive then q else mpsc_drop_receiver q) (rx_alive s)
      (if alive then Some (EventLoop.pending_cmd self) else None) m (wire s ++ frames out) (main s).
Proof.
  unfold loop_turn. destruct (loop s) as [flows|] eqn:Hl; [|done].
  destruct (mpsc_recv (queue s)) as [[cmd q]|] eqn:Hq; [|done].
  apply mpsc_recv_Some in Hq as (Hq & Hcap & Hcl).
  destruct (EventLoop.handle _ _ _ _ _) as [[self out] res] eqn:Hh. intros Hs'.
  exists flows, cmd, q, self, out, res. split_and!; try done. destruct res; by injection Hs' as <-.
Qed.

Lemma sim_loop checks ping self s send s' :
  loop_turn checks send s = Some s' -> sim checks ping self s -> sim checks ping self s'.
Proof.
  intros Ht Hs. pose proof Hs as [Hc Hq Hb _ _ _].
  apply loop_turn_inv in Ht as (flows & cmd & q & self' & out & res & _ & Hcq & _ & _ & Hh & Hs').
  rewrite Hcq in Hq. apply Forall_cons in Hq as [Hcmd Hq].
  pose proof (EventLoopFacts.handle_valid checks (receiver_waits s) send
    (EventLoop.mk (ctx s) flows) cmd Hc Hcmd) as Hv. rewrite Hh in Hv. destruct Hv as [Hv Hout].
  cbn zeta in Hs'. subst s'. apply sim_others with s; [done|done| | |done]; cbn.
  - destruct res; [done|..]; by destruct (mpsc_drop_receiver_spec q) as (-> & _ & _).
  - intros ch bs [Hm%drop_sender_lookup|(buf & [= ->] & Hin)]%deliver_lookup; [by eapply Hb|].
    by apply (proj1 (Forall_forall _ _) Hout) in Hin.
Qed.

(** The discovery loop meets [ev], and its program moves on. *)
Lemma sim_resume checks ping self s s1 p ev :
  main s1 = main s -> valid (ctx s1) -> queue s1 = queue s -> mailbox s1 = mailbox s ->
  event_ok ev -> replay (rest_of (state (main s))) [ev] = Some p -> tame p ->
  sim checks ping self s -> sim checks ping self (resume s1 p ev).
Proof.
  intros Hm Hc Hq Hb Hev Hp Ht [_ Hsq Hsb _ Hh (started & Hr)]. unfold resume.
  split; proj; rewrite ?Hm, ?Hq; [done|done|by rewrite Hb|done| |].
  - apply Forall_app. by split; [|repeat constructor].
  - exists started. intros more. rewrite replay_app, Hr. cbn [mbind option_bind].
    by apply (replay_bind _ _ (turns checks more ping)) in Hp.
Qed.

Lemma replay_exchange {A} buf (k : exchange -> prog A) x :
  replay (Exchange buf k) [Exchanged buf x] = Some (k x).
Proof. cbn. by rewrite decide_True. Qed.

Lemma sim_main checks ping self s s' :
  main_step checks ping s = Some s' -> sim checks ping self s -> sim checks ping self s'.
Proof.
  intros Hstep Hs. pose proof Hs as [Hc Hq Hb Ht Hh (started & Hr)]. unfold main_step in Hstep.
  destruct (state (main s)) as [[[next|err|w]|f k|buf k|p]|ch buf k] eqn:Hst; cbn [rest_of] in *.
  - injection Hstep as <-. split; proj; [done|done|done|apply tame_turn|done|].
    exists (S started). intros more. specialize (Hr (S more)).
    replace (S started + S more)%nat with (S (S started) + more)%nat in Hr by lia. exact Hr.
  - done.
  - done.
  - injection Hstep as <-. destruct (Ht _ Hc) as (Hf & _ & Hk).
    apply sim_resume with s; try done. by rewrite Hst.
  - destruct (mpsc_try_send _ _) as [q|] eqn:Hsend.
    + injection Hstep as <-. split; proj; [done| |done|done|done|].
      * by eapply contents_try_send.
      * exists started. intros more. by rewrite Hr.
    + destruct (mpsc_is_closed _); [|done]. injection Hstep as <-.
      apply sim_resume with s; try done; [|by apply Ht]. rewrite Hst. apply replay_exchange.
  - injection Hstep as <-. apply sim_resume with s; try done. by rewrite Hst.
  - assert (forall x, exchange_ok x -> sim checks ping self (resume s (k x) (Exchanged buf x))) as Hx.
    { intros x Hx. apply sim_resume with s; try done; [|by apply Ht]. rewrite Hst.
      apply replay_exchange. }
    destruct (mailbox s !! ch) as [[bs|]|] eqn:Hm; [|..|destruct (loop s); [done|]];
      injection Hstep as <-; apply Hx; [|done..]. by eapply Hb.
Qed.

Lemma sim_reachable checks ping self s :
  valid self -> reachable checks ping self s -> sim checks ping self s.
Proof.
  intros Hv. unfold reachable. apply (rtc_ind_r (sim checks ping self)); [by apply sim_init|].
  intros s1 s2 _ [r _ _ Hr|send s' _ Ht|s' Ht] Hs.
  - by apply sim_receive.
  - by eapply sim_loop.
  - by eapply sim_main.
Qed.

(** ** The refinement *)

Lemma env_of_ok h : Forall event_ok h -> env_ok (env_of h).
Proof.
  intros Hh. split; cbn; [|done| |done].
  - intros n c Hc. destruct (h !! n) as [ev|] eqn:He; [|done].
    destruct ev; try done. by apply (Forall_lookup_1 _ _ _ _ Hh He).
  - intros n buf c. destruct (h !! n) as [ev|] eqn:He; [|done].
    destruct ev; try done. by apply (Forall_lookup_1 _ _ _ _ Hh He).
Qed.

Lemma run_sent {A} e (p : prog A) s : sent s `prefix_of` sent (run e p s).1.
Proof.
  revert s. induction p as [o|f k IH|buf k IH|p IH]; intros s; cbn [run];
    [reflexivity|exact (IH _ (mk_sys _ (sent s) _))| |exact (IH (mk_sys _ (sent s) _))].
  destruct (exchange_with e _ _ _) as [c x]. etrans; [|by apply IH]. cbn.
  destruct x; first [reflexivity|by apply prefix_app_r].
Qed.

(** Some run of the sequential loop makes the requests of the system. *)
Lemma refines checks ping self s :
  valid self -> reachable checks ping self s ->
  exists e n, env_ok e /\
    let r := run e (run_bus_owner_loop checks n ping self) (mk_sys self [] 0) in
    requests s `prefix_of` sent r.1 /\
    (forall o, exit_status s = Some o -> r.2 = o /\ sent r.1 = requests s).
Proof.
  intros Hv Hs. apply sim_reachable in Hs as [_ _ _ _ Hh (started & Hr)]; [|done].
  exists (env_of (history (main s))), (S started). split; [by apply env_of_ok|].
  specialize (Hr 0%nat). rewrite Nat.add_0_r in Hr.
  destruct (run_replay _ _ [] _ (mk_sys self [] 0) eq_refl Hr) as [c Hrun].
  cbn [app sent] in Hrun. unfold run_bus_owner_loop. rewrite Hrun. clear Hrun Hr Hh.
  cbn zeta. unfold requests, exit_status.
  set (h := history (main s)). set (s0 := mk_sys c _ _).
  destruct (state (main s)) as [p|ch buf k]; cbn [rest_of].
  - rewrite app_nil_r. split; [apply (run_sent (env_of h) _ s0)|].
    intros o Ho. destruct p as [[next|err|w]| | |]; try done; injection Ho as <-; done.
  - split; [|done]. change (Exchange buf k ≫= _) with
      (Exchange buf (fun x => k x ≫= turns checks 0 ping)). cbn [run exchange_with env_of].
    subst s0. cbn [clock]. rewrite lookup_ge_None_2 by done.
    etrans; [|apply run_sent]. reflexivity.
Qed.

End facts.
End SystemRefinement.
