(* ===== verification/SystemSafety.v ===== *)
(** * What the system of tasks keeps

    Invariants of the bus owner's tasks under every interleaving: where the one
    outstanding oneshot is, what the event loop sends, and what can end the
    event loop.  With the refinement they carry the increasing EIDs of the
    discovery loop to the datagrams on the wire. *)
From Stdlib Require Import Sorting.Sorted.
From S2P Require Import Prelude Crates Reference Derive Enums Transport ControlModels.
From S2P Require Import ControlPayload Errors Smbus Network BusOwner Discovery Offers EventLoop.
From S2P Require Import Channels BusOwnerSystem SystemRefinement.

Module SystemSafety.
Import Bus MctpEndpointContext Discovery BusOwnerFacts Offers EventLoopFacts BusOwnerSystem SystemRefinement.
Section facts.
Context `{CratesLaws, Debug, MpscLaws EventLoop.PhysicalTransportCommands}.

(** ** One command of the event loop *)

(** A command that is handled without a panic: it leaves the flows alone, adds
    its own, drops its oneshot, or completes one that waits. *)
Lemma handle_cases checks send_ok send self cmd self' out :
  EventLoop.handle checks send_ok send self cmd = (self', out, Ok tt) ->
  (cmd_channel cmd = [] /\ EventLoop.pending_cmd self' = EventLoop.pending_cmd self /\
   concat (answered <$> out) = []) \/
  (exists ch, cmd_channel cmd = [ch] /\ concat (answered <$> out) = [] /\
    ((EventLoop.pending_cmd self').*2 = (EventLoop.pending_cmd self).*2 ++ [ch] \/ 
     EventLoop.pending_cmd self' = EventLoop.pending_cmd self)) \/
  (exists i tag ch buf, cmd_channel cmd = [] /\ EventLoop.pending_cmd self !! i = Some (tag, ch) /\
    EventLoop.pending_cmd self' = delete i (EventLoop.pending_cmd self) /\
    out = [EventLoop.Answer ch buf] /\ send_ok ch = true).
Proof.
  destruct cmd as [buf|msg_type buf [ch|]]; cbn [EventLoop.handle].
  - open_loop. destruct (_ || _); [intros [= <- <-]; by left|].
    destruct (slice_from buf 4) as [resp_buf|e|p]; [|done|done].
    destruct (create_tag resp_buf) as [tag|]; [|intros [= <- <-]; by left].
    destruct (EventLoop.pending_cmd self !! _) as [[tag' ch]|] eqn:Hi.
    { destruct (send_ok ch) eqn:Hok; [|done]. intros [= <- <-]. right; right.
      by eexists _, tag', ch, resp_buf. }
    destruct (MctpEndpointContext.handle_request _ _) as [c [rsp|err|p]]; [|intros [= <- <-]; by left|done].
    intros Hs. left. pose proof (send_cmd_none checks send
      (EventLoop.mk c (EventLoop.pending_cmd self)) MessageType.Control rsp) as Hn.
    rewrite Hs in Hn. by destruct Hn as [-> ->].
  - open_loop. destruct (create_tag buf) as [tag|].
    + destruct (EventLoop.frame_of _ _); [destruct (unwrap _)|..]; intros [= <- <-].
      right; left. exists ch. split_and!; [done|done|left]. cbn. by rewrite fmap_app.
    + intros [= <- <-]. right; left. exists ch. split_and!; [done|done|by right].
  - intros Hs. left. pose proof (send_cmd_none checks send self msg_type buf) as Hn.
    rewrite Hs in Hn. by destruct Hn as [-> ->].
Qed.

(** ** The outstanding oneshot *)

(** The oneshot the discovery loop awaits, while nothing was sent to it. *)
Definition outstanding (s : t) : list channel :=
  match state (main s) with
  | Awaiting ch _ _ => match mailbox s !! ch with None => [ch] | Some _ => [] end
  | Running _ => []
  end.

Definition queued (s : t) : list channel := concat (cmd_channel <$> contents (queue s)).

Record track (s : t) : Prop := {
  track_mailbox ch v : mailbox s !! ch = Some v -> (ch < next_channel (main s))%nat;
  track_state ch buf k : state (main s) = Awaiting ch buf k -> (ch < next_channel (main s))%nat;
  track_capacity : capacity (queue s) = CHANNEL_SIZE;
  track_closed : mpsc_is_closed (queue s) = match loop s with Some _ => false | None => true end;
  track_dead : loop s = None -> contents (queue s) = [];
  track_flows flows : loop s = Some flows -> flows.*2 ++ queued s = outstanding s;
}.

Lemma outstanding_awaiting s ch : ch ∈ outstanding s -> receiver_waits s ch = true /\ outstanding s = [ch].
Proof.
  unfold outstanding, receiver_waits. destruct (state (main s)) as [|ch' buf k]; [by intros ?%not_elem_of_nil|].
  destruct (mailbox s !! ch') eqn:Hm; [by intros ?%not_elem_of_nil|].
  intros ->%list_elem_of_singleton. split; [|done]. by rewrite !bool_decide_true.
Qed.

Lemma track_init checks ping self : track (init checks ping self).
Proof.
  destruct (mpsc_channel_spec CHANNEL_SIZE) as (Hc & Hcap & Hcl); [unfold CHANNEL_SIZE; lia|].
  split; cbn; try done. intros flows [= <-]. unfold queued. cbn. by rewrite Hc.
Qed.

Lemma track_receive s r : datagram_ok r -> track s -> track (receive_datagram r s).
Proof.
  intros Hr Hs. pose proof Hs as [Hm Hst Hcap Hcl Hd Hf]. unfold receive_datagram.
  destruct r as [buf|err|p]; cbn [unwrap]; try by split.
  destruct (length buf =? 0)%nat; [done|].
  destruct (mpsc_try_send _ _) as [q|] eqn:Hq; [|by split].
  assert (loop s <> None) as Hl.
  { intros Hl. rewrite Hl in Hcl. rewrite (proj2 (mpsc_try_send_None _ _)) in Hq by auto. done. }
  apply mpsc_try_send_Some in Hq as (Hq & Hqc & Hqcl).
  split; proj; rewrite ?Hqc, ?Hqcl; try done.
  intros flows Hflows. change (outstanding (set_queue s q)) with (outstanding s).
  rewrite <- (Hf flows Hflows). unfold queued. cbn [queue set_queue].
  rewrite Hq, fmap_app, concat_app. cbn. by rewrite app_nil_r.
Qed.

Lemma app_singleton {A} (l k : list A) x :
  l ++ k = [x] -> (l = [x] /\ k = []) \/ (l = [] /\ k = [x]).
Proof.
  destruct l as [|y [|z l]]; cbn; [by right| |done].
  destruct k; [|done]. intros [= ->]. by left.
Qed.

Lemma deliver_none out m : concat (answered <$> out) = [] -> deliver out m = m.
Proof.
  unfold deliver. revert m. induction out as [|[frame|ch buf] out IH]; intros m; [done| |done].
  apply IH.
Qed.

Lemma drop_sender_nil cmd flows m : cmd_channel cmd = [] -> drop_sender cmd flows m = m.
Proof. by destruct cmd as [|? ? []]. Qed.

Lemma drop_sender_one cmd flows m ch :
  cmd_channel cmd = [ch] ->
  drop_sender cmd flows m = if decide (ch ∈ flows.*2) then m else <[ch := None]> m.
Proof. destruct cmd as [|? ? [ch'|]]; try done. by intros [= ->]. Qed.

(** A command that panics puts out nothing. *)
Lemma handle_panic_out checks send_ok send self cmd self' out res :
  EventLoop.handle checks send_ok send self cmd = (self', out, res) -> res <> Ok tt -> out = [].
Proof.
  assert (forall self buf resp self' out res,
    EventLoop.send_cmd checks send self MessageType.Control buf resp = (self', out, res) ->
    res <> Ok tt -> out = []) as Hsend.
  { clear. intros self buf resp self' out res. open_loop.
    destruct resp; [destruct (create_tag buf)|]; try (by intros [= <- <- <-]);
      destruct (EventLoop.frame_of _ _); try destruct (unwrap _); by intros [= <- <- <-]. }
  destruct cmd as [buf|msg_type buf resp]; cbn [EventLoop.handle]; [|by apply Hsend].
  open_loop. destruct (_ || _); [by intros [= <- <- <-]|].
  destruct (slice_from buf 4); try (by intros [= <- <- <-]).
  destruct (create_tag _); [|by intros [= <- <- <-]].
  destruct (EventLoop.pending_cmd self !! _) as [[? ch]|].
  { destruct (send_ok ch); by intros [= <- <- <-]. }
  destruct (MctpEndpointContext.handle_request _ _) as [c [rsp|err|p]]; try (by intros [= <- <- <-]).
  apply Hsend.
Qed.

(** The flows, the queue and the awaited oneshot after a turn without a panic. *)
Lemma loop_outstanding s flows cmd q self out checks send_ok send m wire' :
  flows.*2 ++ queued s = outstanding s -> contents (queue s) = cmd :: contents q ->
  EventLoop.handle checks send_ok send (EventLoop.mk (ctx s) flows) cmd = (self, out, Ok tt) ->
  m = deliver out (drop_sender cmd (EventLoop.pending_cmd self) (mailbox s)) ->
  let s' := mk (EventLoop.ctx self) q (rx_alive s) (Some (EventLoop.pending_cmd self)) m wire' (main s) in
  (EventLoop.pending_cmd self).*2 ++ queued s' = outstanding s'.
Proof.
  intros Hf Hq Hh -> s'. apply handle_cases in Hh. cbn [EventLoop.pending_cmd] in Hh.
  unfold queued in Hf. rewrite Hq, fmap_cons in Hf. cbn [concat] in Hf.
  unfold queued, s'. proj. set (Q := concat _) in *.
  destruct Hh as [(Hc & -> & Ha)|[(ch & Hc & Ha & Hp)|(i & tag & ch & buf & Hc & Hi & Hp & -> & _)]];
    rewrite Hc in Hf; cbn [app] in Hf.
  - rewrite deliver_none, drop_sender_nil by done. exact Hf.
  - assert (ch ∈ outstanding s) as Hin
      by (rewrite <- Hf; apply elem_of_app; right; constructor).
    destruct (outstanding_awaiting s ch Hin) as [_ Ho]. rewrite Ho in Hf.
    apply app_singleton in Hf as [[_ ?]|[Hnil Hf]]; [done|]. injection Hf as Hf.
    apply fmap_nil_inv in Hnil. subst flows. rewrite Hf, app_nil_r.
    rewrite deliver_none, (drop_sender_one _ _ _ ch) by done.
    unfold outstanding in *. proj. destruct Hp as [Hp|Hp]; rewrite Hp; cbn [fmap list_fmap app].
    + by rewrite decide_True by set_solver.
    + rewrite decide_False by set_solver. destruct (state (main s)) as [|ch' buf k]; [done|].
      destruct (mailbox s !! ch'); [done|]. injection Ho as ->. by rewrite lookup_insert_eq.
  - assert (ch ∈ outstanding s) as Hin.
    { rewrite <- Hf. apply elem_of_app. left. apply list_elem_of_fmap. exists (tag, ch).
      split; [done|]. by eapply list_elem_of_lookup_2. }
    destruct (outstanding_awaiting s ch Hin) as [_ Ho]. rewrite Ho in Hf.
    apply app_singleton in Hf as [[Hone Hf]|[Hnil _]];
      [|apply fmap_nil_inv in Hnil; by subst flows].
    destruct flows as [|x [|y flows]]; try done. destruct i as [|i]; [|done].
    rewrite Hp, Hf. cbn [delete list_delete fmap list_fmap app].
    rewrite drop_sender_nil by done. unfold outstanding in *. proj.
    destruct (state (main s)) as [|ch' buf' k]; [done|]. destruct (mailbox s !! ch'); [done|].
    injection Ho as ->. cbn. by rewrite lookup_insert_eq.
Qed.

Lemma answer_pending checks send_ok send self cmd self' out res ch buf :
  EventLoop.handle checks send_ok send self cmd = (self', out, res) ->
  EventLoop.Answer ch buf ∈ out -> ch ∈ (EventLoop.pending_cmd self).*2.
Proof.
  intros Hh Hin.
  assert (res = Ok tt \/ res <> Ok tt) as [->|Hres] by (destruct res as [[]|e|p]; auto).
  - assert (concat (answered <$> out) = [] -> False) as Hne.
    { intros He. assert (ch ∈ concat (answered <$> out)) as Hc; [|rewrite He in Hc; set_solver].
      apply list_elem_of_In, in_concat. exists [ch]. split; [|by left].
      apply list_elem_of_In, list_elem_of_fmap. by exists (EventLoop.Answer ch buf). }
    apply handle_cases in Hh as [(_ & _ & Ha)|[(? & _ & Ha & _)|(i & tag & ch' & b & _ & Hi & _ & -> & _)]];
      [done..|]. apply list_elem_of_singleton in Hin as [= -> _].
    apply list_elem_of_fmap. exists (tag, ch'). split; [done|]. by eapply list_elem_of_lookup_2.
  - rewrite (handle_panic_out _ _ _ _ _ _ _ _ Hh Hres) in Hin. by apply not_elem_of_nil in Hin.
Qed.

Lemma drop_sender_elem cmd flows m ch v :
  drop_sender cmd flows m !! ch = Some v -> m !! ch = Some v \/ ch ∈ cmd_channel cmd.
Proof.
  destruct cmd as [|? ? [ch'|]]; cbn; try by left. case_decide; [by left|].
  destruct (decide (ch' = ch)) as [->|]; [intros _; right; set_solver|].
  rewrite lookup_insert_ne by done. by left.
Qed.

Lemma outstanding_next s ch : track s -> ch ∈ outstanding s -> (ch < next_channel (main s))%nat.
Proof.
  intros Hs. unfold outstanding. destruct (state (main s)) eqn:Hmain; [by intros ?%not_elem_of_nil|].
  destruct (mailbox s !! _); [by intros ?%not_elem_of_nil|].
  intros ->%list_elem_of_singleton. by eapply (track_state s Hs).
Qed.

Lemma track_loop checks send s s' :
  loop_turn checks send s = Some s' -> track s -> track s'.
Proof.
  intros Ht Hs. pose proof Hs as [Hm Hst Hcap Hcl Hd Hf].
  apply loop_turn_inv in Ht as (flows & cmd & q & self & out & res & Hl & Hq & Hqc & Hqcl & Hh & Hs').
  specialize (Hf flows Hl). rewrite Hl in Hcl. cbn zeta in Hs'.
  assert (forall ch v, deliver out (drop_sender cmd (EventLoop.pending_cmd self) (mailbox s)) !! ch =
    Some v -> (ch < next_channel (main s))%nat) as Hmail.
  { intros ch v [[Hv|Hc]%drop_sender_elem|(buf & -> & Hin)]%deliver_lookup; [by eapply Hm| |];
      apply outstanding_next; try done; rewrite <- Hf; apply elem_of_app.
    - right. unfold queued. rewrite Hq, fmap_cons. cbn. set_solver.
    - left. by eapply (answer_pending _ _ _ (EventLoop.mk (ctx s) flows)). }
  destruct (mpsc_drop_receiver_spec q) as (Hdc & Hdcap & Hdcl).
  destruct res as [[]|e|p]; cbn iota in Hs'; subst s'; split; proj;
    rewrite ?Hdcap, ?Hdcl, ?Hqc, ?Hqcl, ?Hdc; try done.
  intros flows' [= <-]. by eapply loop_outstanding.
Qed.

Lemma track_main checks ping s s' : main_step checks ping s = Some s' -> track s -> track s'.
Proof.
  intros Hstep Hs. pose proof Hs as [Hm Hst Hcap Hcl Hd Hf]. unfold main_step in Hstep.
  assert (forall p ev s1, mailbox s1 = mailbox s -> queue s1 = queue s -> loop s1 = loop s ->
    main s1 = main s -> (loop s <> None -> outstanding s = []) -> track (resume s1 p ev)) as Hres.
  { intros p ev s1 H1m H1q H1l H1main Hout. split; proj; rewrite ?H1m, ?H1q, ?H1l, ?H1main; try done.
    intros flows Hfl. transitivity (outstanding s); [|by rewrite Hout by by rewrite Hfl].
    rewrite <- (Hf flows Hfl). unfold queued. proj. by rewrite H1q. }
  assert (forall p, state (main s) = Running p -> outstanding s = []) as Hrun.
  { intros p Hp. unfold outstanding. by rewrite Hp. }
  destruct (state (main s)) as [[[next|err|w]|f k|buf k|p]|ch buf k] eqn:Hmain.
  - injection Hstep as <-. split; proj; try done.
    intros flows Hfl. specialize (Hf flows Hfl). unfold outstanding in *. rewrite Hmain in Hf. exact Hf.
  - done.
  - done.
  - injection Hstep as <-. apply Hres; eauto.
  - destruct (mpsc_try_send _ _) as [q|] eqn:Hsend.
    + injection Hstep as <-. assert (mpsc_is_closed (queue s) <> true) as Hop.
      { intros Hc. rewrite (proj2 (mpsc_try_send_None _ _)) in Hsend by auto. done. }
      apply mpsc_try_send_Some in Hsend as (Hq & Hqc & Hqcl). split; proj; rewrite ?Hqc, ?Hqcl; try done.
      * intros ch v Hv. specialize (Hm ch v Hv). lia.
      * intros ? ? ? [= <- _ _]. lia.
      * intros Hl. by rewrite Hl in Hcl.
      * intros flows Hfl. specialize (Hf flows Hfl). rewrite (Hrun _ eq_refl) in Hf.
        unfold queued, outstanding in *. proj. rewrite Hq, fmap_app, concat_app, (assoc_L (++)), Hf.
        destruct (mailbox s !! next_channel (main s)) eqn:Hv; [|done].
        specialize (Hm _ _ Hv). lia.
    + destruct (mpsc_is_closed _); [|done]. injection Hstep as <-. apply Hres; eauto.
  - injection Hstep as <-. apply Hres; eauto.
  - assert (forall x, (loop s <> None -> outstanding s = []) ->
      track (resume s (k x) (Exchanged buf x))) as Hx by (intros x Hx; by apply Hres).
    unfold outstanding in Hx. rewrite Hmain in Hx.
    destruct (mailbox s !! ch) as [[bs|]|]; [|..|destruct (loop s); [done|]]; injection Hstep as <-;
      by apply Hx.
Qed.

Lemma track_reachable checks ping self s : reachable checks ping self s -> track s.
Proof.
  unfold reachable. apply (rtc_ind_r track); [apply track_init|].
  intros s1 s2 _ [r _ _ Hr|send s' _ Ht|s' Ht] Hs.
  - by apply track_receive.
  - by eapply track_loop.
  - by eapply track_main.
Qed.


(** C6: At most one oneshot is outstanding in the whole system, and it is never
    lost: while the event loop runs, the flows it waits for and the commands in
    the channel hold exactly the oneshot the discovery loop awaits, until
    something is sent to it. *)
Theorem one_oneshot_outstanding checks ping self s flows :
  reachable checks ping self s -> loop s = Some flows ->
  flows.*2 ++ queued s =
    match state (main s) with
    | Awaiting ch _ _ => match mailbox s !! ch with None => [ch] | Some _ => [] end
    | Running _ => []
    end.
Proof. intros Hs. by apply (track_flows s (track_reachable _ _ _ _ Hs)). Qed.

(** ** The datagrams *)

Definition queued_requests (s : t) : list bytes :=
  omap (fun cmd => match cmd with EventLoop.SendMsg _ buf _ => Some buf | _ => None end)
    (contents (queue s)).

(** The requests among the packets on the wire; every datagram has a header of
    four bytes. *)
Definition wire_requests (s : t) : list bytes :=
  filter (fun packet => is_request packet = true) (drop 4 <$> wire s).

Lemma frame_of_ok checks buf frame :
  (length buf <= 11)%nat -> EventLoop.frame_of (E:=MctpEmuError.t) checks buf = Ok frame ->
  frame = loop_frame buf.
Proof. intros Hl. rewrite frame_of_short by lia. by intros [= <-]. Qed.

Lemma loop_frame_drop buf : exists code, u8 code /\ drop 4 (loop_frame buf) = buf ++ [code].
Proof. destruct (loop_frame_packet buf) as (code & ? & _ & ?). by exists code. Qed.

Lemma send_cmd_frames checks send self msg_type buf resp self' out :
  (length buf <= 11)%nat ->
  EventLoop.send_cmd checks send self msg_type buf resp = (self', out, Ok tt) ->
  frames out = [loop_frame buf] \/ create_tag buf = None.
Proof.
  intros Hl. open_loop.
  destruct resp; [destruct (create_tag buf); [|by right]|];
    (destruct (EventLoop.frame_of _ _) eqn:Hf; [|done|done]; apply frame_of_ok in Hf as ->; [|done];
     destruct (unwrap _); [|done|done]; intros [= <- <-]; by left).
Qed.

(** A reply is no request. *)
Lemma reply_no_request d s t c0 c1 cmd rest :
  u8 c1 -> is_request (HandlerSpec.reply_headers d s t c0 c1 cmd ++ rest) = false.
Proof.
  intros Hc. unfold is_request, HandlerSpec.reply_headers. cbn [app lookup list_lookup].
  apply Z.testbit_false; [lia|]. rewrite (Z.div_small (c1 mod 128)); [done|].
  change (2 ^ 7) with 128. apply Z.mod_pos_bound. lia.
Qed.

Lemma receive_frames checks send_ok send self buf self' out :
  is_bytes buf ->
  EventLoop.handle checks send_ok send self (EventLoop.ReceiveMsg buf) = (self', out, Ok tt) ->
  Forall (fun frame => is_request (drop 4 frame) = false) (frames out).
Proof.
  intros Hb. cbn [EventLoop.handle]. open_loop.
  destruct (_ || _) eqn:Hc; [intros [= <- <-]; constructor|].
  apply orb_false_iff in Hc as [Hl%Nat.ltb_ge _]. rewrite slice_from_Ok by done.
  assert (is_bytes (drop 4 buf)) as Hd by auto with mctp.
  destruct (create_tag (drop 4 buf)) as [tag|]; [|intros [= <- <-]; constructor].
  destruct (EventLoop.pending_cmd self !! _) as [[? ch]|].
  { destruct (send_ok ch); [|done]. intros [= <- <-]. constructor. }
  destruct (MctpEndpointContext.handle_request _ _) as [c [rsp|err|p]] eqn:Hh;
    [|intros [= <- <-]; constructor|done].
  rewrite handle_request_handle in Hh by done.
  destruct (handle_ok _ _ _ _ Hd Hh)
    as (v & d & s & t & c0 & c1 & cmd & body & rest & Hbs & -> & Hr & Hrl).
  rewrite Hbs in Hd. repeat (apply Forall_cons in Hd as [? Hd]).
  intros [Hf|Hnone]%send_cmd_frames; [|exfalso; revert Hnone|simpl; lia].
  - rewrite Hf. apply Forall_singleton. edestruct loop_frame_drop as (code & _ & ->).
    rewrite <- (assoc_L (++)). by apply reply_no_request.
  - assert (is_bytes (HandlerSpec.reply_headers d s t c0 c1 cmd ++ rest)) as Hrb
      by (apply reply_headers_bytes; [solve_bytes|done]).
    destruct (create_tag_some _ Hrb) as [? ->]. done.
Qed.

Lemma frames_no_request out :
  Forall (fun frame => is_request (drop 4 frame) = false) (frames out) ->
  filter (fun packet => is_request packet = true) (drop 4 <$> frames out) = [].
Proof.
  induction 1 as [|frame l Hf _ IH]; [done|]. cbn. rewrite decide_False; [done|]. by rewrite Hf.
Qed.

(** The EIDs on the wire are those of the requests handled so far, the first of
    those the discovery loop made. *)
Record fifo (s : t) : Prop := {
  fifo_handled : exists handled, grants (wire_requests s) = grants handled /\
    match loop s with
    | Some _ => handled ++ queued_requests s = requests s
    | None => handled `prefix_of` requests s
    end;
}.

Lemma fifo_same s s' :
  wire s' = wire s -> loop s' = loop s -> queued_requests s' = queued_requests s ->
  requests s' = requests s -> fifo s -> fifo s'.
Proof.
  intros Hw Hl Hq Hr [(handled & Hg & Hh)]. split. exists handled.
  unfold wire_requests. by rewrite Hw, Hl, Hq, Hr.
Qed.

Lemma requests_resume s p ev :
  requests (resume s p ev) = sent_of (history (main s)) ++ sent_of [ev].
Proof. unfold requests, sent_of. cbn. by rewrite omap_app, app_nil_r. Qed.

Lemma fifo_main checks ping s s' : main_step checks ping s = Some s' -> track s -> fifo s -> fifo s'.
Proof.
  intros Hstep Ht Hs. unfold main_step in Hstep. pose proof Hs as [(handled & Hg & Hh)].
  assert (forall p ev s1, wire s1 = wire s -> queue s1 = queue s -> loop s1 = loop s -> main s1 = main s ->
    requests (resume s1 p ev) = requests s -> fifo (resume s1 p ev)) as Hres.
  { intros p ev s1 H1w H1q H1l H1m Hr. apply fifo_same with s; try done; proj; try done.
    unfold queued_requests. proj. by rewrite H1q. }
  unfold requests in Hres at 2.
  destruct (state (main s)) as [[[next|err|w]|f k|buf k|p]|ch buf k] eqn:Hmain.
  - injection Hstep as <-. apply fifo_same with s; try done. unfold requests. proj. by rewrite Hmain.
  - done.
  - done.
  - injection Hstep as <-. apply Hres; try done. by rewrite requests_resume.
  - destruct (mpsc_try_send _ _) as [q|] eqn:Hsend.
    + injection Hstep as <-.
      assert (mpsc_is_closed (queue s) <> true) as Hop.
      { intros Hc. rewrite (proj2 (mpsc_try_send_None _ _)) in Hsend by auto. done. }
      rewrite (track_closed s Ht) in Hop. apply mpsc_try_send_Some in Hsend as (Hq & _ & _).
      destruct (loop s) as [flows|] eqn:Hl; [|done].
      split. exists handled. split; [exact Hg|]. proj. rewrite Hl.
      unfold requests, queued_requests in *. proj. rewrite Hmain, app_nil_r in Hh.
      by rewrite Hq, omap_app, <- Hh, (assoc_L (++)).
    + destruct (mpsc_is_closed _); [|done]. injection Hstep as <-. apply Hres; try done.
      by rewrite requests_resume.
  - injection Hstep as <-. apply Hres; try done. by rewrite requests_resume.
  - assert (forall x, x <> NotSent -> fifo (resume s (k x) (Exchanged buf x))) as Hx.
    { intros x Hx. apply Hres; try done. rewrite requests_resume. by destruct x. }
    destruct (mailbox s !! ch) as [[bs|]|]; [|..|destruct (loop s); [done|]]; injection Hstep as <-;
      by apply Hx.
Qed.

Lemma fifo_loop checks send s s' :
  loop_turn checks send s = Some s' -> Forall recv_bytes (contents (queue s)) ->
  Forall own_request (requests s) -> fifo s -> fifo s'.
Proof.
  intros Ht Hb Hown [(handled & Hg & Hh)].
  apply loop_turn_inv in Ht as (flows & cmd & q & self & out & res & Hl & Hq & _ & _ & Hhandle & Hs').
  rewrite Hl in Hh. cbn zeta in Hs'. rewrite Hq in Hb. apply Forall_cons in Hb as [Hcmd _].
  assert (res = Ok tt \/ res <> Ok tt) as [->|Hres] by (destruct res as [[]|e|p]; auto).
  - cbn iota in Hs'. subst s'. unfold queued_requests in Hh. rewrite Hq in Hh.
    unfold wire_requests, queued_requests in *.
    change (requests _) with (requests s).
    destruct cmd as [buf|msg_type buf resp]; cbn [omap list_omap] in Hh.
    + apply receive_frames in Hhandle; [|done]. apply frames_no_request in Hhandle.
      split. exists handled. unfold wire_requests. proj.
      rewrite fmap_app, filter_app, Hhandle, app_nil_r. done.
    + assert (own_request buf) as [Hbb Hbl Hbr Hbg _].
      { rewrite Forall_forall in Hown. apply Hown. rewrite <- Hh. set_solver. }
      cbn [EventLoop.handle] in Hhandle. apply send_cmd_frames in Hhandle as [Hf|Hnone]; [| |lia].
      * split. exists (handled ++ [buf]). unfold wire_requests. proj.
        rewrite fmap_app, filter_app, Hf, !grants_app, Hg, <- (assoc_L (++)). cbn [app]. split; [|done].
        f_equal. destruct (loop_frame_drop buf) as (code & Hcode & Hd). cbn [fmap list_fmap].
        rewrite Hd, filter_cons_True, filter_nil, !grants_one by done.
        apply Hbg. auto with mctp.
      * destruct (create_tag_some buf Hbb) as [? Hsome]. congruence.
  - assert (out = []) as -> by by eapply handle_panic_out.
    assert (wire s' = wire s /\ loop s' = None /\ requests s' = requests s) as (Hw & Hl' & Hr').
    { subst s'. destruct res as [[]|e|p]; [done|..]; unfold requests; proj; by rewrite app_nil_r. }
    split. exists handled. unfold wire_requests. rewrite Hw, Hl', Hr', <- Hh.
    split; [exact Hg|by apply prefix_app_r].
Qed.

(** ** With overflow checks on *)

Lemma requests_increase ping self s :
  valid self -> u8 ping -> reachable true ping self s ->
  increasing (min_eid_in_pool self) 255 (grants (requests s)) /\ Forall own_request (requests s).
Proof.
  intros Hv Hp Hs. destruct (refines true ping self s Hv Hs) as (e & n & He & [rest Hrest] & _).
  destruct (loop_requests e n ping self He Hv Hp) as [Hi Ho]. rewrite Hrest in Hi, Ho.
  rewrite grants_app in Hi. apply Forall_app in Ho as [Ho _].
  split; [by eapply increasing_app_inv|done].
Qed.

Lemma fifo_reachable ping self s :
  valid self -> u8 ping -> reachable true ping self s -> fifo s.
Proof.
  intros Hv Hp Hs. unfold reachable in Hs. revert Hs.
  enough (forall s0, rtc (step true ping) s0 s -> reachable true ping self s0 -> fifo s0 -> fifo s) as He.
  { intros Hs. apply (He (init true ping self)); [done|apply rtc_refl|].
    destruct (mpsc_channel_spec CHANNEL_SIZE) as (Hc & _ & _); [unfold CHANNEL_SIZE; lia|].
    split. exists []. unfold queued_requests. cbn. by rewrite Hc. }
  intros s0 Hs. induction Hs as [|s0 s1 s2 Hstep _ IH]; [done|]. intros Hr Hf.
  assert (reachable true ping self s1) as Hr1 by (eapply rtc_r; [exact Hr|exact Hstep]).
  apply IH; [done|]. destruct Hstep as [r _ _ _|send s' _ Ht|s' Ht].
  - assert (fifo (kill_rx s0)) as Hkill by by apply (fifo_same s0).
    unfold receive_datagram. destruct (unwrap r) as [buf|e|p]; [|done|done].
    destruct (length buf =? 0)%nat; [done|]. destruct (mpsc_try_send _ _) as [q|] eqn:Hq; [|done].
    apply mpsc_try_send_Some in Hq as (Hq & _ & _). apply (fifo_same s0); try done.
    unfold queued_requests. proj. by rewrite Hq, omap_app, app_nil_r.
  - eapply fifo_loop; [exact Ht| | |done].
    + by apply (sim_queue _ _ _ _ (sim_reachable _ _ _ _ Hv Hr)).
    + by apply (requests_increase ping self).
  - eapply fifo_main; [exact Ht| |done]. by eapply track_reachable.
Qed.

(** C1: On the wire, in every interleaving of the bus owner's tasks, whatever
    datagrams it receives and whatever its socket does: with overflow checks
    on, the requests it sends give away strictly increasing EIDs, from the
    start of the pool and below 255; none is offered twice. *)
Theorem wire_offers_once ping self s :
  valid self -> u8 ping -> reachable true ping self s ->
  StronglySorted Z.lt (grants (wire_requests s)) /\
  Forall (fun eid => min_eid_in_pool self <= eid < 255) (grants (wire_requests s)).
Proof.
  intros Hv Hp Hs. destruct (fifo_reachable ping self s Hv Hp Hs) as [(handled & -> & Hh)].
  destruct (requests_increase ping self s Hv Hp Hs) as [Hi _].
  assert (handled `prefix_of` requests s) as [rest Hrest].
  { destruct (loop s); [|done]. by exists (queued_requests s). }
  rewrite Hrest, grants_app in Hi. by apply increasing_app_inv in Hi.
Qed.

(** A queued request is one of the discovery loop's. *)
Lemma queued_own ping self s msg_type buf resp :
  valid self -> u8 ping -> reachable true ping self s -> loop s <> None ->
  EventLoop.SendMsg msg_type buf resp ∈ contents (queue s) -> own_request buf.
Proof.
  intros Hv Hp Hs Hl Hin. destruct (fifo_reachable ping self s Hv Hp Hs) as [(handled & _ & Hh)].
  destruct (loop s); [|done]. destruct (requests_increase ping self s Hv Hp Hs) as [_ Ho].
  rewrite Forall_forall in Ho. apply Ho. rewrite <- Hh. apply elem_of_app. right.
  apply list_elem_of_omap. by eexists.
Qed.

(** A datagram the bus owner may send: a packet of a whole control message in its
    frame. *)
Definition well_formed (frame : bytes) : Prop :=
  exists packet, frame = loop_frame packet /\ is_bytes packet /\ (7 <= length packet <= 11)%nat.

Lemma send_cmd_well_formed checks send self msg_type buf resp self' out res :
  is_bytes buf -> (7 <= length buf <= 11)%nat ->
  EventLoop.send_cmd checks send self msg_type buf resp = (self', out, res) ->
  Forall well_formed (frames out).
Proof.
  intros Hb Hl. open_loop. rewrite frame_of_short by lia.
  destruct (create_tag_some buf Hb) as [tag ->].
  destruct resp; destruct (unwrap _); intros [= <- <- <-]; repeat constructor; by exists buf.
Qed.

Lemma handle_well_formed checks send_ok send self cmd self' out res :
  match cmd with
  | EventLoop.ReceiveMsg buf => is_bytes buf
  | EventLoop.SendMsg _ buf _ => own_request buf
  end ->
  EventLoop.handle checks send_ok send self cmd = (self', out, res) -> Forall well_formed (frames out).
Proof.
  destruct cmd as [buf|msg_type buf resp]; intros Hcmd; cbn [EventLoop.handle].
  2: { intros Hs. destruct Hcmd as [Hb Hl _ _ _]. eapply send_cmd_well_formed; [exact Hb| |exact Hs]. lia. }
  open_loop. destruct (_ || _) eqn:Hc; [intros [= <- <- <-]; constructor|].
  apply orb_false_iff in Hc as [Hl%Nat.ltb_ge _]. rewrite slice_from_Ok by done.
  assert (is_bytes (drop 4 buf)) as Hd by auto with mctp.
  destruct (create_tag (drop 4 buf)) as [tag|]; [|intros [= <- <- <-]; constructor].
  destruct (EventLoop.pending_cmd self !! _) as [[? ch]|].
  { destruct (send_ok ch); intros [= <- <- <-]; constructor. }
  destruct (MctpEndpointContext.handle_request _ _) as [c [rsp|err|p]] eqn:Hh;
    [|intros [= <- <- <-]; constructor..].
  destruct (reply_answers _ _ _ _ Hd Hh) as (Hr & Hrl & _). by apply send_cmd_well_formed.
Qed.

(** C24: Every datagram the bus owner ever sends is well formed: the fixed
    addresses, a byte count that covers its packet, a packet of 7 to 11 bytes,
    and the error code of all that. *)
Theorem wire_well_formed ping self s :
  valid self -> u8 ping -> reachable true ping self s -> Forall well_formed (wire s).
Proof.
  intros Hv Hp Hs.
  enough (forall s0, rtc (step true ping) s0 s -> reachable true ping self s0 ->
    Forall well_formed (wire s0) -> Forall well_formed (wire s)) as He.
  { apply (He (init true ping self)); [exact Hs|apply rtc_refl|constructor]. }
  intros s0 Hsteps. clear Hs. induction Hsteps as [|s0 s1 s2 Hstep _ IH]; [done|]. intros Hr Hf.
  assert (reachable true ping self s1) as Hr1 by (eapply rtc_r; [exact Hr|exact Hstep]).
  apply IH; [done|]. destruct Hstep as [r _ _ _|send s' _ Ht|s' Ht].
  - unfold receive_datagram. destruct (unwrap r); try done.
    destruct (length _ =? 0)%nat; [done|]. by destruct (mpsc_try_send _ _).
  - apply loop_turn_inv in Ht as (flows & cmd & q & self' & out & res & Hl & Hq & _ & _ & Hh & ->).
    proj. apply Forall_app. split; [done|]. eapply handle_well_formed; [|exact Hh].
    destruct cmd as [buf|msg_type buf resp].
    + pose proof (sim_queue _ _ _ _ (sim_reachable _ _ _ _ Hv Hr)) as Hqs. rewrite Hq in Hqs.
      by apply Forall_cons in Hqs as [? _].
    + apply (queued_own ping self s0 msg_type buf resp Hv Hp Hr); [by rewrite Hl|rewrite Hq; by left].
  - unfold main_step in Ht. destruct (state (main s0)) as [[[?|?|?]|?|?|?]|]; try done;
      repeat case_match; simplify_eq; done.
Qed.

Lemma send_cmd_panic checks send self msg_type buf resp self' out res :
  is_bytes buf -> (length buf <= 11)%nat ->
  EventLoop.send_cmd checks send self msg_type buf resp = (self', out, res) -> res <> Ok tt ->
  exists frame, forall n, send frame <> Ok n.
Proof.
  intros Hb Hl. open_loop. rewrite frame_of_short by lia.
  destruct (create_tag_some buf Hb) as [tag ->].
  destruct (send (loop_frame buf)) as [n|e|p] eqn:Hs; destruct resp; intros [= <- <- <-] Hres; try done;
    exists (loop_frame buf); by rewrite Hs.
Qed.

(** C5: The event loop never finds the receiver of a oneshot gone, and never
    overflows: in a reachable state only two things end it, a datagram that
    carries a command byte that names no command, and a failure of its
    socket. *)
Theorem event_loop_ends_by ping self s send s' :
  valid self -> u8 ping -> reachable true ping self s ->
  loop_turn true send s = Some s' -> loop s' = None ->
  (exists buf rest cmd, contents (queue s) = EventLoop.ReceiveMsg buf :: rest /\
    buf !! 10%nat = Some cmd /\ from_u8 (T:=CommandCode.t) cmd = CommandCode.Unknown) \/
  (exists frame, forall n, send frame <> Ok n).
Proof.
  intros Hv Hp Hs Ht Hdead. pose proof (track_reachable _ _ _ _ Hs) as Htrack.
  pose proof (sim_queue _ _ _ _ (sim_reachable _ _ _ _ Hv Hs)) as Hq.
  apply loop_turn_inv in Ht as (flows & cmd & q & self' & out & res & Hl & Hcq & _ & _ & Hh & Hs').
  cbn zeta in Hs'. assert (res <> Ok tt) as Hres by (intros ->; by subst s').
  pose proof (track_flows s Htrack flows Hl) as Hf. rewrite Hcq in Hq. apply Forall_cons in Hq as [Hcmd _].
  destruct cmd as [buf|msg_type buf resp]; cbn [EventLoop.handle] in Hh.
  - unfold EventLoop.receive in Hh. change @EventLoop.create_tag_closure with @create_tag in Hh.
    destruct (_ || _) eqn:Hc; [by injection Hh as _ _ <-|].
    apply orb_false_iff in Hc as [Hlen%Nat.ltb_ge _]. rewrite slice_from_Ok in Hh by done.
    assert (is_bytes (drop 4 buf)) as Hd by auto with mctp.
    destruct (create_tag (drop 4 buf)) as [tag|]; [|by injection Hh as _ _ <-].
    destruct (EventLoop.pending_cmd _ !! _) as [[tag' ch]|] eqn:Hi.
    + assert (receiver_waits s ch = true) as Hw.
      { apply outstanding_awaiting. rewrite <- Hf. apply elem_of_app. left.
        apply list_elem_of_fmap. exists (tag', ch). split; [done|]. by eapply list_elem_of_lookup_2. }
      rewrite Hw in Hh. by injection Hh as _ _ <-.
    + destruct (MctpEndpointContext.handle_request _ _) as [c [rsp|err|p]] eqn:Hreq;
        [|by injection Hh as _ _ <-|].
      * right. rewrite handle_request_handle in Hreq by done.
        destruct (handle_ok _ _ _ _ Hd Hreq)
          as (v & d & s0 & t & c0 & c1 & cmd & body & rest & Hbs & -> & Hr & Hrl).
        rewrite Hbs in Hd. repeat (apply Forall_cons in Hd as [? Hd]).
        eapply send_cmd_panic; [| |exact Hh|done]; [|simpl; lia].
        apply reply_headers_bytes; [solve_bytes|done].
      * left. destruct (proj1 (handle_panics (EventLoop.ctx (EventLoop.mk (ctx s) flows)) (drop 4 buf) Hd))
          as (cmd & Hcmd' & Hu); [by rewrite Hreq; exists p|].
        exists buf, (contents q), cmd. by rewrite lookup_drop in Hcmd'.
  - right. destruct (queued_own ping self s msg_type buf resp Hv Hp Hs) as [Hbb Hbl _ _ _];
      [by rewrite Hl|rewrite Hcq; by left|].
    eapply send_cmd_panic; [exact Hbb| |exact Hh|done]. lia.
Qed.

End facts.
End SystemSafety.
