(* ===== verification/SystemSequential.v ===== *)
(** * The system refines a sequential bus owner

    What the three tasks of the bus owner do together, with their channel and
    their oneshots, is what one sequential program does: the discovery loop, to
    which a datagram is either the answer it waits for, or a request that is
    served on the spot.  The statement is on what the outside sees: the
    datagrams received, all those on the wire, and the endpoint context. *)
From S2P Require Import Prelude Crates Reference Derive Enums Transport ControlModels.
From S2P Require Import ControlPayload Errors Smbus Network BusOwner Discovery Offers EventLoop.
From S2P Require Import Channels BusOwnerSystem SystemRefinement SystemSafety.

(** ** The sequential bus owner

    An abstract specification: no channel, no oneshot, no interleaving. *)
Module Sequential.
Import Bus EventLoopFacts.
Section spec.
Context `{Crates, Debug}.

Record t := mk {
  ctx : MctpEndpointContext.t;
  prog : Bus.prog Z;    (** what is left of the discovery loop *)
  waiting : bool;       (** the request it stands at was sent *)
  alive : bool;         (** datagrams are handled *)
  wire : list bytes;    (** the datagrams sent *)
}.

(** The packet [reply] answers the packet [request]. *)
Definition answers (request reply : bytes) : bool :=
  match create_tag request, create_tag reply with
  | Some flow, Some tag => answers_flow flow tag
  | _, _ => false
  end.

Definition set_prog (s : t) (p : Bus.prog Z) : t := mk (ctx s) p false (alive s) (wire s).

(** What it does of itself.  A request is put on the wire and awaited; once
    datagrams are no longer handled it is refused, or its answer never comes.
    The socket may fail, which ends the handling of datagrams. *)
Inductive move (ping : Z) (s : t) : t -> Prop :=
  | move_turn next :
      prog s = Done (Ok next) -> move ping s (set_prog s (Discovery.turn true ping next))
  | move_access f k :
      prog s = Access f k -> move ping s (mk (f (ctx s)) (k (ctx s)) false (alive s) (wire s))
  | move_sleep p : prog s = Sleep p -> move ping s (set_prog s p)
  | move_send buf k :
      prog s = Exchange buf k -> waiting s = false -> alive s = true ->
      move ping s (mk (ctx s) (prog s) true true (wire s ++ [loop_frame buf]))
  | move_send_failed buf k :
      prog s = Exchange buf k -> waiting s = false -> alive s = true ->
      move ping s (mk (ctx s) (prog s) false false (wire s))
  | move_refused buf k :
      prog s = Exchange buf k -> alive s = false -> move ping s (set_prog s (k NotSent))
  | move_unanswered buf k :
      prog s = Exchange buf k -> alive s = false -> move ping s (set_prog s (k Closed)).

(** A request packet from outside; [ok] is whether the socket takes the reply. *)
Definition serve (ok : bool) (packet : bytes) (s : t) : t :=
  let '(c, res) := MctpEndpointContext.handle_request (ctx s) packet in
  let dead := mk c (prog s) false false (wire s) in
  match res with
  | Ok rsp => if ok then mk c (prog s) (waiting s) (alive s) (wire s ++ [loop_frame rsp]) else dead
  | Err _ => mk c (prog s) (waiting s) (alive s) (wire s)
  | Panic _ => dead
  end.

(** A datagram: ignored, the awaited answer, or a request. *)
Definition receive (ok : bool) (d : bytes) (s : t) : t :=
  if (length d <? 4)%nat || negb (default 0 (d !! 1%nat) =? 0x0f) then s
  else
    match prog s with
    | Exchange buf k =>
        if waiting s && answers buf (drop 4 d) then set_prog s (k (Replied (inl (drop 4 d))))
        else serve ok (drop 4 d) s
    | _ => serve ok (drop 4 d) s
    end.

Definition init (ping : Z) (self : MctpEndpointContext.t) : t :=
  mk self (Discovery.turn true ping (MctpEndpointContext.min_eid_in_pool self)) false true [].

(** The states it reaches on given datagrams, handled in their order. *)
Inductive runs (ping : Z) (self : MctpEndpointContext.t) : list bytes -> t -> Prop :=
  | runs_init : runs ping self [] (init ping self)
  | runs_move ds s s' : runs ping self ds s -> move ping s s' -> runs ping self ds s'
  | runs_receive ds s ok d :
      runs ping self ds s -> alive s = true -> runs ping self (ds ++ [d]) (receive ok d s).

End spec.
End Sequential.

(** ** The refinement *)
Module SystemSequential.
Import Bus MctpEndpointContext Offers EventLoopFacts BusOwnerSystem SystemRefinement SystemSafety.
Section facts.
Context `{CratesLaws, Debug, MpscLaws EventLoop.PhysicalTransportCommands}.

(** The runs of the system with the datagrams [recv_from] returned, overflow
    checks on. *)
Inductive task_step (ping : Z) (s s' : t) : Prop :=
  | task_loop send :
      exit_status s = None -> loop_turn true send s = Some s' -> task_step ping s s'
  | task_main : main_step true ping s = Some s' -> task_step ping s s'.

Inductive receives (ping : Z) (self : MctpEndpointContext.t) : list bytes -> t -> Prop :=
  | receives_init : receives ping self [] (init true ping self)
  | receives_datagram ds s d :
      receives ping self ds s -> exit_status s = None -> rx_alive s = true -> datagram_ok (Ok d) ->
      receives ping self (ds ++ [d]) (receive_datagram (Ok d) s)
  | receives_error ds s e :
      receives ping self ds s -> exit_status s = None -> rx_alive s = true ->
      receives ping self ds (receive_datagram (Err e) s)
  | receives_task ds s s' :
      receives ping self ds s -> task_step ping s s' -> receives ping self ds s'.

(** They are the runs of the system. *)
Lemma receives_reachable ping self ds s : receives ping self ds s -> reachable true ping self s.
Proof.
  unfold reachable. induction 1 as [|ds s d _ IH He Hrx Hd|ds s e _ IH He Hrx|ds s s' _ IH [send He Ht|Ht]].
  - apply rtc_refl.
  - eapply rtc_r; [exact IH|by apply step_receive].
  - eapply rtc_r; [exact IH|by apply step_receive].
  - eapply rtc_r; [exact IH|by eapply step_loop].
  - eapply rtc_r; [exact IH|by apply step_main].
Qed.

Lemma reachable_receives ping self s : reachable true ping self s -> exists ds, receives ping self ds s.
Proof.
  unfold reachable. apply (rtc_ind_r (fun s => exists ds, receives ping self ds s)); [eexists; constructor|].
  intros s1 s2 _ [[d|e|p] He Hrx Hd|send s' He Ht|s' Ht] [ds Hs].
  - eexists. by apply receives_datagram.
  - eexists. by apply receives_error.
  - done.
  - exists ds. eapply receives_task; [exact Hs|by eapply task_loop].
  - exists ds. eapply receives_task; [exact Hs|by apply task_main].
Qed.

(** The sequential state of the tasks: a request in the channel is not sent,
    one with a flow is, and an answer in the oneshot is taken. *)
Definition abs (s : t) : Sequential.t :=
  let alive := match loop s with Some _ => true | None => false end in
  let sent := match loop s with Some (_ :: _) => true | _ => false end in
  match state (main s) with
  | Running p => Sequential.mk (ctx s) p false alive (wire s)
  | Awaiting ch buf k =>
      match mailbox s !! ch with
      | Some (Some bs) => Sequential.mk (ctx s) (k (Replied (inl bs))) false alive (wire s)
      | Some None => Sequential.mk (ctx s) (k Closed) false alive (wire s)
      | None => Sequential.mk (ctx s) (Exchange buf k) sent alive (wire s)
      end
  end.

(** The datagrams in the channel. *)
Definition datagrams (cmds : list EventLoop.PhysicalTransportCommands) : list bytes :=
  omap (fun cmd => match cmd with EventLoop.ReceiveMsg buf => Some buf | _ => None end) cmds.

(** The request in the channel and the pending flow are those of the request
    the discovery loop awaits. *)
Record linked (s : t) : Prop := {
  linked_queue msg_type buf resp :
    EventLoop.SendMsg msg_type buf resp ∈ contents (queue s) ->
    exists ch k, resp = Some ch /\ state (main s) = Awaiting ch buf k;
  linked_flows flows tag ch :
    loop s = Some flows -> (tag, ch) ∈ flows ->
    exists buf k, state (main s) = Awaiting ch buf k /\ create_tag buf = Some tag;
}.

Lemma linked_init ping self : linked (init true ping self).
Proof.
  destruct (mpsc_channel_spec CHANNEL_SIZE) as (Hc & _ & _); [unfold CHANNEL_SIZE; lia|].
  split; cbn.
  - rewrite Hc. by intros ? ? ? ?%not_elem_of_nil.
  - intros ? ? ? [= <-] Hin. by apply not_elem_of_nil in Hin.
Qed.

Lemma linked_same s s' :
  main s' = main s -> loop s' = loop s ->
  (forall msg_type buf resp, EventLoop.SendMsg msg_type buf resp ∈ contents (queue s') ->
    EventLoop.SendMsg msg_type buf resp ∈ contents (queue s)) ->
  linked s -> linked s'.
Proof. intros Hm Hl Hq [Hlq Hlf]. split; rewrite Hm; [eauto|rewrite Hl; exact Hlf]. Qed.

Lemma receive_datagram_cases r s :
  (exists q, receive_datagram r s = set_queue s q /\
    (q = queue s \/ exists d, r = Ok d /\ mpsc_try_send (queue s) (EventLoop.ReceiveMsg d) = Some q)) \/
  receive_datagram r s = kill_rx s.
Proof.
  unfold receive_datagram. destruct r as [d|e|p]; cbn [unwrap]; [|by right..].
  destruct (length d =? 0)%nat; [left; exists (queue s); split; [by destruct s|by left]|].
  destruct (mpsc_try_send _ _) as [q|] eqn:Hq; [|by right]. left. exists q. split; [done|].
  right. by exists d.
Qed.

Lemma linked_receive r s : linked s -> linked (receive_datagram r s).
Proof.
  destruct (receive_datagram_cases r s) as [(q & -> & [-> |(d & _ & Hq)])| ->]; apply linked_same; try done.
  apply mpsc_try_send_Some in Hq as (Hq & _ & _). proj. rewrite Hq.
  by intros ? ? ? [Hin|[=]%list_elem_of_singleton]%elem_of_app.
Qed.

Lemma handle_pending checks send_ok send self cmd self' out tag ch :
  EventLoop.handle checks send_ok send self cmd = (self', out, Ok tt) ->
  (tag, ch) ∈ EventLoop.pending_cmd self' ->
  (tag, ch) ∈ EventLoop.pending_cmd self \/
  exists msg_type buf, cmd = EventLoop.SendMsg msg_type buf (Some ch) /\ create_tag buf = Some tag.
Proof.
  intros Hh Hin. destruct cmd as [buf|msg_type buf [ch'|]].
  - left. apply handle_cases in Hh as [(_ & Hp & _)|[(? & Hc & _)|(i & ? & ? & ? & _ & _ & Hp & _)]];
      [by rewrite <- Hp|done|]. rewrite Hp in Hin.
    eapply elem_of_sublist; [exact Hin|apply sublist_delete].
  - cbn [EventLoop.handle] in Hh. revert Hh. open_loop. destruct (create_tag buf) as [tag'|] eqn:Ht;
      [|intros [= <- _]; by left].
    destruct (EventLoop.frame_of _ _); [destruct (unwrap _)|..]; intros [= <- _].
    cbn [EventLoop.pending_cmd] in Hin. apply elem_of_app in Hin as [Hin|Hin%list_elem_of_singleton]; [by left|].
    injection Hin as -> ->. right. by exists msg_type, buf.
  - left. cbn [EventLoop.handle] in Hh.
    pose proof (send_cmd_none checks send self msg_type buf) as Hn. rewrite Hh in Hn.
    by destruct Hn as [<- _].
Qed.

Lemma linked_loop send s s' : loop_turn true send s = Some s' -> linked s -> linked s'.
Proof.
  intros Ht [Hlq Hlf].
  apply loop_turn_inv in Ht as (flows & cmd & q & self & out & res & Hl & Hq & _ & _ & Hh & Hs').
  rewrite Hq in Hlq. destruct (mpsc_drop_receiver_spec q) as (Hdrop & _ & _).
  cbn zeta in Hs'. subst s'. split; proj.
  - intros msg_type buf resp Hin. eapply Hlq. apply list_elem_of_further.
    destruct res; [exact Hin|rewrite Hdrop in Hin; by apply not_elem_of_nil in Hin..].
  - intros flows' tag ch Hl' Hin. destruct res as [[]| |]; [|done..]. injection Hl' as <-.
    destruct (handle_pending _ _ _ _ _ _ _ _ _ Hh Hin) as [Hf|(msg_type & buf & -> & Htag)]; [by eapply Hlf|].
    destruct (Hlq msg_type buf (Some ch)) as (ch' & k & [= <-] & Hst); [left|by exists buf, k].
Qed.

(** Nothing is outstanding: nothing is queued or pending. *)
Lemma linked_clear s :
  track s -> linked s -> outstanding s = [] ->
  (forall msg_type buf resp, EventLoop.SendMsg msg_type buf resp ∉ contents (queue s)) /\
  (forall flows, loop s = Some flows -> flows = []).
Proof.
  intros Ht [Hlq _] Ho. pose proof (track_flows s Ht) as Hf. rewrite Ho in Hf. split.
  - intros msg_type buf resp Hin. destruct (loop s) as [flows|] eqn:Hl.
    + destruct (Hlq _ _ _ Hin) as (ch & _ & -> & _).
      destruct (app_eq_nil _ _ (Hf flows eq_refl)) as [_ Hq].
      assert (ch ∈ queued s) as Hch; [|rewrite Hq in Hch; by apply not_elem_of_nil in Hch].
      unfold queued. apply list_elem_of_In, in_concat. exists [ch]. split; [|by left].
      apply list_elem_of_In, list_elem_of_fmap. by eexists (EventLoop.SendMsg msg_type buf (Some ch)).
    + rewrite (track_dead s Ht Hl) in Hin. by apply not_elem_of_nil in Hin.
  - intros flows Hl. destruct (app_eq_nil _ _ (Hf flows Hl)) as [Hfl _]. by apply fmap_nil_inv in Hfl.
Qed.

Lemma linked_fresh s s' :
  (forall msg_type buf resp, EventLoop.SendMsg msg_type buf resp ∉ contents (queue s)) ->
  (forall flows, loop s = Some flows -> flows = []) ->
  queue s' = queue s -> loop s' = loop s -> linked s'.
Proof.
  intros Hq Hf Hq' Hl. split; rewrite ?Hq', ?Hl.
  - intros ? ? ? Hin. by destruct (Hq _ _ _ Hin).
  - intros flows tag ch Hfl Hin. rewrite (Hf _ Hfl) in Hin. by apply not_elem_of_nil in Hin.
Qed.

Lemma linked_main ping s s' : main_step true ping s = Some s' -> track s -> linked s -> linked s'.
Proof.
  intros Hstep Ht Hs. unfold main_step in Hstep.
  assert (outstanding s = [] -> forall s1, queue s1 = queue s -> loop s1 = loop s -> linked s1) as Hfresh.
  { intros Ho s1. destruct (linked_clear s Ht Hs Ho) as [Hq Hf]. by apply linked_fresh. }
  unfold outstanding in Hfresh.
  destruct (state (main s)) as [[[next|err|w]|f k|buf k|p]|ch buf k] eqn:Hmain; try done;
    try (injection Hstep as <-; by apply Hfresh).
  - destruct (mpsc_try_send _ _) as [q|] eqn:Hsend; [|destruct (mpsc_is_closed _); [|done]];
      injection Hstep as <-; [|by apply Hfresh].
    destruct (linked_clear s Ht Hs) as [Hq Hf]; [unfold outstanding; by rewrite Hmain|].
    apply mpsc_try_send_Some in Hsend as (Hsend & _ & _). split; proj.
    + rewrite Hsend. intros ? ? ? [Hin|Hin%list_elem_of_singleton]%elem_of_app; [by destruct (Hq _ _ _ Hin)|].
      injection Hin as -> -> ->. by eexists _, k.
    + intros flows tag ch Hl Hin. rewrite (Hf _ Hl) in Hin. by apply not_elem_of_nil in Hin.
  - destruct (mailbox s !! ch) as [[bs|]|]; [|..|destruct (loop s) eqn:Hl; [done|]]; injection Hstep as <-;
      try by apply Hfresh.
    apply (linked_fresh s); proj; try done; [|by rewrite Hl].
    rewrite (track_dead s Ht Hl). by intros ? ? ? ?%not_elem_of_nil.
Qed.

Lemma linked_task ping s s' : task_step ping s s' -> track s -> linked s -> linked s'.
Proof. intros [send _ Ht|Ht] Hs Hl; [by eapply linked_loop|by eapply linked_main]. Qed.

(** ** One step, one move *)

Lemma abs_receive_datagram r s : abs (receive_datagram r s) = abs s.
Proof. by destruct (receive_datagram_cases r s) as [(q & -> & _)| ->]. Qed.

(** The event loop leaves the discovery loop where it is, or dies. *)
Lemma abs_alive s flows c q rx w :
  loop s = Some flows ->
  abs (mk c q rx (Some flows) (mailbox s) w (main s)) =
    Sequential.mk c (Sequential.prog (abs s)) (Sequential.waiting (abs s)) true w.
Proof.
  intros Hl. unfold abs. proj. rewrite Hl. destruct (state (main s)) as [p|ch buf k]; [done|].
  by destruct (mailbox s !! ch) as [[bs|]|].
Qed.

Lemma abs_dead s c q rx w :
  abs (mk c q rx None (mailbox s) w (main s)) = Sequential.mk c (Sequential.prog (abs s)) false false w.
Proof.
  unfold abs. proj. destruct (state (main s)) as [p|ch buf k]; [done|].
  by destruct (mailbox s !! ch) as [[bs|]|].
Qed.

Lemma abs_fields s :
  Sequential.ctx (abs s) = ctx s /\ Sequential.wire (abs s) = wire s /\
  Sequential.alive (abs s) = match loop s with Some _ => true | None => false end.
Proof.
  unfold abs. destruct (state (main s)) as [p|ch buf k]; [done|]. by destruct (mailbox s !! ch) as [[bs|]|].
Qed.

(** The one flow there can be is that of the awaited request. *)
Lemma pending_one s flows :
  track s -> linked s -> loop s = Some flows ->
  flows = [] \/
  exists tag ch buf k, flows = [(tag, ch)] /\ state (main s) = Awaiting ch buf k /\ mailbox s !! ch = None /\
    create_tag buf = Some tag.
Proof.
  intros Ht Hs Hl. destruct flows as [|[tag ch] flows]; [by left|right].
  destruct (linked_flows s Hs _ tag ch Hl) as (buf & k & Hst & Htag); [left|].
  pose proof (track_flows s Ht _ Hl) as Hf. unfold outstanding in Hf. rewrite Hst in Hf.
  destruct (mailbox s !! ch) eqn:Hm; [done|]. injection Hf as Hf.
  apply app_eq_nil in Hf as [Hf _]. apply fmap_nil_inv in Hf. subst flows. by exists tag, ch, buf, k.
Qed.

(** [main]'s own steps are moves, or not seen. *)
Lemma main_moves ping s s' :
  main_step true ping s = Some s' -> track s -> linked s ->
  abs s' = abs s \/ Sequential.move ping (abs s) (abs s').
Proof.
  intros Hstep Ht Hs. unfold main_step in Hstep.
  destruct (state (main s)) as [[[next|err|w]|f k|buf k|p]|ch buf k] eqn:Hmain; try done.
  - injection Hstep as <-. right. unfold abs. proj. rewrite Hmain. by apply Sequential.move_turn.
  - injection Hstep as <-. right. unfold abs. proj. rewrite Hmain. by apply Sequential.move_access.
  - destruct (mpsc_try_send _ _) as [q|] eqn:Hsend.
    + injection Hstep as <-. left. unfold abs. proj. rewrite Hmain.
      destruct (mailbox s !! _) as [v|] eqn:Hm; [apply (track_mailbox s Ht) in Hm; lia|].
      destruct (loop s) as [flows|] eqn:Hl; [|done].
      destruct (pending_one s flows Ht Hs Hl) as [->|(? & ? & ? & ? & _ & ? & _)]; [done|congruence].
    + destruct (mpsc_is_closed _) eqn:Hc; [|done]. injection Hstep as <-. right. unfold abs. proj. rewrite Hmain.
      rewrite (track_closed s Ht) in Hc. destruct (loop s); [done|].
      by eapply (Sequential.move_refused _ (Sequential.mk _ _ _ _ _)).
  - injection Hstep as <-. right. unfold abs. proj. rewrite Hmain. by apply Sequential.move_sleep.
  - destruct (mailbox s !! ch) as [[bs|]|] eqn:Hm; [| |destruct (loop s) eqn:Hl; [done|]];
      injection Hstep as <-; [left|left|right]; unfold abs; proj; rewrite Hmain, Hm; [done|done|].
    rewrite Hl. by eapply (Sequential.move_unanswered _ (Sequential.mk _ _ _ _ _)).
Qed.

(** A request that leaves the channel is sent, or the socket fails. *)
Lemma send_moves ping s flows msg_type buf resp q send self out res :
  track s -> linked s -> loop s = Some flows -> own_request buf ->
  contents (queue s) = EventLoop.SendMsg msg_type buf resp :: contents q ->
  EventLoop.send_cmd true send (EventLoop.mk (ctx s) flows) msg_type buf resp = (self, out, res) ->
  let m := deliver out (drop_sender (EventLoop.SendMsg msg_type buf resp)
    (EventLoop.pending_cmd self) (mailbox s)) in
  let alive := match res with Ok _ => true | _ => false end in
  Sequential.move ping (abs s) (abs (mk (EventLoop.ctx self) (if alive then q else mpsc_drop_receiver q)
    (rx_alive s) (if alive then Some (EventLoop.pending_cmd self) else None) m
    (wire s ++ frames out) (main s))).
Proof.
  intros Ht Hs Hl [Hbb Hbl _ _ _] Hq Hh m alive.
  destruct (linked_queue s Hs msg_type buf resp) as (ch & k & -> & Hst); [rewrite Hq; left|].
  pose proof (track_flows s Ht _ Hl) as Hf. unfold queued in Hf. rewrite Hq in Hf. cbn in Hf.
  assert (ch ∈ outstanding s) as Hin by (rewrite <- Hf; apply elem_of_app; right; left).
  destruct (outstanding_awaiting s ch Hin) as [_ Ho]. rewrite Ho in Hf.
  apply app_singleton in Hf as [[_ ?]|[Hnil _]]; [done|]. apply fmap_nil_inv in Hnil. subst flows.
  unfold outstanding in Ho. rewrite Hst in Ho. destruct (mailbox s !! ch) eqn:Hm; [done|]. clear Ho Hin.
  assert (abs s = Sequential.mk (ctx s) (Exchange buf k) false true (wire s)) as Habs
    by (unfold abs; by rewrite Hst, Hm, Hl).
  revert Hh. open_loop. rewrite frame_of_short by lia. destruct (create_tag_some buf Hbb) as [tag ->].
  assert (forall out, out = [] \/ (exists f, out = [EventLoop.Frame f]) ->
    deliver out (drop_sender (EventLoop.SendMsg msg_type buf (Some ch)) [(tag, ch)] (mailbox s)) = mailbox s)
    as Hmb.
  { intros out' Hout. cbn [drop_sender fmap list_fmap snd]. rewrite decide_True by left.
    by destruct Hout as [->|[f ->]]. }
  destruct (send (loop_frame buf)) as [n|e|p]; cbn [unwrap]; intros [= <- <- <-]; subst m alive;
    cbn [EventLoop.pending_cmd EventLoop.ctx app]; rewrite Hmb by eauto; rewrite Habs; unfold abs; proj;
    rewrite Hst, Hm; cbn [frames omap list_omap app]; rewrite ?app_nil_r.
  - by apply (Sequential.move_send ping (Sequential.mk _ _ _ _ _) buf k).
  - by apply (Sequential.move_send_failed ping (Sequential.mk _ _ _ _ _) buf k).
  - by apply (Sequential.move_send_failed ping (Sequential.mk _ _ _ _ _) buf k).
Qed.

(** A packet no flow waits for is served. *)
Lemma serve_moves s flows send d self out res q :
  loop s = Some flows -> is_bytes d ->
  (let '(c, rsp) := MctpEndpointContext.handle_request (ctx s) d in
   match rsp with
   | Ok rsp => EventLoop.send_cmd true send (EventLoop.mk c flows) MessageType.Control rsp None
   | Err _ => (EventLoop.mk c flows, [], Ok tt)
   | Panic p => (EventLoop.mk c flows, [], Panic p)
   end) = (self, out, res) ->
  let alive := match res with Ok _ => true | _ => false end in
  exists ok, abs (mk (EventLoop.ctx self) (if alive then q else mpsc_drop_receiver q) (rx_alive s)
    (if alive then Some (EventLoop.pending_cmd self) else None) (deliver out (mailbox s))
    (wire s ++ frames out) (main s)) = Sequential.serve ok d (abs s).
Proof.
  intros Hl Hd Hh alive. destruct (abs_fields s) as (Hc & Hw & Ha). rewrite Hl in Ha.
  unfold Sequential.serve. rewrite Hc, Hw, Ha.
  destruct (MctpEndpointContext.handle_request (ctx s) d) as [c [rsp|e|p]] eqn:Hreq.
  - destruct (reply_answers _ _ _ _ Hd Hreq) as (_ & Hlen & _). revert Hh. open_loop.
    rewrite frame_of_short by lia. destruct (send (loop_frame rsp)); cbn [unwrap]; intros [= <- <- <-];
      subst alive; cbn [EventLoop.pending_cmd EventLoop.ctx frames deliver foldl omap list_omap];
      rewrite ?app_nil_r; [exists true; by apply abs_alive|exists false; by apply abs_dead..].
  - injection Hh as <- <- <-. exists true. subst alive. cbn [frames omap list_omap]. rewrite app_nil_r.
    by apply abs_alive.
  - injection Hh as <- <- <-. exists true. subst alive. cbn [frames omap list_omap]. rewrite app_nil_r.
    by apply abs_dead.
Qed.

Lemma flow_index_one flow ch tag :
  flow_index [(flow, ch)] tag = if answers_flow flow tag then 0%nat else 1%nat.
Proof. unfold flow_index. cbn. by destruct (answers_flow flow tag). Qed.

(** A datagram that leaves the channel is received. *)
Lemma receive_moves s flows send d self out res q :
  track s -> linked s -> loop s = Some flows -> is_bytes d ->
  EventLoop.receive true (receiver_waits s) send (EventLoop.mk (ctx s) flows) d = (self, out, res) ->
  let alive := match res with Ok _ => true | _ => false end in
  exists ok, abs (mk (EventLoop.ctx self) (if alive then q else mpsc_drop_receiver q) (rx_alive s)
    (if alive then Some (EventLoop.pending_cmd self) else None) (deliver out (mailbox s))
    (wire s ++ frames out) (main s)) = Sequential.receive ok d (abs s).
Proof.
  intros Ht Hs Hl Hd Hh alive. revert Hh. unfold Sequential.receive. open_loop.
  destruct (abs_fields s) as (Hc & Hw & Ha). rewrite Hl in Ha.
  destruct (_ || _) eqn:Hshort.
  { intros [= <- <- <-]. exists true. subst alive. cbn [frames omap list_omap]. rewrite app_nil_r.
    cbn [EventLoop.ctx EventLoop.pending_cmd deliver foldl]. rewrite (abs_alive s flows) by done.
    by destruct (abs s); cbn in *; subst. }
  apply orb_false_iff in Hshort as [Hlen%Nat.ltb_ge _]. rewrite slice_from_Ok by done.
  assert (is_bytes (drop 4 d)) as Hdd by auto with mctp.
  destruct (create_tag_some _ Hdd) as [tag Htag]. rewrite Htag. cbn [EventLoop.pending_cmd EventLoop.ctx].
  destruct (pending_one s flows Ht Hs Hl) as [->|(flow & ch & buf & k & -> & Hst & Hm & Hflow)].
  - rewrite lookup_nil. intros Hh. destruct (serve_moves s [] send (drop 4 d) self out res q Hl Hdd Hh) as [ok Hok].
    exists ok. fold alive in Hok. rewrite Hok. assert (Sequential.waiting (abs s) = false) as ->.
    { unfold abs. rewrite Hl. destruct (state (main s)) as [p|ch buf k]; [done|].
      by destruct (mailbox s !! ch) as [[bs|]|]. }
    by destruct (Sequential.prog (abs s)).
  - assert (abs s = Sequential.mk (ctx s) (Exchange buf k) true true (wire s)) as Habs
      by (unfold abs; by rewrite Hst, Hm, Hl).
    assert (Sequential.answers buf (drop 4 d) = answers_flow flow tag) as Hans
      by (unfold Sequential.answers; by rewrite Hflow, Htag).
    assert (Sequential.prog (abs s) = Exchange buf k) as -> by by rewrite Habs.
    assert (Sequential.waiting (abs s) = true) as -> by by rewrite Habs.
    cbn [andb]. rewrite Hans.
    rewrite flow_index_one. destruct (answers_flow flow tag).
    + cbn. assert (receiver_waits s ch = true) as ->
        by (unfold receiver_waits; by rewrite Hst, Hm, !bool_decide_true).
      intros [= <- <- <-]. exists true. subst alive. cbn [frames omap list_omap]. rewrite app_nil_r.
      rewrite Habs. unfold abs. proj. rewrite Hst. cbn [deliver foldl]. by rewrite lookup_insert_eq.
    + cbn. intros Hh. destruct (serve_moves s _ send (drop 4 d) self out res q Hl Hdd Hh) as [ok Hok].
      exists ok. exact Hok.
Qed.

(** A turn of the event loop is a send, or handles a datagram. *)
Lemma loop_moves ping self s send s' :
  valid self -> u8 ping -> reachable true ping self s -> linked s -> loop_turn true send s = Some s' ->
  exists cmd q, contents (queue s) = cmd :: contents q /\ rx_alive s' = rx_alive s /\
    (queue s' = q \/ (loop s' = None /\ contents (queue s') = [])) /\
    match cmd with
    | EventLoop.SendMsg _ _ _ => Sequential.move ping (abs s) (abs s')
    | EventLoop.ReceiveMsg d => loop s <> None /\ exists ok, abs s' = Sequential.receive ok d (abs s)
    end.
Proof.
  intros Hv Hp Hr Hs Ht. pose proof (track_reachable _ _ _ _ Hr) as Htrack.
  pose proof (sim_queue _ _ _ _ (sim_reachable _ _ _ _ Hv Hr)) as Hb.
  apply loop_turn_inv in Ht as (flows & cmd & q & self' & out & res & Hl & Hq & _ & _ & Hh & Hs').
  cbn zeta in Hs'. exists cmd, q. destruct (mpsc_drop_receiver_spec q) as (Hdrop & _ & _).
  split_and!; [exact Hq|by subst s'| |].
  { subst s'. destruct res; [by left|right; done..]. }
  destruct cmd as [d|msg_type buf resp]; cbn [EventLoop.handle] in Hh; subst s'.
  - split; [by rewrite Hl|]. rewrite Hq in Hb. apply Forall_cons in Hb as [Hd _].
    by eapply receive_moves.
  - eapply send_moves; [exact Htrack|exact Hs|exact Hl| |exact Hq|exact Hh].
    apply (queued_own ping self s msg_type buf resp Hv Hp Hr); [by rewrite Hl|rewrite Hq; left].
Qed.

(** ** Every run *)

(** The datagrams that are not empty; [recv_from] with no bytes is skipped. *)
Definition seen (ds : list bytes) : list bytes := filter (fun d => d <> []) ds.

Lemma seen_app ds d : seen (ds ++ [d]) = seen ds ++ (if decide (d <> []) then [d] else []).
Proof. unfold seen. by rewrite filter_app, filter_cons. Qed.

Lemma linked_receives ping self ds s : receives ping self ds s -> linked s.
Proof.
  induction 1 as [|ds s d _ IH _ _ _|ds s e _ IH _ _|ds s s' Hr IH Ht].
  - apply linked_init.
  - by apply linked_receive.
  - by apply linked_receive.
  - eapply linked_task; [exact Ht| |exact IH]. by eapply track_reachable, receives_reachable.
Qed.

(** What the sequential program consumed, and what is in the channel; datagrams
    are lost only when a task is dead. *)
Record consumes (ping : Z) (self : MctpEndpointContext.t) (ds : list bytes) (s : t) : Prop := {
  consumes_run : exists used lost, Sequential.runs ping self used (abs s) /\
    seen ds = used ++ datagrams (contents (queue s)) ++ lost /\
    (rx_alive s = true -> loop s <> None -> lost = []);
}.

Lemma consumes_init ping self : consumes ping self [] (init true ping self).
Proof.
  destruct (mpsc_channel_spec CHANNEL_SIZE) as (Hc & _ & _); [unfold CHANNEL_SIZE; lia|].
  split. exists [], []. split_and!; [apply Sequential.runs_init|cbn; by rewrite Hc|done].
Qed.

Lemma consumes_datagram ping self ds s d :
  track s -> rx_alive s = true -> consumes ping self ds s ->
  consumes ping self (ds ++ [d]) (receive_datagram (Ok d) s).
Proof.
  intros Ht Hrx [(used & lost & Hr & Hd & Hlost)]. split.
  rewrite abs_receive_datagram, seen_app, Hd. unfold receive_datagram. cbn [unwrap].
  destruct d as [|b d]; cbn [length Nat.eqb].
  { rewrite decide_False by (intros Hne; by apply Hne). rewrite app_nil_r. by exists used, lost. }
  rewrite decide_True by done. destruct (mpsc_try_send _ _) as [q|] eqn:Hq.
  - apply try_send_room in Hq as Hopen. destruct Hopen as [Hopen _]. rewrite (track_closed s Ht) in Hopen.
    rewrite Hlost in * by (try done; by destruct (loop s)). apply mpsc_try_send_Some in Hq as (Hq & _ & _).
    exists used, []. proj. split_and!; [done| |done]. unfold datagrams. rewrite Hq, omap_app. cbn.
    by rewrite !app_nil_r, <- (assoc_L (++)).
  - exists used, (lost ++ [b :: d]). proj. by rewrite <- !(assoc_L (++)).
Qed.

Lemma consumes_task ping self ds s s' :
  valid self -> u8 ping -> reachable true ping self s -> linked s -> task_step ping s s' ->
  consumes ping self ds s -> consumes ping self ds s'.
Proof.
  intros Hv Hp Hr Hs Hstep [(used & lost & Hrun & Hd & Hlost)]. split. destruct Hstep as [send _ Ht|Ht].
  - assert (loop s' <> None -> loop s <> None) as Hmono
      by (apply loop_turn_inv in Ht as (? & ? & ? & ? & ? & ? & -> & _); done).
    apply (loop_moves ping self) in Ht as (cmd & q & Hq & Hrx & Hq' & Hm); try done. rewrite Hq in Hd.
    assert (exists lost', datagrams (contents q) ++ lost = datagrams (contents (queue s')) ++ lost' /\
      (rx_alive s' = true -> loop s' <> None -> lost' = [])) as (lost' & Hl' & Halive).
    { destruct Hq' as [->|[Hdead ->]]; [exists lost; rewrite Hrx; by auto|by eexists]. }
    destruct cmd as [d|msg_type buf resp]; cbn [datagrams omap list_omap app] in Hd.
    + destruct Hm as (Hl & ok & ->). exists (used ++ [d]), lost'.
      split_and!; [|by rewrite Hd, <- (assoc_L (++)), <- Hl'|done].
      apply Sequential.runs_receive; [done|]. destruct (abs_fields s) as (_ & _ & ->). by destruct (loop s).
    + exists used, lost'. split_and!; [|by rewrite Hd, <- Hl'|done]. by eapply Sequential.runs_move.
  - assert (rx_alive s' = rx_alive s /\ loop s' = loop s /\
      datagrams (contents (queue s')) = datagrams (contents (queue s))) as (-> & -> & ->).
    { unfold main_step in Ht. destruct (state (main s)) as [[[?|?|?]|?|?|?]|]; try done;
        repeat case_match; simplify_eq; try done. split_and!; [done..|].
      match goal with Hs : mpsc_try_send _ _ = Some _ |- _ => apply mpsc_try_send_Some in Hs as (Hq & _ & _) end.
      proj. rewrite Hq. unfold datagrams. by rewrite omap_app, app_nil_r. }
    exists used, lost. split_and!; [|done..].
    destruct (main_moves ping s s' Ht) as [->|Hm]; [by eapply track_reachable|done|done|].
    by eapply Sequential.runs_move.
Qed.

Lemma consumes_receives ping self ds s :
  valid self -> u8 ping -> receives ping self ds s -> consumes ping self ds s.
Proof.
  intros Hv Hp. induction 1 as [|ds s d Hr IH _ Hrx _|ds s e Hr IH _ _|ds s s' Hr IH Ht].
  - apply consumes_init.
  - apply consumes_datagram; [by eapply track_reachable, receives_reachable|done|done].
  - destruct IH as [(used & lost & Hrun & Hd & _)]. split. rewrite abs_receive_datagram. by exists used, lost.
  - eapply consumes_task; [done|done|by eapply receives_reachable|by eapply linked_receives|done|done].
Qed.

(** When no task can go on, neither can the sequential program. *)
Lemma stuck_tasks ping s :
  track s -> linked s -> main_step true ping s = None -> (forall send, loop_turn true send s = None) ->
  datagrams (contents (queue s)) = [] /\ forall sp, ~ Sequential.move ping (abs s) sp.
Proof.
  intros Ht Hs Hmain Hloop.
  assert (contents (queue s) = []) as Hq.
  { destruct (loop s) as [flows|] eqn:Hl; [|by apply (track_dead s Ht)]. apply mpsc_recv_None.
    specialize (Hloop send_all). unfold loop_turn in Hloop. rewrite Hl in Hloop.
    destruct (mpsc_recv (queue s)) as [[cmd q]|]; [|done].
    destruct (EventLoop.handle _ _ _ _ _) as [[? ?] [?|?|?]]; done. }
  split; [by rewrite Hq|]. intros sp Hmove. unfold main_step in Hmain.
  destruct (state (main s)) as [p|ch buf k] eqn:Hst.
  - assert (abs s = Sequential.mk (ctx s) p false (match loop s with Some _ => true | None => false end) (wire s))
      as Habs by (unfold abs; by rewrite Hst).
    destruct p as [[next|err|w]|f k|buf k|p]; try done; [by destruct Hmove; rewrite Habs in *..|].
    destruct (mpsc_try_send _ _) eqn:Hsend; [done|]. destruct (mpsc_is_closed (queue s)) eqn:Hc; [done|].
    apply mpsc_try_send_None in Hsend as [?|Hfull]; [congruence|].
    rewrite Hq, (track_capacity s Ht) in Hfull. unfold CHANNEL_SIZE in Hfull. simpl in Hfull. lia.
  - destruct (mailbox s !! ch) as [[bs|]|] eqn:Hm; [done..|]. destruct (loop s) as [flows|] eqn:Hl; [|done].
    pose proof (track_flows s Ht _ Hl) as Hf. unfold queued, outstanding in Hf. rewrite Hq, Hst, Hm in Hf.
    assert (abs s = Sequential.mk (ctx s) (Exchange buf k) true true (wire s)) as Habs.
    { unfold abs. rewrite Hst, Hm, Hl. by destruct flows. }
    destruct Hmove; rewrite Habs in *; done.
Qed.

(** C2: The three tasks of the bus owner, with their channel and oneshots, in
    any order of steps, refine one sequential program, the discovery loop with
    the datagrams handled one at a time.  With overflow checks on, having
    received the datagrams [ds], they are in a state that the sequential program
    reaches on those of [ds] that left the channel, in their order: the same
    datagrams on the wire, the same endpoint context, the same rest of the
    loop, the same result.  While the receiving task and the event loop run, the
    others but the empty ones are still in the channel; and when no task can go on
    of itself, none is left there and the sequential program too can only wait. *)
Theorem system_refines_loop ping self ds s :
  valid self -> u8 ping -> receives ping self ds s ->
  (exists used lost, Sequential.runs ping self used (abs s) /\
    filter (fun d => d <> []) ds = used ++ datagrams (contents (queue s)) ++ lost /\
    (rx_alive s = true -> loop s <> None -> lost = [])) /\
  (Sequential.wire (abs s) = wire s /\ Sequential.ctx (abs s) = ctx s /\
    forall o, exit_status s = Some o -> Sequential.prog (abs s) = Done o) /\
  (main_step true ping s = None -> (forall send, loop_turn true send s = None) ->
    datagrams (contents (queue s)) = [] /\ forall sp, ~ Sequential.move ping (abs s) sp).
Proof.
  intros Hv Hp Hr. split_and!; try apply abs_fields.
  - apply (consumes_receives ping self ds s Hv Hp Hr).
  - intros o Ho. unfold exit_status, abs in *. destruct (state (main s)) as [[[?|?|?]|?|?|?]|]; try done;
      by injection Ho as <-.
  - apply stuck_tasks; [by eapply track_reachable, receives_reachable|by eapply linked_receives].
Qed.

End facts.
End SystemSequential.
