(* ===== verification/SystemLiveness.v ===== *)
(** * What the system of tasks reaches

    Termination of what the tasks do between inputs, the exchange of requests
    and responses with an endpoint over the wire, and the deadlock that a burst
    of datagrams causes. *)
From S2P Require Import Prelude Crates Reference Derive Enums Transport ControlModels.
From S2P Require Import ControlPayload Errors Smbus Network BusOwner Discovery Offers Interop EventLoop.
From S2P Require Import Channels BusOwnerSystem SystemRefinement SystemSafety.

(** ** A burst of datagrams *)
Module Burst.
Import Bus BusOwnerSystem SystemSafety.
Section facts.
Context `{CratesLaws, Debug, MpscLaws EventLoop.PhysicalTransportCommands}.

(** Datagrams of less than four bytes, which the event loop ignores. *)
Definition short (d : bytes) : Prop := is_bytes d /\ (1 <= length d < 4)%nat.

Lemma short_ok d : short d -> datagram_ok (Ok d).
Proof. intros [Hd Hl]. split; [done|]. unfold RECV_BUFFER. lia. Qed.

(** The receiving task's turns on datagrams that arrive one after the other. *)
Definition receive_all (ds : list bytes) (s : t) : t :=
  foldl (fun s d => receive_datagram (Ok d) s) s ds.

(** The state [s] with another queue and receiving task. *)
Definition with_queue (s : t) (q : mpsc) (alive : bool) : t :=
  mk (ctx s) q alive (loop s) (mailbox s) (wire s) (main s).

(** A datagram is queued when the channel has room, and else ends the task. *)
Lemma receive_short s d :
  short d -> mpsc_is_closed (queue s) = false ->
  if decide (length (contents (queue s)) < capacity (queue s))%nat then
    exists q, receive_datagram (Ok d) s = with_queue s q (rx_alive s) /\
      contents q = contents (queue s) ++ [EventLoop.ReceiveMsg d] /\
      capacity q = capacity (queue s) /\ mpsc_is_closed q = false
  else receive_datagram (Ok d) s = with_queue s (queue s) false.
Proof.
  intros [_ Hl] Hcl. unfold receive_datagram. cbn [unwrap].
  destruct (Nat.eqb_spec (length d) 0); [lia|].
  destruct (mpsc_try_send (queue s) (EventLoop.ReceiveMsg d)) as [q|] eqn:Hsend; case_decide as Hroom.
  - exists q. by apply mpsc_try_send_Some in Hsend as (-> & -> & ->).
  - by apply try_send_room in Hsend as [_ ?].
  - apply mpsc_try_send_None in Hsend as [?|?]; [congruence|lia].
  - done.
Qed.

Lemma burst_fills checks ping ds s :
  Forall short ds -> exit_status s = None -> rx_alive s = true -> mpsc_is_closed (queue s) = false ->
  (length (contents (queue s)) + length ds <= capacity (queue s))%nat ->
  rtc (step checks ping) s (receive_all ds s) /\
  exists q, receive_all ds s = with_queue s q true /\
    contents q = contents (queue s) ++ (EventLoop.ReceiveMsg <$> ds) /\
    capacity q = capacity (queue s) /\ mpsc_is_closed q = false.
Proof.
  intros Hds. revert s. induction Hds as [|d ds Hd Hds IH]; intros s He Hrx Hcl Hl.
  { split; [apply rtc_refl|]. exists (queue s). rewrite app_nil_r. split_and!; [|done..].
    destruct s; cbn in *; by subst. }
  pose proof (receive_short s d Hd Hcl) as Hone. simpl in Hl. rewrite decide_True in Hone by lia.
  destruct Hone as (q & Hrecv & Hq & Hcap & Hqcl). rewrite Hrx in Hrecv.
  change (receive_all (d :: ds) s) with (receive_all ds (receive_datagram (Ok d) s)).
  assert (step checks ping s (receive_datagram (Ok d) s)) as Hstep
    by (apply step_receive; [done|done|by apply short_ok]).
  rewrite Hrecv in Hstep |- *. destruct (IH (with_queue s q true)) as (Hsteps & q' & Hall & Hq' & Hcap' & Hcl');
    [done|done|done|cbn; rewrite Hq, Hcap, length_app; simpl; lia|].
  split; [eapply rtc_l; [exact Hstep|exact Hsteps]|]. exists q'. cbn in Hq', Hcap'.
  by rewrite Hall, Hq', Hcap', Hcap, Hq, <- (assoc_L (++)).
Qed.

(** Nothing moves: the receiving task is dead, the event loop waits for a
    command, and the discovery loop for a response. *)
Lemma waiting_deadlock checks ping s ch buf k s' :
  rx_alive s = false -> contents (queue s) = [] -> state (main s) = Awaiting ch buf k ->
  mailbox s !! ch = None -> loop s <> None -> ~ step checks ping s s'.
Proof.
  intros Hrx Hq Hm Hmb Hl Hstep. destruct Hstep as [r _ Hrx' _|send s' _ Ht|s' Ht].
  - congruence.
  - apply SystemRefinement.loop_turn_inv in Ht as (? & cmd & q & ? & ? & ? & _ & Hc & _). congruence.
  - unfold main_step in Ht. rewrite Hm, Hmb in Ht. by destruct (loop s).
Qed.

(** The event loop drops a short datagram, whatever its socket does. *)
Lemma short_turn checks send s d rest :
  short d -> loop s <> None -> contents (queue s) = EventLoop.ReceiveMsg d :: rest ->
  exists q, loop_turn checks send s = Some (with_queue s q (rx_alive s)) /\ contents q = rest /\
    forall send', loop_turn checks send' s = Some (with_queue s q (rx_alive s)).
Proof.
  intros [_ Hl] Hloop Hq. destruct (loop s) as [flows|] eqn:Hfl; [|done].
  destruct (mpsc_recv (queue s)) as [[cmd q]|] eqn:Hr; [|by apply mpsc_recv_None in Hr; rewrite Hq in Hr].
  pose proof (mpsc_recv_Some _ _ _ Hr) as (Hc & _ & _). rewrite Hq in Hc. injection Hc as Hcmd Hq'.
  assert (forall send', loop_turn checks send' s = Some (with_queue s q (rx_alive s))) as Ht.
  { intros send'. unfold loop_turn, with_queue. rewrite Hfl, Hr, <- Hcmd.
    cbn [EventLoop.handle]. unfold EventLoop.receive. rewrite (proj2 (Nat.ltb_lt (length d) 4)) by lia.
    cbn. by rewrite app_nil_r. }
  exists q. split_and!; [apply Ht|done|exact Ht].
Qed.

(** Once the receiving task is dead, every run drains the channel and stops. *)
Lemma drain_stops checks ping ch buf k ds s :
  Forall short ds -> rx_alive s = false -> contents (queue s) = EventLoop.ReceiveMsg <$> ds ->
  state (main s) = Awaiting ch buf k -> mailbox s !! ch = None -> loop s <> None ->
  eventually (step checks ping)
    (fun s' => main s' = main s /\ exit_status s' = None /\ forall s'', ~ step checks ping s' s'') s.
Proof.
  intros Hds. revert s. induction Hds as [|d ds Hd Hds IH]; intros s Hrx Hq Hm Hmb Hl.
  { apply eventually_now. split_and!; [done|unfold exit_status; by rewrite Hm|].
    intros s''. by eapply waiting_deadlock. }
  destruct (short_turn checks EventLoopFacts.send_all s d _ Hd Hl Hq) as (q & Ht & Hq' & Hall).
  apply eventually_next.
  - exists (with_queue s q (rx_alive s)). eapply step_loop; [|exact Ht]. unfold exit_status. by rewrite Hm.
  - intros y Hstep. assert (y = with_queue s q (rx_alive s)) as ->.
    { destruct Hstep as [r _ Hrx' _|send s' _ Ht'|s' Ht']; [congruence|rewrite Hall in Ht'; congruence|].
      unfold main_step in Ht'. rewrite Hm, Hmb in Ht'. by destruct (loop s). }
    by apply (IH (with_queue s q (rx_alive s))).
Qed.

(** C8: A burst of datagrams hangs the bus owner for good.  While it waits for a
    response with nothing in the channel, let any 33 datagrams of one to three
    bytes, which the event loop ignores, arrive between two of its turns: the first 32
    fill the channel, the [try_send] of the last panics and ends the receiving
    task, and from there every run comes to a state in which no task can move
    again, the discovery loop still awaits its response, and nothing was returned
    to [main]. *)
Theorem burst_deadlocks checks ping self s ch buf k flows ds :
  reachable checks ping self s -> state (main s) = Awaiting ch buf k -> mailbox s !! ch = None ->
  rx_alive s = true -> loop s = Some flows -> contents (queue s) = [] ->
  length ds = 33%nat -> Forall (fun d => is_bytes d /\ (1 <= length d < 4)%nat) ds ->
  let full := receive_all (take 32 ds) s in
  let burst := receive_all ds s in
  rtc (step checks ping) s full /\ rx_alive full = true /\
  contents (queue full) = EventLoop.ReceiveMsg <$> take 32 ds /\
  step checks ping full burst /\ rx_alive burst = false /\ main burst = main s /\
  eventually (step checks ping)
    (fun s' => main s' = main s /\ exit_status s' = None /\ forall s'', ~ step checks ping s' s'') burst.
Proof.
  intros Hs Hm Hmb Hrx Hl Hq Hlen Hds full burst. pose proof (track_reachable _ _ _ _ Hs) as Htrack.
  pose proof (track_closed s Htrack) as Hcl. rewrite Hl in Hcl.
  pose proof (track_capacity s Htrack) as Hcap. unfold CHANNEL_SIZE in Hcap.
  assert (exit_status s = None) as He by (unfold exit_status; by rewrite Hm).
  destruct (drop 32 ds) as [|d [|d' rest]] eqn:Hdrop; apply (f_equal length) in Hdrop as Hdl;
    rewrite length_drop, Hlen in Hdl; simpl in Hdl; try lia. clear Hdl.
  assert (burst = receive_datagram (Ok d) full) as Hburst.
  { subst burst full. unfold receive_all. rewrite <- (take_drop 32 ds) at 1. rewrite Hdrop.
    by rewrite foldl_app. }
  assert (Forall short (take 32 ds) /\ short d) as [Htake Hd].
  { rewrite <- (take_drop 32 ds), Hdrop in Hds. apply Forall_app in Hds as [? Hd].
    by apply Forall_cons in Hd as [? _]. }
  destruct (burst_fills checks ping (take 32 ds) s Htake He Hrx Hcl) as (Hsteps & q & Hfull & Hq1 & Hc1 & Hcl1);
    [rewrite Hq, length_take, Hcap; cbn [length]; lia|]. rewrite Hq in Hq1. cbn [app] in Hq1.
  fold full in Hsteps, Hfull. clearbody full burst.
  assert (step checks ping full burst) as Hstep.
  { rewrite Hburst. apply step_receive; [by rewrite Hfull|by rewrite Hfull|by apply short_ok]. }
  pose proof (receive_short full d Hd) as Hlast. rewrite Hfull in Hlast at 1. specialize (Hlast Hcl1).
  rewrite decide_False in Hlast by (rewrite Hfull; cbn; rewrite Hq1, Hc1, Hcap, length_fmap, length_take; lia).
  rewrite <- Hburst, Hfull in Hlast. cbn in Hlast. rewrite Hlast.
  rewrite Hlast in Hstep. rewrite Hfull in Hsteps, Hstep |- *. split_and!; [done|done|done|done|done|done|].
  apply (drain_stops _ _ ch buf k (take 32 ds) (with_queue s q false)); try done. cbn. by rewrite Hl.
Qed.

End facts.
End Burst.

(** ** Termination between inputs *)
Module Quiescence.
Import Bus MctpEndpointContext Discovery BusOwnerSystem SystemRefinement.
Section facts.
Context `{CratesLaws, Debug, MpscLaws EventLoop.PhysicalTransportCommands}.
Context (checks : bool) (ping : Z) (self : MctpEndpointContext.t).

(** A step that needs nothing from outside: no datagram, no timer. *)
Inductive internal (s s' : t) : Prop :=
  | internal_loop send :
      exit_status s = None -> loop_turn checks send s = Some s' -> internal s s'
  | internal_main : sleeping s = false -> main_step checks ping s = Some s' -> internal s s'.

Abbreviation ends := (Acc (fun s' s => internal s s')).

(** The datagrams to handle, twice, and the discovery that was asked for. *)
Definition is_receive (cmd : EventLoop.PhysicalTransportCommands) : Prop :=
  match cmd with EventLoop.ReceiveMsg _ => True | EventLoop.SendMsg _ _ _ => False end.
#[local] Instance is_receive_dec cmd : Decision (is_receive cmd).
Proof. destruct cmd; cbn; apply _. Defined.
Definition received (s : t) : nat := length (filter is_receive (contents (queue s))).
Definition work (s : t) : nat := 2 * received s + Nat.b2n (perform_discovery (ctx s)).

Lemma sim_internal s s' : internal s s' -> sim checks ping self s -> sim checks ping self s'.
Proof. intros [send _ Ht|_ Ht]; [by eapply sim_loop|by eapply sim_main]. Qed.

(** A turn of the event loop handles a datagram, or shortens the queue. *)
Lemma loop_turn_work send s s' :
  loop_turn checks send s = Some s' ->
  (work s' < work s)%nat \/
  ((work s' <= work s)%nat /\ main s' = main s /\
   (length (contents (queue s')) < length (contents (queue s)))%nat).
Proof.
  intros Ht. apply loop_turn_inv in Ht
    as (flows & cmd & q & self' & out & res & _ & Hq & _ & _ & Hh & Hs'). cbn zeta in Hs'.
  destruct (mpsc_drop_receiver_spec q) as (Hdrop & _ & _).
  assert (queue s' = q \/ contents (queue s') = []) as Hq'.
  { subst s'. destruct res; [by left|right; done..]. }
  assert (length (filter is_receive (contents (queue s'))) <= length (filter is_receive (contents q)))%nat
    as Hle by (destruct Hq' as [->| ->]; cbn; lia).
  assert (length (contents (queue s')) <= length (contents q))%nat as Hlen
    by (destruct Hq' as [->| ->]; cbn; lia).
  unfold work, received in *. rewrite Hq. destruct cmd as [buf|msg_type buf resp].
  - left. rewrite filter_cons_True by done. cbn [length].
    destruct (perform_discovery (ctx s')), (perform_discovery (ctx s)); cbn; lia.
  - right. rewrite filter_cons_False by by intros []. cbn [EventLoop.handle] in Hh.
    pose proof (EventLoopFacts.send_cmd_outputs checks send (EventLoop.mk (ctx s) flows) msg_type buf resp)
      as Hc. rewrite Hh in Hc. destruct Hc as [Hc _]. cbn [EventLoop.ctx] in Hc.
    assert (ctx s' = ctx s) as -> by (subst s'; exact Hc). split_and!; [lia|by subst s'|simpl; lia].
Qed.

(** A turn looks at the discovery flag, and without it sleeps. *)
Lemma turn_starts next :
  exists k, turn checks ping next = Access (fun c => store_perform_discovery c false) k /\
    forall c, perform_discovery c = false -> exists p, k c = Sleep p.
Proof.
  eexists. split; [reflexivity|]. intros c Hc. cbn. rewrite Hc. cbn. by eexists.
Qed.

Section bounded.
Context (n : nat) (Hn : forall s, sim checks ping self s -> (work s < n)%nat -> ends s).

(** With the discovery loop's task fixed, the event loop runs out of commands. *)
Lemma ends_state st :
  (forall s s', sim checks ping self s -> (work s <= n)%nat -> state (main s) = st ->
    sleeping s = false -> main_step checks ping s = Some s' -> ends s') ->
  forall s, sim checks ping self s -> (work s <= n)%nat -> state (main s) = st -> ends s.
Proof.
  intros Hmain s. remember (length (contents (queue s))) as len eqn:Hlen. revert s Hlen.
  induction len as [len IH] using lt_wf_ind. intros s -> Hs Hw Hst. constructor. intros s' Hstep.
  pose proof (sim_internal _ _ Hstep Hs) as Hs'. destruct Hstep as [send _ Ht|Hsl Ht].
  - destruct (loop_turn_work _ _ _ Ht) as [Hlt|(Hle & Hm & Hlt)]; [apply Hn; [done|lia]|].
    eapply IH; [exact Hlt|done|done|lia|by rewrite Hm].
  - eapply Hmain; [exact Hs|exact Hw|exact Hst|exact Hsl|exact Ht].
Qed.

Lemma ends_sleep p s :
  sim checks ping self s -> (work s <= n)%nat -> state (main s) = Running (Sleep p) -> ends s.
Proof.
  apply (ends_state (Running (Sleep p))). intros s1 s' _ _ Hst Hsl. unfold sleeping in Hsl.
  by rewrite Hst in Hsl.
Qed.

Lemma ends_turn next s :
  sim checks ping self s -> (work s <= n)%nat ->
  state (main s) = Running (turn checks ping next) -> ends s.
Proof.
  apply (ends_state (Running (turn checks ping next))). intros s1 s' Hs Hw Hst _ Ht.
  pose proof (sim_main _ _ _ _ _ Ht Hs) as Hs'. unfold main_step in Ht. rewrite Hst in Ht.
  destruct (turn_starts next) as (k & Hk & Hidle). rewrite Hk in Ht. injection Ht as <-.
  destruct (perform_discovery (ctx s1)) eqn:Hp.
  - apply Hn; [exact Hs'|]. unfold work, received in *. revert Hw. proj. rewrite Hp. cbn. lia.
  - destruct (Hidle _ Hp) as [p Hsleep]. apply (ends_sleep p); [exact Hs'| |proj; by rewrite Hsleep].
    unfold work, received in *. revert Hw. proj. rewrite Hp. cbn. lia.
Qed.

(** The task is resumed with one of the results of its exchange. *)
Lemma main_step_awaiting s s' ch buf k :
  main_step checks ping s = Some s' -> state (main s) = Awaiting ch buf k ->
  exists x, s' = resume s (k x) (Exchanged buf x).
Proof.
  unfold main_step. intros Ht Hst. rewrite Hst in Ht.
  destruct (mailbox s !! _) as [[bs|]|]; [|..|destruct (loop s); [done|]]; injection Ht as <-; eauto.
Qed.

Lemma ends_awaiting ch buf k s :
  (forall x s, sim checks ping self s -> (work s <= n)%nat -> state (main s) = Running (k x) -> ends s) ->
  sim checks ping self s -> (work s <= n)%nat -> state (main s) = Awaiting ch buf k -> ends s.
Proof.
  intros Hk. apply (ends_state (Awaiting ch buf k)). clear s. intros s s' Hs Hw Hst _ Ht.
  pose proof (sim_main _ _ _ _ _ Ht Hs) as Hs'.
  destruct (main_step_awaiting _ _ _ _ _ Ht Hst) as [x ->].
  apply (Hk x); [exact Hs'|exact Hw|reflexivity].
Qed.

Lemma ends_running p s :
  sim checks ping self s -> (work s <= n)%nat -> state (main s) = Running p -> ends s.
Proof.
  revert s. induction p as [o|f k IH|buf k IH|p IH]; intros s.
  - apply (ends_state (Running (Done o))). clear s. intros s s' Hs Hw Hst _ Ht.
    pose proof (sim_main _ _ _ _ _ Ht Hs) as Hs'. unfold main_step in Ht. rewrite Hst in Ht.
    destruct o as [next|e|w]; [|done..]. injection Ht as <-.
    apply (ends_turn next); [exact Hs'|exact Hw|reflexivity].
  - apply (ends_state (Running (Access f k))). clear s. intros s s' Hs Hw Hst _ Ht.
    pose proof (sim_main _ _ _ _ _ Ht Hs) as Hs'. unfold main_step in Ht. rewrite Hst in Ht.
    injection Ht as <-. apply (IH (ctx s)); [exact Hs'| |reflexivity].
    pose proof (sim_tame _ _ _ _ Hs) as Htame. rewrite Hst in Htame.
    destruct (Htame _ (sim_ctx _ _ _ _ Hs)) as (_ & Hmono & _).
    unfold work, received in *. proj. destruct (perform_discovery (f (ctx s)));
      [rewrite Hmono in Hw by done; exact Hw|cbn; lia].
  - apply (ends_state (Running (Exchange buf k))). clear s. intros s s' Hs Hw Hst _ Ht.
    pose proof (sim_main _ _ _ _ _ Ht Hs) as Hs'. unfold main_step in Ht. rewrite Hst in Ht.
    destruct (mpsc_try_send _ _) as [q|] eqn:Hsend.
    + injection Ht as <-.
      apply (ends_awaiting (next_channel (main s)) buf k); [exact IH|exact Hs'| |reflexivity].
      apply mpsc_try_send_Some in Hsend as (Hq & _ & _). unfold work, received in *. proj.
      rewrite Hq, filter_app, filter_cons_False, filter_nil, app_nil_r by by intros []. exact Hw.
    + destruct (mpsc_is_closed _); [|done]. injection Ht as <-.
      apply (IH NotSent); [exact Hs'|exact Hw|reflexivity].
  - apply ends_sleep.
Qed.

Lemma ends_bounded s : sim checks ping self s -> (work s <= n)%nat -> ends s.
Proof.
  intros Hs Hw. destruct (state (main s)) as [p|ch buf k] eqn:Hst; [by eapply ends_running|].
  apply (ends_awaiting ch buf k); [|exact Hs|exact Hw|exact Hst]. intros x s1. apply ends_running.
Qed.

End bounded.

Lemma ends_sim s : sim checks ping self s -> ends s.
Proof.
  remember (work s) as n eqn:Hw. revert s Hw. induction n as [n IH] using lt_wf_ind. intros s Hw Hs.
  apply (ends_bounded n); [|done|lia]. intros s1 Hs1 Hlt. by eapply (IH (work s1)).
Qed.

(** C7: Between inputs the bus owner comes to rest: from a reachable state, every
    sequence of steps in which no datagram arrives and no timer fires is
    finite. *)
Theorem tasks_quiesce s :
  valid self -> reachable checks ping self s -> Acc (fun s' s => internal s s') s.
Proof. intros Hv Hs. by apply ends_sim, sim_reachable. Qed.

End facts.
End Quiescence.
