(* ===== verification/Link.v ===== *)
(** * The bus owner and an endpoint over the wire

    The system of tasks of [BusOwnerSystem] next to an endpoint that runs the
    same event loop, with the datagrams of each as the other's input.  What the
    discovery loop does against [DiscoveryFacts.peer], the system does over the
    wire. *)
From S2P Require Import Prelude Crates Reference Derive Enums Transport ControlModels.
From S2P Require Import ControlPayload Errors Smbus Network BusOwner Discovery Offers Interop EventLoop.
From S2P Require Import Channels BusOwnerSystem SystemRefinement SystemSafety.

Module Link.
Import Bus MctpEndpointContext Discovery BusOwnerFacts Offers DiscoveryFacts EventLoopFacts.
Import BusOwnerSystem SystemSafety.
Section facts.
Context `{CratesLaws, Debug, MpscLaws EventLoop.PhysicalTransportCommands}.
Context (ping : Z).

(** The owner's datagrams are [wire], of which the endpoint has taken [taken];
    the endpoint's datagrams to the owner are [replies]. *)
Record link := mk_link {
  owner : t;
  endpoint : EventLoop.t;
  taken : nat;
  replies : list bytes;
}.

Inductive link_step (l : link) : link -> Prop :=
  | owner_main s :
      main_step true ping (owner l) = Some s ->
      link_step l (mk_link s (endpoint l) (taken l) (replies l))
  | owner_loop s :
      exit_status (owner l) = None -> loop_turn true send_all (owner l) = Some s ->
      link_step l (mk_link s (endpoint l) (taken l) (replies l))
  | endpoint_receives frame send_ok self out :
      wire (owner l) !! taken l = Some frame ->
      EventLoop.handle true send_ok send_all (endpoint l) (EventLoop.ReceiveMsg frame) =
        (self, out, Ok tt) ->
      link_step l (mk_link (owner l) self (S (taken l)) (replies l ++ frames out))
  | owner_receives frame rest :
      exit_status (owner l) = None -> rx_alive (owner l) = true -> replies l = frame :: rest ->
      link_step l (mk_link (receive_datagram (Ok frame) (owner l)) (endpoint l) (taken l) rest).

(** Nothing is on its way: the tasks wait, and every datagram was taken. *)
Record quiet (l : link) : Prop := {
  quiet_rx : rx_alive (owner l) = true;
  quiet_loop : loop (owner l) = Some [];
  quiet_queue : contents (queue (owner l)) = [];
  quiet_closed : mpsc_is_closed (queue (owner l)) = false;
  quiet_capacity : (0 < capacity (queue (owner l)))%nat;
  quiet_mailbox ch : (next_channel (main (owner l)) <= ch)%nat -> mailbox (owner l) !! ch = None;
  quiet_taken : taken l = length (wire (owner l));
  quiet_replies : replies l = [];
  quiet_endpoint : EventLoop.pending_cmd (endpoint l) = [];
}.

(** ** The only step *)

(** Between two datagrams nothing is on its way. *)
Definition settled (l : link) : Prop := taken l = length (wire (owner l)) /\ replies l = [].

Lemma loop_idle s : contents (queue s) = [] -> loop_turn true send_all s = None.
Proof. intros Hq%mpsc_recv_None. unfold loop_turn. rewrite Hq. by destruct (loop s). Qed.

Lemma endpoint_idle l frame : settled l -> wire (owner l) !! taken l = Some frame -> False.
Proof. intros [-> _] Hw%lookup_lt_Some. lia. Qed.

Lemma only_main l s :
  settled l -> contents (queue (owner l)) = [] -> main_step true ping (owner l) = Some s ->
  only_step link_step l (mk_link s (endpoint l) (taken l) (replies l)).
Proof.
  intros Hs Hq Hm. split; [by apply owner_main|].
  intros z [s' Hm'|s' _ Hl|frame ? ? ? Hw _|frame rest _ _ Hr].
  - congruence.
  - by rewrite loop_idle in Hl.
  - by destruct (endpoint_idle l frame).
  - destruct Hs. congruence.
Qed.

Lemma only_loop l s :
  settled l -> main_step true ping (owner l) = None -> exit_status (owner l) = None ->
  loop_turn true send_all (owner l) = Some s ->
  only_step link_step l (mk_link s (endpoint l) (taken l) (replies l)).
Proof.
  intros Hs Hm He Hl. split; [by apply owner_loop|].
  intros z [s' Hm'|s' _ Hl'|frame ? ? ? Hw _|frame rest _ _ Hr]; [congruence|congruence| |].
  - by destruct (endpoint_idle l frame).
  - destruct Hs. congruence.
Qed.

(** The discovery loop waits for a response. *)
Lemma main_waits s ch buf k flows :
  state (main s) = Awaiting ch buf k -> mailbox s !! ch = None -> loop s = Some flows ->
  main_step true ping s = None.
Proof. intros Hm Hmb Hl. unfold main_step. by rewrite Hm, Hmb, Hl. Qed.

(** The owner waits for the endpoint. *)
Lemma only_endpoint l frame self out :
  contents (queue (owner l)) = [] -> main_step true ping (owner l) = None -> replies l = [] ->
  wire (owner l) !! taken l = Some frame ->
  (forall send_ok, EventLoop.handle true send_ok send_all (endpoint l) (EventLoop.ReceiveMsg frame) =
    (self, out, Ok tt)) ->
  only_step link_step l (mk_link (owner l) self (S (taken l)) (replies l ++ frames out)).
Proof.
  intros Hq Hm Hr Hw Hh. split; [by apply (endpoint_receives _ frame (fun _ => true))|].
  intros z [s' Hm'|s' _ Hl|frame' ? ? ? Hw' Hh'|frame' rest _ _ Hr']; [congruence| | |congruence].
  - by rewrite loop_idle in Hl.
  - rewrite Hw in Hw'. injection Hw' as <-. rewrite Hh in Hh'. by injection Hh' as <- <-.
Qed.

Lemma only_receive l frame :
  contents (queue (owner l)) = [] -> main_step true ping (owner l) = None ->
  exit_status (owner l) = None -> rx_alive (owner l) = true ->
  taken l = length (wire (owner l)) -> replies l = [frame] ->
  only_step link_step l (mk_link (receive_datagram (Ok frame) (owner l)) (endpoint l) (taken l) []).
Proof.
  intros Hq Hm He Hrx Ht Hr. split; [by apply owner_receives|].
  intros z [s' Hm'|s' _ Hl|frame' ? ? ? Hw _|frame' rest _ _ Hr']; [congruence| | |congruence].
  - by rewrite loop_idle in Hl.
  - rewrite Ht in Hw. apply lookup_lt_Some in Hw. lia.
Qed.

(** What the endpoint becomes by answering packets. *)
Definition answers (d : MctpEndpointContext.t) (packets : list bytes) : MctpEndpointContext.t :=
  foldl (fun d buf => (handle_request d (buf ++ frame_code buf)).1) d packets.

Lemma receive_open frame s q :
  frame <> [] -> mpsc_try_send (queue s) (EventLoop.ReceiveMsg frame) = Some q ->
  receive_datagram (Ok frame) s = set_queue s q.
Proof. intros Hf Hq. unfold receive_datagram. cbn [unwrap]. rewrite Hq. by destruct frame. Qed.

(** A request of the loop comes back as the endpoint's reply, with the code of
    its datagram, and nothing else can happen meanwhile. *)
Lemma link_exchange l buf k :
  quiet l -> state (main (owner l)) = Running (Exchange buf k) -> own_request buf ->
  exists l' rsp, rtc (only_step link_step) l l' /\
    handle_request (EventLoop.ctx (endpoint l)) (buf ++ frame_code buf) =
      (EventLoop.ctx (endpoint l'), Ok rsp) /\
    quiet l' /\ ctx (owner l') = ctx (owner l) /\
    state (main (owner l')) = Running (k (Replied (inl (rsp ++ frame_code rsp)))) /\
    wire (owner l') = wire (owner l) ++ [loop_frame buf].
Proof.
  destruct l as [[c q rx fl mb w [st h n]] [dc dp] tk rp].
  intros [Hrx Hl Hq Hcl Hcap Hmb Htk Hrp Hep] Hst Hown. cbn in *. subst tk rp rx fl st dp.
  destruct Hown as [Hb Hlen _ _ Hans].
  destruct (Hans dc (frame_code buf) (frame_code_bytes buf)) as (d' & rsp & Hh).
  destruct (exchange_handles true (EventLoop.mk c []) (EventLoop.mk dc []) buf n d' rsp Hb ltac:(lia)
    eq_refl eq_refl Hh) as (tag & Hsend & Hpeer & Hanswer).
  destruct (try_send_open q (EventLoop.SendMsg MessageType.Control buf (Some n)) Hcl Hq Hcap)
    as (q1 & Hq1 & Hc1 & Hcl1 & Hcap1).
  destruct (recv_one q1 _ Hc1) as (q2 & Hq2 & Hc2 & Hcl2 & Hcap2).
  destruct (try_send_open q2 (EventLoop.ReceiveMsg (loop_frame rsp))) as (q3 & Hq3 & Hc3 & Hcl3 & Hcap3);
    [congruence|done|lia|].
  destruct (recv_one q3 _ Hc3) as (q4 & Hq4 & Hc4 & Hcl4 & Hcap4).
  pose proof (Hmb n (le_n _)) as Hwait.
  eexists (mk_link (mk c q4 true (Some []) (<[n := Some (drop 4 (loop_frame rsp))]> mb)
    (w ++ [loop_frame buf]) (mk_discovery _ (h ++ [Exchanged buf _]) (S n)))
    (EventLoop.mk d' []) (S (length w)) []), rsp. split_and!; [|exact Hh| |done|reflexivity|done].
  - eapply rtc_l.
    { apply only_main; [done|done|]. unfold main_step. proj. cbn [owner]. proj. rewrite Hq1. reflexivity. }
    eapply rtc_l. { apply only_loop; [done|by eapply main_waits|done|].
      unfold loop_turn. cbn [owner]. proj. rewrite Hq2, Hsend.
      cbn [EventLoop.pending_cmd EventLoop.ctx deliver foldl drop_sender frames omap list_omap].
      rewrite decide_True by by constructor. reflexivity. }
    eapply rtc_l. { apply (only_endpoint _ (loop_frame buf)); [done|by eapply main_waits|done| |apply Hpeer].
      cbn [owner taken]. proj. by apply list_lookup_middle. }
    eapply rtc_l. { apply (only_receive _ (loop_frame rsp)); [done|by eapply main_waits|done|done| |done].
      cbn. rewrite length_app. simpl. lia. }
    cbn [owner endpoint taken replies]. rewrite (receive_open _ _ q3) by done. proj.
    eapply rtc_l. { apply only_loop; [split; [cbn; rewrite length_app; simpl; lia|done]|by eapply main_waits|done|].
      unfold loop_turn. cbn [owner]. proj. rewrite Hq4, Hanswer; [reflexivity|].
      unfold receiver_waits. proj. rewrite bool_decide_true by done. by apply bool_decide_true. }
    change (frames [EventLoop.Answer n (drop 4 (loop_frame rsp))]) with (@nil bytes).
    rewrite app_nil_r. eapply rtc_l; [|apply rtc_refl].
    apply only_main; [split; [cbn; rewrite length_app; simpl; lia|done]|done|].
    cbn [owner deliver foldl drop_sender]. unfold main_step. proj.
    rewrite lookup_insert_eq. reflexivity.
  - split; cbn; try done; [congruence|lia| |].
    + intros ch Hch. rewrite lookup_insert_ne by lia. apply Hmb. lia.
    + rewrite length_app. simpl. lia.
Qed.

(** ** Following a run *)

Lemma own_reply_bytes d d' buf rsp :
  is_bytes buf -> handle_request d (buf ++ frame_code buf) = (d', Ok rsp) ->
  is_bytes (rsp ++ frame_code rsp).
Proof.
  intros Hb Hh. apply is_bytes_app; [|apply frame_code_bytes].
  apply reply_answers in Hh as [Hr _]; [done|]. apply is_bytes_app; [done|apply frame_code_bytes].
Qed.

(** Answering a Get Endpoint ID request changes nothing. *)
Lemma answers_get_eid d c dst :
  valid c -> u8 dst ->
  (handle_request d (request_headers c dst 2 ++ frame_code (request_headers c dst 2))).1 = d.
Proof.
  intros Hc Hd. assert (u8 2) as Ht by solve_range.
  rewrite handle_request_handle
    by (apply is_bytes_app; [by apply request_headers_bytes|apply frame_code_bytes]).
  unfold request_headers. cbn [app HandlerSpec.handle]. by rewrite (from_u8_of CommandCode.GetEndpointID 2).
Qed.

(** A program of the discovery loop, run against the peer, is run the same way by
    the tasks over the wire. *)
Lemma link_follows lo (p : prog Z) Q l s d0 :
  offers lo p Q -> quiet l -> valid (ctx (owner l)) -> state (main (owner l)) = Running p ->
  Bus.ctx s = ctx (owner l) ->
  let '(s', o) := run (peer d0 frame_code) p s in
  exists l' packets, rtc (only_step link_step) l l' /\ quiet l' /\
    sent s' = sent s ++ packets /\
    state (main (owner l')) = Running (Done o) /\ ctx (owner l') = Bus.ctx s' /\
    wire (owner l') = wire (owner l) ++ (loop_frame <$> packets) /\
    EventLoop.ctx (endpoint l') = answers (EventLoop.ctx (endpoint l)) packets.
Proof.
  intros Ho Hq Hv Hst Hs. destruct (run _ p s) as [s' o] eqn:Hrun. revert lo l s Ho Hq Hv Hst Hs Hrun.
  induction p as [o1|f k IH|buf k IH|p IH]; intros lo l s Ho Hq Hv Hst Hs Hrun; cbn [run offers] in *.
  - injection Hrun as <- <-. exists l, []. rewrite !app_nil_r. split_and!; try done.
  - cbn [peer interfere] in Hrun. rewrite Hs in Hrun. destruct (Ho _ Hv) as [Hfv Hok].
    set (l1 := mk_link (resume (set_ctx (owner l) (f (ctx (owner l)))) (k (ctx (owner l)))
      (Accessed (ctx (owner l)))) (endpoint l) (taken l) (replies l)).
    assert (only_step link_step l l1) as Hstep.
    { apply only_main; [by destruct Hq|by destruct Hq|]. unfold main_step. by rewrite Hst. }
    assert (quiet l1) as Hq1 by by destruct Hq.
    destruct (IH _ lo l1 (mk_sys _ (sent s) (S (clock s))) Hok Hq1 Hfv eq_refl eq_refl Hrun)
      as (l' & packets & Hsteps & Hrest).
    exists l', packets. split; [by eapply rtc_l|done].
  - destruct Ho as (hi & _ & _ & Hown & Hk).
    destruct (link_exchange l buf k Hq Hst Hown) as (l1 & rsp & Hsteps & Hh & Hq1 & Hc1 & Hst1 & Hw1).
    cbn [peer exchange_with] in Hrun.
    assert ((handle_request d0 (buf ++ frame_code buf)).2 = Ok rsp) as Hrsp.
    { assert (is_bytes (buf ++ frame_code buf)) as Hb
        by (apply is_bytes_app; [by destruct Hown|apply frame_code_bytes]).
      rewrite handle_request_handle in Hh |- * by done.
      rewrite (handle_result _ (EventLoop.ctx (endpoint l))). by rewrite Hh. }
    rewrite Hrsp in Hrun.
    destruct (IH (Replied (inl (rsp ++ frame_code rsp))) hi l1 (mk_sys (Bus.ctx s) (sent s ++ [buf]) (S (clock s))))
      as (l' & packets & Hsteps' & Hq' & Hsent & Hst' & Hc' & Hw' & He');
      [|done|by rewrite Hc1|done|by rewrite Hc1|exact Hrun|].
    { apply Hk. cbn. apply (own_reply_bytes (EventLoop.ctx (endpoint l)) (EventLoop.ctx (endpoint l1)) buf);
        [by destruct Hown|done]. }
    exists l', (buf :: packets). split_and!; [by etrans|done| |done|done| |].
    + rewrite Hsent. cbn [sent]. by rewrite <- (assoc_L (++)).
    + rewrite Hw', Hw1. by rewrite <- (assoc_L (++)).
    + rewrite He'. cbn [answers foldl]. by rewrite Hh.
  - set (l1 := mk_link (resume (owner l) p Slept) (endpoint l) (taken l) (replies l)).
    assert (only_step link_step l l1) as Hstep.
    { apply only_main; [by destruct Hq|by destruct Hq|]. unfold main_step. by rewrite Hst. }
    assert (quiet l1) as Hq1 by by destruct Hq.
    destruct (IH lo l1 (mk_sys _ (sent s) (S (clock s))) Ho Hq1 Hv eq_refl Hs Hrun) as (l' & packets & Hsteps & Hrest).
    exists l', packets. split; [by eapply rtc_l|done].
Qed.

(** The loop goes on to its next turn. *)
Lemma next_turn l next :
  quiet l -> state (main (owner l)) = Running (Done (Ok next)) ->
  exists l', only_step link_step l l' /\ quiet l' /\
    state (main (owner l')) = Running (turn true ping next) /\ ctx (owner l') = ctx (owner l) /\
    wire (owner l') = wire (owner l) /\ EventLoop.ctx (endpoint l') = EventLoop.ctx (endpoint l).
Proof.
  intros Hq Hst. set (m := main (owner l)).
  exists (mk_link (set_main (owner l) (mk_discovery (Running (turn true ping next)) (history m) (next_channel m)))
    (endpoint l) (taken l) (replies l)).
  split_and!; [|by destruct Hq|reflexivity|done|done|done].
  apply only_main; [by destruct Hq|by destruct Hq|]. unfold main_step. by rewrite Hst.
Qed.

(** A turn of the loop, against its run with the peer: no step but its own. *)
Lemma link_turn l next s' o :
  quiet l -> valid (ctx (owner l)) -> u8 ping -> 0 <= next <= 255 ->
  state (main (owner l)) = Running (turn true ping next) ->
  run (peer (EventLoop.ctx (endpoint l)) frame_code) (turn true ping next) (mk_sys (ctx (owner l)) [] 0) = (s', o) ->
  exists l', rtc (only_step link_step) l l' /\ quiet l' /\
    state (main (owner l')) = Running (Done o) /\ ctx (owner l') = Bus.ctx s' /\
    wire (owner l') = wire (owner l) ++ (loop_frame <$> sent s') /\
    EventLoop.ctx (endpoint l') = answers (EventLoop.ctx (endpoint l)) (sent s').
Proof.
  intros Hq Hv Hping Hn Hst Hrun.
  pose proof (link_follows next (turn true ping next) _ l (mk_sys (ctx (owner l)) [] 0)
    (EventLoop.ctx (endpoint l)) (offers_turn ping next Hping Hn) Hq Hv Hst eq_refl) as Hf.
  rewrite Hrun in Hf. destruct Hf as (l' & packets & Hsteps & Hq' & Hsent & Hrest).
  cbn [sent app] in Hsent. subst packets. by exists l'.
Qed.

(** The turn in which a discovery was asked for. *)
Lemma discovery_turn l next :
  quiet l -> valid (ctx (owner l)) -> perform_discovery (ctx (owner l)) = true -> 0 <= next < 255 ->
  u8 ping -> state (main (owner l)) = Running (turn true ping next) ->
  let c := store_perform_discovery (ctx (owner l)) false in
  exists l', rtc (only_step link_step) l l' /\ quiet l' /\
    state (main (owner l')) = Running (Done (Ok (next + 1))) /\
    ctx (owner l') = after_request (after_request c) /\
    wire (owner l') = wire (owner l) ++
      [loop_frame (request_headers c 0 2);
       loop_frame (request_headers (after_request c) 0 1 ++ [0; next])] /\
    EventLoop.ctx (endpoint l') = store_assigned_eid (EventLoop.ctx (endpoint l)) next.
Proof.
  intros Hq Hv Hp Hn Hping Hst c. pose proof Hv as (Ha & Hmin & Ht & Hi).
  assert (valid c) as Hc by by split_and!. set (d := EventLoop.ctx (endpoint l)).
  destruct (peer_discover true c d frame_code next [] 1 Hc frame_code_bytes Hn) as [Hrun Hd].
  edestruct (link_turn l next) as (l' & Hsteps & Hq' & Hst' & Hc' & Hw & He); try done; [lia| |].
  { unfold turn. rewrite run_bind. cbn [run swap_perform_discovery Bus.ctx sent clock].
    change (interfere (peer _ frame_code) _ ?x) with x. rewrite Hp. cbn [try_with]. exact Hrun. }
  exists l'. split_and!; try done. rewrite He.
  assert (u8 0) as Hz by solve_range. unfold answers. cbn [sent app foldl]. fold d.
  rewrite (answers_get_eid d c 0 Hc Hz). exact Hd.
Qed.

(** A turn in which none was, and the start of the next. *)
Lemma idle_turn l next :
  quiet l -> valid (ctx (owner l)) -> perform_discovery (ctx (owner l)) = false -> 0 <= next <= 255 ->
  u8 ping -> state (main (owner l)) = Running (turn true ping next) ->
  exists l', rtc (only_step link_step) l l' /\ quiet l' /\
    state (main (owner l')) = Running (turn true ping next) /\
    ctx (owner l') = after_ping (ctx (owner l)) ping /\
    wire (owner l') = wire (owner l) ++ (loop_frame <$> ping_packets (ctx (owner l)) ping) /\
    EventLoop.ctx (endpoint l') = EventLoop.ctx (endpoint l).
Proof.
  intros Hq Hv Hp Hn Hping Hst. set (d := EventLoop.ctx (endpoint l)).
  destruct (peer_turn_idle true (ctx (owner l)) d frame_code ping next [] 0 Hv frame_code_bytes Hping Hp)
    as (k & Hrun).
  destruct (link_turn l next _ _ Hq Hv Hping Hn Hst Hrun) as (l1 & Hsteps & Hq' & Hst' & Hc' & Hw & He).
  destruct (next_turn l1 next Hq' Hst') as (l' & Hstep & Hq1 & Hst1 & Hc1 & Hw1 & He1).
  cbn [Bus.ctx sent app] in *.
  exists l'. split_and!; [by eapply rtc_r|done|done|congruence|congruence|]. rewrite He1, He.
  unfold answers, ping_packets. destruct (ping =? 0); [done|]. by apply answers_get_eid.
Qed.

(** Discovery over the wire: when a discovery was asked for and the bus owner is
    at rest, its tasks and an endpoint that runs the same event loop can
    exchange four datagrams, after which the endpoint holds the next EID, the
    discovery loop goes on after it, and everything is at rest again. *)
Theorem discovery_over_the_wire l next :
  quiet l -> valid (ctx (owner l)) -> perform_discovery (ctx (owner l)) = true -> 0 <= next < 255 ->
  u8 ping -> state (main (owner l)) = Running (turn true ping next) ->
  let c := store_perform_discovery (ctx (owner l)) false in
  exists l', rtc link_step l l' /\ quiet l' /\
    state (main (owner l')) = Running (Done (Ok (next + 1))) /\
    wire (owner l') = wire (owner l) ++
      [loop_frame (request_headers c 0 2);
       loop_frame (request_headers (after_request c) 0 1 ++ [0; next])] /\
    EventLoop.ctx (endpoint l') = store_assigned_eid (EventLoop.ctx (endpoint l)) next.
Proof.
  intros Hq Hv Hp Hn Hping Hst c.
  destruct (discovery_turn l next Hq Hv Hp Hn Hping Hst) as (l' & Hsteps & Hq' & Hst' & _ & Hw & He).
  exists l'. split_and!; try done. by eapply only_steps.
Qed.

(** ** Every run *)

(** The pings of [n] turns. *)
Fixpoint pings (n : nat) (c : MctpEndpointContext.t) : list bytes :=
  match n with
  | O => []
  | S n => ping_packets c ping ++ pings n (after_ping c ping)
  end.

Lemma after_ping_valid c : valid c -> valid (after_ping c ping).
Proof. intros Hc. unfold after_ping. destruct (ping =? 0); [done|by apply after_request_valid]. Qed.

Lemma idle_turns n l next :
  quiet l -> valid (ctx (owner l)) -> perform_discovery (ctx (owner l)) = false -> 0 <= next <= 255 ->
  u8 ping -> state (main (owner l)) = Running (turn true ping next) ->
  exists l', rtc (only_step link_step) l l' /\ quiet l' /\
    state (main (owner l')) = Running (turn true ping next) /\
    wire (owner l') = wire (owner l) ++ (loop_frame <$> pings n (ctx (owner l))) /\
    EventLoop.ctx (endpoint l') = EventLoop.ctx (endpoint l).
Proof.
  revert l. induction n as [|n IH]; intros l Hq Hv Hp Hn Hping Hst.
  { exists l. split_and!; try done. by rewrite app_nil_r. }
  destruct (idle_turn l next Hq Hv Hp Hn Hping Hst) as (l1 & Hs1 & Hq1 & Hst1 & Hc1 & Hw1 & He1).
  destruct (IH l1) as (l2 & Hs2 & Hq2 & Hst2 & Hw2 & He2); try done.
  - rewrite Hc1. by apply after_ping_valid.
  - rewrite Hc1. unfold after_ping. by destruct (ping =? 0).
  - exists l2. split_and!; [by etrans|done|done| |congruence].
    cbn [pings]. by rewrite Hw2, Hw1, Hc1, fmap_app, (assoc_L (++)).
Qed.

(** C4: Discovery cannot be avoided, and the bus owner goes on: when a discovery
    was asked for and the bus owner is at rest, every interleaving of its tasks
    with an endpoint that runs the same event loop comes to the state in which
    the endpoint holds the next EID, and from there, for every [n], to the end of
    [n] further turns, with a ping on the wire for each when there is an EID to
    ping, and the next EID and the endpoint unchanged; none stops before. *)
Theorem discovery_inevitable n l next :
  quiet l -> valid (ctx (owner l)) -> perform_discovery (ctx (owner l)) = true -> 0 <= next < 255 ->
  u8 ping -> state (main (owner l)) = Running (turn true ping next) ->
  let c := store_perform_discovery (ctx (owner l)) false in
  eventually link_step (fun l' => quiet l' /\
    state (main (owner l')) = Running (turn true ping (next + 1)) /\
    wire (owner l') = wire (owner l) ++
      [loop_frame (request_headers c 0 2);
       loop_frame (request_headers (after_request c) 0 1 ++ [0; next])] ++
      (loop_frame <$> pings n (after_request (after_request c))) /\
    EventLoop.ctx (endpoint l') = store_assigned_eid (EventLoop.ctx (endpoint l)) next) l.
Proof.
  intros Hq Hv Hp Hn Hping Hst c. pose proof Hv as (? & ? & ? & ?).
  assert (valid c) as Hc by by split_and!.
  destruct (discovery_turn l next Hq Hv Hp Hn Hping Hst) as (l1 & Hs1 & Hq1 & Hst1 & Hc1 & Hw1 & He1).
  destruct (next_turn l1 (next + 1) Hq1 Hst1) as (l2 & Hs2 & Hq2 & Hst2 & Hc2 & Hw2 & He2).
  assert (ctx (owner l2) = after_request (after_request c)) as Hctx by (rewrite Hc2; exact Hc1).
  destruct (idle_turns n l2 (next + 1)) as (l3 & Hs3 & Hq3 & Hst3 & Hw3 & He3); try done.
  - rewrite Hctx. by do 2 apply after_request_valid.
  - by rewrite Hctx.
  - lia.
  - apply (only_steps_eventually _ _ _ l3); [by etrans; [|by eapply rtc_l]|].
    split_and!; [done|done| |congruence]. by rewrite Hw3, Hw2, Hw1, Hctx, <- (assoc_L (++)).
Qed.

End facts.
End Link.
