(* ===== verification/SystemRuns.v ===== *)
(** * Concrete runs of the system

    States of the bus owner that [main] builds, reached by its own steps, on
    which the theorems of the system apply. *)
From Stdlib Require Import Sorting.Sorted.
From S2P Require Import Prelude Crates Reference Derive Enums Transport ControlModels.
From S2P Require Import ControlPayload Errors Smbus Network BusOwner Discovery Offers Interop EventLoop.
From S2P Require Import Channels BusOwnerSystem SystemRefinement SystemSafety SystemSequential SystemLiveness Link.

Module SystemRuns.
Import Bus Offers BusOwnerSystem SystemSafety.
#[local] Existing Instance Reference.crates.
#[local] Existing Instance Reference.crates_laws.
#[local] Existing Instance ListChannel.mpsc_list.
#[local] Existing Instance ListChannel.mpsc_list_laws.
#[local] Instance debug : Debug := {| debug_set_eid _ := ""%string; debug_allocate _ := ""%string |}.
#[local] Abbreviation context := DiscoveryRuns.main_context.

(** ** Moves of the tasks, as functions *)
Definition main_move (s : t) : t := default s (main_step true 0 s).
Definition loop_move (s : t) : t := default s (loop_turn true EventLoopFacts.send_all s).
Definition awaits (s : t) : bool := match state (main s) with Awaiting _ _ _ => true | _ => false end.
Definition some {A} (o : option A) : bool := match o with Some _ => true | None => false end.

Lemma reach_main s :
  reachable true 0 context s -> some (main_step true 0 s) = true -> reachable true 0 context (main_move s).
Proof.
  intros Hs Ht. eapply rtc_r; [exact Hs|]. apply step_main. unfold main_move.
  destruct (main_step true 0 s); [reflexivity|discriminate Ht].
Qed.

Lemma reach_loop s :
  reachable true 0 context s -> some (loop_turn true EventLoopFacts.send_all s) = true ->
  some (exit_status s) = false -> reachable true 0 context (loop_move s).
Proof.
  intros Hs Ht He. eapply rtc_r; [exact Hs|]. apply (step_loop _ _ _ EventLoopFacts.send_all).
  - destruct (exit_status s); [discriminate He|reflexivity].
  - unfold loop_move. destruct (loop_turn _ _ _); [reflexivity|discriminate Ht].
Qed.

Lemma reach_receive s buf :
  reachable true 0 context s -> some (exit_status s) = false -> rx_alive s = true ->
  is_bytes buf -> (length buf <= RECV_BUFFER)%nat ->
  reachable true 0 context (receive_datagram (Ok buf) s).
Proof.
  intros Hs He Hrx Hb Hl. eapply rtc_r; [exact Hs|]. apply step_receive; [|exact Hrx|by split].
  destruct (exit_status s); [discriminate He|reflexivity].
Qed.

Ltac reach :=
  lazymatch goal with
  | |- reachable _ _ _ (main_move ?s) =>
      simple apply (reach_main s); [reach|vm_compute; reflexivity]
  | |- reachable _ _ _ (loop_move ?s) =>
      simple apply (reach_loop s); [reach|vm_compute; reflexivity|vm_compute; reflexivity]
  | |- reachable _ _ _ (receive_datagram (Ok ?buf) ?s) =>
      simple apply (reach_receive s buf);
        [reach|vm_compute; reflexivity|vm_compute; reflexivity|solve_bytes|vm_compute; lia]
  | |- reachable _ _ _ (init _ _ _) => apply rtc_refl
  | |- _ => idtac
  end.

(** A Discovery Notify request is answered, which asks for a discovery. *)
Definition notify : bytes := [0x20; 0x0f; 9; 0x61; 1; 0; 9; 0xc9; 0; 0x81; 0x0d; 7].
Definition start : t := loop_move (receive_datagram (Ok notify) (init true 0 context)).

(** The loop has asked for the endpoint's EID, and waits. *)
Definition asked : t := loop_move (main_move (main_move (main_move start))).

(** The endpoint answered, and was given an EID. *)
Definition reply : bytes := [0x20; 0x0f; 12; 0x61; 1; 0; 0; 0xc1; 0; 1; 2; 0; 0; 0; 0; 7].
Definition assigned : t :=
  loop_move (main_move (main_move (main_move (loop_move (receive_datagram (Ok reply) asked))))).

(** A command that does not exist is in the channel. *)
Definition unknown : bytes := [0x20; 0x0f; 9; 0x61; 1; 0; 9; 0xc9; 0; 0x81; 0x20; 7].
Definition poisoned : t := receive_datagram (Ok unknown) asked.

Lemma start_reachable : reachable true 0 context start.
Proof. unfold start. reach. Qed.

Lemma asked_reachable : reachable true 0 context asked.
Proof. unfold asked. reach. apply start_reachable. Qed.

Lemma assigned_reachable : reachable true 0 context assigned.
Proof. unfold assigned. reach. apply asked_reachable. Qed.

Lemma poisoned_reachable : reachable true 0 context poisoned.
Proof. unfold poisoned. reach. apply asked_reachable. Qed.

Lemma zero_u8 : u8 0.
Proof. solve_range. Qed.

(** ** Witnesses *)

(** The run to [assigned] with the datagrams it received. *)
Lemma receives_main ds s :
  SystemSequential.receives 0 context ds s -> some (main_step true 0 s) = true ->
  SystemSequential.receives 0 context ds (main_move s).
Proof.
  intros Hs Ht. eapply SystemSequential.receives_task; [exact Hs|]. apply SystemSequential.task_main.
  unfold main_move. destruct (main_step true 0 s); [reflexivity|discriminate Ht].
Qed.

Lemma receives_loop ds s :
  SystemSequential.receives 0 context ds s -> some (loop_turn true EventLoopFacts.send_all s) = true ->
  some (exit_status s) = false -> SystemSequential.receives 0 context ds (loop_move s).
Proof.
  intros Hs Ht He. eapply SystemSequential.receives_task; [exact Hs|].
  apply (SystemSequential.task_loop _ _ _ EventLoopFacts.send_all).
  - destruct (exit_status s); [discriminate He|reflexivity].
  - unfold loop_move. destruct (loop_turn _ _ _); [reflexivity|discriminate Ht].
Qed.

Lemma receives_one ds s d :
  SystemSequential.receives 0 context ds s -> exit_status s = None -> rx_alive s = true ->
  is_bytes d -> (length d <= RECV_BUFFER)%nat ->
  SystemSequential.receives 0 context (ds ++ [d]) (receive_datagram (Ok d) s).
Proof. intros. apply SystemSequential.receives_datagram; [assumption..|by split]. Qed.

Lemma assigned_receives : SystemSequential.receives 0 context ([notify] ++ [reply]) assigned.
Proof.
  unfold assigned, asked, start.
  repeat lazymatch goal with
  | |- SystemSequential.receives _ _ _ (main_move _) => apply receives_main; [|vm_compute; reflexivity]
  | |- SystemSequential.receives _ _ _ (loop_move _) =>
      apply receives_loop; [|vm_compute; reflexivity|vm_compute; reflexivity]
  | |- SystemSequential.receives _ _ _ (receive_datagram _ (init _ _ _)) =>
      apply (receives_one []);
        [apply SystemSequential.receives_init|vm_compute; reflexivity|vm_compute; reflexivity|solve_bytes|
         vm_compute; lia]
  | |- SystemSequential.receives _ _ _ (receive_datagram _ _) =>
      apply receives_one; [|vm_compute; reflexivity|vm_compute; reflexivity|solve_bytes|vm_compute; lia]
  end.
Qed.

Lemma system_refines_loop_witness :
  length (wire assigned) = 3%nat /\ Sequential.runs 0 context [notify; reply] (SystemSequential.abs assigned) /\
  Sequential.wire (SystemSequential.abs assigned) = wire assigned.
Proof.
  split; [vm_compute; reflexivity|].
  destruct (SystemSequential.system_refines_loop 0 context _ assigned
    DiscoveryRuns.main_context_valid zero_u8 assigned_receives) as [(used & lost & Hr & Hd & Hl) [[Hw _] _]].
  split; [|exact Hw]. rewrite Hl in Hd; [|vm_compute; reflexivity|vm_compute; discriminate].
  replace (SystemSequential.datagrams (contents (queue assigned))) with (@nil bytes) in Hd
    by (vm_compute; reflexivity).
  rewrite !app_nil_r in Hd. rewrite <- Hd in Hr. exact Hr.
Defined.

Lemma wire_offers_once_witness :
  grants (wire_requests assigned) = [0x80] /\ StronglySorted Z.lt (grants (wire_requests assigned)).
Proof.
  split; [vm_compute; reflexivity|].
  apply (wire_offers_once 0 context assigned DiscoveryRuns.main_context_valid zero_u8
    assigned_reachable).
Defined.

Lemma wire_well_formed_witness : length (wire assigned) = 3%nat /\ Forall well_formed (wire assigned).
Proof.
  split; [vm_compute; reflexivity|].
  apply (wire_well_formed 0 context assigned DiscoveryRuns.main_context_valid zero_u8
    assigned_reachable).
Defined.

Lemma one_oneshot_outstanding_witness :
  exists flows, loop asked = Some flows /\ flows.*2 ++ queued asked = [0%nat].
Proof.
  destruct (loop asked) as [flows|] eqn:Hl; [|vm_compute in Hl; discriminate Hl].
  exists flows. split; [reflexivity|].
  rewrite (one_oneshot_outstanding true 0 context asked flows asked_reachable Hl).
  vm_compute. reflexivity.
Defined.

Lemma event_loop_ends_by_witness :
  loop (loop_move poisoned) = None /\
  ((exists buf rest cmd, contents (queue poisoned) = EventLoop.ReceiveMsg buf :: rest /\
     buf !! 10%nat = Some cmd /\ from_u8 (T:=CommandCode.t) cmd = CommandCode.Unknown) \/
   (exists frame, forall n, EventLoopFacts.send_all frame <> Ok n)).
Proof.
  assert (loop (loop_move poisoned) = None) as Hdead by (vm_compute; reflexivity).
  split; [exact Hdead|].
  apply (event_loop_ends_by 0 context poisoned EventLoopFacts.send_all (loop_move poisoned)
    DiscoveryRuns.main_context_valid zero_u8 poisoned_reachable); [|exact Hdead].
  unfold loop_move. destruct (loop_turn true EventLoopFacts.send_all poisoned) eqn:Ht; [reflexivity|].
  exfalso. assert (some (loop_turn true EventLoopFacts.send_all poisoned) = true) as Hs
    by (vm_compute; reflexivity). rewrite Ht in Hs. discriminate Hs.
Defined.

Lemma burst_deadlocks_witness :
  rx_alive (Burst.receive_all (replicate 33 [0]) asked) = false /\
  eventually (step true 0) (fun s' => exit_status s' = None /\ forall s'', ~ step true 0 s' s'')
    (Burst.receive_all (replicate 33 [0]) asked).
Proof.
  assert (awaits asked = true) as Hw by (vm_compute; reflexivity). unfold awaits in Hw.
  destruct (state (main asked)) as [p|ch buf k] eqn:Hst; [discriminate Hw|]. clear Hw.
  assert (mailbox asked = ∅) as Hm by (vm_compute; reflexivity).
  assert (some (loop asked) = true) as Hw by (vm_compute; reflexivity).
  destruct (loop asked) as [flows|] eqn:Hl; [|discriminate Hw]. clear Hw.
  destruct (Burst.burst_deadlocks true 0 context asked ch buf k flows (replicate 33 [0]) asked_reachable Hst)
    as (_ & _ & _ & _ & Hrx & _ & He);
    [rewrite Hm; apply lookup_empty|vm_compute; reflexivity|exact Hl|vm_compute; reflexivity|reflexivity| |].
  - apply Forall_replicate. split; [solve_bytes|simpl; lia].
  - split; [exact Hrx|]. eapply eventually_bind; [exact He|]. intros s' [_ Hs']. by apply eventually_now.
Defined.

Lemma tasks_quiesce_witness : Acc (fun s' s => Quiescence.internal true 0 s s') assigned.
Proof.
  apply (Quiescence.tasks_quiesce true 0 context assigned DiscoveryRuns.main_context_valid
    assigned_reachable).
Defined.

(** The bus owner, notified, next to an endpoint that waits for nothing. *)
Definition endpoint : MctpEndpointContext.t := MctpEndpointContext.mk 0x30 [0x7e] false 0 false 0 0 0 0.
Definition linked : Link.link := Link.mk_link start (EventLoop.mk endpoint []) 1 [].

Lemma discovery_over_the_wire_witness :
  exists l, rtc (Link.link_step 0) linked l /\
    state (main (Link.owner l)) = Running (Done (Ok 0x81)) /\
    MctpEndpointContext.assigned_eid (EventLoop.ctx (Link.endpoint l)) = 0x80.
Proof.
  destruct (Link.discovery_over_the_wire 0 linked 0x80) as (l & Hsteps & _ & Hst & _ & Hctx);
    [|exact DiscoveryRuns.main_context_valid|reflexivity|lia|exact zero_u8|reflexivity|].
  - split; first [reflexivity | intros ch _; apply lookup_empty | vm_compute; lia].
  - exists l. split; [exact Hsteps|]. split; [exact Hst|]. rewrite Hctx. reflexivity.
Defined.

(** The same with an EID to ping: three pings follow the discovery. *)
Definition pinging : Link.link :=
  Link.mk_link (loop_move (receive_datagram (Ok notify) (init true 9 context))) (EventLoop.mk endpoint []) 1 [].

Lemma discovery_inevitable_witness :
  eventually (Link.link_step 9) (fun l =>
    length (wire (Link.owner l)) = 6%nat /\
    MctpEndpointContext.assigned_eid (EventLoop.ctx (Link.endpoint l)) = 0x80) pinging.
Proof.
  eapply eventually_bind.
  - apply (Link.discovery_inevitable 9 3 pinging 0x80);
      [|exact DiscoveryRuns.main_context_valid|reflexivity|lia|solve_range|reflexivity].
    split; first [reflexivity | intros ch _; apply lookup_empty | vm_compute; lia].
  - intros l (_ & _ & Hw & Hctx). apply eventually_now. rewrite Hw, Hctx. split; vm_compute; reflexivity.
Defined.

End SystemRuns.
