(* ===== verification/NodeRuns.v ===== *)
(** * Concrete runs of the networks with their receive paths

    Nodes of both networks on SMBus devices, driven step by step from their
    initial states, on which the theorems of the receive path, of the nodes and
    of the link apply. *)
From stdpp Require Import functions.
From S2P Require Import Prelude Crates Reference Derive Enums Transport Errors Smbus Network.
From S2P Require Import SimpleNetwork SimpleNetworkTasks VirtualNetwork Channels ReceivePath.
From S2P Require Import SimpleNode VirtualNode BusOwner Discovery Offers Interop EventLoop NodeLink NodeProgress.

Module NodeRuns.
Import ReceivePath.
#[local] Existing Instance Reference.crates.
#[local] Existing Instance Reference.crates_laws.
#[local] Existing Instance ListChannel.mpsc_list.
#[local] Existing Instance ListChannel.mpsc_list_laws.
#[local] Instance device : NetworkBinding SmbusNetDevBinding.t := NodeLink.whole_datagrams.
#[local] Abbreviation no_debug := (fun _ : MctpEmuError.t => ""%string).

(** ** Moves of a receive path, as functions *)
Section moves.
Context {N : Type} `{Node N}.

Definition poll (buf : bytes) (s : t N) : t N := default s (poll_receive 0 (Ok buf) s).
Definition put (s : t N) : t N := default s (poll_send 0 s).
Definition turn (s : t N) : t N := default s (handler_turn s).
Definition client_move (out : list bytes) (ids : list Z) (n : N) (s : t N) : t N :=
  mk n (queue s) (pollers s ++ (Receiving <$> ids)) (wire s ++ out) (received s) (accepted s) (handled s).

Lemma reach_poll n s buf :
  reachable n s -> is_bytes buf -> (length buf <= RECV_BUFFER)%nat -> reachable n (poll buf s).
Proof.
  intros Hs Hb Hl. unfold poll. destruct (poll_receive 0 (Ok buf) s) as [s'|] eqn:Hp; [|done].
  eapply rtc_r; [exact Hs|]. by apply (step_poll _ 0 (Ok buf)).
Qed.

Lemma reach_put n s : reachable n s -> reachable n (put s).
Proof.
  intros Hs. unfold put. destruct (poll_send 0 s) as [s'|] eqn:Hp; [|done].
  eapply rtc_r; [exact Hs|]. by apply step_drain, (drain_send _ 0).
Qed.

Lemma reach_turn n s : reachable n s -> reachable n (turn s).
Proof.
  intros Hs. unfold turn. destruct (handler_turn s) as [s'|] eqn:Hp; [|done].
  eapply rtc_r; [exact Hs|]. by apply step_drain, drain_handle.
Qed.

Lemma reach_client n s out ids x :
  reachable n s -> node_client (net s) out ids x -> reachable n (client_move out ids x s).
Proof. intros Hs Hc. eapply rtc_r; [exact Hs|]. by apply step_client. Qed.

End moves.

(** ** A node of the simple network *)
Section simple.
Import SimpleNetwork SimpleNetworkTasks.
#[local] Instance simple : Node (sys SmbusNetDevBinding.t) := NodeLink.node true.
#[local] Instance simple_laws : NodeLaws (sys SmbusNetDevBinding.t) := SimpleNode.simple_node_laws true.

Definition blank : sys SmbusNetDevBinding.t := mk_sys w_store w_net ∅ ∅ true None.

Lemma blank_initial : initial 0%nat blank.
Proof. by split_and!. Qed.

Lemma blank_listens : node_listens blank = true.
Proof. done. Qed.

Definition device_added : sys SmbusNetDevBinding.t := (add_binding no_debug blank 0%nat).1.
Definition opened : sys SmbusNetDevBinding.t := set_net device_added (SimpleNetwork.socket (net device_added)).1.
Definition bound : sys SmbusNetDevBinding.t := set_net opened (bind true (net opened) 0 8 0 1 3%nat).1.

(** A bound network whose device is polled. *)
Definition listening : ReceivePath.t (sys SmbusNetDevBinding.t) :=
  client_move [] [] bound (client_move [] [] opened (client_move [] [1] device_added (init blank))).

Lemma listening_reachable : ReceivePath.reachable blank listening.
Proof.
  unfold listening. apply reach_client, SimpleNode.client_call, call_bind.
  apply reach_client, SimpleNode.client_call, call_socket.
  apply reach_client; [apply rtc_refl|]. refine (SimpleNode.client_add true blank no_debug 0%nat _). by left.
Qed.

(** The call [ch] asks for an EID: it registers its flow, gets the lock, sends. *)
Definition queued (ch : channel) (x : sys SmbusNetDevBinding.t) : sys SmbusNetDevBinding.t :=
  set_sender (set_net x (set_flows (net x) (flows (net x) ++ [(w_tag, ch)]) false)) ch
    (Queued w_tag w_packet 0x30) (holder x).
Definition sending (ch : channel) (x : sys SmbusNetDevBinding.t) : sys SmbusNetDevBinding.t :=
  set_sender (queued ch x) ch (Waiting w_tag) (Some ch).
Definition w_frame : bytes := SmbusFacts.smbus_frame 0x30 0x10 w_packet.
Definition call (ch : channel) (s : ReceivePath.t (sys SmbusNetDevBinding.t)) : ReceivePath.t (sys SmbusNetDevBinding.t) :=
  client_move [w_frame; w_frame] [] (sending ch (ReceivePath.net s))
    (client_move [] [] (queued ch (ReceivePath.net s)) s).

Lemma reach_call ch s :
  ReceivePath.reachable blank s -> senders (ReceivePath.net s) !! ch = None -> holder (ReceivePath.net s) = None ->
  sendto_begin (net (ReceivePath.net s)) 0 [0; 0x81; 2] (Extended 9 1 1 0x30) ch =
    Ok (net (queued ch (ReceivePath.net s)), (w_packet, 0x30)) ->
  sendto_transmit (store (ReceivePath.net s)) (net (queued ch (ReceivePath.net s))) w_packet 0x30 =
    ([w_frame; w_frame], Ok tt) ->
  ReceivePath.reachable blank (call ch s).
Proof.
  intros Hs Hnew Hh Hbeg Htr. unfold call.
  apply reach_client.
  - apply reach_client; [exact Hs|]. apply SimpleNode.client_call.
    by eapply (call_send _ _ 0 [0; 0x81; 2] (Extended 9 1 1 0x30)).
  - apply SimpleNode.client_call. eapply call_future, (call_transmit _ ch w_tag w_packet 0x30).
    + apply lookup_insert_eq.
    + exact Hh.
    + exact Htr.
Qed.

Definition waiting : ReceivePath.t (sys SmbusNetDevBinding.t) := call 7%nat listening.

Lemma waiting_reachable : ReceivePath.reachable blank waiting.
Proof. apply reach_call; [exact listening_reachable|vm_compute; reflexivity..]. Qed.

(** A reply is on its way. *)
Definition replied : ReceivePath.t (sys SmbusNetDevBinding.t) := put (poll w_reply waiting).

Lemma poll_reachable s : ReceivePath.reachable blank s -> ReceivePath.reachable blank (poll w_reply s).
Proof. intros Hs. apply reach_poll; [exact Hs|unfold w_reply; solve_bytes|unfold RECV_BUFFER; simpl; lia]. Qed.

Lemma replied_reachable : ReceivePath.reachable blank replied.
Proof. apply reach_put, poll_reachable, waiting_reachable. Qed.

Lemma datagrams_in_order_witness :
  by_poller 0 (received replied) = [ReceiveMsg 1 w_reply] /\
  by_poller 0 (received replied) = by_poller 0 (accepted replied) /\
  (accepted replied).*2 = handled replied ++ ListChannel.buffer (queue replied).
Proof.
  destruct (ReceivePathFacts.datagrams_in_order blank replied blank_listens replied_reachable
    ltac:(vm_compute; reflexivity)) as (Hp & Hq & _).
  split; [vm_compute; reflexivity|]. split; [exact (Hp 0%nat)|exact Hq].
Defined.

Lemma received_is_handled_witness :
  Acc (fun s' s => drain s s') replied /\
  (accepted (turn replied)).*2 = handled (turn replied) /\
  by_poller 0 (accepted (turn replied)) = [ReceiveMsg 1 w_reply].
Proof.
  destruct (ReceivePathFacts.received_is_handled blank replied blank_listens replied_reachable) as [Ha Hr].
  split; [exact Ha|]. destruct (Hr (turn replied)) as [Hh Hi].
  - apply rtc_once, drain_handle. vm_compute. reflexivity.
  - intros s'' [[|i] s Hs|s Hs]; vm_compute in Hs; discriminate Hs.
  - vm_compute. reflexivity.
  - split; [exact Hh|]. rewrite (Hi 0%nat). vm_compute. reflexivity.
Defined.

(** The reply is handled, and the call returns it. *)
Definition answer : ClientCallbackMsg := Receive (Extended 0 1 1 0) (drop 4 w_reply).
Definition ended : sys SmbusNetDevBinding.t :=
  let x := ReceivePath.net (turn replied) in
  mk_sys (store x) (net x) (<[7%nat := Finished w_tag (sendto_finish (Some answer))]> (senders x))
    (delete 7%nat (inbox x)) (handler_alive x) (release x 7%nat).
Definition returned : ReceivePath.t (sys SmbusNetDevBinding.t) := client_move [] [] ended (turn replied).

Lemma returned_reachable : ReceivePath.reachable blank returned.
Proof.
  apply reach_client; [apply reach_turn, replied_reachable|].
  apply SimpleNode.client_call, call_future, call_finish; vm_compute; reflexivity.
Qed.

Lemma results_are_datagrams_witness :
  exists (i : nat) (id : Z) (dg : bytes), (i, ReceiveMsg id dg) ∈ received returned /\
    Ok (E:=MctpEmuError.t) (Extended 0 1 1 0, drop 4 w_reply) = Ok (Extended 0 1 id 0, drop 4 dg).
Proof.
  destruct (SimpleNodeFacts.results_are_datagrams true 0%nat blank blank_initial returned returned_reachable)
    as (m & Hm & _).
  destruct (Hm 7%nat w_tag (Ok (Extended 0 1 1 0, drop 4 w_reply)) ltac:(vm_compute; reflexivity))
    as (k & i & id & dg & rt & _ & _ & Hi & Hres & _).
  exists i, id, dg. split; [exact Hi|exact Hres].
Defined.

(** The call is dropped, another is made, and the reply to the first kills the
    handler. *)
Definition dropped : ReceivePath.t (sys SmbusNetDevBinding.t) :=
  let x := ReceivePath.net waiting in
  client_move [] [] (set_sender x 7%nat Gone (release x 7%nat)) waiting.
Definition killed : ReceivePath.t (sys SmbusNetDevBinding.t) := turn (put (poll w_reply (call 8%nat dropped))).

Lemma killed_reachable : ReceivePath.reachable blank killed.
Proof.
  apply reach_turn, reach_put, poll_reachable, reach_call; [|vm_compute; reflexivity..].
  apply reach_client; [exact waiting_reachable|].
  apply SimpleNode.client_call, call_drop. vm_compute. reflexivity.
Qed.

Lemma dead_handler_hangs_witness :
  let s := put (poll w_reply killed) in
  (senders (ReceivePath.net s) !! 8%nat = Some (Waiting w_tag) /\ wire s = wire killed) \/
  senders (ReceivePath.net s) !! 8%nat = Some Gone.
Proof.
  apply (SimpleNodeFacts.dead_handler_hangs true 0%nat blank blank_initial killed (put (poll w_reply killed))
    8%nat w_tag killed_reachable); [vm_compute; reflexivity..|].
  eapply rtc_l; [apply (step_poll _ 0%nat (Ok w_reply) (poll w_reply killed));
    [split; [unfold w_reply; solve_bytes|unfold RECV_BUFFER; simpl; lia]|vm_compute; reflexivity]|].
  apply rtc_once, ReceivePath.step_drain, (drain_send _ 0%nat). vm_compute. reflexivity.
Defined.

(** ** The node and an endpoint of the event loop *)

Definition endpoint : EventLoop.t := EventLoop.mk DiscoveryRuns.main_context [].
Definition linked : NodeLink.link := NodeLink.mk_link listening endpoint 0 [].
Definition w_client : Client.t := Client.new 3%nat 8 0 1.

Lemma linked_quiet : NodeLinkFacts.quiet linked 1 0 w_client.
Proof.
  split; [split; try (vm_compute; reflexivity); vm_compute; lia| |vm_compute; reflexivity..].
  split; [vm_compute; reflexivity|split; vm_compute; split; congruence|vm_compute; reflexivity|].
  split; [vm_compute; split; congruence|by exists 0%nat].
Qed.

(** The first call asks for the EID, the second notifies of a discovery, and
    both return the endpoint's answer about the EID. *)
Definition w_payload : bytes := [0; 0x81; 2].
Definition w_rsp : bytes := [1; 8; 9; 0xc1; 0; 1; 2; 0; 0; 0; 0].

Lemma call_over_the_wire_witness :
  exists l', rtc (NodeLink.link_step true) linked l' /\
    senders (ReceivePath.net (NodeLink.owner l')) !! 7%nat =
      Some (Finished w_tag (Ok (Extended 0 1 1 0, w_rsp ++ EventLoopFacts.frame_code w_rsp))).
Proof.
  destruct (NodeLinkFacts.call_over_the_wire true linked 1 0 w_client 9 0x30 w_payload 7%nat
    DiscoveryRuns.main_context w_rsp linked_quiet) as (l' & Hsteps & _ & _ & Hs & _);
    [solve_range|lia|unfold w_payload; solve_bytes|simpl; lia|vm_compute; reflexivity..|].
  exists l'. split; [exact Hsteps|exact Hs].
Defined.

Lemma sendto_completes_witness :
  exists l1, NodeLink.link_step true linked l1 /\
    senders (ReceivePath.net (NodeLink.owner l1)) !! 7%nat = Some (Queued w_tag w_packet 0x30) /\
    eventually (NodeProgress.progress true) (fun l' =>
      senders (ReceivePath.net (NodeLink.owner l')) !! 7%nat =
        Some (Finished w_tag (Ok (Extended 0 1 1 0, w_rsp ++ EventLoopFacts.frame_code w_rsp)))) l1.
Proof.
  apply (NodeProgressFacts.sendto_completes true linked 1 0 w_client 9 0x30 w_payload 7%nat
    DiscoveryRuns.main_context w_rsp linked_quiet);
    [vm_compute; reflexivity|intros ch' y Hy; vm_compute in Hy; discriminate Hy|solve_range|lia|
     unfold w_payload; solve_bytes|simpl; lia|vm_compute; reflexivity..].
Defined.


End simple.

(** ** A node of the virtual network *)
Section virtual.
Import VirtualNetwork.
#[local] Instance virtual : Node (VirtualNode.t SmbusNetDevBinding.t) := VirtualNode.virtual_node true no_debug.

(** A binding is added, and a datagram received from it is handled. *)
Definition v_store : BindingHandle -> SmbusNetDevBinding.t := fun _ => SmbusNetDevBinding.mk 0x10 0 (Some 0%nat).
Definition v_net : VirtualNetwork.t := VirtualNetwork.mk ∅ 0 [] [] 0 [CallbackTask].
Definition v_blank : VirtualNode.t SmbusNetDevBinding.t := VirtualNode.mk (mk_sys v_store v_net []) true.
Definition v_allocated : sys SmbusNetDevBinding.t := mk_sys v_store (add_allocate v_net).1 [Allocated 4%nat 0].
Definition v_pushed : sys SmbusNetDevBinding.t :=
  mk_sys v_store (add_push (net v_allocated) 4%nat) [Pushed 4%nat 0].
Definition v_added : sys SmbusNetDevBinding.t :=
  let '(st, n, res) := add_bind no_debug v_store (net v_pushed) 4%nat 0 in mk_sys st n [Added 4%nat 0 res].
Definition v_listening : ReceivePath.t (VirtualNode.t SmbusNetDevBinding.t) :=
  client_move [] [0] (VirtualNode.mk v_added true) (client_move [] [] (VirtualNode.mk v_pushed true)
    (client_move [] [] (VirtualNode.mk v_allocated true) (init v_blank))).
Definition v_handled : ReceivePath.t (VirtualNode.t SmbusNetDevBinding.t) :=
  turn (put (poll w_reply v_listening)).

Lemma v_handled_reachable : ReceivePath.reachable v_blank v_handled.
Proof.
  apply reach_turn, reach_put, reach_poll; [|unfold w_reply; solve_bytes|unfold RECV_BUFFER; simpl; lia].
  apply reach_client; [|refine (VirtualNode.client_step true no_debug (VirtualNode.mk v_pushed true) [0] v_added
    (step_bind_id true no_debug v_pushed 0 4%nat 0 _)); reflexivity].
  apply reach_client; [|refine (VirtualNode.client_step true no_debug (VirtualNode.mk v_allocated true) [] v_pushed
    (step_push true no_debug v_allocated 0 4%nat 0 _)); reflexivity].
  apply reach_client; [|exact (VirtualNode.client_step true no_debug v_blank [] v_allocated
    (step_allocate true no_debug (VirtualNode.network v_blank) 4%nat))].
  apply rtc_refl.
Qed.

Lemma virtual_handler_never_dies_witness :
  handled v_handled = [ReceiveMsg 0 w_reply] /\
  VirtualNode.handler_alive (ReceivePath.net v_handled) = true.
Proof.
  split; [vm_compute; reflexivity|].
  apply (VirtualNodeFacts.virtual_handler_never_dies true no_debug v_blank);
    [split; reflexivity|reflexivity|exact v_handled_reachable|vm_compute; reflexivity].
Defined.

End virtual.
End NodeRuns.
